(* ===== verification/_CoqProject ===== *)
-Q . S2P
Prelude.v
GoStrings.v
GoBase64.v
GoUtf8.v
GoJson.v
JsonFacts.v
JsonText.v
GoUrl.v
GoFloat.v
GoSha1.v
GoCrypto.v
GoX509.v
GoSql.v
GoGcm.v
Toy.v
ToyX509.v
AesModes.v
Encryption.v
Model.v
KeyCrypto.v
CertCrypto.v
StoreCore.v
SqlSchema.v
SecretStore.v
EncryptedStore.v
SecretBackup.v
KeyStore.v
CertStore.v
HttpJson.v
CertJson.v
SqlCore.v
SqlSecrets.v
SqlKeys.v
SqlCerts.v
Http.v
HttpSecrets.v
HttpKeys.v
HttpCerts.v
SqlApi.v
SqlFacts.v
SqlFrame.v
ToySql.v
SqlRows.v
SqlKeep.v
SqlMirror.v
SqlTimeline.v
SqlKeyFacts.v
SqlKeyTimeline.v
SqlKeyMemory.v
SqlMemory.v
SqlRefine.v
SqlRaces.v
SqlInv.v
ToyHttp.v
StoreInv.v
StoreSafety.v
SoftDelete.v
Lifecycle.v
Issuing.v
AtRest.v
SealedStore.v
HttpSame.v
HttpSecrecy.v
HttpBackends.v
SqlSecrecy.v
HttpProofs.v
HttpListing.v
Auth.v
WebJson.v
Web.v
Server.v
ServerProofs.v
AuthProofs.v
WebProofs.v
ToyAuth.v
ToyWeb.v
WebRestart.v
Main.v
