(* ===== verification/Prelude.v ===== *)
(** * Azure Key Vault emulator: a verification library (root file)

    The program keeps secrets, keys and certificates behind the REST API of
    Azure Key Vault, with an optional web interface that adds users, sessions
    and encryption at rest.  This library models its Go code and proves what
    makes it correct.

    ** The program and the files

    - internal/model: the request, record and response types.  [Model]; their
      JSON, by struct tags, in [HttpJson] and [CertJson].
    - internal/crypto: keys.go in [AesModes] (CBC, PKCS#7, RFC 3394 key wrap)
      and [KeyCrypto] (generation, import, encrypt, sign, wrap); certificates.go
      in [CertCrypto].
    - internal/store: the in-memory store.  store.go in [StoreCore], secrets.go
      in [SecretStore] and [SecretBackup], keys.go in [KeyStore],
      certificates.go in [CertStore].
    - internal/encryption: AES-256-GCM under a passphrase.  [Encryption].
    - internal/web/encryptedstore.go: the wrapper that encrypts the values of
      secrets.  [EncryptedStore], proved against the interface [SecretStorer],
      which the in-memory store satisfies ([SecretStorerLaws]).
    - internal/handler: the REST API.  handler.go in [Http], secrets.go in
      [HttpSecrets], keys.go in [HttpKeys], certificates.go and the register of
      all routes in [HttpCerts].  The handlers are written against the
      interfaces [SecretsApi], [KeysApi] and [CertsApi], the three parts of
      store.Storer.
    - internal/store/sqlstore: the same store over a SQL database, in three
      flavours.  A function is a program of statements with the texts the code
      sends ([GoSql]); the schema, the statements and what SQL documents of them
      in [SqlSchema]; columns in [SqlCore]; the operations in [SqlSecrets],
      [SqlKeys] and [SqlCerts]; as instances of the interfaces in [SqlApi].
    - internal/auth: users, sessions, configuration.  [Auth], over the classes
      [Sql] and [Bcrypt].  The statements of migrate are data that print as the
      source's texts; the uniqueness of names, ids and the administrator is
      what they, once executed, make the engine enforce.
    - internal/web/handler.go: [WebJson] and [Web].
    - internal/server/server.go: the mux, the listeners and the life of the
      process until RunWithAuth returns, as a step relation.  [Server].
    - main.go: the environment, the choice of the store, deferred calls.
      [Main].
    - What Go's library does: [GoStrings] (strings, strconv, sort, hex),
      [GoUtf8], [GoBase64], [GoJson] (encoding/json; [JsonFacts], [JsonText]), [GoFloat]
      (float64 as decimal text), [GoUrl] (net/url, net), [GoSha1], [GoGcm] (AES-GCM over a
      block cipher); primitives as classes with laws in [GoCrypto] and
      [GoX509], database/sql in [GoSql].  The files Toy* hold small instances of every class, on which
      the witnesses run; nothing else uses them.

    ** State and operations

    A function that returns (T, error) is an [outcome]: [Ok], [Err] or [Panic].
    A stateful operation is a [M S E A]: it takes the state and gives the
    outcome and the state it reached, whatever the outcome, because Go rolls
    nothing back.  The store is a record of six maps, live and deleted for each
    kind ([StoreCore.Store]); every operation of store.Storer is a definition of
    the same name, and a [call] of [StoreInv] together with its [exec], which
    makes the store a transition system.  A web handler is a run over the
    service, the store and the vault key ([Web.Web]); [serve_ui] and [serve_api]
    are what the two halves of the mux answer.  What a call reads from outside,
    the clock and the random source, is an [Env]; the theorems hold for every
    environment, one in which the random source fails included.

    An operation of the SQL store is a [prog], a tree of statements and queries.
    [run] executes it from start to end; [steps] stops it anywhere; [interleave]
    and [pool_step] execute several statement by statement, because the store
    takes no lock and opens no transaction.

    ** What the theorems show

    - The life of an object: secrets, keys and certificates refine one small
      specification of live, deleted and absent names
      ([Lifecycle.secrets_refine_lifecycle] and its companions, over the class
      [SoftDelete.SoftDelete]).
    - Invariants of the store over all call sequences: well-formed versions,
      records and attributes, public key records ([StoreInv], [StoreSafety]); when
      the random source answers, only a library, or [make] on an absurd length,
      panics in a reachable store: nil dereferences, index and slice expressions
      panic in the model as they do in Go, and are all guarded; failed calls
      change nothing; live and deleted names are disjoint without
      certificates.
    - Cryptography: decryption inverts encryption, verification accepts
      signatures, unwrapping inverts wrapping, for every algorithm; padding,
      key unwrap and GCM accept exactly what their counterparts make.
    - Encryption at rest: the wrapper is transparent to its clients and what it
      stores is sealed: for every operation it overrides ([EncryptedStore]), for
      all twelve over the in-memory store, the inherited ones answering
      ciphertexts ([SealedStore]), and in every state it leaves ([AtRest]).
    - Backup and restore, up to the text of names and values, which JSON writes
      as UTF-8; paging, certificates consistent with their key and
      their secret ([SecretBackup], [StoreCore], [Lifecycle], [Issuing]).
    - The REST API over the in-memory store: an error response leaves no trace,
      sealed or not, a get answers what the put answered ([HttpProofs]), a
      client that follows the next links, which keep its query, sees every item
      once ([HttpListing]).
    - The SQL store.  On an engine that does not fail it answers every history of
      calls on secrets and keys as the in-memory store does
      ([SqlRefine.sql_refines_memory]): a kind's rows as timelines of versions
      ([SqlRows], with the instances [SqlTimeline] and [SqlKeyTimeline]), the
      maps and the tables side by side ([SqlMirror]), each call ([SqlMemory],
      [SqlKeyMemory]), and that a call leaves the tables of the other kinds
      alone ([SqlFrame]).  The JSON web key and the key material come back from
      their columns ([SqlKeyFacts]).  On an engine that may fail the rows of
      secrets decode under every schedule of any requests ([SqlInv], over
      [SqlKeep]), and
      deleting and recovering lose no version wherever they are interrupted
      ([SqlRaces]).
    - The two backends under the REST API: any conversation that stays away from
      the certificates, sealed or not, has the same responses over both
      ([HttpBackends.rest_api_backend_independent], over [HttpSame]); a decoded
      request is text and 64-bit integers, whatever its bytes ([JsonText]).
      Certificates are left out because there the stores do differ: in the
      content type of a certificate's secret, and in the numbers of a policy,
      which are Go integers in memory and float64 once a column was decoded.
    - A JSON web key in a response of the REST API is a public one, over either
      backend and whatever the requests ([SqlSecrecy.response_keys_are_public]);
      the private key of a certificate is answered all the same, by design, as
      the PEM text in the value of its secret.  [yields] is
      the program logic of the handlers, over what they need of a store
      ([HttpSecrecy]); the in-memory store has it by its invariant, the SQL store
      by one of its rows ([SqlKeep]) that holds under every schedule.
    - Users and sessions ([AuthProofs]) and the web interface ([WebProofs]):
      setup and unlock, authorisation, a login's cookie.  A process that starts
      again opens and migrates its databases, and starts with no sessions, no
      vault key and, in memory, no secrets: over the SQL store a secret survives
      that, sealed until the vault is unlocked ([WebRestart]).
    - The process: start-up is all or nothing ([Main], [ServerProofs]); after a
      cancellation it returns within eight steps of its own, gracefully for
      plain HTTP ([ServerProofs]).
    - Defects: theorems that show the code do what it should not
      (SetSecret_answers_ciphertext, CreateCertificate_bypasses_encryption,
      login_delete_race, CreateCertificate_resurrects,
      DeleteSecret_panic_loses_secret, GenerateKey_oct_panics,
      setup_rollback_leaves_locked, sql_set_delete_race, sql_restore_destroys,
      sql_interrupted_recovery_stuck, return_cuts_requests_off,
      main_closes_on_return).

    ** Fuel

    Recursion that is not structural takes fuel from the length of its input:
    a JSON value of [n] bytes is parsed with [2 n + 2] ([GoJson.json_parse]),
    strings with their length, PEM data with its length (each block consumes at
    least one byte, by a law of [CertLaws]), decimal digits with the binary
    logarithm.  [GoFloat.normalise] takes 400 steps where a float64 needs fewer
    than 330.  The walks over pages take one more than the number of items,
    which [pagination_complete] and [http_listing_complete] prove enough.

    ** Not modelled

    - The drivers of the SQL store (driver_*.go) and Close, which releases the
      handle.  A query is answered at once, before its rows are read.
    - The operating system and net/http: whether a listener is granted, what
      Serve and Shutdown do with connections beyond what net/http documents,
      the text of the log, the files behind the pages.  Letters outside ASCII
      are left as they are in the error that names an unsupported backend.
    - Locks: each operation of the store runs under one lock from its start to
      its end, so a history is a sequence of whole operations.  The one place
      where that is not so, a login, is modelled in its two parts.
    - RSA, ECDSA, hashes of [PublicKeyLib], the AES block function, PBKDF2,
      bcrypt, X.509, PKCS#12 and the SQL engine: classes, whose laws state the
      documented behaviour that the theorems use. *)

From Stdlib Require Export Ascii String ZArith Lia.
From stdpp Require Export base gmap strings list list_numbers numbers sorting.

Open Scope Z_scope.

(** ** Outcomes and the state monad

    A Go function that returns [(T, error)] either returns a value, returns an
    error, or panics.  [outcome] is that trichotomy; [M] threads the state of
    a component through it, and keeps the state reached when the function
    fails or panics, because Go does not roll anything back. *)

Inductive outcome (E A : Type) : Type :=
| Ok (a : A)
| Err (e : E)
| Panic (msg : string).
Arguments Ok {E A} a.
Arguments Err {E A} e.
Arguments Panic {E A} msg.

Definition o_bind {E A B} (o : outcome E A) (k : A → outcome E B) : outcome E B :=
  match o with Ok a => k a | Err e => Err e | Panic m => Panic m end.

Definition o_map {E A B} (f : A → B) (o : outcome E A) : outcome E B :=
  match o with Ok a => Ok (f a) | Err e => Err e | Panic m => Panic m end.

(** Wraps the error of a callee into the error of its caller. *)
Definition o_maperr {E F A} (f : E → F) (o : outcome E A) : outcome F A :=
  match o with Ok a => Ok a | Err e => Err (f e) | Panic m => Panic m end.

(** A loop that appends the result of [f] on each item. *)
Fixpoint o_traverse {E A B} (f : A → outcome E B) (l : list A) : outcome E (list B) :=
  match l with
  | [] => Ok []
  | x :: l => o_bind (f x) (λ y, o_map (cons y) (o_traverse f l))
  end.

Definition is_Ok {E A} (o : outcome E A) : Prop :=
  match o with Ok _ => True | _ => False end.
Definition is_Panic {E A} (o : outcome E A) : Prop :=
  match o with Panic _ => True | _ => False end.

Global Instance outcome_eq_dec {E A} `{EqDecision E, EqDecision A} :
  EqDecision (outcome E A).
Proof. solve_decision. Defined.
Global Instance is_Ok_dec {E A} (o : outcome E A) : Decision (is_Ok o).
Proof. destruct o; simpl; apply _. Defined.
Global Instance is_Panic_dec {E A} (o : outcome E A) : Decision (is_Panic o).
Proof. destruct o; simpl; apply _. Defined.

Definition M (S E A : Type) : Type := S → outcome E A * S.

Section monad.
Context {S E : Type}.

Definition m_ret {A} (a : A) : M S E A := λ s, (Ok a, s).
Definition m_fail {A} (e : E) : M S E A := λ s, (Err e, s).
Definition m_panic {A} (msg : string) : M S E A := λ s, (Panic msg, s).
Definition m_bind {A B} (m : M S E A) (k : A → M S E B) : M S E B := λ s,
  match m s with
  | (Ok a, s') => k a s'
  | (Err e, s') => (Err e, s')
  | (Panic p, s') => (Panic p, s')
  end.
Definition m_get : M S E S := λ s, (Ok s, s).
Definition m_put (s : S) : M S E unit := λ _, (Ok (), s).
Definition m_modify (f : S → S) : M S E unit := λ s, (Ok (), f s).
Definition m_lift {A} (o : outcome E A) : M S E A := λ s, (o, s).
End monad.

Declare Scope go_scope.
Delimit Scope go_scope with go.
Notation "'let*' x ':=' m 'in' k" := (m_bind m (λ x, k))
  (at level 10, x binder, m at level 100, k at level 200,
   format "'[v' 'let*'  x  ':='  m  'in'  '/' k ']'") : go_scope.
Notation "'let!' x ':=' o 'in' k" := (o_bind o (λ x, k))
  (at level 10, x binder, o at level 100, k at level 200,
   format "'[v' 'let!'  x  ':='  o  'in'  '/' k ']'") : go_scope.
Open Scope go_scope.

Lemma o_traverse_fmap {E A B C} (body : A → outcome E B) (g : C → A) (h : C → B) l :
  (∀ x, x ∈ l → body (g x) = Ok (h x)) → o_traverse body (g <$> l) = Ok (h <$> l).
Proof.
  induction l as [|x l IH]; intros Hg; [done|]. rewrite !fmap_cons. cbn [o_traverse].
  rewrite Hg, IH by set_solver. done.
Qed.

Lemma o_traverse_Forall {E A B} (g : A → outcome E B) l l' (P : B → Prop) :
  o_traverse g l = Ok l' → (∀ x y, x ∈ l → g x = Ok y → P y) → Forall P l'.
Proof.
  revert l'. induction l as [|x l IH]; intros l' H HP; simpl in H; [by injection H as <-|].
  destruct (g x) as [y| |] eqn:Hy; [|done..]. cbn [o_bind] in H. destruct (o_traverse g l) as [ys| |]; simplify_eq/=.
  constructor; [eapply HP; [|done]; set_solver|]. apply IH; [done|]. intros. eapply HP; [|done]. set_solver.
Qed.

(** [for i, x := range l]: the loop over [imap pair l]. *)
Lemma Forall_imap_pair {A} (P : A → Prop) (l : list A) : Forall P l → Forall (λ p : nat * A, P p.2) (imap pair l).
Proof.
  intros Hl. apply Forall_lookup_2. intros i [j x]. rewrite list_lookup_imap.
  intros (y & Hy & [= <- <-])%fmap_Some. by eapply Forall_lookup_1.
Qed.
Lemma imap_pair_snd {A} (l : list A) : (imap pair l).*2 = l.
Proof. apply list_eq. intros i. rewrite list_lookup_fmap, list_lookup_imap. by destruct (l !! i). Qed.

Lemma StronglySorted_lookup_2 {A} (R : relation A) (l : list A) :
  (∀ i j a b, (i < j)%nat → l !! i = Some a → l !! j = Some b → R a b) → StronglySorted R l.
Proof.
  induction l as [|x l IH]; intros HR; [constructor|]. constructor.
  - apply IH. intros i j a b Hij Hi Hj. apply (HR (S i) (S j)); [lia|done..].
  - apply Forall_lookup_2. intros j b Hj. apply (HR 0%nat (S j)); [lia|done..].
Qed.
Lemma StronglySorted_lookup_1 {A} (R : relation A) (l : list A) i j a b :
  StronglySorted R l → (i < j)%nat → l !! i = Some a → l !! j = Some b → R a b.
Proof.
  intros Hl. revert i j. induction Hl as [|x l Hl IH Hx]; intros i j Hij Hi Hj; [done|].
  destruct j as [|j]; [lia|]. destruct i as [|i].
  - injection Hi as ->. by eapply Forall_lookup_1.
  - apply (IH i j); [lia|done..].
Qed.

Lemma o_bind_assoc {E A B C} (o : outcome E A) (f : A → outcome E B) (g : B → outcome E C) :
  o_bind (o_bind o f) g = o_bind o (λ a, o_bind (f a) g).
Proof. by destruct o. Qed.

Lemma filter_all {A} (P : A → Prop) `{∀ x, Decision (P x)} l : Forall P l → filter P l = l.
Proof. induction 1 as [|x l Hx _ IH]; [done|]. by rewrite filter_cons_True, IH. Qed.

Lemma o_bind_Ok {E A B} (o : outcome E A) (f : A → outcome E B) b :
  o_bind o f = Ok b ↔ ∃ a, o = Ok a ∧ f a = Ok b.
Proof. destruct o; simpl; split; [eauto|by intros (?&[= ->]&?)|done|by intros (?&?&?)|done|by intros (?&?&?)]. Qed.

(** ** Bytes

    A Go [byte] is an 8-bit unsigned integer, a Go [string] is an immutable
    byte sequence and [[]byte] is a list of bytes.  Both are sequences of
    [ascii] here, so every string and slice is well formed by typing. *)

Notation byte := Ascii.ascii (only parsing).
Notation bytes := (list Ascii.ascii) (only parsing).

Definition bval (b : byte) : Z := Z.of_N (N_of_ascii b).
(** The conversion [byte(z)]: the low eight bits. *)
Definition bmk (z : Z) : byte := ascii_of_N (Z.to_N (z mod 256)).

Arguments bval : simpl never.
Arguments bmk : simpl never.

Definition to_bytes (s : string) : bytes := list_ascii_of_string s.
Definition of_bytes (l : bytes) : string := string_of_list_ascii l.

Lemma of_to_bytes s : of_bytes (to_bytes s) = s.
Proof. apply string_of_list_ascii_of_string. Qed.
Lemma to_of_bytes l : to_bytes (of_bytes l) = l.
Proof. apply list_ascii_of_string_of_list_ascii. Qed.

Lemma length_to_bytes s : length (to_bytes s) = String.length s.
Proof. unfold to_bytes. induction s; simpl; congruence. Qed.

Lemma bval_range b : 0 ≤ bval b < 256.
Proof. unfold bval. pose proof (N_ascii_bounded b). lia. Qed.
Lemma bmk_bval b : bmk (bval b) = b.
Proof.
  unfold bmk. rewrite Z.mod_small by apply bval_range.
  unfold bval. rewrite N2Z.id. apply ascii_N_embedding.
Qed.
Lemma bval_bmk z : bval (bmk z) = z mod 256.
Proof.
  unfold bval, bmk. pose proof (Z.mod_pos_bound z 256 eq_refl).
  rewrite N_ascii_embedding by lia. lia.
Qed.
Global Instance bval_inj : Inj (=) (=) bval.
Proof. intros x y Hxy. rewrite <-(bmk_bval x), <-(bmk_bval y). by rewrite Hxy. Qed.

(** A property of bytes that a boolean test decides for all 256 of them. *)
Lemma byte_forall (P : byte → bool) :
  forallb (λ n, P (ascii_of_nat n)) (seq 0 256) = true → ∀ b, P b = true.
Proof.
  intros HP b. rewrite forallb_forall in HP. rewrite <-(ascii_nat_embedding b).
  apply HP, in_seq. pose proof (nat_ascii_bounded b). lia.
Qed.

(** ** Machine integers: Go's [int] and [int64] are 64-bit two's complement *)

Definition wrap64 (z : Z) : Z := (z + 2 ^ 63) mod 2 ^ 64 - 2 ^ 63.
Arguments wrap64 : simpl never.
Definition max_int64 : Z := 2 ^ 63 - 1.
Definition in_int64 (z : Z) : Prop := - 2 ^ 63 ≤ z ≤ max_int64.
Global Instance in_int64_dec z : Decision (in_int64 z).
Proof. unfold in_int64. apply _. Defined.

Lemma wrap64_id z : in_int64 z → wrap64 z = z.
Proof. unfold in_int64, max_int64, wrap64. intros ?. rewrite Z.mod_small; lia. Qed.
Lemma wrap64_range z : in_int64 (wrap64 z).
Proof.
  unfold in_int64, max_int64, wrap64.
  pose proof (Z.mod_pos_bound (z + 2 ^ 63) (2 ^ 64) eq_refl). lia.
Qed.

(** ** Error texts

    Most error texts are plain strings; some are built with the verb [%q] of
    [fmt], which quotes its argument.  [Quoted s] stands for what [%q] prints
    for [s]. *)

Inductive part : Type := Lit (s : string) | Quoted (s : string).
Inductive message : Type := Text (s : string) | Format (parts : list part).
Coercion Text : string >-> message.

Definition parts_of (m : message) : list part :=
  match m with Text s => [Lit s] | Format l => l end.

Global Instance part_eq_dec : EqDecision part.
Proof. solve_decision. Defined.
Global Instance message_eq_dec : EqDecision message.
Proof. solve_decision. Defined.

(** ** The environment of a call

    What a call reads from outside the program: the system clock and the
    operating system's random source.  [clock i] is the call's [i]-th reading
    of the clock in seconds since the epoch, [rand_ok i] says whether its
    [i]-th read of the random source succeeds, and [rand_byte i j] is the
    [j]-th byte of that read.  Theorems quantify over every environment. *)

Record Env : Type := {
  clock : nat → Z;
  clock_nanos : nat → Z;   (** the nanoseconds of the reading within its second *)
  rand_ok : nat → bool;
  rand_byte : nat → nat → byte;
  rand_err : string;   (** the text of the random source's error *)
}.

(** [rand.Read(make([]byte, n))]. *)
Definition rand_Read (e : Env) (i n : nat) : outcome message bytes :=
  if rand_ok e i then Ok (rand_byte e i <$> seq 0 n) else Err (Text (rand_err e)).

Lemma length_rand_Read e i n l : rand_Read e i n = Ok l → length l = n.
Proof. unfold rand_Read. case_match; intros; simplify_eq. by rewrite length_fmap, length_seq. Qed.

(** ** Lists *)

Section lists.
Context {A B : Type}.
Implicit Types l : list A.

(** [items[i:j]] for indices in range. *)
Definition slice (i j : nat) l : list A := take (j - i) (drop i l).

Lemma length_slice i j l : (i ≤ j ≤ length l)%nat → length (slice i j l) = (j - i)%nat.
Proof. intros. unfold slice. rewrite length_take, length_drop. lia. Qed.
Lemma slice_app i j k l :
  (i ≤ j ≤ k)%nat → slice i j l ++ slice j k l = slice i k l.
Proof.
  intros [Hij Hjk]. unfold slice.
  replace (k - i)%nat with ((j - i) + (k - j))%nat by lia.
  rewrite <-take_take_drop, drop_drop. do 3 f_equal. lia.
Qed.
Lemma slice_all l : slice 0 (length l) l = l.
Proof. unfold slice. rewrite drop_0, take_ge; [done|lia]. Qed.

(** A fold undone, in the opposite order, by an inverse step. *)
Lemma foldl_undo {S} (Inv : S → Prop) (f g : S → A → S) l :
  (∀ s x, x ∈ l → Inv s → Inv (f s x) ∧ g (f s x) x = s) →
  ∀ s, Inv s → Inv (foldl f s l) ∧ foldl g (foldl f s l) (reverse l) = s.
Proof.
  induction l as [|x l IH]; intros Hfg s Hs; [done|]. simpl.
  destruct (Hfg s x) as [Hs' Hg]; [set_solver|done|].
  destruct (IH (λ s y Hy, Hfg s y (list_elem_of_further _ _ _ Hy)) _ Hs') as [Hl Heq].
  split; [done|]. rewrite reverse_cons, foldl_app. simpl. by rewrite Heq.
Qed.

Lemma foldl_inv {S} (Inv : S → Prop) (f : S → A → S) l :
  (∀ s x, x ∈ l → Inv s → Inv (f s x)) → ∀ s, Inv s → Inv (foldl f s l).
Proof.
  induction l as [|x l IH]; intros Hf s Hs; [done|]. simpl.
  apply IH; [intros; apply Hf; set_solver|apply Hf; set_solver].
Qed.

Lemma last_Some_ne l : l ≠ [] ↔ is_Some (last l).
Proof. rewrite last_is_Some. done. Qed.
End lists.

(** [l[low:high]], on a slice with no spare capacity, and [l[i]]: out of range
    they panic. *)
Definition slice_expr {E A} (low high : Z) (l : list A) : outcome E (list A) :=
  if decide (0 ≤ low ≤ high ∧ high ≤ Z.of_nat (length l))
  then Ok (slice (Z.to_nat low) (Z.to_nat high) l)
  else Panic "runtime error: slice bounds out of range".
Definition index_expr {E A} (i : Z) (l : list A) : outcome E A :=
  match (if decide (0 ≤ i) then l !! Z.to_nat i else None) with
  | Some x => Ok x
  | None => Panic "runtime error: index out of range"
  end.

Lemma slice_expr_in {E A} (low high : Z) (l : list A) :
  0 ≤ low ≤ high → high ≤ Z.of_nat (length l) →
  slice_expr (E:=E) low high l = Ok (slice (Z.to_nat low) (Z.to_nat high) l).
Proof. intros. unfold slice_expr. by rewrite decide_True. Qed.
Lemma slice_expr_Ok {E A} (low high : Z) (l l' : list A) :
  slice_expr (E:=E) low high l = Ok l' → l' = slice (Z.to_nat low) (Z.to_nat high) l.
Proof. unfold slice_expr. case_decide; naive_solver. Qed.
(** [l[:n]] and [l[n:]]. *)
Lemma slice_expr_to {E A} n (l : list A) : (n ≤ length l)%nat → slice_expr (E:=E) 0 (Z.of_nat n) l = Ok (take n l).
Proof. intros. rewrite slice_expr_in by lia. unfold slice. by rewrite Nat2Z.id, drop_0, Nat.sub_0_r. Qed.
Lemma slice_expr_from {E A} n (l : list A) :
  (n ≤ length l)%nat → slice_expr (E:=E) (Z.of_nat n) (Z.of_nat (length l)) l = Ok (drop n l).
Proof.
  intros. rewrite slice_expr_in by lia. unfold slice. rewrite !Nat2Z.id, take_ge; [done|]. rewrite length_drop. lia.
Qed.
Lemma index_expr_last {E A} (d : A) l :
  l ≠ [] → index_expr (E:=E) (Z.of_nat (length l) - 1) l = Ok (List.last l d).
Proof.
  intros Hl. destruct (exists_last Hl) as (l' & x & ->). unfold index_expr. rewrite List.last_last, length_app. cbn [length].
  rewrite decide_True by lia. replace (Z.to_nat _) with (length l') by lia. by rewrite list_lookup_middle.
Qed.
Lemma o_traverse_all {E A B} (f : A → outcome E B) (g : A → B) l :
  (∀ x, x ∈ l → f x = Ok (g x)) → o_traverse f l = Ok (g <$> l).
Proof. intros H. rewrite <-(list_fmap_id l) at 1. by apply (o_traverse_fmap f id g). Qed.

(** ** Automation *)

(** In the goal alone. *)
Ltac monad_unfold := unfold m_bind, m_get, m_modify, m_lift, m_ret, m_fail.
Ltac go_unfold :=
  unfold m_bind, m_ret, m_fail, m_panic, m_get, m_put, m_modify, m_lift in *.

(** Runs a monadic body: case-splits every guard, discarding dead branches. *)
Ltac go_cases :=
  go_unfold;
  repeat first [ progress simplify_eq/= | case_decide | case_match ].

Create HintDb kv discriminated.
#[export] Hint Resolve bval_range wrap64_range : kv.
#[export] Hint Rewrite @length_app @length_map @length_take @length_drop
  @length_seq @length_reverse length_to_bytes bmk_bval bval_bmk of_to_bytes to_of_bytes : kv.
