(* ===== verification/GoStrings.v ===== *)
(** * The parts of Go's [strings], [strconv], [sort] and [encoding/hex] the program uses

    Written from the documented behaviour of the Go standard library: the
    program's definitions call these functions under their Go names. *)

From S2P Require Import Prelude.

(** ** strings *)

Definition HasPrefix (s p : string) : bool := String.prefix p s.

Definition HasSuffix (s p : string) : bool :=
  bool_decide (String.length p ≤ String.length s)%nat &&
  bool_decide (drop (String.length s - String.length p) (to_bytes s) = to_bytes p).

Definition Contains (s sub : string) : bool :=
  match String.index 0 sub s with Some _ => true | None => false end.

Lemma string_app_assoc a b c : ((a ++ b) ++ c)%string = (a ++ b ++ c)%string.
Proof.
  induction a as [|x a IH]; [done|]. change (String x ((a ++ b) ++ c) = String x (a ++ b ++ c))%string. by rewrite IH.
Qed.
Lemma to_bytes_app a b : to_bytes (a ++ b)%string = to_bytes a ++ to_bytes b.
Proof.
  induction a as [|x a IH]; [done|]. change (x :: to_bytes (a ++ b)%string = x :: to_bytes a ++ to_bytes b). by rewrite IH.
Qed.
Lemma HasPrefix_longer s p q : HasPrefix s p = false → HasPrefix s (p ++ q) = false.
Proof.
  unfold HasPrefix. revert s. induction p as [|c p IH]; intros [|c' s]; [done..| |].
  - done.
  - change (String c p ++ q)%string with (String c (p ++ q)). cbn [String.prefix].
    destruct (ascii_dec c c'); [apply IH|done].
Qed.
Lemma HasPrefix_app p s : HasPrefix (p ++ s) p = true.
Proof.
  unfold HasPrefix. induction p as [|x p IH]; [by destruct s|]. change (String.prefix (String x p) (String x (p ++ s)) = true)%string.
  cbn. rewrite IH. by destruct (Ascii.ascii_dec x x).
Qed.

Lemma substring_0_app b c : String.substring 0 (String.length b) (b ++ c) = b.
Proof. induction b as [|y b IH]; simpl; [by destruct c|]. by rewrite IH. Qed.
Lemma substring_app a b c : String.substring (String.length a) (String.length b) (a ++ b ++ c) = b.
Proof. induction a as [|x a IH]; [exact (substring_0_app b c)|done]. Qed.

Lemma Contains_app a sub c : sub ≠ ""%string → Contains (a ++ sub ++ c) sub = true.
Proof.
  intros Hne. unfold Contains. destruct (String.index 0 sub _) eqn:Hi; [done|].
  exfalso. by eapply (index_correct3 0 (String.length a)); [exact Hi|done|lia|apply substring_app].
Qed.

(** [strings.Split(l, sep)] for a one-byte separator: at least one piece. *)
Fixpoint split_on (sep : byte) (l : bytes) : list bytes :=
  match l with
  | [] => [[]]
  | b :: l =>
      if decide (b = sep) then [] :: split_on sep l
      else match split_on sep l with p :: ps => (b :: p) :: ps | [] => [[b]] end
  end.

(** [strings.Join(ps, sep)]. *)
Fixpoint join (c : byte) (ps : list bytes) : bytes :=
  match ps with [] => [] | [p] => p | p :: ps => p ++ c :: join c ps end.

Lemma split_nonempty c l : split_on c l ≠ [].
Proof. destruct l as [|b l]; cbn; [done|]. case_decide; [done|]. by destruct (split_on c l). Qed.

Lemma split_no_sep c p : c ∉ p → split_on c p = [p].
Proof.
  induction p as [|b p IH]; intros Hp; [done|]. cbn. rewrite decide_False by set_solver.
  by rewrite IH by set_solver.
Qed.

Lemma split_app c p l : c ∉ p → split_on c (p ++ c :: l) = p :: split_on c l.
Proof.
  induction p as [|b p IH]; intros Hp; cbn; [by rewrite decide_True|].
  rewrite decide_False by set_solver. by rewrite IH by set_solver.
Qed.

Lemma split_join c ps : ps ≠ [] → Forall (λ p, c ∉ p) ps → split_on c (join c ps) = ps.
Proof.
  intros Hne Hps. induction Hps as [|p ps Hp Hps IH]; [done|]. destruct ps as [|q ps].
  - by apply split_no_sep.
  - change (join c (p :: q :: ps)) with (p ++ c :: join c (q :: ps)). rewrite split_app by done. by rewrite IH.
Qed.

(** ** strconv *)

Definition digit_of (b : byte) : option Z :=
  let v := bval b in if decide (48 ≤ v ≤ 57) then Some (v - 48) else None.

Fixpoint atoi_digits (acc : Z) (l : bytes) : option Z :=
  match l with
  | [] => Some acc
  | b :: l' =>
      match digit_of b with
      | Some d => atoi_digits (acc * 10 + d) l'
      | None => None
      end
  end.

(** [strconv.Atoi]: an optional sign, at least one digit, an [int64] value.
    The callers only test whether there was an error. *)
Definition Atoi (s : string) : option Z :=
  let '(neg, ds) :=
    match to_bytes s with
    | "-"%char :: l => (true, l)
    | "+"%char :: l => (false, l)
    | l => (false, l)
    end in
  match ds with
  | [] => None
  | _ =>
      match atoi_digits 0 ds with
      | None => None
      | Some n =>
          let v := if neg : bool then - n else n in
          if decide (in_int64 v) then Some v else None
      end
  end.

Fixpoint itoa_go (fuel : nat) (n : Z) (acc : bytes) : bytes :=
  match fuel with
  | O => acc
  | S fuel' =>
      let acc := bmk (48 + n mod 10) :: acc in
      if decide (n < 10) then acc else itoa_go fuel' (n / 10) acc
  end.

Definition itoa_fuel (n : Z) : nat := S (Z.to_nat (Z.log2 n)).

(** [strconv.Itoa]; a number [n] has at most [1 + log2 n] decimal digits. *)
Definition Itoa (z : Z) : string :=
  of_bytes (if decide (z < 0) then "-"%char :: itoa_go (itoa_fuel (- z)) (- z) []
            else itoa_go (itoa_fuel z) z []).

Lemma digit_of_bmk d : 0 ≤ d < 10 → digit_of (bmk (48 + d)) = Some d.
Proof.
  intros. unfold digit_of. rewrite bval_bmk, Z.mod_small by lia.
  rewrite decide_True by lia. f_equal. lia.
Qed.

Lemma itoa_go_spec fuel n acc :
  0 ≤ n < 2 ^ Z.of_nat fuel → (0 < fuel)%nat →
  atoi_digits 0 (itoa_go fuel n acc) = atoi_digits n acc.
Proof.
  revert n acc. induction fuel as [|fuel IH]; intros n acc Hn Hf; [lia|].
  cbn [itoa_go]. case_decide as Hten.
  - cbn [atoi_digits]. rewrite Z.mod_small, digit_of_bmk by lia. done.
  - rewrite Nat2Z.inj_succ, Z.pow_succ_r in Hn by lia.
    assert (0 < fuel)%nat by (destruct fuel; simpl in *; lia).
    assert (0 ≤ n / 10 < 2 ^ Z.of_nat fuel).
    { split; [apply Z.div_pos|apply Z.div_lt_upper_bound]; lia. }
    rewrite IH by done. cbn [atoi_digits]. rewrite digit_of_bmk by (apply Z.mod_pos_bound; lia).
    f_equal. pose proof (Z.div_mod n 10). lia.
Qed.

Lemma itoa_fuel_enough n : 0 ≤ n → n < 2 ^ Z.of_nat (itoa_fuel n).
Proof.
  intros Hn. unfold itoa_fuel. rewrite Nat2Z.inj_succ, Z2Nat.id by apply Z.log2_nonneg.
  destruct (decide (n = 0)) as [->|]; [done|]. apply Z.log2_spec. lia.
Qed.

Lemma itoa_go_head fuel n acc :
  0 ≤ n → (0 < fuel)%nat →
  ∃ d l, itoa_go fuel n acc = bmk (48 + d) :: l ∧ 0 ≤ d < 10.
Proof.
  revert n acc. induction fuel as [|fuel IH]; intros n acc Hn Hf; [lia|]. cbn [itoa_go].
  pose proof (Z.mod_pos_bound n 10 eq_refl). case_decide; [eauto|].
  destruct fuel; [simpl; eauto|]. apply IH; [apply Z.div_pos; lia|lia].
Qed.

Lemma digit_not_sign d : 0 ≤ d < 10 → bmk (48 + d) ≠ "-"%char ∧ bmk (48 + d) ≠ "+"%char.
Proof.
  intros Hd. split; intros Heq; apply (f_equal bval) in Heq; rewrite bval_bmk in Heq;
    rewrite Z.mod_small in Heq by lia;
    change (bval "-"%char) with 45 in Heq || change (bval "+"%char) with 43 in Heq; lia.
Qed.

Lemma Atoi_digits d l :
  0 ≤ d < 10 →
  Atoi (of_bytes (bmk (48 + d) :: l)) =
    n ← atoi_digits 0 (bmk (48 + d) :: l); if decide (in_int64 n) then Some n else None.
Proof.
  intros Hd. destruct (digit_not_sign d Hd) as [Hm Hp]. unfold Atoi.
  rewrite to_of_bytes.
  assert (match bmk (48 + d) :: l with
    | "-"%char :: l => (true, l)
    | "+"%char :: l => (false, l)
    | l => (false, l)
    end = (false, bmk (48 + d) :: l)) as ->.
  { revert Hm Hp. generalize (bmk (48 + d)). intros [[][][][][][][][]] Hm Hp; done. }
  by destruct (atoi_digits 0 _).
Qed.

(** The decimal digits of a number: none leads with a zero but "0" itself. *)
Definition is_digit (b : byte) : bool := (48 <=? bval b) && (bval b <=? 57).

Lemma is_digit_bmk d : 0 ≤ d < 10 → is_digit (bmk (48 + d)) = true.
Proof. intros. unfold is_digit. rewrite bval_bmk, Z.mod_small by lia. lia. Qed.

Lemma itoa_go_digits fuel n acc :
  0 ≤ n < 2 ^ Z.of_nat fuel → (0 < fuel)%nat → Forall is_digit acc →
  ∃ d l, itoa_go fuel n acc = bmk (48 + d) :: l ∧ 0 ≤ d < 10 ∧ Forall is_digit l ∧
    (d = 0 → n = 0 ∧ l = acc).
Proof.
  revert n acc. induction fuel as [|fuel IH]; intros n acc Hn Hf Hacc; [lia|]. cbn [itoa_go].
  pose proof (Z.mod_pos_bound n 10 eq_refl) as Hm. case_decide as Hten.
  { exists (n mod 10), acc. rewrite Z.mod_small in * by lia. naive_solver. }
  rewrite Nat2Z.inj_succ, Z.pow_succ_r in Hn by lia.
  assert (0 < fuel)%nat by (destruct fuel; simpl in *; lia).
  assert (0 < n / 10 < 2 ^ Z.of_nat fuel).
  { split; [apply Z.div_str_pos; lia|apply Z.div_lt_upper_bound; lia]. }
  destruct (IH (n / 10) (bmk (48 + n mod 10) :: acc)) as (d & l & Heq & Hd & Hl & Hz);
    [lia|done| |].
  { constructor; [|done]. by rewrite is_digit_bmk. }
  exists d, l. split_and!; [done|lia|lia|done|]. intros [Hn0 _]%Hz. lia.
Qed.

Lemma itoa_digits n :
  0 ≤ n → ∃ d l, itoa_go (itoa_fuel n) n [] = bmk (48 + d) :: l ∧ 0 ≤ d < 10 ∧
    Forall is_digit l ∧ (d = 0 → l = []).
Proof.
  intros Hn. pose proof (itoa_fuel_enough n Hn).
  destruct (itoa_go_digits (itoa_fuel n) n []) as (d & l & ? & ? & ? & Hz);
    [lia|unfold itoa_fuel; lia|done|]. exists d, l. naive_solver.
Qed.

(** Printing then parsing a number gives it back. *)
Lemma Atoi_Itoa_int64 n : in_int64 n → Atoi (Itoa n) = Some n.
Proof.
  intros Hn. unfold Itoa. case_decide as Hneg.
  - destruct (itoa_digits (- n)) as (d & l & Heq & Hd & _); [lia|].
    pose proof (itoa_fuel_enough (- n)).
    unfold Atoi. rewrite to_of_bytes, Heq. cbn iota beta. rewrite <-Heq.
    rewrite itoa_go_spec by first [ lia | unfold itoa_fuel; lia ].
    cbn [atoi_digits]. rewrite Z.opp_involutive. by rewrite decide_True.
  - destruct (itoa_digits n) as (d & l & Heq & Hd & _); [lia|].
    rewrite Heq, Atoi_digits, <-Heq by done.
    pose proof (itoa_fuel_enough n).
    rewrite itoa_go_spec by first [ lia | unfold itoa_fuel; lia ].
    simpl. by rewrite decide_True.
Qed.

Lemma Atoi_range s n : Atoi s = Some n → in_int64 n.
Proof.
  unfold Atoi. intros H. repeat (case_match; simplify_eq; try done).
Qed.
Lemma Atoi_Itoa n : 0 ≤ n ≤ max_int64 → Atoi (Itoa n) = Some n.
Proof. intros. apply Atoi_Itoa_int64. unfold in_int64. lia. Qed.

Lemma Itoa_nonempty n : Itoa n ≠ ""%string.
Proof.
  unfold Itoa. case_decide; [done|].
  destruct (itoa_go_head (itoa_fuel n) n []) as (d & l & -> & _); [lia|unfold itoa_fuel; lia|done].
Qed.

(** ** sort *)

(** [sort.Strings]: byte-wise lexicographic order. *)
Definition sort_Strings (l : list string) : list string := merge_sort String.le l.

Lemma sort_Strings_perm l : sort_Strings l ≡ₚ l.
Proof. apply merge_sort_Permutation. Qed.

Lemma sort_Strings_sorted l : StronglySorted String.le (sort_Strings l).
Proof. apply (StronglySorted_merge_sort _). Qed.

(** The keys of a map, sorted: Go ranges over a map in any order, and sorting
    makes the result the same for every order. *)
Definition sorted_keys {A} (m : gmap string A) : list string :=
  sort_Strings (map_to_list m).*1.

Lemma sorted_keys_any_order {A} (m : gmap string A) (order : list (string * A)) :
  order ≡ₚ map_to_list m → sort_Strings order.*1 = sorted_keys m.
Proof.
  intros Hord. apply (StronglySorted_unique String.le); try apply sort_Strings_sorted.
  unfold sorted_keys. rewrite !sort_Strings_perm. by apply fmap_Permutation.
Qed.

Lemma elem_of_sorted_keys {A} (m : gmap string A) k : k ∈ sorted_keys m ↔ is_Some (m !! k).
Proof.
  unfold sorted_keys. rewrite sort_Strings_perm, list_elem_of_fmap. split.
  - intros ([k' a] & -> & Hin). apply elem_of_map_to_list in Hin. eauto.
  - intros [a Ha]. exists (k, a). by rewrite elem_of_map_to_list.
Qed.

Lemma sorted_keys_unique {A} (m : gmap string A) l :
  NoDup l → StronglySorted String.le l → (∀ k, k ∈ l ↔ is_Some (m !! k)) → l = sorted_keys m.
Proof.
  intros Hnd Hs Hin. apply (StronglySorted_unique String.le); [done|apply sort_Strings_sorted|].
  apply NoDup_Permutation; [done|unfold sorted_keys; rewrite sort_Strings_perm; apply NoDup_fst_map_to_list|].
  intros k. by rewrite Hin, elem_of_sorted_keys.
Qed.

Lemma NoDup_sorted_keys {A} (m : gmap string A) : NoDup (sorted_keys m).
Proof. unfold sorted_keys. rewrite sort_Strings_perm. apply NoDup_fst_map_to_list. Qed.

Lemma length_sorted_keys {A} (m : gmap string A) : length (sorted_keys m) = size m.
Proof.
  unfold sorted_keys. rewrite sort_Strings_perm, length_fmap. apply length_map_to_list.
Qed.

(** ** encoding/hex *)

Inductive hex_error : Type :=
| InvalidByteError (b : byte)
| ErrLength.

Global Instance hex_error_eq_dec : EqDecision hex_error.
Proof. solve_decision. Defined.

Definition hex_digit (v : Z) : byte := bmk (if decide (v < 10) then 48 + v else 87 + v).

Definition hex_val (b : byte) : option Z :=
  let v := bval b in
  if decide (48 ≤ v ≤ 57) then Some (v - 48)
  else if decide (97 ≤ v ≤ 102) then Some (v - 87)
  else if decide (65 ≤ v ≤ 70) then Some (v - 55)
  else None.

Fixpoint hex_encode (l : bytes) : bytes :=
  match l with
  | [] => []
  | b :: l' => hex_digit (bval b / 16) :: hex_digit (bval b mod 16) :: hex_encode l'
  end.

(** Pairs are checked first to last; only then is an odd tail reported. *)
Fixpoint hex_decode (l : bytes) : outcome hex_error bytes :=
  match l with
  | [] => Ok []
  | [p] => match hex_val p with None => Err (InvalidByteError p) | Some _ => Err ErrLength end
  | p :: q :: l' =>
      match hex_val p with
      | None => Err (InvalidByteError p)
      | Some a =>
          match hex_val q with
          | None => Err (InvalidByteError q)
          | Some b => let! r := hex_decode l' in Ok (bmk (a * 16 + b) :: r)
          end
      end
  end.

Definition hex_EncodeToString (l : bytes) : string := of_bytes (hex_encode l).
Definition hex_DecodeString (s : string) : outcome hex_error bytes := hex_decode (to_bytes s).

Lemma hex_val_digit v : 0 ≤ v < 16 → hex_val (hex_digit v) = Some v.
Proof.
  intros Hv. unfold hex_val, hex_digit.
  destruct (decide (v < 10)); rewrite bval_bmk, Z.mod_small by lia;
    repeat case_decide; first [ lia | f_equal; lia ].
Qed.

Lemma hex_decode_encode l : hex_decode (hex_encode l) = Ok l.
Proof.
  induction l as [|b l IH]; [done|]. simpl. pose proof (bval_range b).
  rewrite !hex_val_digit by
    first [ apply Z.mod_pos_bound; lia | split; [apply Z.div_pos|apply Z.div_lt_upper_bound]; lia ].
  rewrite IH. simpl. do 2 f_equal. rewrite <-(bmk_bval b) at 3. f_equal.
  pose proof (Z.div_mod (bval b) 16). lia.
Qed.

Lemma hex_round_trip l : hex_DecodeString (hex_EncodeToString l) = Ok l.
Proof. unfold hex_DecodeString, hex_EncodeToString. by rewrite to_of_bytes, hex_decode_encode. Qed.

Lemma length_hex_encode l : length (hex_encode l) = (2 * length l)%nat.
Proof. induction l; simpl; lia. Qed.

Lemma hex_EncodeToString_inj l l' : hex_EncodeToString l = hex_EncodeToString l' → l = l'.
Proof. intros Heq. apply (f_equal hex_DecodeString) in Heq. rewrite !hex_round_trip in Heq. by simplify_eq. Qed.

Lemma hex_EncodeToString_nonempty l : l ≠ [] → hex_EncodeToString l ≠ ""%string.
Proof. by destruct l. Qed.
