(* ===== verification/GoBase64.v ===== *)
(** * Go's [encoding/base64]: [StdEncoding] and [RawURLEncoding]

    The decoder follows the standard library's [decodeQuantum]: carriage
    returns and line feeds are skipped, unused trailing bits are not checked
    (the encodings are not strict), and an error carries the input offset. *)

From S2P Require Import Prelude GoStrings.

Record Encoding := { alphabet : bytes; padChar : option byte }.

Definition alnum : string :=
  "ABCDEFGHIJKLMNOPQRSTUVWXYZabcdefghijklmnopqrstuvwxyz0123456789".

Definition StdEncoding : Encoding :=
  {| alphabet := to_bytes (alnum ++ "+/"); padChar := Some "="%char |}.
Definition RawURLEncoding : Encoding :=
  {| alphabet := to_bytes (alnum ++ "-_"); padChar := None |}.

Definition enc_char (enc : Encoding) (v : Z) : byte :=
  nth (Z.to_nat v) (alphabet enc) "A"%char.
(** [enc.decodeMap]; [None] is its entry [0xff]. *)
Definition dec_char (enc : Encoding) (c : byte) : option Z :=
  (λ p : nat * byte, Z.of_nat p.1) <$> list_find (λ c', c' = c) (alphabet enc).

Definition is_newline (c : byte) : Prop := c = "010"%char ∨ c = "013"%char.
Global Instance is_newline_dec c : Decision (is_newline c).
Proof. unfold is_newline. apply _. Defined.

Definition pad_bytes (enc : Encoding) (n : nat) : bytes :=
  match padChar enc with Some p => replicate n p | None => [] end.

(** [EncodeToString]. *)
Fixpoint b64_encode (enc : Encoding) (l : bytes) : bytes :=
  match l with
  | [] => []
  | [a] =>
      let v := bval a * 65536 in
      [enc_char enc (v / 262144); enc_char enc (v / 4096 mod 64)] ++ pad_bytes enc 2
  | [a; b] =>
      let v := bval a * 65536 + bval b * 256 in
      [enc_char enc (v / 262144); enc_char enc (v / 4096 mod 64);
       enc_char enc (v / 64 mod 64)] ++ pad_bytes enc 1
  | a :: b :: c :: l' =>
      let v := bval a * 65536 + bval b * 256 + bval c in
      enc_char enc (v / 262144) :: enc_char enc (v / 4096 mod 64) ::
      enc_char enc (v / 64 mod 64) :: enc_char enc (v mod 64) :: b64_encode enc l'
  end.

(** The bytes of a quantum of [dlen] sextets. *)
Definition flush (dbuf : list Z) : bytes :=
  let d i := nth i dbuf 0 in
  let v := d 0%nat * 262144 + d 1%nat * 4096 + d 2%nat * 64 + d 3%nat in
  take (length dbuf - 1) [bmk (v / 65536); bmk (v / 256); bmk v].

Fixpoint skip_newlines (si : Z) (src : bytes) : Z * bytes :=
  match src with
  | c :: src' => if decide (is_newline c) then skip_newlines (si + 1) src' else (si, src)
  | [] => (si, [])
  end.

(** What follows the padding may only be line breaks. *)
Definition b64_finish (dbuf : list Z) (si : Z) (src : bytes) : outcome Z bytes :=
  match skip_newlines si src with
  | (_, []) => Ok (flush dbuf)
  | (si', _) => Err si'
  end.

Fixpoint b64_decode (enc : Encoding) (dbuf : list Z) (si : Z) (src : bytes) : outcome Z bytes :=
  match src with
  | [] =>
      match dbuf with
      | [] => Ok []
      | _ => if decide (length dbuf = 1%nat ∨ is_Some (padChar enc))
             then Err (si - Z.of_nat (length dbuf)) else Ok (flush dbuf)
      end
  | c :: src' =>
      match dec_char enc c with
      | Some v =>
          if decide (length dbuf = 3%nat)
          then let! r := b64_decode enc [] (si + 1) src' in Ok (flush (dbuf ++ [v]) ++ r)
          else b64_decode enc (dbuf ++ [v]) (si + 1) src'
      | None =>
          if decide (is_newline c) then b64_decode enc dbuf (si + 1) src'
          else if decide (Some c ≠ padChar enc) then Err si
          else match length dbuf with
               | 0%nat | 1%nat => Err si
               | 2%nat =>
                   match skip_newlines (si + 1) src' with
                   | (si', []) => Err si'
                   | (si', d :: src'') =>
                       if decide (Some d = padChar enc) then b64_finish dbuf (si' + 1) src''
                       else Err (si' - 1)
                   end
               | _ => b64_finish dbuf (si + 1) src'
               end
      end
  end.

Definition b64_EncodeToString (enc : Encoding) (l : bytes) : string :=
  of_bytes (b64_encode enc l).
(** The error is [CorruptInputError off]. *)
Definition b64_DecodeString (enc : Encoding) (s : string) : outcome Z bytes :=
  b64_decode enc [] 0 (to_bytes s).

(** [CorruptInputError.Error]. *)
Definition CorruptInputError (off : Z) : string :=
  "illegal base64 data at input byte " ++ Itoa off.

(** ** Round trip *)

(** What the proofs need of an encoding; both encodings have it by evaluation. *)
Class EncodingOk (enc : Encoding) : Prop := {
  dec_enc_char : ∀ v, 0 ≤ v < 64 → dec_char enc (enc_char enc v) = Some v;
  pad_not_newline : ∀ p, padChar enc = Some p → ¬ is_newline p;
  pad_not_sextet : ∀ p, padChar enc = Some p → dec_char enc p = None;
}.

Definition check_encoding (enc : Encoding) : bool :=
  forallb (λ n, bool_decide (dec_char enc (enc_char enc (Z.of_nat n)) = Some (Z.of_nat n)))
    (seq 0 64).

Lemma check_encoding_ok enc :
  check_encoding enc = true →
  ∀ v, 0 ≤ v < 64 → dec_char enc (enc_char enc v) = Some v.
Proof.
  unfold check_encoding. rewrite forallb_forall. intros Hall v Hv.
  specialize (Hall (Z.to_nat v)). rewrite Z2Nat.id in Hall by lia.
  apply (bool_decide_eq_true_1 _), Hall, in_seq. lia.
Qed.

Global Instance StdEncoding_ok : EncodingOk StdEncoding.
Proof.
  split; [apply check_encoding_ok; vm_compute; reflexivity|..].
  - intros p [= <-]. unfold is_newline. naive_solver.
  - intros p [= <-]. vm_compute. reflexivity.
Qed.
Global Instance RawURLEncoding_ok : EncodingOk RawURLEncoding.
Proof. split; [apply check_encoding_ok; vm_compute; reflexivity|done..]. Qed.

Section round_trip.
Context (enc : Encoding) `{!EncodingOk enc}.

(** One character of the alphabet either extends the quantum or closes it. *)
Lemma b64_decode_sextet dbuf si v src :
  0 ≤ v < 64 → (length dbuf < 3)%nat →
  b64_decode enc dbuf si (enc_char enc v :: src) = b64_decode enc (dbuf ++ [v]) (si + 1) src.
Proof. intros. simpl. rewrite dec_enc_char by done. by rewrite decide_False by lia. Qed.
Lemma b64_decode_close dbuf si v src :
  0 ≤ v < 64 → length dbuf = 3%nat →
  b64_decode enc dbuf si (enc_char enc v :: src) =
    let! r := b64_decode enc [] (si + 1) src in Ok (flush (dbuf ++ [v]) ++ r).
Proof. intros. simpl. rewrite dec_enc_char by done. by rewrite decide_True by lia. Qed.
Lemma b64_decode_pad si dbuf n :
  (length dbuf = 2 ∨ length dbuf = 3)%nat → n = (4 - length dbuf)%nat →
  b64_decode enc dbuf si (pad_bytes enc n) = Ok (flush dbuf).
Proof.
  intros Hlen ->. unfold pad_bytes. destruct (padChar enc) as [p|] eqn:Hp.
  - destruct Hlen as [Hl|Hl]; rewrite Hl; simpl; rewrite (pad_not_sextet p Hp), Hp, Hl;
      rewrite (decide_False (P := is_newline p)) by (by apply pad_not_newline);
      rewrite decide_False by (by intros []); [|done].
    rewrite (decide_False (P := is_newline p)) by (by apply pad_not_newline).
    by rewrite decide_True.
  - simpl. destruct dbuf as [|x [|y l]]; [simpl in Hlen; lia..|].
    rewrite decide_False; [done|]. simpl in *. rewrite Hp.
    intros [?|[? ?]]; [lia|done].
Qed.

Lemma flush_3 a b c :
  let v := bval a * 65536 + bval b * 256 + bval c in
  flush [v / 262144; v / 4096 mod 64; v / 64 mod 64; v mod 64] = [a; b; c].
Proof.
  intros v. unfold flush. simpl nth. simpl length. simpl take.
  pose proof (bval_range a). pose proof (bval_range b). pose proof (bval_range c).
  replace (v / 262144 * 262144 + v / 4096 mod 64 * 4096 + v / 64 mod 64 * 64 + v mod 64)
    with v by (Z.to_euclidean_division_equations; lia).
  assert (v / 65536 = bval a) as -> by (subst v; Z.to_euclidean_division_equations; lia).
  rewrite bmk_bval. repeat f_equal; apply (inj bval); rewrite bval_bmk;
    subst v; Z.to_euclidean_division_equations; lia.
Qed.
Lemma flush_2 a b :
  let v := bval a * 65536 + bval b * 256 in
  flush [v / 262144; v / 4096 mod 64; v / 64 mod 64] = [a; b].
Proof.
  intros v. unfold flush. simpl nth. simpl length. simpl take.
  pose proof (bval_range a). pose proof (bval_range b).
  replace (v / 262144 * 262144 + v / 4096 mod 64 * 4096 + v / 64 mod 64 * 64 + 0)
    with v by (subst v; Z.to_euclidean_division_equations; lia).
  assert (v / 65536 = bval a) as -> by (subst v; Z.to_euclidean_division_equations; lia).
  rewrite bmk_bval. repeat f_equal; apply (inj bval); rewrite bval_bmk;
    subst v; Z.to_euclidean_division_equations; lia.
Qed.
Lemma flush_1 a :
  let v := bval a * 65536 in flush [v / 262144; v / 4096 mod 64] = [a].
Proof.
  intros v. unfold flush. simpl nth. simpl length. simpl take.
  pose proof (bval_range a).
  replace (v / 262144 * 262144 + v / 4096 mod 64 * 4096 + 0 * 64 + 0)
    with v by (subst v; Z.to_euclidean_division_equations; lia).
  assert (v / 65536 = bval a) as -> by (subst v; Z.to_euclidean_division_equations; lia).
  by rewrite bmk_bval.
Qed.

(** Induction three bytes at a time, as the encoder consumes its input. *)
Lemma bytes_ind3 (P : bytes → Prop) :
  P [] → (∀ a, P [a]) → (∀ a b, P [a; b]) →
  (∀ a b c l, P l → P (a :: b :: c :: l)) → ∀ l, P l.
Proof.
  intros H0 H1 H2 H3 l.
  induction l as [l IH] using (induction_ltof1 _ (@length byte)). unfold ltof in IH.
  destruct l as [|a [|b [|c l]]]; auto. apply H3, IH. simpl. lia.
Qed.

Lemma b64_decode_encode si l : b64_decode enc [] si (b64_encode enc l) = Ok l.
Proof.
  revert si. induction l as [|a|a b|a b c l IH] using bytes_ind3; intros si; [done|..];
    cbn [b64_encode]; pose proof (bval_range a) as Ha.
  - assert (0 ≤ bval a * 65536 / 262144 < 64) by (Z.to_euclidean_division_equations; lia).
    pose proof (Z.mod_pos_bound (bval a * 65536 / 4096) 64 eq_refl).
    cbn [app]. rewrite !b64_decode_sextet by (simpl; first [done | lia]).
    rewrite b64_decode_pad by (simpl; lia). f_equal. apply flush_1.
  - pose proof (bval_range b). set (v := bval a * 65536 + bval b * 256).
    assert (0 ≤ v / 262144 < 64) by (subst v; Z.to_euclidean_division_equations; lia).
    pose proof (Z.mod_pos_bound (v / 4096) 64 eq_refl).
    pose proof (Z.mod_pos_bound (v / 64) 64 eq_refl).
    cbn [app]. rewrite !b64_decode_sextet by (simpl; first [done | lia]).
    rewrite b64_decode_pad by (simpl; lia). f_equal. apply flush_2.
  - pose proof (bval_range b). pose proof (bval_range c).
    set (v := bval a * 65536 + bval b * 256 + bval c).
    assert (0 ≤ v / 262144 < 64) by (subst v; Z.to_euclidean_division_equations; lia).
    pose proof (Z.mod_pos_bound (v / 4096) 64 eq_refl).
    pose proof (Z.mod_pos_bound (v / 64) 64 eq_refl).
    pose proof (Z.mod_pos_bound v 64 eq_refl).
    rewrite !b64_decode_sextet by (simpl; first [done | lia]).
    rewrite b64_decode_close, IH by (simpl; first [done | lia]).
    cbn [o_bind]. f_equal. change (a :: b :: c :: l) with ([a; b; c] ++ l).
    f_equal. apply (flush_3 a b c).
Qed.

Lemma b64_round_trip l : b64_DecodeString enc (b64_EncodeToString enc l) = Ok l.
Proof.
  unfold b64_DecodeString, b64_EncodeToString. by rewrite to_of_bytes, b64_decode_encode.
Qed.
End round_trip.

Lemma b64_EncodeToString_nonempty enc l : l ≠ [] → b64_EncodeToString enc l ≠ ""%string.
Proof. by destruct l as [|a [|b [|c l]]]. Qed.

Lemma b64_encode_ascii enc l :
  Forall (λ b, bval b < 128) (alphabet enc) → Forall (λ b, bval b < 128) (pad_bytes enc 2) →
  Forall (λ b, bval b < 128) (b64_encode enc l).
Proof.
  intros Ha Hp. assert (∀ v, bval (enc_char enc v) < 128) as Hc.
  { intros v. unfold enc_char. destruct (decide (Z.to_nat v < length (alphabet enc))%nat) as [Hv|Hv].
    - rewrite Forall_forall in Ha. by apply Ha, list_elem_of_In, nth_In.
    - by rewrite nth_overflow by lia. }
  assert (Forall (λ b, bval b < 128) (pad_bytes enc 1)) as Hp1.
  { unfold pad_bytes in *. destruct (padChar enc); [|constructor]. simpl in *. by inversion Hp; subst; repeat constructor. }
  induction l as [|a|a b|a b c l IH] using bytes_ind3; cbn [b64_encode app]; repeat (constructor; try apply Hc); done.
Qed.
Lemma b64_text_ascii enc l : enc ∈ [StdEncoding; RawURLEncoding] →
  Forall (λ b, bval b < 128) (to_bytes (b64_EncodeToString enc l)).
Proof.
  intros He. unfold b64_EncodeToString. rewrite to_of_bytes. apply b64_encode_ascii;
    apply elem_of_cons in He as [->| ->%list_elem_of_singleton]; apply (bool_decide_unpack _); vm_compute; exact I.
Qed.

#[export] Hint Rewrite b64_round_trip hex_round_trip : kv.
