(* ===== verification/GoUtf8.v ===== *)
(** * UTF-8 as Go's [unicode/utf8] and [encoding/json] treat it *)

From S2P Require Import Prelude.

Definition in_range (lo hi : Z) (b : byte) : bool := (lo <=? bval b) && (bval b <=? hi).
Definition continuation (b : byte) : bool := in_range 128 191 b.

(** The number of bytes of the valid encoding at the head of [l], if there is
    one ([utf8.DecodeRune]): surrogates, overlong forms and code points above
    U+10FFFF are invalid. *)
Definition rune_len (l : bytes) : option nat :=
  match l with
  | [] => None
  | a :: l1 =>
      if in_range 0 127 a then Some 1%nat else
      match l1 with
      | [] => None
      | b :: l2 =>
          if in_range 194 223 a && continuation b then Some 2%nat else
          match l2 with
          | [] => None
          | c :: l3 =>
              if (((bval a =? 224) && in_range 160 191 b)
                  || (in_range 225 236 a && continuation b)
                  || ((bval a =? 237) && in_range 128 159 b)
                  || (in_range 238 239 a && continuation b)) && continuation c
              then Some 3%nat else
              match l3 with
              | [] => None
              | d :: _ =>
                  if (((bval a =? 240) && in_range 144 191 b)
                      || (in_range 241 243 a && continuation b)
                      || ((bval a =? 244) && in_range 128 143 b))
                     && continuation c && continuation d
                  then Some 4%nat else None
              end
          end
      end
  end.

(** U+FFFD, the replacement character. *)
Definition rune_error : bytes := bmk <$> [239; 191; 189].

(** Each invalid byte becomes U+FFFD; [fuel] is the number of bytes left. *)
Fixpoint utf8_coerce_go (fuel : nat) (l : bytes) : bytes :=
  match fuel with
  | O => []
  | S fuel' =>
      match l with
      | [] => []
      | b :: l' =>
          match rune_len l with
          | Some n => take n l ++ utf8_coerce_go fuel' (drop n l)
          | None => rune_error ++ utf8_coerce_go fuel' l'
          end
      end
  end.

Definition utf8_coerce (s : string) : string :=
  of_bytes (utf8_coerce_go (String.length s) (to_bytes s)).

Fixpoint utf8_valid_go (fuel : nat) (l : bytes) : bool :=
  match fuel with
  | O => bool_decide (l = [])
  | S fuel' =>
      match l with
      | [] => true
      | _ => match rune_len l with Some n => utf8_valid_go fuel' (drop n l) | None => false end
      end
  end.

Definition utf8_valid (s : string) : bool := utf8_valid_go (String.length s) (to_bytes s).

Lemma utf8_coerce_valid s : utf8_valid s = true → utf8_coerce s = s.
Proof.
  unfold utf8_valid, utf8_coerce. intros Hv.
  rewrite <-(of_to_bytes s) at 3. f_equal. revert Hv.
  generalize (String.length s). intros n. generalize (to_bytes s). clear s.
  induction n as [|n IH]; intros l; simpl.
  { intros ->%bool_decide_eq_true. done. }
  destruct l as [|b l]; [done|]. destruct (rune_len (b :: l)) as [k|]; [|done].
  intros Hv. rewrite IH by done. apply take_drop.
Qed.

Lemma utf8_valid_go_ascii l n : Forall (λ b, bval b < 128) l → (length l ≤ n)%nat → utf8_valid_go n l = true.
Proof.
  intros Hl. revert n. induction Hl as [|b l Hb Hl IH]; intros n Hn; [by destruct n|].
  destruct n as [|n]; [simpl in Hn; lia|]. cbn [utf8_valid_go rune_len]. pose proof (bval_range b).
  assert (in_range 0 127 b = true) as -> by (unfold in_range; lia). apply IH. simpl in Hn. lia.
Qed.
Lemma utf8_valid_ascii s : Forall (λ b, bval b < 128) (to_bytes s) → utf8_valid s = true.
Proof. intros Hs. apply utf8_valid_go_ascii; [done|]. by rewrite length_to_bytes. Qed.
