(* ===== verification/GoJson.v ===== *)
(** * Go's [encoding/json]: [Marshal] and [Unmarshal]

    The encoder (compact output, HTML-safe escapes, sorted map keys) and the
    decoder (validity check of the whole input, then decoding into typed
    fields: exact then case-folded names, null that leaves a field alone,
    repeated keys that decode again into the same field).  A type mismatch
    makes [Unmarshal] return an error; its callers then discard the value, so
    the decoders below return [None]. *)

From S2P Require Import Prelude GoStrings GoUtf8.

(** A number keeps its literal; an object keeps the order and the repetitions
    of its members. *)
Inductive json : Type :=
| JNull
| JBool (b : bool)
| JNum (literal : string)
| JStr (s : string)
| JArr (l : list json)
| JObj (l : list (string * json)).

(** ** Encoding *)

Definition dquote : byte := "034"%char.

Definition json_escape (b : byte) : bytes :=
  if decide (b = dquote ∨ b = "\"%char) then ["\"%char; b]
  else if decide (bval b = 8) then ["\"; "b"]%char
  else if decide (bval b = 12) then ["\"; "f"]%char
  else if decide (bval b = 10) then ["\"; "n"]%char
  else if decide (bval b = 13) then ["\"; "r"]%char
  else if decide (bval b = 9) then ["\"; "t"]%char
  else if decide (bval b < 32 ∨ b = "<"%char ∨ b = ">"%char ∨ b = "&"%char)
  then ["\"; "u"; "0"; "0"]%char ++ [hex_digit (bval b / 16); hex_digit (bval b mod 16)]
  else [b].

(** U+2028 and U+2029. *)
Definition line_separator : bytes := bmk <$> [226; 128; 168].
Definition paragraph_separator : bytes := bmk <$> [226; 128; 169].

(** [fuel] is the number of bytes left. *)
Fixpoint json_string_go (fuel : nat) (l : bytes) : bytes :=
  match fuel with
  | O => []
  | S fuel' =>
      match l with
      | [] => []
      | b :: l' =>
          if decide (bval b < 128) then json_escape b ++ json_string_go fuel' l' else
          match rune_len l with
          | None => to_bytes "\ufffd" ++ json_string_go fuel' l'
          | Some n =>
              (if decide (take n l = line_separator) then to_bytes "\u2028"
               else if decide (take n l = paragraph_separator) then to_bytes "\u2029"
               else take n l) ++ json_string_go fuel' (drop n l)
          end
      end
  end.

Definition json_print_string (s : string) : bytes :=
  [dquote] ++ json_string_go (String.length s) (to_bytes s) ++ [dquote].

(** Comma-separated parts and the closing bracket. *)
Fixpoint json_join (close : byte) (parts : list bytes) : bytes :=
  match parts with
  | [] => [close]
  | [p] => p ++ [close]
  | p :: parts => p ++ ","%char :: json_join close parts
  end.

Fixpoint json_print (j : json) : bytes :=
  match j with
  | JNull => to_bytes "null"
  | JBool true => to_bytes "true"
  | JBool false => to_bytes "false"
  | JNum literal => to_bytes literal
  | JStr s => json_print_string s
  | JArr l => "["%char :: json_join "]"%char (map json_print l)
  | JObj l =>
      "{"%char :: json_join "}"%char
        (map (λ m : string * json, json_print_string m.1 ++ ":"%char :: json_print m.2) l)
  end.

(** ** Parsing *)

Definition is_space (b : byte) : bool :=
  bool_decide (bval b = 32 ∨ bval b = 9 ∨ bval b = 13 ∨ bval b = 10).

Fixpoint skip_space (l : bytes) : bytes :=
  match l with
  | b :: l' => if is_space b then skip_space l' else l
  | [] => []
  end.

Definition expect (c : byte) (l : bytes) : option bytes :=
  match l with b :: l' => if decide (b = c) then Some l' else None | [] => None end.

Fixpoint expect_all (cs l : bytes) : option bytes :=
  match cs with [] => Some l | c :: cs => l' ← expect c l; expect_all cs l' end.

(** Four hexadecimal digits. *)
Definition hex4 (l : bytes) : option (Z * bytes) :=
  match l with
  | a :: b :: c :: d :: l' =>
      x ← hex_val a; y ← hex_val b; z ← hex_val c; w ← hex_val d;
      Some (x * 4096 + y * 256 + z * 16 + w, l')
  | _ => None
  end.

(** [utf8.EncodeRune] for a code point that is no surrogate. *)
Definition encode_rune (r : Z) : bytes :=
  if decide (r < 128) then [bmk r]
  else if decide (r < 2048) then [bmk (192 + r / 64); bmk (128 + r mod 64)]
  else if decide (r < 65536)
  then [bmk (224 + r / 4096); bmk (128 + r / 64 mod 64); bmk (128 + r mod 64)]
  else [bmk (240 + r / 262144); bmk (128 + r / 4096 mod 64); bmk (128 + r / 64 mod 64);
        bmk (128 + r mod 64)].

(** The rune of a [\u] escape whose digits start [l]: a surrogate pair makes
    one rune, a lone surrogate becomes U+FFFD. *)
Definition parse_u (l : bytes) : option (bytes * bytes) :=
  '(r, l) ← hex4 l;
  if decide (55296 ≤ r < 57344) then
    match l1 ← expect_all ["\"; "u"]%char l; hex4 l1 with
    | Some (r2, l2) =>
        if decide (r < 56320 ∧ 56320 ≤ r2 < 57344)
        then Some (encode_rune ((r - 55296) * 1024 + (r2 - 56320) + 65536), l2)
        else Some (rune_error, l)
    | None => Some (rune_error, l)
    end
  else Some (encode_rune r, l).

Definition unescape (c : byte) : option byte :=
  if decide (c = dquote ∨ c = "\"%char ∨ c = "/"%char) then Some c
  else if decide (c = "b"%char) then Some (bmk 8)
  else if decide (c = "f"%char) then Some (bmk 12)
  else if decide (c = "n"%char) then Some (bmk 10)
  else if decide (c = "r"%char) then Some (bmk 13)
  else if decide (c = "t"%char) then Some (bmk 9)
  else None.

(** What follows the opening quote of a string: its value and the rest. *)
Fixpoint json_unquote (fuel : nat) (l : bytes) : option (bytes * bytes) :=
  match fuel with
  | O => None
  | S fuel' =>
      match l with
      | [] => None
      | c :: l1 =>
          if decide (c = dquote) then Some ([], l1)
          else if decide (c = "\"%char) then
            match l1 with
            | [] => None
            | e :: l2 =>
                if decide (e = "u"%char) then
                  '(r, l3) ← parse_u l2;
                  '(s, rest) ← json_unquote fuel' l3;
                  Some (r ++ s, rest)
                else
                  b ← unescape e;
                  '(s, rest) ← json_unquote fuel' l2;
                  Some (b :: s, rest)
            end
          else if decide (bval c < 32) then None
          else
            match rune_len l with
            | Some n => '(s, rest) ← json_unquote fuel' (drop n l); Some (take n l ++ s, rest)
            | None => '(s, rest) ← json_unquote fuel' l1; Some (rune_error ++ s, rest)
            end
      end
  end.

Definition parse_string (l : bytes) : option (string * bytes) :=
  l ← expect dquote l;
  '(s, rest) ← json_unquote (S (length l)) l;
  Some (of_bytes s, rest).

Fixpoint span_digits (l : bytes) : bytes * bytes :=
  match l with
  | b :: l' => if is_digit b then let '(ds, rest) := span_digits l' in (b :: ds, rest) else ([], l)
  | [] => ([], [])
  end.

(** At least one digit. *)
Definition parse_digits (l : bytes) : option (bytes * bytes) :=
  match span_digits l with ([], _) => None | p => Some p end.

(** The integer part: a single zero or digits. *)
Definition parse_int (l : bytes) : option (bytes * bytes) :=
  match expect "0"%char l with Some l => Some (["0"%char], l) | None => parse_digits l end.

Definition parse_frac (l : bytes) : option (bytes * bytes) :=
  match expect "."%char l with
  | Some l => '(ds, l) ← parse_digits l; Some ("."%char :: ds, l)
  | None => Some ([], l)
  end.

Definition parse_exp (l : bytes) : option (bytes * bytes) :=
  match l with
  | c :: l1 =>
      if decide (c = "e"%char ∨ c = "E"%char) then
        let '(s, l2) := match l1 with
          | d :: l2 => if decide (d = "+"%char ∨ d = "-"%char) then ([d], l2) else ([], l1)
          | [] => ([], [])
          end in
        '(ds, l3) ← parse_digits l2; Some (c :: s ++ ds, l3)
      else Some ([], l)
  | [] => Some ([], [])
  end.

Definition parse_number (l : bytes) : option (string * bytes) :=
  let '(sign, l) := match expect "-"%char l with Some l => (["-"%char], l) | None => ([], l) end in
  '(int, l) ← parse_int l;
  '(frac, l) ← parse_frac l;
  '(exp, l) ← parse_exp l;
  Some (of_bytes (sign ++ int ++ frac ++ exp), l).

Definition maxNestingDepth : Z := 10000.

(** [depth] counts the arrays and objects open around the value. *)
Fixpoint parse_value (fuel : nat) (depth : Z) (l : bytes) : option (json * bytes) :=
  match fuel with
  | O => None
  | S fuel' =>
      let l := skip_space l in
      match l with
      | [] => None
      | c :: l' =>
          if decide (c = "{"%char) then
            if decide (maxNestingDepth < depth + 1) then None else
            match expect "}"%char (skip_space l') with
            | Some rest => Some (JObj [], rest)
            | None => '(ms, rest) ← parse_members fuel' (depth + 1) l'; Some (JObj ms, rest)
            end
          else if decide (c = "["%char) then
            if decide (maxNestingDepth < depth + 1) then None else
            match expect "]"%char (skip_space l') with
            | Some rest => Some (JArr [], rest)
            | None => '(js, rest) ← parse_elems fuel' (depth + 1) l'; Some (JArr js, rest)
            end
          else if decide (c = dquote) then '(s, rest) ← parse_string l; Some (JStr s, rest)
          else if decide (c = "t"%char) then rest ← expect_all (to_bytes "true") l; Some (JBool true, rest)
          else if decide (c = "f"%char) then rest ← expect_all (to_bytes "false") l; Some (JBool false, rest)
          else if decide (c = "n"%char) then rest ← expect_all (to_bytes "null") l; Some (JNull, rest)
          else '(t, rest) ← parse_number l; Some (JNum t, rest)
      end
  end
with parse_elems (fuel : nat) (depth : Z) (l : bytes) : option (list json * bytes) :=
  match fuel with
  | O => None
  | S fuel' =>
      '(j, l) ← parse_value fuel' depth l;
      let l := skip_space l in
      match expect "]"%char l with
      | Some rest => Some ([j], rest)
      | None => l ← expect ","%char l; '(js, rest) ← parse_elems fuel' depth l; Some (j :: js, rest)
      end
  end
with parse_members (fuel : nat) (depth : Z) (l : bytes) : option (list (string * json) * bytes) :=
  match fuel with
  | O => None
  | S fuel' =>
      '(k, l) ← parse_string (skip_space l);
      l ← expect ":"%char (skip_space l);
      '(j, l) ← parse_value fuel' depth l;
      let l := skip_space l in
      match expect "}"%char l with
      | Some rest => Some ([(k, j)], rest)
      | None => l ← expect ","%char l; '(ms, rest) ← parse_members fuel' depth l; Some ((k, j) :: ms, rest)
      end
  end.

(** [checkValid] and the tree it accepts: one value, then only spaces. *)
Definition json_parse (data : bytes) : option json :=
  '(j, rest) ← parse_value (2 * length data + 2) 0 data;
  match skip_space rest with [] => Some j | _ => None end.

(** ** Decoding into typed fields

    A decoder takes the current value of the field, because null leaves it
    alone and a repeated key decodes into what the first one left. *)

Definition decoder (T : Type) : Type := T → json → option T.

Definition dec_string : decoder string := λ cur j,
  match j with JNull => Some cur | JStr s => Some s | _ => None end.
Definition dec_bool : decoder bool := λ cur j,
  match j with JNull => Some cur | JBool b => Some b | _ => None end.
(** A literal that [strconv.ParseInt] refuses, or out of range, is an error. *)
Definition dec_int64 : decoder Z := λ cur j,
  match j with JNull => Some cur | JNum t => Atoi t | _ => None end.

(** The text of the error of a decoder: it depends on the type decoded into
    and on the data.  The code passes it on. *)
Class JsonErrors : Type := { json_error : string → bytes → message }.

(** A pointer: null makes it nil, another value allocates [zero] if needed. *)
Definition dec_ptr {A} (zero : A) (d : decoder A) : decoder (option A) := λ cur j,
  match j with JNull => Some None | _ => Some <$> d (default zero cur) j end.

(** A [map[string]string]: its entries are added to the current map. *)
Definition dec_string_map : decoder (option (gmap string string)) := λ cur j,
  match j with
  | JNull => Some None
  | JObj ms =>
      Some <$> foldl (λ (acc : option (gmap string string)) (m : string * json),
        t ← acc; v ← dec_string "" m.2; Some (<[m.1 := v]> t)) (Some (default ∅ cur)) ms
  | _ => None
  end.

(** [foldName]: ASCII letters in upper case, and the two other runes that
    fold to ASCII letters, U+017F and U+212A. *)
Definition upper (b : byte) : byte := if decide (97 ≤ bval b ≤ 122) then bmk (bval b - 32) else b.
Fixpoint fold_bytes (l : bytes) : bytes :=
  match l with
  | b :: ((c :: l2) as l1) =>
      if decide (bval b = 197 ∧ bval c = 191) then "S"%char :: fold_bytes l2 else
      match l2 with
      | d :: l3 =>
          if decide (bval b = 226 ∧ bval c = 132 ∧ bval d = 170) then "K"%char :: fold_bytes l3
          else upper b :: fold_bytes l1
      | [] => upper b :: fold_bytes l1
      end
  | [b] => [upper b]
  | [] => []
  end.
Definition foldName (s : string) : string := of_bytes (fold_bytes (to_bytes s)).

(** The fields of a struct, by their JSON names. *)
Definition fields (T : Type) : Type := list (string * decoder T).

Definition find_field {T} (fs : fields T) (key : string) : option (decoder T) :=
  match list_find (λ f, f.1 = key) fs with
  | Some (_, f) => Some f.2
  | None => (λ p : nat * (string * decoder T), p.2.2) <$>
              list_find (λ f, foldName f.1 = foldName key) fs
  end.

(** An unknown key is skipped. *)
Definition dec_struct {T} (fs : fields T) : decoder T := λ cur j,
  match j with
  | JNull => Some cur
  | JObj ms =>
      foldl (λ (acc : option T) (m : string * json),
        cur ← acc; match find_field fs m.1 with Some d => d cur m.2 | None => Some cur end) (Some cur) ms
  | _ => None
  end.

(** A slice is its length and its backing array: decoding again into a slice
    decodes into the elements that are already there. *)
Fixpoint dec_elems {A} (zero : A) (d : decoder A) (backing : list A) (js : list json) : option (list A) :=
  match js with
  | [] => Some []
  | j :: js =>
      x ← d (hd zero backing) j;
      xs ← dec_elems zero d (tail backing) js;
      Some (x :: xs)
  end.

Definition dec_slice {A} (zero : A) (d : decoder A) : decoder (nat * list A) := λ cur j,
  match j with
  | JNull => Some (0%nat, [])
  | JArr [] => Some (0%nat, [])
  | JArr js => xs ← dec_elems zero d cur.2 js; Some (length js, xs ++ drop (length js) cur.2)
  | _ => None
  end.

(** Encoders. *)
Definition enc_int (z : Z) : json := JNum (Itoa z).
Definition enc_string_map (t : option (gmap string string)) : json :=
  match t with
  | None => JNull
  | Some t => JObj ((λ k, (k, JStr (default "" (t !! k)))) <$> sorted_keys t)
  end.
(** A field with [omitempty]. *)
Definition omitempty (empty : bool) (name : string) (j : json) : list (string * json) :=
  if empty then [] else [(name, j)].

(** ** Strings: reading what the encoder wrote coerces to UTF-8 *)

Lemma json_unquote_ascii b fuel m :
  bval b < 128 →
  json_unquote (S fuel) (json_escape b ++ m) =
    '(s, rest) ← json_unquote fuel m; Some (b :: s, rest).
Proof.
  intros Hb. destruct b as [[][][][][][][][]]; try reflexivity.
  all: exfalso; revert Hb; vm_compute; discriminate.
Qed.

Lemma rune_len_pos l n : rune_len l = Some n → (0 < n ≤ length l)%nat.
Proof.
  unfold rune_len. intros H. repeat case_match; simplify_eq/=; lia.
Qed.

Lemma rune_len_prefix l n m : rune_len l = Some n → rune_len (take n l ++ m) = Some n.
Proof.
  destruct l as [|a [|b [|c [|d l]]]]; intros H; unfold rune_len in H;
    repeat case_match; simplify_eq; cbn [take app rune_len];
    repeat match goal with H : _ = _ |- _ => rewrite H end; done.
Qed.

Lemma json_unquote_rune l n fuel m :
  rune_len l = Some n → 128 ≤ bval (hd (bmk 0) l) →
  json_unquote (S fuel) (take n l ++ m) =
    '(s, rest) ← json_unquote fuel m; Some (take n l ++ s, rest).
Proof.
  intros Hn Hhd. pose proof (rune_len_pos _ _ Hn) as Hpos.
  pose proof (rune_len_prefix _ _ m Hn) as Hpre.
  destruct l as [|a l]; [simpl in Hpos; lia|]. destruct n as [|n]; [lia|]. simpl in Hhd.
  cbn [take app] in *. cbn [json_unquote].
  assert (∀ c, bval c < 128 → a ≠ c) as Hne by (intros c Hc ->; lia).
  rewrite decide_False by (apply Hne; by vm_compute).
  rewrite decide_False by (apply Hne; by vm_compute).
  rewrite decide_False by lia. rewrite Hpre.
  assert (length l ≥ n)%nat by (simpl in Hpos; lia).
  assert (length (take n l) = n) by (rewrite length_take; lia).
  change (a :: take n l ++ m) with ((a :: take n l) ++ m).
  rewrite (drop_app_length' (a :: take n l) m (S n)) by (simpl; lia).
  by rewrite (take_app_length' (a :: take n l) m (S n)) by (simpl; lia).
Qed.

Lemma json_unquote_ufffd fuel m :
  json_unquote (S fuel) (to_bytes "\ufffd" ++ m) =
    '(s, rest) ← json_unquote fuel m; Some (rune_error ++ s, rest).
Proof. reflexivity. Qed.
Lemma json_unquote_u2028 fuel m :
  json_unquote (S fuel) (to_bytes "\u2028" ++ m) =
    '(s, rest) ← json_unquote fuel m; Some (line_separator ++ s, rest).
Proof. reflexivity. Qed.
Lemma json_unquote_u2029 fuel m :
  json_unquote (S fuel) (to_bytes "\u2029" ++ m) =
    '(s, rest) ← json_unquote fuel m; Some (paragraph_separator ++ s, rest).
Proof. reflexivity. Qed.

Lemma json_escape_length b : (0 < length (json_escape b))%nat.
Proof. unfold json_escape. repeat case_decide; simpl; lia. Qed.

Lemma json_unquote_print n l fuel rest :
  (length l ≤ n)%nat → (length (json_string_go n l) < fuel)%nat →
  json_unquote fuel (json_string_go n l ++ dquote :: rest) = Some (utf8_coerce_go n l, rest).
Proof.
  revert l fuel. induction n as [|n IH]; intros l fuel Hn Hf.
  { destruct fuel; [simpl in Hf; lia|]. by destruct l. }
  destruct l as [|b l]; [destruct fuel; [simpl in Hf; lia|done]|].
  cbn [json_string_go utf8_coerce_go] in *. simpl in Hn.
  destruct fuel as [|fuel]; [lia|].
  destruct (decide (bval b < 128)) as [Hb|Hb].
  - pose proof (json_escape_length b). rewrite length_app in Hf.
    rewrite <-app_assoc, json_unquote_ascii by done. rewrite IH by lia.
    assert (rune_len (b :: l) = Some 1%nat) as ->.
    { unfold rune_len, in_range. pose proof (bval_range b).
      replace ((0 <=? bval b) && (bval b <=? 127)) with true by lia. done. }
    simpl. by rewrite drop_0.
  - destruct (rune_len (b :: l)) as [k|] eqn:Hk.
    + pose proof (rune_len_pos _ _ Hk) as Hkl. simpl in Hkl.
      assert (length (drop k (b :: l)) ≤ n)%nat by (rewrite length_drop; simpl; lia).
      destruct (decide (take k (b :: l) = line_separator)) as [Hls|_];
        [|destruct (decide (take k (b :: l) = paragraph_separator)) as [Hps|_]];
        rewrite length_app in Hf; rewrite <-app_assoc.
      * rewrite json_unquote_u2028. simpl in Hf. rewrite IH by lia. by rewrite Hls.
      * rewrite json_unquote_u2029. simpl in Hf. rewrite IH by lia. by rewrite Hps.
      * rewrite json_unquote_rune by (done || (simpl; lia)).
        rewrite length_take in Hf. rewrite IH; [done|done|simpl in *; lia].
    + rewrite length_app in Hf. rewrite <-app_assoc, json_unquote_ufffd. simpl in Hf.
      by rewrite IH by lia.
Qed.

Lemma parse_string_print s rest :
  parse_string (json_print_string s ++ rest) = Some (utf8_coerce s, rest).
Proof.
  unfold parse_string, json_print_string. cbn [app expect]. rewrite decide_True by done.
  cbn [mbind option_bind]. rewrite <-app_assoc. cbn [app].
  rewrite json_unquote_print; [done|by rewrite length_to_bytes|].
  rewrite length_app. lia.
Qed.

(** ** Numbers *)

Lemma span_digits_all ds rest :
  Forall is_digit ds → match rest with [] => True | c :: _ => is_digit c = false end →
  span_digits (ds ++ rest) = (ds, rest).
Proof.
  intros Hds Hr. induction Hds as [|d ds Hd _ IH]; simpl.
  - destruct rest as [|c rest]; [done|]. simpl. by rewrite Hr.
  - rewrite (Is_true_true_1 _ Hd). by rewrite IH.
Qed.

(** What can follow a value the encoder wrote. *)
Definition delim (rest : bytes) : Prop :=
  match rest with [] => True | c :: _ => c = ","%char ∨ c = "]"%char ∨ c = "}"%char end.

Lemma delim_no_digit rest :
  delim rest → match rest with [] => True | c :: _ => is_digit c = false end.
Proof. destruct rest as [|c rest]; [done|]. by intros [->|[->| ->]]. Qed.

Lemma parse_frac_delim rest : delim rest → parse_frac rest = Some ([], rest).
Proof. destruct rest as [|c rest]; [done|]. by intros [->|[->| ->]]. Qed.
Lemma parse_exp_delim rest : delim rest → parse_exp rest = Some ([], rest).
Proof. destruct rest as [|c rest]; [done|]. by intros [->|[->| ->]]. Qed.

Lemma parse_int_digits d l rest :
  0 ≤ d < 10 → Forall is_digit l → (d = 0 → l = []) → delim rest →
  parse_int (bmk (48 + d) :: l ++ rest) = Some (bmk (48 + d) :: l, rest).
Proof.
  intros Hd Hl Hz Hr%delim_no_digit. unfold parse_int. cbn [expect]. case_decide as H0.
  - assert (d = 0) as ->.
    { apply (f_equal bval) in H0. rewrite bval_bmk, Z.mod_small in H0 by lia.
      change (bval "0"%char) with 48 in H0. lia. }
    by rewrite Hz.
  - unfold parse_digits. rewrite app_comm_cons, span_digits_all; [done| |done].
    constructor; [|done]. by rewrite is_digit_bmk.
Qed.

Lemma parse_number_Itoa z rest :
  delim rest → parse_number (to_bytes (Itoa z) ++ rest) = Some (Itoa z, rest).
Proof.
  intros Hr. unfold Itoa. rewrite to_of_bytes. unfold parse_number.
  destruct (decide (z < 0)) as [Hz|Hz].
  - destruct (itoa_digits (- z)) as (d & l & -> & Hd & Hl & H0); [lia|].
    cbn [app expect]. rewrite decide_True, parse_int_digits by done. cbn [mbind option_bind].
    rewrite parse_frac_delim by done. cbn [mbind option_bind].
    rewrite parse_exp_delim by done. cbn [mbind option_bind]. by rewrite !app_nil_r.
  - destruct (itoa_digits z) as (d & l & -> & Hd & Hl & H0); [lia|].
    destruct (digit_not_sign d Hd) as [Hm _].
    cbn [app expect]. rewrite decide_False, parse_int_digits by done. cbn [mbind option_bind].
    rewrite parse_frac_delim by done. cbn [mbind option_bind].
    rewrite parse_exp_delim by done. cbn [mbind option_bind]. by rewrite !app_nil_r.
Qed.

(** The first byte of a number is a sign or a digit. *)
Lemma Itoa_head z : ∃ c l, to_bytes (Itoa z) = c :: l ∧ (c = "-"%char ∨ is_digit c = true).
Proof.
  unfold Itoa. rewrite to_of_bytes. case_decide; [eauto|].
  destruct (itoa_digits z) as (d & l & -> & Hd & _); [lia|].
  do 2 eexists. split; [done|]. right. by apply is_digit_bmk.
Qed.

(** ** Values *)

Section json_ind.
Context (P : json → Prop).
Context (HNull : P JNull) (HBool : ∀ b, P (JBool b)) (HNum : ∀ t, P (JNum t)).
Context (HStr : ∀ s, P (JStr s)).
Context (HArr : ∀ l, Forall P l → P (JArr l)).
Context (HObj : ∀ l : list (string * json), Forall (λ m, P m.2) l → P (JObj l)).

Fixpoint json_rect' (j : json) : P j :=
  match j with
  | JNull => HNull
  | JBool b => HBool b
  | JNum t => HNum t
  | JStr s => HStr s
  | JArr l => HArr l ((fix go l : Forall P l :=
      match l with
      | [] => Forall_nil_2 P
      | j :: l => Forall_cons_2 P j l (json_rect' j) (go l)
      end) l)
  | JObj l => HObj l ((fix go l : Forall (λ m : string * json, P m.2) l :=
      match l with
      | [] => Forall_nil_2 _
      | m :: l => Forall_cons_2 (λ m : string * json, P m.2) m l (json_rect' m.2) (go l)
      end) l)
  end.
End json_ind.

(** What reading back a written tree yields: its strings as UTF-8. *)
Fixpoint json_coerce (j : json) : json :=
  match j with
  | JStr s => JStr (utf8_coerce s)
  | JArr l => JArr (map json_coerce l)
  | JObj l => JObj (map (λ m : string * json, (utf8_coerce m.1, json_coerce m.2)) l)
  | j => j
  end.

Fixpoint json_height (j : json) : Z :=
  match j with
  | JArr l => 1 + foldr (λ j h, Z.max (json_height j) h) 0 l
  | JObj l => 1 + foldr (λ (m : string * json) h, Z.max (json_height m.2) h) 0 l
  | _ => 0
  end.

(** Every number is a decimal integer. *)
Fixpoint json_integral (j : json) : Prop :=
  match j with
  | JNum t => ∃ z, t = Itoa z
  | JArr l => foldr (λ j P, json_integral j ∧ P) True l
  | JObj l => foldr (λ (m : string * json) P, json_integral m.2 ∧ P) True l
  | _ => True
  end.

Definition prints_back (j : json) : Prop := ∀ fuel depth rest,
  depth + json_height j ≤ maxNestingDepth → delim rest →
  (2 * length (json_print j) ≤ fuel)%nat →
  parse_value fuel depth (json_print j ++ rest) = Some (json_coerce j, rest).

Lemma json_print_head j :
  json_integral j →
  ∃ c l, json_print j = c :: l ∧ is_space c = false ∧ c ≠ "]"%char ∧ c ≠ "}"%char.
Proof.
  destruct j as [|[]|t|s|l|l]; intros Hj; try by do 2 eexists.
  destruct Hj as [z ->]. destruct (Itoa_head z) as (c & l & Heq & Hc). exists c, l. cbn [json_print].
  split; [done|]. destruct Hc as [->|Hc]; [done|].
  unfold is_digit in Hc.
  split_and!; [|intros ->; by vm_compute in Hc..].
  unfold is_space. apply bool_decide_false. lia.
Qed.

Lemma skip_space_head c l : is_space c = false → skip_space (c :: l) = c :: l.
Proof. intros H. simpl. by rewrite H. Qed.
Lemma skip_space_delim rest : delim rest → skip_space rest = rest.
Proof. destruct rest as [|c rest]; [done|]. by intros [->|[->| ->]]. Qed.

Lemma parse_elems_print js fuel depth rest :
  js ≠ [] → Forall json_integral js → Forall prints_back js →
  Forall (λ j, depth + json_height j ≤ maxNestingDepth) js →
  (2 * length (json_join "]"%char (map json_print js)) ≤ fuel)%nat →
  parse_elems fuel depth (json_join "]"%char (map json_print js) ++ rest) =
    Some (map json_coerce js, rest).
Proof.
  intros Hne Hint Hpb Hd. revert fuel.
  induction js as [|j js IH]; intros fuel Hf; [done|].
  apply Forall_cons in Hint as [Hi Hint]. apply Forall_cons in Hpb as [Hp Hpb].
  apply Forall_cons in Hd as [Hj Hd].
  destruct js as [|j2 js].
  - simpl in Hf. rewrite length_app in Hf. simpl in Hf. destruct fuel as [|fuel]; [lia|].
    cbn [map json_join parse_elems]. rewrite <-app_assoc.
    rewrite Hp by (done || lia || (simpl; tauto)). reflexivity.
  - change (json_join "]"%char (map json_print (j :: j2 :: js)))
      with (json_print j ++ ","%char :: json_join "]"%char (map json_print (j2 :: js))) in *.
    rewrite length_app in Hf. simpl length in Hf at 1. destruct fuel as [|fuel]; [simpl in Hf; lia|].
    cbn [parse_elems]. rewrite <-app_assoc. cbn [length] in Hf.
    rewrite Hp by (done || lia || (simpl; tauto)). cbn [mbind option_bind app].
    rewrite skip_space_head by done. cbn [expect].
    rewrite decide_False by done. rewrite decide_True by done. cbn [mbind option_bind].
    rewrite IH by (done || lia). done.
Qed.

Definition print_member (m : string * json) : bytes :=
  json_print_string m.1 ++ ":"%char :: json_print m.2.
Definition coerce_member (m : string * json) : string * json :=
  (utf8_coerce m.1, json_coerce m.2).

Lemma parse_members_print ms fuel depth rest :
  ms ≠ [] → Forall (λ m, json_integral m.2) ms → Forall (λ m, prints_back m.2) ms →
  Forall (λ m, depth + json_height m.2 ≤ maxNestingDepth) ms →
  (2 * length (json_join "}"%char (map print_member ms)) ≤ fuel)%nat →
  parse_members fuel depth (json_join "}"%char (map print_member ms) ++ rest) =
    Some (map coerce_member ms, rest).
Proof.
  intros Hne Hint Hpb Hd. revert fuel.
  induction ms as [|[k j] ms IH]; intros fuel Hf; [done|].
  apply Forall_cons in Hint as [Hi Hint]. apply Forall_cons in Hpb as [Hp Hpb].
  apply Forall_cons in Hd as [Hj Hd]. cbn [snd] in *.
  assert (∀ m, skip_space (json_print_string k ++ m) = json_print_string k ++ m) as Hsk by done.
  destruct ms as [|m2 ms].
  - cbn [map json_join] in *. unfold print_member in *. cbn [fst snd] in *.
    rewrite !length_app in Hf. simpl length in Hf. destruct fuel as [|fuel]; [lia|].
    cbn [parse_members]. rewrite <-!app_assoc, Hsk, parse_string_print. cbn [mbind option_bind app].
    rewrite skip_space_head by done. cbn [expect]. rewrite decide_True by done.
    cbn [mbind option_bind].
    rewrite Hp by (done || lia || (simpl; tauto)). reflexivity.
  - change (json_join "}"%char (map print_member ((k, j) :: m2 :: ms)))
      with (print_member (k, j) ++ ","%char :: json_join "}"%char (map print_member (m2 :: ms))) in *.
    unfold print_member at 1 in Hf. unfold print_member at 1. cbn [fst snd] in *.
    rewrite !length_app in Hf. cbn [length] in Hf.
    destruct fuel as [|fuel]; [lia|].
    cbn [parse_members]. rewrite <-!app_assoc, Hsk, parse_string_print. cbn [mbind option_bind app].
    rewrite skip_space_head by done. cbn [expect]. rewrite decide_True by done.
    cbn [mbind option_bind]. cbn [app].
    rewrite Hp by (done || lia || (simpl; tauto)). cbn [mbind option_bind].
    rewrite skip_space_head by done. cbn [expect]. rewrite decide_False by done.
    rewrite decide_True by done. cbn [mbind option_bind].
    rewrite IH by (done || lia). done.
Qed.

Lemma Forall_foldr_and {A} (P : A → Prop) l : foldr (λ x Q, P x ∧ Q) True l → Forall P l.
Proof. induction l; simpl; [constructor|]. intros [? ?]. constructor; auto. Qed.

Lemma height_bound {A} (h : A → Z) l x : x ∈ l → h x ≤ foldr (λ x m, Z.max (h x) m) 0 l.
Proof. induction 1; simpl; lia. Qed.

Lemma Forall_height {A} (h : A → Z) (l : list A) depth :
  depth + (1 + foldr (λ x m, Z.max (h x) m) 0 l) ≤ maxNestingDepth →
  Forall (λ x, depth + 1 + h x ≤ maxNestingDepth) l.
Proof. intros H. apply Forall_forall. intros x Hx%(height_bound h). lia. Qed.

Lemma foldr_max_nonneg {A} (h : A → Z) l : 0 ≤ foldr (λ x m, Z.max (h x) m) 0 l.
Proof. induction l; simpl; lia. Qed.

Lemma join_head {A} close (pr : A → bytes) x (l : list A) c p :
  pr x = c :: p → ∃ q, json_join close (map pr (x :: l)) = c :: q.
Proof. intros Hx. destruct l; simpl; rewrite Hx; simpl; eauto. Qed.

Lemma parse_value_scalar fuel depth c l rest (j : json) :
  is_space c = false → c ≠ "{"%char → c ≠ "["%char → c ≠ dquote →
  c ≠ "t"%char → c ≠ "f"%char → c ≠ "n"%char → (0 < fuel)%nat →
  parse_value fuel depth (c :: l ++ rest) = '(t, rest) ← parse_number (c :: l ++ rest); Some (JNum t, rest).
Proof.
  intros Hs. intros. destruct fuel as [|fuel]; [lia|].
  cbn [parse_value]. rewrite skip_space_head by done. by rewrite !decide_False by done.
Qed.

Lemma parse_value_print j : json_integral j → prints_back j.
Proof.
  induction j as [|b|t|s|l IH|l IH] using json_rect'; intros Hi fuel depth rest Hd Hr Hf.
  - destruct fuel; [simpl in Hf; lia|]. reflexivity.
  - destruct b; (destruct fuel; [simpl in Hf; lia|]); reflexivity.
  - destruct Hi as [z ->]. cbn [json_print json_coerce] in *.
    pose proof (parse_number_Itoa z rest Hr) as Hn.
    destruct (Itoa_head z) as (c & l & Heq & Hc). rewrite Heq in *. cbn [app] in *.
    assert (∀ x, is_digit x = false → x ≠ "-"%char → c ≠ x) as Hne.
    { intros x Hx Hm ->. destruct Hc as [->|Hc]; [done|congruence]. }
    assert (is_space c = false).
    { destruct Hc as [->|Hc]; [done|]. unfold is_space, is_digit in *.
      apply bool_decide_false. lia. }
    rewrite parse_value_scalar; [by rewrite Hn|exact JNull|done|apply Hne; done..|].
    simpl in Hf. lia.
  - cbn [json_print json_coerce] in *. destruct fuel as [|fuel]; [simpl in Hf; lia|].
    cbn [parse_value].
    assert (skip_space (json_print_string s ++ rest) = json_print_string s ++ rest) as -> by done.
    rewrite parse_string_print. done.
  - cbn [json_print json_coerce] in *. destruct fuel as [|fuel]; [simpl in Hf; lia|].
    cbn [app parse_value]. rewrite skip_space_head by done.
    rewrite decide_False by done. rewrite decide_True by done.
    cbn [json_height] in Hd. pose proof (foldr_max_nonneg json_height l).
    rewrite decide_False by lia. apply Forall_foldr_and in Hi.
    destruct l as [|x l]; [done|].
    assert (∃ c q, json_join "]"%char (map json_print (x :: l)) = c :: q ∧
      is_space c = false ∧ c ≠ "]"%char) as (c & q & Hjoin & Hsp & Hbr).
    { apply Forall_cons in Hi as [Hx _]. destruct (json_print_head x Hx) as (c & p & Hp & ? & ? & _).
      destruct (join_head "]"%char json_print x l c p Hp) as [q Hq]. eauto. }
    rewrite Hjoin. cbn [app]. rewrite skip_space_head by done.
    cbn [expect]. rewrite decide_False by done.
    assert (c :: q ++ rest = json_join "]"%char (map json_print (x :: l)) ++ rest) as ->
      by (by rewrite Hjoin).
    rewrite parse_elems_print; [done|done|done| | |].
    + clear -IH Hi. induction IH; constructor; apply Forall_cons in Hi as [? ?]; auto.
    + by apply (Forall_height json_height).
    + cbn [length] in Hf. lia.
  - cbn [json_print json_coerce] in *. destruct fuel as [|fuel]; [simpl in Hf; lia|].
    cbn [app parse_value]. rewrite skip_space_head by done. rewrite decide_True by done.
    cbn [json_height] in Hd. pose proof (foldr_max_nonneg (λ m : string * json, json_height m.2) l).
    rewrite decide_False by lia. apply (Forall_foldr_and (λ m : string * json, json_integral m.2)) in Hi.
    destruct l as [|x l]; [done|].
    destruct (join_head "}"%char print_member x l dquote
      (tail (print_member x))) as [q Hjoin]; [done|].
    change (map (λ m : string * json, json_print_string m.1 ++ ":"%char :: json_print m.2) (x :: l))
      with (map print_member (x :: l)) in *.
    rewrite Hjoin. cbn [app]. rewrite skip_space_head by done.
    cbn [expect]. rewrite decide_False by done.
    assert (dquote :: q ++ rest = json_join "}"%char (map print_member (x :: l)) ++ rest) as ->
      by (by rewrite Hjoin).
    rewrite parse_members_print; [done|done|done| | |].
    + clear -IH Hi. induction IH; constructor; apply Forall_cons in Hi as [? ?]; auto.
    + by apply (Forall_height (λ m : string * json, json_height m.2)).
    + cbn [length] in Hf. lia.
Qed.

(** Parsing what was printed gives the tree back, its strings as UTF-8. *)
Lemma json_parse_print j :
  json_integral j → json_height j ≤ maxNestingDepth → json_parse (json_print j) = Some (json_coerce j).
Proof.
  intros Hi Hh. unfold json_parse. rewrite <-(app_nil_r (json_print j)) at 2.
  rewrite parse_value_print by (done || lia). done.
Qed.

(** ** The fuel of [json_parse] is enough: more of it never changes the result *)

Lemma skip_space_length l : (length (skip_space l) ≤ length l)%nat.
Proof. induction l as [|b l IH]; simpl; [done|]. case_match; simpl; lia. Qed.

Lemma expect_length c l r : expect c l = Some r → length l = S (length r).
Proof. destruct l as [|b l]; [done|]. simpl. case_decide; naive_solver. Qed.

Lemma expect_all_length cs l r : expect_all cs l = Some r → length l = (length cs + length r)%nat.
Proof.
  revert l. induction cs as [|c cs IH]; intros l; [by intros [= ->]|].
  cbn [expect_all]. intros (l' & Hl%expect_length & Hr%IH)%bind_Some. simpl. lia.
Qed.

Lemma parse_u_length l r rest : parse_u l = Some (r, rest) → (length rest < length l)%nat.
Proof.
  unfold parse_u. intros ([x l1] & Hh & H)%bind_Some.
  assert (∀ m y m', hex4 m = Some (y, m') → (length m' < length m)%nat) as Hhex.
  { intros m y m' Hm. destruct m as [|? [|? [|? [|? m]]]]; try done.
    cbn [hex4] in Hm. repeat (apply bind_Some in Hm as (? & _ & Hm)). simplify_eq. simpl. lia. }
  apply Hhex in Hh. case_decide; [|by simplify_eq].
  destruct (l1 ← expect_all _ l1; hex4 l1) as [[r2 l2]|] eqn:H2; [|by simplify_eq].
  apply bind_Some in H2 as (l3 & Hl3%expect_all_length & Hl2%Hhex).
  case_decide; simplify_eq; lia.
Qed.

Lemma json_unquote_length fuel l s rest :
  json_unquote fuel l = Some (s, rest) → (length rest < length l)%nat.
Proof.
  revert l s rest. induction fuel as [|fuel IH]; intros l s rest H; [done|].
  cbn [json_unquote] in H. destruct l as [|c l1]; [done|].
  repeat case_decide; simplify_eq; try (simpl; lia).
  - destruct l1 as [|e l2]; [done|]. case_decide.
    + apply bind_Some in H as ([r l3] & Hu%parse_u_length & H).
      apply bind_Some in H as ([s' rest'] & Hr%IH & H). simplify_eq. simpl. lia.
    + apply bind_Some in H as (b & _ & H). apply bind_Some in H as ([s' rest'] & Hr%IH & H).
      simplify_eq. simpl. lia.
  - destruct (rune_len (c :: l1)) as [n|] eqn:Hn.
    + apply bind_Some in H as ([s' rest'] & Hr%IH & H). simplify_eq.
      rewrite length_drop in Hr. lia.
    + apply bind_Some in H as ([s' rest'] & Hr%IH & H). simplify_eq. simpl. lia.
Qed.

Lemma parse_string_length l s rest : parse_string l = Some (s, rest) → (length rest < length l)%nat.
Proof.
  unfold parse_string. intros (l1 & Hl%expect_length & H)%bind_Some.
  apply bind_Some in H as ([s' r] & Hr%json_unquote_length & H). simplify_eq. lia.
Qed.

Lemma span_digits_length l ds rest :
  span_digits l = (ds, rest) → length l = (length ds + length rest)%nat.
Proof.
  revert ds rest. induction l as [|b l IH]; intros ds rest; simpl; [by intros [= <- <-]|].
  destruct (is_digit b); [|by intros [= <- <-]].
  destruct (span_digits l) as [ds' r]. intros [= <- <-]. simpl. by rewrite (IH _ _ eq_refl).
Qed.

Lemma parse_digits_length l ds rest : parse_digits l = Some (ds, rest) → (length rest < length l)%nat.
Proof.
  unfold parse_digits. destruct (span_digits l) as [[|d ds'] r] eqn:H; [done|].
  intros [= <- <-]. apply span_digits_length in H. simpl in H. lia.
Qed.

Lemma parse_number_length l t rest : parse_number l = Some (t, rest) → (length rest < length l)%nat.
Proof.
  unfold parse_number. destruct (match expect "-"%char l with Some l => _ | None => _ end)
    as [sign l1] eqn:Hs.
  assert (length l1 ≤ length l)%nat.
  { destruct (expect "-"%char l) eqn:He; simplify_eq; [|done]. apply expect_length in He. lia. }
  intros ([int l2] & Hint & H')%bind_Some. apply bind_Some in H' as ([fr l3] & Hfr & H').
  apply bind_Some in H' as ([ex l4] & Hex & H'). simplify_eq.
  assert (length l2 < length l1)%nat.
  { unfold parse_int in Hint. destruct (expect "0"%char l1) eqn:He; simplify_eq.
    - apply expect_length in He. lia.
    - by eapply parse_digits_length. }
  assert (length l3 ≤ length l2)%nat.
  { unfold parse_frac in Hfr. destruct (expect "."%char l2) eqn:He; simplify_eq; [|done].
    apply expect_length in He. apply bind_Some in Hfr as ([ds l5] & Hd%parse_digits_length & ?).
    simplify_eq. lia. }
  assert (length rest ≤ length l3)%nat; [|lia].
  unfold parse_exp in Hex. destruct l3 as [|c l3]; [by simplify_eq|]. case_decide; [|by simplify_eq].
  destruct (match l3 with [] => _ | d :: l2 => _ end) as [sg l6] eqn:Hsg.
  apply bind_Some in Hex as ([ds l5] & Hd%parse_digits_length & ?). simplify_eq.
  destruct l3 as [|d l3]; simplify_eq; [simpl in *; lia|]. case_decide; simplify_eq; simpl in *; lia.
Qed.

Definition shrinks {A} (p : bytes → option (A * bytes)) : Prop :=
  ∀ l a rest, p l = Some (a, rest) → (length rest < length l)%nat.

Lemma parse_shrinks fuel depth :
  shrinks (parse_value fuel depth) ∧ shrinks (parse_elems fuel depth) ∧
  shrinks (parse_members fuel depth).
Proof.
  revert depth. induction fuel as [|fuel IH]; intros depth; [done|].
  destruct (IH (depth + 1)) as (_ & HE & HM). destruct (IH depth) as (HV & HE0 & HM0).
  split_and!; intros l a rest H.
  - cbn [parse_value] in H. pose proof (skip_space_length l) as Hsp.
    destruct (skip_space l) as [|c l']; [done|]. cbn [length] in Hsp.
    pose proof (skip_space_length l').
    repeat case_decide; try done.
    + destruct (expect _ (skip_space l')) eqn:He; [apply expect_length in He; simplify_eq; lia|].
      apply bind_Some in H as ([ms l1] & Hx%HM & H). simplify_eq. lia.
    + destruct (expect _ (skip_space l')) eqn:He; [apply expect_length in He; simplify_eq; lia|].
      apply bind_Some in H as ([js l1] & Hx%HE & H). simplify_eq. lia.
    + apply bind_Some in H as ([t l1] & Hx%parse_string_length & H). simplify_eq. simpl in *. lia.
    + apply bind_Some in H as (l1 & Hx%expect_all_length & H). simplify_eq. simpl in *. lia.
    + apply bind_Some in H as (l1 & Hx%expect_all_length & H). simplify_eq. simpl in *. lia.
    + apply bind_Some in H as (l1 & Hx%expect_all_length & H). simplify_eq. simpl in *. lia.
    + apply bind_Some in H as ([t l1] & Hx%parse_number_length & H). simplify_eq. simpl in *. lia.
  - cbn [parse_elems] in H. apply bind_Some in H as ([j l1] & Hj%HV & H).
    pose proof (skip_space_length l1).
    destruct (expect _ (skip_space l1)) eqn:He; [apply expect_length in He; simplify_eq; lia|].
    apply bind_Some in H as (l2 & Hl2%expect_length & H).
    apply bind_Some in H as ([js l3] & Hl3%HE0 & H). simplify_eq. lia.
  - cbn [parse_members] in H. apply bind_Some in H as ([k l0] & Hk%parse_string_length & H).
    pose proof (skip_space_length l). pose proof (skip_space_length l0).
    apply bind_Some in H as (l1 & Hl1%expect_length & H).
    apply bind_Some in H as ([j l2] & Hj%HV & H). pose proof (skip_space_length l2).
    destruct (expect _ (skip_space l2)) eqn:He; [apply expect_length in He; simplify_eq; lia|].
    apply bind_Some in H as (l3 & Hl3%expect_length & H).
    apply bind_Some in H as ([js l4] & Hl4%HM0 & H). simplify_eq. lia.
Qed.

Lemma parse_elems_S fuel depth l :
  parse_elems (S fuel) depth l =
    ('(j, l) ← parse_value fuel depth l;
     let l := skip_space l in
     match expect "]"%char l with
     | Some rest => Some ([j], rest)
     | None => l ← expect ","%char l; '(js, rest) ← parse_elems fuel depth l; Some (j :: js, rest)
     end).
Proof. reflexivity. Qed.
Lemma parse_members_S fuel depth l :
  parse_members (S fuel) depth l =
    ('(k, l) ← parse_string (skip_space l);
     l ← expect ":"%char (skip_space l);
     '(j, l) ← parse_value fuel depth l;
     let l := skip_space l in
     match expect "}"%char l with
     | Some rest => Some ([(k, j)], rest)
     | None => l ← expect ","%char l; '(ms, rest) ← parse_members fuel depth l; Some ((k, j) :: ms, rest)
     end).
Proof. reflexivity. Qed.

Lemma parse_fuel_enough n : ∀ fuel depth l, (length l ≤ n)%nat →
  ((2 * length l + 1 ≤ fuel)%nat → parse_value (S fuel) depth l = parse_value fuel depth l) ∧
  ((2 * length l + 2 ≤ fuel)%nat → parse_elems (S fuel) depth l = parse_elems fuel depth l) ∧
  ((2 * length l + 2 ≤ fuel)%nat → parse_members (S fuel) depth l = parse_members fuel depth l).
Proof.
  induction n as [n IH] using lt_wf_ind. intros fuel depth l Hn.
  assert (∀ fuel depth, (2 * length l + 1 ≤ fuel)%nat →
    parse_value (S fuel) depth l = parse_value fuel depth l) as HV.
  { intros [|f] d Hf; [lia|]. pose proof (skip_space_length l) as Hsp.
    remember (S f) as f1 eqn:Hf1. rewrite Hf1 at 2. cbn [parse_value].
    destruct (skip_space l) as [|c l']; [done|]. cbn [length] in Hsp.
    destruct (IH (length l') ltac:(lia) f (d + 1) l' ltac:(lia)) as (_ & HE & HM).
    subst f1. rewrite HE, HM by lia. done. }
  split; [apply HV|]. split; (destruct fuel as [|f]; [lia|]); intros Hf.
  - rewrite !parse_elems_S. rewrite HV by lia.
    destruct (parse_value f depth l) as [[j l1]|] eqn:Hj; [|done]. cbn [mbind option_bind].
    apply (proj1 (parse_shrinks f depth)) in Hj. pose proof (skip_space_length l1).
    destruct (expect "]"%char (skip_space l1)); [done|].
    destruct (expect ","%char (skip_space l1)) as [l2|] eqn:Hl2; [|done]. cbn [mbind option_bind].
    apply expect_length in Hl2.
    destruct (IH (length l2) ltac:(lia) f depth l2 ltac:(lia)) as (_ & HE & _).
    by rewrite HE by lia.
  - rewrite !parse_members_S. pose proof (skip_space_length l).
    destruct (parse_string (skip_space l)) as [[k l0]|] eqn:Hk; [|done]. cbn [mbind option_bind].
    apply parse_string_length in Hk. pose proof (skip_space_length l0).
    destruct (expect ":"%char (skip_space l0)) as [l1|] eqn:Hl1; [|done]. cbn [mbind option_bind].
    apply expect_length in Hl1.
    destruct (IH (length l1) ltac:(lia) f depth l1 ltac:(lia)) as (HV1 & _ & _).
    rewrite HV1 by lia.
    destruct (parse_value f depth l1) as [[j l2]|] eqn:Hj; [|done]. cbn [mbind option_bind].
    apply (proj1 (parse_shrinks f depth)) in Hj. pose proof (skip_space_length l2).
    destruct (expect "}"%char (skip_space l2)); [done|].
    destruct (expect ","%char (skip_space l2)) as [l3|] eqn:Hl3; [|done]. cbn [mbind option_bind].
    apply expect_length in Hl3.
    destruct (IH (length l3) ltac:(lia) f depth l3 ltac:(lia)) as (_ & _ & HM).
    by rewrite HM by lia.
Qed.

Lemma json_parse_fuel extra data :
  parse_value (extra + (2 * length data + 2)) 0 data = parse_value (2 * length data + 2) 0 data.
Proof.
  induction extra as [|extra IH]; [done|]. rewrite <-IH.
  apply (parse_fuel_enough (length data)); lia.
Qed.
