(* ===== verification/JsonFacts.v ===== *)
(** * Facts about decoders and encoders

    Field by field steps of [dec_struct], slices with their backing arrays,
    string maps, and the invariants that decoding keeps. *)

From S2P Require Import Prelude GoStrings GoUtf8 GoJson.

(** ** Structs *)

Lemma utf8_coerce_valid_all l : Forall (λ s, utf8_valid s = true) l → map utf8_coerce l = l.
Proof. induction 1 as [|s l Hs _ IH]; [done|]. simpl. by rewrite utf8_coerce_valid, IH. Qed.

(** One step of [dec_struct]. *)
Definition struct_step {T} (fs : fields T) (acc : option T) (m : string * json) : option T :=
  cur ← acc; match find_field fs m.1 with Some d => d cur m.2 | None => Some cur end.

Lemma dec_struct_obj {T} (fs : fields T) cur ms :
  dec_struct fs cur (json_coerce (JObj ms)) = foldl (struct_step fs) (Some cur) (map coerce_member ms).
Proof. done. Qed.

Lemma dec_int_enc cur z : in_int64 z → dec_int64 cur (json_coerce (enc_int z)) = Some z.
Proof. apply Atoi_Itoa_int64. Qed.

Ltac dec_int :=
  match goal with |- context [enc_int ?z] =>
    let H := fresh in
    assert (dec_int64 0 (json_coerce (enc_int z)) = Some z) as H by (by apply dec_int_enc);
    unfold enc_int in *; simpl in *; by rewrite H
  end.

Lemma step_omitempty {T} (fs : fields T) cur (empty : bool) name j d (r : T) :
  utf8_coerce name = name → find_field fs name = Some d →
  (empty = true → r = cur) → (empty = false → d cur (json_coerce j) = Some r) →
  foldl (struct_step fs) (Some cur) (map coerce_member (omitempty empty name j)) = Some r.
Proof.
  intros Hn Hf Ht Hd. destruct empty; simpl; [by rewrite Ht|].
  unfold struct_step. simpl. rewrite Hn, Hf. auto.
Qed.

Lemma step_optional {A T} (fs : fields T) cur (v : option A) name (enc : A → json) d (r : T) :
  utf8_coerce name = name → find_field fs name = Some d →
  (v = None → r = cur) → (∀ x, v = Some x → d cur (json_coerce (enc x)) = Some r) →
  foldl (struct_step fs) (Some cur)
    (map coerce_member (match v with Some x => [(name, enc x)] | None => [] end)) = Some r.
Proof.
  intros Hn Hf Ht Hd. destruct v; simpl; [|by rewrite Ht].
  unfold struct_step. simpl. rewrite Hn, Hf. auto.
Qed.

(** Whatever a decoder of a field keeps, decoding the struct keeps. *)
Lemma find_field_elem {T} (fs : fields T) key d : find_field fs key = Some d → ∃ name, (name, d) ∈ fs.
Proof.
  assert (∀ P `{!∀ x, Decision (P x)} i (x : string * decoder T), list_find P fs = Some (i, x) → (x.1, x.2) ∈ fs) as Hin.
  { intros P ? i [n d'] (Hi & _)%list_find_Some. by eapply list_elem_of_lookup_2. }
  unfold find_field. destruct (list_find _ fs) as [[i x]|] eqn:Hx.
  - intros [= <-]. eauto.
  - intros ([i x] & Hx2 & ->)%fmap_Some. eauto.
Qed.

(** An invariant that decoding each member of an object keeps. *)
Lemma dec_struct_members {T} (P : T → Prop) (fs : fields T) cur ms v :
  Forall (λ m : string * json, ∀ d cur v, find_field fs m.1 = Some d → P cur → d cur m.2 = Some v → P v) ms →
  P cur → dec_struct fs cur (JObj ms) = Some v → P v.
Proof.
  intros Hms. revert cur. unfold dec_struct.
  induction Hms as [|[k j] ms Hm _ IH]; intros cur Hcur; [by intros [= <-]|].
  cbn [foldl mbind option_bind fst snd]. destruct (find_field fs k) as [d|] eqn:Hd; [|by apply IH].
  destruct (d cur j) as [cur'|] eqn:Hdec; [apply IH; by eapply Hm|].
  intros H. exfalso. revert H. clear. by induction ms.
Qed.
(** One that each decoder keeps. *)
Lemma dec_struct_inv {T} (P : T → Prop) (fs : fields T) cur j v :
  (∀ name d, (name, d) ∈ fs → ∀ cur j v, P cur → d cur j = Some v → P v) →
  P cur → dec_struct fs cur j = Some v → P v.
Proof.
  intros Hfs Hcur. destruct j as [| | | | |ms]; try done; [by intros [= <-]|].
  apply dec_struct_members; [|done]. apply Forall_true. intros m d cur' v' (name & Hd)%find_field_elem. by eapply Hfs.
Qed.

(** ** Slices *)

Lemma dec_elems_length {A} (zero : A) d backing js xs :
  dec_elems zero d backing js = Some xs → length xs = length js.
Proof.
  revert backing xs. induction js as [|j js IH]; intros backing xs; simpl; [by intros [= <-]|].
  intros (x & _ & (xs' & Hxs & [= <-])%bind_Some)%bind_Some. simpl. f_equal. by eapply IH.
Qed.

(** What a payload holds: at least as many elements as its length. *)
Definition slice_ok {A} (sl : nat * list A) : Prop := (sl.1 ≤ length sl.2)%nat.

Lemma dec_slice_ok {A} (zero : A) d cur j sl :
  dec_slice zero d cur j = Some sl → slice_ok cur → slice_ok sl.
Proof.
  unfold dec_slice, slice_ok. destruct j as [| | | |[|j js]|]; try done; try by intros [= <-].
  intros (xs & Hxs%dec_elems_length & [= <-])%bind_Some _.
  cbn [fst snd]. rewrite length_app, Hxs. simpl length; lia.
Qed.

(** An invariant that decoding each element keeps. *)
Definition decodes_keeping {A} (P : A → Prop) (d : decoder A) (j : json) : Prop := ∀ cur v, P cur → d cur j = Some v → P v.

Lemma dec_elems_each {A} (P : A → Prop) (zero : A) d backing js xs :
  P zero → Forall (decodes_keeping P d) js → Forall P backing →
  dec_elems zero d backing js = Some xs → Forall P xs.
Proof.
  intros Hz Hd. revert backing xs. induction Hd as [|j js Hj _ IH]; intros b xs Hb; simpl; [by intros [= <-]|].
  intros (x & Hx & (xs' & Hxs & [= <-])%bind_Some)%bind_Some. constructor.
  - eapply Hj; [|done]. by destruct Hb.
  - eapply IH; [|done]. by destruct Hb.
Qed.
Lemma dec_slice_each {A} (P : A → Prop) (zero : A) d cur js sl :
  P zero → Forall (decodes_keeping P d) js → Forall P cur.2 →
  dec_slice zero d cur (JArr js) = Some sl → Forall P sl.2.
Proof.
  intros Hz Hd Hcur. unfold dec_slice. destruct js as [|j0 js]; [intros [= <-]; constructor|].
  intros (xs & Hxs & [= <-])%bind_Some. apply Forall_app. split; [|by apply Forall_drop].
  by eapply dec_elems_each.
Qed.
(** One that the decoder of the elements keeps. *)
Lemma dec_slice_inv {A} (P : A → Prop) (zero : A) d cur j sl :
  P zero → (∀ cur j v, P cur → d cur j = Some v → P v) → Forall P cur.2 →
  dec_slice zero d cur j = Some sl → Forall P sl.2.
Proof.
  intros Hz Hd Hcur. destruct j as [| | | |js|]; try done; [intros [= <-]; constructor|].
  apply dec_slice_each; [done| |done]. apply Forall_true. intros j cur' v. apply Hd.
Qed.

Lemma dec_slice_fresh {A} (zero : A) d js xs :
  xs ≠ [] → dec_elems zero d [] js = Some xs → dec_slice zero d (0%nat, []) (JArr js) = Some (length xs, xs).
Proof.
  intros Hne Hel. pose proof (dec_elems_length _ _ _ _ _ Hel) as Hlen.
  destruct js as [|j js]; [by destruct xs|]. cbn [dec_slice snd]. rewrite Hel. cbn [mbind option_bind].
  by rewrite drop_nil, app_nil_r, Hlen.
Qed.

(** ** String maps *)

Lemma enc_string_map_shape t :
  json_integral (enc_string_map t) ∧ 0 ≤ json_height (enc_string_map t) ≤ 1.
Proof.
  destruct t as [t|]; [|done]. cbn [enc_string_map]. generalize (sorted_keys t). intros l.
  induction l as [|k l IH]; [done|].
  cbn [fmap list_fmap json_integral json_height foldr snd] in *. repeat split; try tauto; lia.
Qed.

(** A map as it is read back: keys and values as UTF-8, the last of the keys
    that become equal staying. *)
Definition text_map_go (t : gmap string string) (l : list string) (acc : gmap string string) : gmap string string :=
  foldl (λ acc k, <[utf8_coerce k := utf8_coerce (default "" (t !! k))]> acc) acc l.
Definition text_string_map (t : option (gmap string string)) : option (gmap string string) :=
  (λ t, text_map_go t (sorted_keys t) ∅) <$> t.

Lemma dec_string_map_coerce t : dec_string_map None (json_coerce (enc_string_map t)) = Some (text_string_map t).
Proof.
  destruct t as [t|]; [|done]. cbn [enc_string_map json_coerce dec_string_map default text_string_map fmap option_fmap option_map].
  generalize (sorted_keys t). intros l. generalize (∅ : gmap string string).
  assert (∀ acc : gmap string string,
    foldl (λ (acc : option (gmap string string)) (m : string * json),
      t ← acc; v ← dec_string "" m.2; Some (<[m.1:=v]> t)) (Some acc)
      (map coerce_member ((λ k, (k, JStr (default "" (t !! k)))) <$> l)) = Some (text_map_go t l acc)) as Hl.
  { induction l as [|k l IH]; intros acc; [done|]. cbn. apply IH. }
  intros acc. exact (f_equal (fmap Some) (Hl acc)).
Qed.
Lemma dec_string_map_total t : ∃ t', dec_string_map None (json_coerce (enc_string_map t)) = Some t'.
Proof. rewrite dec_string_map_coerce. by eexists. Qed.

(** A map of UTF-8 strings is read back as it is. *)
Lemma text_string_map_id t :
  match t with Some t => map_Forall (λ k v, utf8_valid k = true ∧ utf8_valid v = true) t | None => True end →
  text_string_map t = t.
Proof.
  destruct t as [t|]; [|done]. intros Ht. cbn. f_equal.
  assert (∀ l acc, (∀ k, k ∈ l → is_Some (t !! k)) → text_map_go t l acc =
    (foldl (λ acc k, <[k := default ""%string (t !! k)]> acc) acc l : gmap string string)) as Hgo.
  { induction l as [|k l IH]; intros acc Hl; [done|]. destruct (Hl k) as [v Hv]; [set_solver|].
    destruct (Ht _ _ Hv) as [Hk Hvv].
    change (text_map_go t (k :: l) acc) with (text_map_go t l (<[utf8_coerce k := utf8_coerce (default "" (t !! k))]> acc)).
    cbn [foldl]. rewrite Hv. cbn [default from_option id]. rewrite !utf8_coerce_valid by done. apply IH. set_solver. }
  rewrite Hgo by (intros k Hk; by apply elem_of_sorted_keys). apply map_eq. intros k.
  assert (∀ l acc, (foldl (λ acc k, <[k := default ""%string (t !! k)]> acc) acc l : gmap string string) !! k =
    if decide (k ∈ l) then Some (default ""%string (t !! k)) else acc !! k) as ->.
  { induction l as [|k' l IH]; intros acc; [done|]. simpl. rewrite IH.
    destruct (decide (k ∈ l)); [by rewrite decide_True by set_solver|].
    destruct (decide (k = k')) as [->|]; [by rewrite lookup_insert_eq, decide_True by set_solver|].
    rewrite lookup_insert_ne, decide_False by set_solver. done. }
  case_decide as Hk.
  - apply elem_of_sorted_keys in Hk as [v Hv]. by rewrite Hv.
  - rewrite elem_of_sorted_keys in Hk. by destruct (t !! k) eqn:E; [destruct Hk; eauto|].
Qed.
