(* ===== verification/JsonText.v ===== *)
(** * What the JSON parser yields is text

    [encoding/json] replaces what is no UTF-8 and decodes escapes to whole
    runes, so every string of a parsed value is valid UTF-8, whatever the
    bytes; and every number it decodes into an integer fits 64 bits.  So a
    request that was decoded meets what the stores ask of its strings. *)

From S2P Require Import Prelude GoStrings GoUtf8 GoJson JsonFacts.

(** ** Runes *)

Lemma utf8_valid_go_mono n m l : utf8_valid_go n l = true → (n ≤ m)%nat → utf8_valid_go m l = true.
Proof.
  revert m l. induction n as [|n IH]; intros [|m] l; cbn; try lia; intros Hl Hm.
  - done.
  - by apply bool_decide_eq_true in Hl as ->.
  - destruct l as [|b l]; [done|]. destruct (rune_len (b :: l)); [|done]. apply IH; [done|lia].
Qed.

(** Bytes that are text. *)
Definition text (l : bytes) : Prop := utf8_valid_go (length l) l = true.

Lemma text_nil : text [].
Proof. done. Qed.
Lemma text_of_bytes l : text l ↔ utf8_valid (of_bytes l) = true.
Proof. unfold text, utf8_valid. by rewrite <-length_to_bytes, to_of_bytes. Qed.

Lemma text_rune r l : rune_len r = Some (length r) → text l → text (r ++ l).
Proof.
  intros Hr Hl. pose proof (rune_len_pos _ _ Hr) as Hpos. pose proof (rune_len_prefix r (length r) l Hr) as Hpre.
  rewrite take_ge in Hpre by lia. unfold text. rewrite length_app.
  destruct r as [|b r]; [cbn in Hpos; lia|]. cbn [length app Nat.add] in *. cbn [utf8_valid_go]. rewrite Hpre.
  change (b :: r ++ l) with ((b :: r) ++ l). rewrite (drop_app_length' (b :: r)) by done.
  eapply utf8_valid_go_mono; [exact Hl|lia].
Qed.

Lemma rune_take l n : rune_len l = Some n → rune_len (take n l) = Some (length (take n l)).
Proof.
  intros Hn. pose proof (rune_len_pos _ _ Hn). pose proof (rune_len_prefix l n [] Hn) as Hp.
  rewrite app_nil_r in Hp. rewrite Hp, length_take. f_equal. lia.
Qed.

Lemma in_range_bmk lo hi z : 0 ≤ z < 256 → in_range lo hi (bmk z) = bool_decide (lo ≤ z ≤ hi).
Proof.
  intros Hz. unfold in_range. rewrite bval_bmk, Z.mod_small by done. destruct (bool_decide_reflect (lo ≤ z ≤ hi)); lia.
Qed.

(** A code point that is no surrogate is a rune. *)
Lemma encode_rune_len r : 0 ≤ r < 1114112 → ¬ 55296 ≤ r < 57344 → rune_len (encode_rune r) = Some (length (encode_rune r)).
Proof.
  intros Hr Hs. unfold encode_rune.
  assert (∀ x, 0 ≤ 128 + x mod 64 < 256) as Hlow by (intros x; pose proof (Z.mod_pos_bound x 64 eq_refl); lia).
  assert (∀ x, continuation (bmk (128 + x mod 64)) = true) as Hcont.
  { intros x. unfold continuation. rewrite in_range_bmk by apply Hlow. apply bool_decide_eq_true.
    pose proof (Z.mod_pos_bound x 64 eq_refl). lia. }
  case_decide as H1; [|case_decide as H2; [|case_decide as H3]]; cbn [length rune_len].
  - rewrite in_range_bmk by lia. by rewrite bool_decide_true by lia.
  - pose proof (Z.div_mod r 64). pose proof (Z.mod_pos_bound r 64 eq_refl).
    rewrite !(in_range_bmk _ _ (192 + r / 64)) by (split; nia). rewrite Hcont.
    rewrite bool_decide_false by nia. rewrite bool_decide_true by nia. done.
  - pose proof (Z.div_mod r 4096). pose proof (Z.mod_pos_bound r 4096 eq_refl).
    pose proof (Z.div_mod (r / 64) 64). pose proof (Z.mod_pos_bound (r / 64) 64 eq_refl).
    pose proof (Z.div_mod r 64). pose proof (Z.mod_pos_bound r 64 eq_refl).
    assert (r / 4096 = r / 64 / 64) as Hd by (rewrite Z.div_div by lia; done).
    assert (0 ≤ r / 4096 < 16) by (split; nia).
    rewrite !(in_range_bmk _ _ (224 + r / 4096)), !(in_range_bmk _ _ (128 + r / 64 mod 64)), !Hcont by lia.
    rewrite !bval_bmk, (Z.mod_small (224 + r / 4096)) by lia.
    rewrite (bool_decide_false (0 ≤ 224 + _ ≤ 127)), (bool_decide_false (194 ≤ _ ≤ 223)) by lia. cbn [andb].
    assert (((224 + r / 4096 =? 224) && bool_decide (160 ≤ 128 + r / 64 mod 64 ≤ 191)
      || bool_decide (225 ≤ 224 + r / 4096 ≤ 236) && true
      || (224 + r / 4096 =? 237) && bool_decide (128 ≤ 128 + r / 64 mod 64 ≤ 159)
      || bool_decide (238 ≤ 224 + r / 4096 ≤ 239) && true) && true = true) as ->; [|done].
    assert (r / 4096 = 0 ∨ 1 ≤ r / 4096 ≤ 12 ∨ r / 4096 = 13 ∨ 14 ≤ r / 4096 ≤ 15) as [Hq|[Hq|[Hq|Hq]]] by lia.
    + rewrite Hq, bool_decide_true by nia. done.
    + rewrite (bool_decide_true (225 ≤ _ ≤ 236)) by lia. by rewrite !orb_true_r.
    + rewrite (bool_decide_true (128 ≤ _ ≤ 159)) by nia. rewrite Hq. by rewrite !orb_true_r.
    + rewrite (bool_decide_true (238 ≤ _ ≤ 239)) by lia. by rewrite !orb_true_r.
  - pose proof (Z.div_mod r 262144). pose proof (Z.mod_pos_bound r 262144 eq_refl).
    pose proof (Z.div_mod (r / 4096) 64). pose proof (Z.mod_pos_bound (r / 4096) 64 eq_refl).
    assert (r / 262144 = r / 4096 / 64) as Hd by (rewrite Z.div_div by lia; done).
    pose proof (Z.div_mod r 4096). pose proof (Z.mod_pos_bound r 4096 eq_refl).
    assert (0 ≤ r / 262144 ≤ 4) by (split; nia).
    rewrite !(in_range_bmk _ _ (240 + r / 262144)), !(in_range_bmk _ _ (128 + r / 4096 mod 64)), !Hcont by lia.
    rewrite !bval_bmk, (Z.mod_small (240 + r / 262144)) by lia.
    rewrite (bool_decide_false (0 ≤ 240 + _ ≤ 127)), (bool_decide_false (194 ≤ _ ≤ 223)) by lia. cbn [andb].
    rewrite (proj2 (Z.eqb_neq (240 + r / 262144) 224)), (proj2 (Z.eqb_neq (240 + r / 262144) 237)) by lia.
    rewrite (bool_decide_false (225 ≤ _ ≤ 236)), (bool_decide_false (238 ≤ _ ≤ 239)) by lia. cbn [andb orb].
    assert (((240 + r / 262144 =? 240) && bool_decide (144 ≤ 128 + r / 4096 mod 64 ≤ 191)
      || bool_decide (241 ≤ 240 + r / 262144 ≤ 243) && true
      || (240 + r / 262144 =? 244) && bool_decide (128 ≤ 128 + r / 4096 mod 64 ≤ 143)) && true && true = true) as ->; [|done].
    assert (r / 262144 = 0 ∨ 1 ≤ r / 262144 ≤ 3 ∨ r / 262144 = 4) as [Hq|[Hq|Hq]] by lia.
    + rewrite Hq, (bool_decide_true (144 ≤ _ ≤ 191)) by nia. done.
    + rewrite (bool_decide_true (241 ≤ _ ≤ 243)) by lia. by rewrite !orb_true_r.
    + rewrite (bool_decide_true (128 ≤ _ ≤ 143)) by nia. rewrite Hq. by rewrite !orb_true_r.
Qed.

(** ** Strings *)

Lemma hex_val_range b v : hex_val b = Some v → 0 ≤ v < 16.
Proof. unfold hex_val. repeat case_decide; try done; intros [= <-]; lia. Qed.

Lemma hex4_range l r rest : hex4 l = Some (r, rest) → 0 ≤ r < 65536.
Proof.
  unfold hex4. destruct l as [|a [|b [|c [|d l]]]]; try done.
  intros (x & Hx%hex_val_range & (y & Hy%hex_val_range & (z & Hz%hex_val_range & (w & Hw%hex_val_range & [= <- _])%bind_Some)%bind_Some)%bind_Some)%bind_Some.
  lia.
Qed.

Lemma parse_u_rune l r rest : parse_u l = Some (r, rest) → rune_len r = Some (length r).
Proof.
  unfold parse_u. intros ([x l1] & Hx%hex4_range & H)%bind_Some. case_decide as Hs.
  - destruct (expect_all _ l1 ≫= hex4) as [[y l2]|] eqn:Hy; [|by injection H as <- _].
    apply bind_Some in Hy as (l3 & _ & Hy%hex4_range). case_decide as Hlow; injection H as <- _; [|done].
    apply encode_rune_len; lia.
  - injection H as <- _. apply encode_rune_len; lia.
Qed.

Lemma unescape_rune c b : unescape c = Some b → rune_len [b] = Some 1%nat.
Proof.
  unfold unescape. repeat case_decide; try done; intros [= <-]; try reflexivity.
  destruct_or!; subst; reflexivity.
Qed.

Lemma json_unquote_text fuel l s rest : json_unquote fuel l = Some (s, rest) → text s.
Proof.
  revert l s rest. induction fuel as [|fuel IH]; intros l s rest; [done|]. cbn [json_unquote].
  destruct l as [|c l1]; [done|]. case_decide; [intros [= <- _]; apply text_nil|]. case_decide.
  - destruct l1 as [|e l2]; [done|]. case_decide.
    + intros ([r l3] & Hr%parse_u_rune & ([s1 r1] & Hs%IH & [= <- _])%bind_Some)%bind_Some. by apply text_rune.
    + intros (b & Hb%unescape_rune & ([s1 r1] & Hs%IH & [= <- _])%bind_Some)%bind_Some. by apply (text_rune [b]).
  - case_decide; [done|]. destruct (rune_len (c :: l1)) as [n|] eqn:Hn.
    + intros ([s1 r1] & Hs%IH & [= <- _])%bind_Some. by apply text_rune; [apply rune_take|].
    + intros ([s1 r1] & Hs%IH & [= <- _])%bind_Some. by apply (text_rune rune_error).
Qed.

Lemma parse_string_text l s rest : parse_string l = Some (s, rest) → utf8_valid s = true.
Proof.
  unfold parse_string. intros (l1 & _ & ([b r] & Hb%json_unquote_text & [= <- _])%bind_Some)%bind_Some. by apply text_of_bytes.
Qed.

(** ** Values *)

Fixpoint json_text (j : json) : Prop :=
  match j with
  | JStr s => utf8_valid s = true
  | JArr l => foldr (λ j P, json_text j ∧ P) True l
  | JObj ms => foldr (λ m P, (utf8_valid m.1 = true ∧ json_text m.2) ∧ P) True ms
  | _ => True
  end.

Lemma parse_text fuel depth l :
  (∀ j rest, parse_value fuel depth l = Some (j, rest) → json_text j) ∧
  (∀ js rest, parse_elems fuel depth l = Some (js, rest) → json_text (JArr js)) ∧
  (∀ ms rest, parse_members fuel depth l = Some (ms, rest) → json_text (JObj ms)).
Proof.
  revert depth l. induction fuel as [|fuel IH]; intros depth l; [done|]. split_and!.
  - intros j rest. cbn [parse_value]. destruct (skip_space l) as [|c l']; [done|].
    destruct (IH (depth + 1) l') as (_ & HE & HM). repeat case_decide; try done.
    + destruct (expect _ (skip_space l')); [by intros [= <- _]|].
      intros ([ms r] & Hm & [= <- _])%bind_Some. by eapply HM.
    + destruct (expect _ (skip_space l')); [by intros [= <- _]|].
      intros ([js r] & Hm & [= <- _])%bind_Some. by eapply HE.
    + intros ([s r] & Hs & [= <- _])%bind_Some. by eapply parse_string_text.
    + by intros (r & _ & [= <- _])%bind_Some.
    + by intros (r & _ & [= <- _])%bind_Some.
    + by intros (r & _ & [= <- _])%bind_Some.
    + by intros ([t r] & _ & [= <- _])%bind_Some.
  - intros js rest. cbn [parse_elems]. intros ([j l1] & Hj & H)%bind_Some.
    destruct (IH depth l) as (HV & _ & _). apply HV in Hj.
    destruct (expect _ (skip_space l1)); [by injection H as <- _|].
    apply bind_Some in H as (l2 & _ & ([js1 r] & Hjs & [= <- _])%bind_Some).
    destruct (IH depth l2) as (_ & HE & _). apply HE in Hjs. by split.
  - intros ms rest. cbn [parse_members]. intros ([k l0] & Hk%parse_string_text & (l1 & _ & ([j l2] & Hj & H)%bind_Some)%bind_Some)%bind_Some.
    destruct (IH depth l1) as (HV & _ & _). apply HV in Hj.
    destruct (expect _ (skip_space l2)); [by injection H as <- _|].
    apply bind_Some in H as (l3 & _ & ([ms1 r] & Hms & [= <- _])%bind_Some).
    destruct (IH depth l3) as (_ & _ & HM). apply HM in Hms. by split.
Qed.

(** ** Decoders *)

(** What every decoder of a field keeps on text, decoding the struct keeps. *)
Lemma dec_struct_text {T} (P : T → Prop) (fs : fields T) cur j v :
  (∀ name d, (name, d) ∈ fs → ∀ cur j v, P cur → json_text j → d cur j = Some v → P v) →
  P cur → json_text j → dec_struct fs cur j = Some v → P v.
Proof.
  intros Hfs Hcur Hj. destruct j as [| | | | |ms]; try done; [by intros [= <-]|].
  apply dec_struct_members; [|done]. revert Hj. clear Hcur. induction ms as [|m ms IH]; [constructor|]. intros [[_ Hj] Hms].
  constructor; [|by apply IH]. intros d cur' v' (name & Hd)%find_field_elem Hc. by eapply Hfs.
Qed.

Lemma dec_string_text cur j v : utf8_valid cur = true → json_text j → dec_string cur j = Some v → utf8_valid v = true.
Proof. destruct j; try done; cbn; by intros ?? [= <-]. Qed.

Lemma dec_slice_text {A} (P : A → Prop) (zero : A) d cur j sl :
  P zero → (∀ cur j v, P cur → json_text j → d cur j = Some v → P v) → Forall P cur.2 → json_text j →
  dec_slice zero d cur j = Some sl → Forall P sl.2.
Proof.
  intros Hz Hd Hcur Hj. destruct j as [| | | |js|]; try done; [intros [= <-]; constructor|].
  apply dec_slice_each; [done| |done]. revert Hj. clear Hcur. induction js as [|j js IH]; [constructor|]. intros [Hj Hjs].
  constructor; [|by apply IH]. intros cur' v Hc. by apply Hd.
Qed.

(** A map of strings. *)
Definition text_map (t : option (gmap string string)) : Prop :=
  match t with Some t => map_Forall (λ k v, utf8_valid k = true ∧ utf8_valid v = true) t | None => True end.

Lemma dec_string_map_text cur j t : text_map cur → json_text j → dec_string_map cur j = Some t → text_map t.
Proof.
  intros Hcur Hj. unfold dec_string_map. destruct j as [| | | | |ms]; try done; [by intros [= <-]|].
  intros (t1 & Ht & ->)%fmap_Some. cbn [text_map]. revert Ht Hj.
  assert (map_Forall (λ k v, utf8_valid k = true ∧ utf8_valid v = true) (default ∅ cur)) as H0
    by (destruct cur; [done|apply map_Forall_empty]).
  revert H0. generalize (default ∅ cur). induction ms as [|[k j] ms IH]; intros m Hm; [by intros [= <-]|].
  cbn [foldl mbind option_bind fst snd]. intros Ht [[Hk Hj] Hms]. destruct (dec_string "" j) as [v|] eqn:Hv.
  - cbn in Ht, Hk. eapply IH; [|exact Ht|exact Hms]. apply map_Forall_insert_2; [|done]. split; [done|].
    by eapply (dec_string_text "").
  - exfalso. revert Ht. clear. by induction ms.
Qed.
