(* ===== verification/GoUrl.v ===== *)
(** * Go's [net/url] and [net]: query strings and host names

    [url.Values] with its encoder and parser, and [net.SplitHostPort]. *)

From S2P Require Import Prelude GoStrings.

(** ** Splitting *)

(** [strings.Cut(l, c)] for a one-byte separator; the third result of Cut is
    not needed where it is used. *)
Fixpoint cut (c : byte) (l : bytes) : bytes * bytes :=
  match l with
  | [] => ([], [])
  | b :: l => if decide (b = c) then ([], l) else let '(x, y) := cut c l in (b :: x, y)
  end.

(** [strings.Trim(l, c)] for a one-byte cutset. *)
Fixpoint trim_left (c : byte) (l : bytes) : bytes :=
  match l with [] => [] | b :: l' => if decide (b = c) then trim_left c l' else l end.
Definition trim (c : byte) (l : bytes) : bytes := reverse (trim_left c (reverse (trim_left c l))).

Lemma cut_app c p l : c ∉ p → cut c (p ++ c :: l) = (p, l).
Proof.
  induction p as [|b p IH]; intros Hp; cbn; [by rewrite decide_True|].
  rewrite decide_False by set_solver. by rewrite IH by set_solver.
Qed.

(** ** Escaping of query components *)

Definition query_safe (b : byte) : bool :=
  let v := bval b in
  (48 <=? v) && (v <=? 57) || (65 <=? v) && (v <=? 90) || (97 <=? v) && (v <=? 122) ||
  bool_decide (b ∈ ["-"; "_"; "."; "~"]%char).

Definition upper_hex (v : Z) : byte := bmk (if decide (v < 10) then 48 + v else 55 + v).

Fixpoint query_escape (l : bytes) : bytes :=
  match l with
  | [] => []
  | b :: l =>
      (if query_safe b then [b] else if decide (b = " "%char) then ["+"%char]
       else ["%"%char; upper_hex (bval b / 16); upper_hex (bval b mod 16)]) ++ query_escape l
  end.

(** [None] is an [EscapeError]. *)
Fixpoint query_unescape (l : bytes) : option bytes :=
  match l with
  | [] => Some []
  | b :: l =>
      if decide (b = "%"%char) then
        match l with
        | h :: h' :: l => v ← hex_val h; v' ← hex_val h'; r ← query_unescape l; Some (bmk (v * 16 + v') :: r)
        | _ => None
        end
      else cons (if decide (b = "+"%char) then " "%char else b) <$> query_unescape l
  end.

Definition escaped_byte (b : byte) : bytes :=
  if query_safe b then [b] else if decide (b = " "%char) then ["+"%char]
  else ["%"%char; upper_hex (bval b / 16); upper_hex (bval b mod 16)].

Lemma query_escape_cons b l : query_escape (b :: l) = escaped_byte b ++ query_escape l.
Proof. done. Qed.

(** Checked byte by byte: unescaping undoes it, and no separator is left. *)
Definition escaped_ok (b : byte) : bool :=
  bool_decide (query_unescape (escaped_byte b) = Some [b]) &&
  forallb (λ c, bool_decide (c ∉ ["&"; "="; ";"]%char)) (escaped_byte b).

Lemma escaped_byte_ok b :
  query_unescape (escaped_byte b) = Some [b] ∧ Forall (λ c, c ∉ ["&"; "="; ";"]%char) (escaped_byte b).
Proof.
  assert (escaped_ok b = true) as H by (apply byte_forall; vm_compute; reflexivity).
  apply andb_prop in H as [H1 H2]. apply bool_decide_eq_true in H1. split; [done|].
  rewrite forallb_forall in H2. apply Forall_forall. intros c Hc. apply list_elem_of_In in Hc.
  by apply H2, bool_decide_eq_true in Hc.
Qed.

Lemma query_unescape_app b l :
  query_unescape (escaped_byte b ++ l) = cons b <$> query_unescape l.
Proof.
  destruct (escaped_byte_ok b) as [H _]. revert H. unfold escaped_byte.
  destruct (query_safe b) eqn:Hs.
  - cbn. destruct (decide (b = "%"%char)) as [->|]; [done|]. intros [= Hb]. by rewrite Hb.
  - destruct (decide (b = " "%char)) as [->|]; [done|].
    change (["%"%char; upper_hex (bval b / 16); upper_hex (bval b mod 16)] ++ l)
      with ("%"%char :: upper_hex (bval b / 16) :: upper_hex (bval b mod 16) :: l).
    cbn [query_unescape]. rewrite decide_True by done.
    destruct (hex_val (upper_hex (bval b / 16))) as [v|]; [|done]. cbn [mbind option_bind].
    destruct (hex_val (upper_hex (bval b mod 16))) as [v'|]; [|done]. cbn [mbind option_bind].
    cbn [query_unescape mbind option_bind]. intros [= ->]. by destruct (query_unescape l).
Qed.

Lemma query_unescape_escape l : query_unescape (query_escape l) = Some l.
Proof.
  induction l as [|b l IH]; [done|]. rewrite query_escape_cons, query_unescape_app, IH. done.
Qed.

Lemma query_escape_no_sep l c : c ∈ ["&"; "="; ";"]%char → c ∉ query_escape l.
Proof.
  intros Hc. induction l as [|b l IH]; [apply not_elem_of_nil|].
  rewrite query_escape_cons. intros [Hin|Hin]%elem_of_app; [|done].
  destruct (escaped_byte_ok b) as [_ H]. rewrite Forall_forall in H. by apply (H c Hin).
Qed.

(** ** [url.Values] *)

Notation Values := (gmap string (list string)) (only parsing).

(** [values.Get(key)]. *)
Definition Get (m : Values) (key : string) : string :=
  match m !! key with Some (v :: _) => v | _ => ""%string end.
(** [values.Set(key, value)]. *)
Definition Set_ (key value : string) (m : Values) : Values := <[key := [value]]> m.

Definition query_pair (k v : string) : bytes :=
  query_escape (to_bytes k) ++ "="%char :: query_escape (to_bytes v).

(** The pairs [Encode] writes: keys in order, values in order. *)
Definition query_pairs (m : Values) : list (string * string) :=
  concat (map (λ k, map (pair k) (default [] (m !! k))) (sorted_keys m)).

(** [values.Encode()]. *)
Definition Encode (m : Values) : string :=
  of_bytes (join "&"%char (map (λ kv, query_pair kv.1 kv.2) (query_pairs m))).

(** One piece of a query; a malformed one is skipped, and its error is
    dropped by [URL.Query]. *)
Definition query_piece (m : Values) (piece : bytes) : Values :=
  if decide (";"%char ∈ piece ∨ piece = []) then m else
  let '(k, v) := cut "="%char piece in
  match query_unescape k, query_unescape v with
  | Some k, Some v => partial_alter (λ old, Some (default [] old ++ [of_bytes v])) (of_bytes k) m
  | _, _ => m
  end.

Definition max_params : nat := 100 * 100.
Arguments max_params : simpl never.

(** [u.Query()]: a query of more than ten thousand parameters is refused. *)
Definition ParseQuery (query : string) : Values :=
  let pieces := split_on "&"%char (to_bytes query) in
  if decide (max_params < length pieces)%nat then ∅ else foldl query_piece ∅ pieces.

Lemma query_piece_pair m k v :
  query_piece m (query_pair k v) = partial_alter (λ old, Some (default [] old ++ [v])) k m.
Proof.
  unfold query_piece, query_pair. rewrite decide_False.
  - rewrite cut_app by (apply query_escape_no_sep; set_solver).
    by rewrite !query_unescape_escape, !of_to_bytes.
  - intros [Hin|Hnil]; [|by destruct (query_escape (to_bytes k))].
    apply elem_of_app in Hin as [Hin|[Heq|Hin]%elem_of_cons]; [|done|];
      revert Hin; apply query_escape_no_sep; set_solver.
Qed.

Definition add_pair (m : Values) (kv : string * string) : Values :=
  partial_alter (λ old, Some (default [] old ++ [kv.2])) kv.1 m.

Lemma add_pairs_key m k vs :
  foldl add_pair m (map (pair k) vs) =
    match vs with [] => m | _ => <[k := default [] (m !! k) ++ vs]> m end.
Proof.
  revert m. induction vs as [|v vs IH]; intros m; [done|]. cbn [map foldl]. rewrite IH. unfold add_pair. cbn [fst snd].
  apply map_eq. intros j. destruct (decide (j = k)) as [->|Hne].
  - destruct vs as [|w vs]; rewrite ?lookup_insert_eq, ?lookup_partial_alter_eq; [done|]. cbn.
    by rewrite <-app_assoc.
  - destruct vs as [|w vs]; by rewrite ?lookup_insert_ne, ?lookup_partial_alter_ne by done.
Qed.

Lemma add_pairs_keys (m0 m : Values) ks :
  NoDup ks → (∀ k, k ∈ ks → m0 !! k = None) → (∀ k, k ∈ ks → ∃ v vs, m !! k = Some (v :: vs)) →
  ∀ j, foldl add_pair m0 (concat (map (λ k, map (pair k) (default [] (m !! k))) ks)) !! j =
    if decide (j ∈ ks) then m !! j else m0 !! j.
Proof.
  intros Hnd. revert m0. induction Hnd as [|k ks Hk Hnd IH]; intros m0 H0 Hm j; [done|]. cbn [map concat].
  rewrite foldl_app, add_pairs_key. destruct (Hm k) as (v & vs & Hv); [set_solver|]. rewrite Hv. cbn [from_option id].
  rewrite (H0 k) by set_solver. cbn [from_option id app]. rewrite IH.
  - destruct (decide (j = k)) as [->|Hne].
    + rewrite (decide_False (P:=k ∈ ks)) by done. rewrite (decide_True (P:=k ∈ k :: ks)) by set_solver.
      by rewrite lookup_insert_eq.
    + rewrite lookup_insert_ne by done. destruct (decide (j ∈ ks)) as [Hin|Hin].
      * by rewrite (decide_True (P:=j ∈ k :: ks)) by set_solver.
      * by rewrite (decide_False (P:=j ∈ k :: ks)) by set_solver.
  - intros k' Hk'. rewrite lookup_insert_ne by (intros ->; done). apply H0. set_solver.
  - intros k' Hk'. apply Hm. set_solver.
Qed.

(** Parsing what [Encode] wrote gives the values back. *)
Lemma ParseQuery_Encode (m : Values) :
  map_Forall (λ _ vs, vs ≠ []) m → (length (query_pairs m) ≤ max_params)%nat → ParseQuery (Encode m) = m.
Proof.
  intros Hne Hlen. unfold ParseQuery, Encode. rewrite to_of_bytes.
  assert (foldl add_pair ∅ (query_pairs m) = m) as Hm.
  { apply map_eq. intros j. unfold query_pairs. rewrite add_pairs_keys.
    - case_decide as Hj; [done|]. rewrite lookup_empty. symmetry. apply eq_None_not_Some.
      by rewrite <-elem_of_sorted_keys.
    - apply NoDup_sorted_keys.
    - done.
    - intros k [vs Hk]%elem_of_sorted_keys. specialize (Hne k vs Hk). destruct vs as [|v vs]; [done|]. eauto. }
  destruct (query_pairs m) as [|p ps] eqn:Hps.
  { cbn. rewrite decide_False by (unfold max_params; lia). unfold query_piece.
    rewrite decide_True by (by right). done. }
  rewrite split_join.
  - rewrite decide_False by (rewrite length_map; lia). rewrite <-Hm. clear.
    generalize (∅ : Values). induction (p :: ps) as [|[k v] l IH]; intros m0; [done|]. cbn [map foldl fst snd].
    by rewrite query_piece_pair, IH.
  - done.
  - apply Forall_fmap, Forall_forall. intros [k v] _ Hin. cbn in Hin.
    apply elem_of_app in Hin as [Hin|[Heq|Hin]%elem_of_cons]; [|done|]; revert Hin; apply query_escape_no_sep; set_solver.
Qed.

(** ** net *)

Definition index_byte (c : byte) (l : bytes) : option nat := fst <$> list_find (λ b, b = c) l.
Definition last_index_byte (c : byte) (l : bytes) : option nat :=
  (λ i, (length l - 1 - i)%nat) <$> index_byte c (reverse l).

(** The host of [net.SplitHostPort], or [None] for its errors. *)
Definition SplitHost (hostport : bytes) : option bytes :=
  i ← last_index_byte ":"%char hostport;
  match hostport with
  | "["%char :: _ =>
      close ← index_byte "]"%char hostport;
      if decide (close + 1 = i)%nat then
        if decide ("["%char ∈ drop 1 hostport ∨ "]"%char ∈ drop (close + 1) hostport) then None
        else Some (slice 1 close hostport)
      else None
  | _ =>
      let host := take i hostport in
      if decide (":"%char ∈ host ∨ "["%char ∈ hostport ∨ "]"%char ∈ hostport) then None else Some host
  end.

Example SplitHost_examples :
  (of_bytes <$> SplitHost (to_bytes "demo.vault.local:8443") = Some "demo.vault.local"%string) ∧
  (of_bytes <$> SplitHost (to_bytes "[::1]:80") = Some "::1"%string) ∧
  SplitHost (to_bytes "demo.vault.local") = None ∧ SplitHost (to_bytes "::1:80") = None.
Proof. vm_compute. done. Qed.
