(* ===== verification/GoFloat.v ===== *)
(** * Go's [strconv] on [float64], as [encoding/json] uses it

    [ParseFloat] on the literals of JSON numbers, correctly rounded, and the
    encoder's shortest decimal that reads back as the same number. *)

From S2P Require Import Prelude GoStrings GoJson.
From Stdlib Require Import Floats.SpecFloat.

(** ** Reading *)

(** The [float64] nearest to [mant * 10^e10], ties to even. *)
Definition float_of_decimal (neg : bool) (mant e10 : Z) : spec_float :=
  match mant with
  | Z.pos m =>
      if decide (0 ≤ e10)
      then binary_normalize 53 1024 (if neg then - (mant * 10 ^ e10) else mant * 10 ^ e10) 0 neg
      else
        match 10 ^ (- e10) with
        | Z.pos d =>
            let '(q, e, l) := SFdiv_core_binary 53 1024 (Z.pos m) 0 (Z.pos d) 0 in
            binary_round_aux 53 1024 neg q e l
        | _ => S754_nan
        end
  | _ => S754_zero neg
  end.

Definition digits_value (l : bytes) : Z := foldl (λ acc b, 10 * acc + (bval b - 48)) 0 l.

(** [readFloat] stops counting an exponent at five digits. *)
Definition exponent_value (l : bytes) : Z :=
  foldl (λ e b, if decide (e < 10000) then 10 * e + (bval b - 48) else e) 0 l.
Definition read_exponent (l : bytes) : Z :=
  match l with
  | _ :: c :: ds =>
      if decide (c = "-"%char) then - exponent_value ds
      else if decide (c = "+"%char) then exponent_value ds else exponent_value (c :: ds)
  | _ => 0
  end.

(** [strconv.ParseFloat(literal, 64)]; a number out of range is an error. *)
Definition ParseFloat (literal : string) : option spec_float :=
  let l := to_bytes literal in
  let '(neg, l) := match expect "-" l with Some l => (true, l) | None => (false, l) end in
  '(int, l) ← parse_int l;
  '(frac, l) ← parse_frac l;
  '(exp, l) ← parse_exp l;
  match l with
  | [] =>
      let frac := tail frac in
      match float_of_decimal neg (digits_value (int ++ frac)) (read_exponent exp - Z.of_nat (length frac)) with
      | S754_infinity _ | S754_nan => None
      | f => Some f
      end
  | _ => None
  end.

(** ** Writing *)

(** [num / den * 10^(k-1)] with the quotient brought into [1, 10): a number
    of the format needs fewer than 400 steps. *)
Fixpoint normalise (fuel : nat) (num den k : Z) : Z * Z * Z :=
  match fuel with
  | O => (num, den, k)
  | S fuel =>
      if decide (num < den) then normalise fuel (10 * num) den (k - 1)
      else if decide (10 * den ≤ num) then normalise fuel num (10 * den) (k + 1)
      else (num, den, k)
  end.

(** [roundShortest]: the least number of digits for which the number cut off
    or rounded up there still reads back as itself; of the two the nearer.
    The result is the digits as a number, and the exponent of its unit. *)
Fixpoint shortest_go (fuel n : nat) (f : spec_float) (num den k : Z) : Z * Z :=
  let unit := k - Z.of_nat n in
  let scaled := num * 10 ^ (Z.of_nat n - 1) in
  let down := scaled / den in
  let reads (d : Z) := match SFcompare (float_of_decimal false d unit) f with Some Eq => true | _ => false end in
  match fuel with
  | O => (down, unit)
  | S fuel =>
      match reads down, reads (down + 1) with
      | true, true =>
          let r := 2 * (scaled - down * den) in
          (if decide (r < den ∨ (r = den ∧ Z.even down)) then down else down + 1, unit)
      | true, false => (down, unit)
      | false, true => (down + 1, unit)
      | false, false => shortest_go fuel (S n) f num den k
      end
  end.
Definition max_digits : nat := 17.

Definition shortest (m e : Z) : Z * Z :=
  let '(num, den) := if decide (0 ≤ e) then (m * 2 ^ e, 1) else (m, 2 ^ (- e)) in
  let '(num, den, k) := normalise 400 num den 1 in
  let f := match m with Z.pos m => S754_finite false m e | _ => S754_zero false end in
  shortest_go max_digits 1 f num den k.

(** Trailing zeros move into the exponent. *)
Fixpoint strip_zeros (fuel : nat) (d e : Z) : Z * Z :=
  match fuel with
  | O => (d, e)
  | S fuel => if decide (d mod 10 = 0) then strip_zeros fuel (d / 10) (e + 1) else (d, e)
  end.

Definition zeros (n : Z) : bytes := replicate (Z.to_nat n) "0"%char.

(** Format 'f': [dp] is the position of the decimal point in the digits. *)
Definition fixed_point (ds : bytes) (dp : Z) : bytes :=
  let n := Z.of_nat (length ds) in
  if decide (dp ≤ 0) then to_bytes "0." ++ zeros (- dp) ++ ds
  else if decide (n ≤ dp) then ds ++ zeros (dp - n)
  else take (Z.to_nat dp) ds ++ "."%char :: drop (Z.to_nat dp) ds.

(** Format 'e', with the encoder's "e-9" for "e-09". *)
Definition exponential (ds : bytes) (dp : Z) : bytes :=
  let x := dp - 1 in
  take 1 ds ++ (match drop 1 ds with [] => [] | rest => "."%char :: rest end) ++
  "e"%char :: (if decide (x < 0) then "-"%char else "+"%char) :: to_bytes (Itoa (Z.abs x)).

(** [floatEncoder]: [None] for a number that JSON cannot write. *)
Definition FormatFloat (f : spec_float) : option string :=
  match f with
  | S754_zero neg => Some (if neg then "-0"%string else "0"%string)
  | S754_finite neg m e =>
      let '(d, unit) := shortest (Z.pos m) e in
      let '(d, unit) := strip_zeros max_digits d unit in
      let ds := to_bytes (Itoa d) in
      let dp := unit + Z.of_nat (length ds) in
      let f := S754_finite false m e in
      let small := match SFcompare f (float_of_decimal false 1 (-6)) with Some Lt => true | _ => false end in
      let large := match SFcompare f (float_of_decimal false 1 21) with Some Lt => false | _ => true end in
      Some (of_bytes ((if neg then ["-"%char] else []) ++
        if small || large then exponential ds dp else fixed_point ds dp))
  | _ => None
  end.

(** Numbers the Go encoder writes, and their literals. *)
Example FormatFloat_examples :
  (λ s, ParseFloat s ≫= FormatFloat) <$>
    ["0"; "-0"; "12"; "12.50"; "0.1"; "1e-7"; "123456789012345680000"; "1e21"; "1e400"; "-2.5e-10"; "5e-324";
     "1.7976931348623157e308"; "0.30000000000000004"; "9007199254740993"; "0.000001"; "8.41e21"]%string
  = [Some "0"; Some "-0"; Some "12"; Some "12.5"; Some "0.1"; Some "1e-7"; Some "123456789012345680000"; Some "1e+21";
     None; Some "-2.5e-10"; Some "5e-324"; Some "1.7976931348623157e+308"; Some "0.30000000000000004";
     Some "9007199254740992"; Some "0.000001"; Some "8.41e+21"]%string.
Proof. vm_compute. reflexivity. Qed.
