(* ===== verification/GoSha1.v ===== *)
(** * Go's [crypto/sha1]

    SHA-1 (FIPS 180-4), on bytes; words are 32 bits. *)

From S2P Require Import Prelude GoStrings.

Definition w32 (z : Z) : Z := z mod 2 ^ 32.
Definition rotl (n x : Z) : Z := Z.lor (w32 (Z.shiftl x n)) (Z.shiftr x (32 - n)).

Definition be_word (l : bytes) : Z := foldl (λ acc b, 256 * acc + bval b) 0 l.
Definition word_bytes (w : Z) : bytes := (λ i, bmk (Z.shiftr w i)) <$> [24; 16; 8; 0].

Definition sha1_pad (l : bytes) : bytes :=
  let n := Z.of_nat (length l) in
  let bits := 8 * n in
  l ++ bmk 128 :: replicate (Z.to_nat ((55 - n) mod 64)) (bmk 0) ++
    ((λ i, bmk (Z.shiftr bits i)) <$> [56; 48; 40; 32; 24; 16; 8; 0]).

Fixpoint chunks (fuel n : nat) (l : bytes) : list bytes :=
  match fuel with
  | O => []
  | S fuel => match l with [] => [] | _ => take n l :: chunks fuel n (drop n l) end
  end.

(** The message schedule, the latest word first. *)
Fixpoint sha1_schedule (n : nat) (ws : list Z) : list Z :=
  match n with
  | O => ws
  | S n =>
      let at_ (i : nat) := default 0 (ws !! i) in
      sha1_schedule n (rotl 1 (Z.lxor (Z.lxor (at_ 2%nat) (at_ 7%nat)) (Z.lxor (at_ 13%nat) (at_ 15%nat))) :: ws)
  end.

Record sha1_state : Type := mk_sha1 { h0 : Z; h1 : Z; h2 : Z; h3 : Z; h4 : Z }.

Definition sha1_round (st : sha1_state) (iw : nat * Z) : sha1_state :=
  let '(i, w) := iw in
  let '(mk_sha1 a b c d e) := st in
  let '(f, k) :=
    if decide (i < 20)%nat then (Z.lxor d (Z.land b (Z.lxor c d)), 1518500249)
    else if decide (i < 40)%nat then (Z.lxor b (Z.lxor c d), 1859775393)
    else if decide (i < 60)%nat then (Z.lor (Z.land (Z.lor b c) d) (Z.land b c), 2400959708)
    else (Z.lxor b (Z.lxor c d), 3395469782) in
  mk_sha1 (w32 (rotl 5 a + f + e + k + w)) a (rotl 30 b) c d.

Definition sha1_block (st : sha1_state) (block : bytes) : sha1_state :=
  let ws := reverse (sha1_schedule 64 (reverse (be_word <$> chunks 16 4 block))) in
  let st' := foldl sha1_round st (imap pair ws) in
  mk_sha1 (w32 (h0 st + h0 st')) (w32 (h1 st + h1 st')) (w32 (h2 st + h2 st')) (w32 (h3 st + h3 st'))
    (w32 (h4 st + h4 st')).

(** [sha1.Sum]. *)
Definition sha1_Sum (l : bytes) : bytes :=
  let padded := sha1_pad l in
  let st := foldl sha1_block (mk_sha1 1732584193 4023233417 2562383102 271733878 3285377520)
    (chunks (length padded) 64 padded) in
  word_bytes (h0 st) ++ word_bytes (h1 st) ++ word_bytes (h2 st) ++ word_bytes (h3 st) ++ word_bytes (h4 st).

Lemma length_sha1_Sum l : length (sha1_Sum l) = 20%nat.
Proof. unfold sha1_Sum. by destruct (foldl sha1_block _ _). Qed.

(** The test vectors of FIPS 180-4. *)
Example sha1_abc : hex_EncodeToString (sha1_Sum (to_bytes "abc")) = "a9993e364706816aba3e25717850c26c9cd0d89d"%string.
Proof. vm_compute. reflexivity. Qed.
Example sha1_two_blocks :
  hex_EncodeToString (sha1_Sum (to_bytes "abcdbcdecdefdefgefghfghighijhijkijkljklmklmnlmnomnopnopq"))
  = "84983e441c3bd26ebaae4aa1f95129e5e54670f1"%string.
Proof. vm_compute. reflexivity. Qed.
