(* ===== verification/GoCrypto.v ===== *)
(** * The interface of Go's [crypto] packages, and [math/big]

    The program calls [crypto/aes], [crypto/rsa] and [crypto/ecdsa]; their
    primitives are not part of the repository and are the operations of the
    classes below, with the documented behaviour the proofs rely on in the
    [...Laws] classes.  Block chaining ([crypto/cipher]'s CBC) and the byte
    conversions of [math/big] are defined here from the primitives. *)

From S2P Require Import Prelude GoStrings.

(** ** math/big *)

(** [new(big.Int).SetBytes(l)]: big-endian. *)
Definition big_SetBytes (l : bytes) : Z := foldl (λ acc b, acc * 256 + bval b) 0 l.

Fixpoint big_Bytes_go (fuel : nat) (n : Z) (acc : bytes) : bytes :=
  match fuel with
  | O => acc
  | S fuel' => if decide (n ≤ 0) then acc else big_Bytes_go fuel' (n / 256) (bmk n :: acc)
  end.

(** [n.Bytes()]: the absolute value, big-endian and without leading zeros; a
    number has at most [1 + log2 n] such bytes. *)
Definition big_Bytes (n : Z) : bytes :=
  big_Bytes_go (S (Z.to_nat (Z.log2 (Z.abs n)))) (Z.abs n) [].

Lemma big_SetBytes_acc l acc :
  foldl (λ acc b, acc * 256 + bval b) acc l = acc * 256 ^ Z.of_nat (length l) + big_SetBytes l.
Proof.
  unfold big_SetBytes. revert acc. induction l as [|b l IH]; intros acc; cbn [foldl length]; [lia|].
  rewrite IH, (IH (0 * 256 + bval b)), Nat2Z.inj_succ, Z.pow_succ_r by lia. ring.
Qed.

Lemma big_SetBytes_cons b l :
  big_SetBytes (b :: l) = bval b * 256 ^ Z.of_nat (length l) + big_SetBytes l.
Proof. unfold big_SetBytes at 1. simpl. by rewrite big_SetBytes_acc. Qed.

Lemma big_SetBytes_app l1 l2 :
  big_SetBytes (l1 ++ l2) = big_SetBytes l1 * 256 ^ Z.of_nat (length l2) + big_SetBytes l2.
Proof. unfold big_SetBytes at 1. rewrite foldl_app. apply big_SetBytes_acc. Qed.

Lemma big_SetBytes_range l : 0 ≤ big_SetBytes l < 256 ^ Z.of_nat (length l).
Proof.
  induction l as [|b l IH]; [done|]. rewrite big_SetBytes_cons. simpl length.
  rewrite Nat2Z.inj_succ, Z.pow_succ_r by lia. pose proof (bval_range b). nia.
Qed.

Lemma big_SetBytes_zeros n : big_SetBytes (replicate n (bmk 0)) = 0.
Proof.
  induction n as [|n IH]; [done|]. cbn [replicate]. rewrite big_SetBytes_cons, IH, bval_bmk. rewrite Z.mod_0_l; lia.
Qed.

Lemma big_Bytes_go_spec fuel n acc :
  0 ≤ n < 256 ^ Z.of_nat fuel →
  big_SetBytes (big_Bytes_go fuel n acc) = n * 256 ^ Z.of_nat (length acc) + big_SetBytes acc.
Proof.
  revert n acc. induction fuel as [|fuel IH]; intros n acc Hn.
  { simpl in *. assert (n = 0) as -> by lia. lia. }
  rewrite Nat2Z.inj_succ, Z.pow_succ_r in Hn by lia. cbn [big_Bytes_go].
  case_decide; [assert (n = 0) as -> by lia; lia|].
  rewrite IH by (split; [apply Z.div_pos|apply Z.div_lt_upper_bound]; lia).
  rewrite big_SetBytes_cons, bval_bmk. simpl length.
  rewrite Nat2Z.inj_succ, Z.pow_succ_r by lia.
  rewrite (Z.div_mod n 256) at 3 by lia. ring.
Qed.

Lemma big_Bytes_fuel n : 0 ≤ n → n < 256 ^ Z.of_nat (S (Z.to_nat (Z.log2 n))).
Proof.
  intros Hn. rewrite Nat2Z.inj_succ, Z2Nat.id by apply Z.log2_nonneg.
  destruct (decide (n = 0)) as [->|]; [done|].
  pose proof (Z.log2_spec n). pose proof (Z.log2_nonneg n).
  apply Z.lt_le_trans with (2 ^ Z.succ (Z.log2 n)); [lia|].
  apply Z.pow_le_mono_l. lia.
Qed.

Lemma big_SetBytes_Bytes n : 0 ≤ n → big_SetBytes (big_Bytes n) = n.
Proof.
  intros Hn. unfold big_Bytes. rewrite Z.abs_eq by done.
  rewrite big_Bytes_go_spec by (split; [done|by apply big_Bytes_fuel]).
  change (big_SetBytes []) with 0. simpl. lia.
Qed.

Lemma length_big_Bytes_go fuel n acc k :
  0 ≤ n < 256 ^ Z.of_nat k → (length (big_Bytes_go fuel n acc) ≤ k + length acc)%nat.
Proof.
  revert n acc k. induction fuel as [|fuel IH]; intros n acc k Hn; cbn [big_Bytes_go]; [lia|].
  case_decide; [lia|]. destruct k as [|k]; [simpl in Hn; lia|].
  rewrite Nat2Z.inj_succ, Z.pow_succ_r in Hn by lia.
  etrans; [apply (IH _ _ k)|simpl; lia].
  split; [apply Z.div_pos|apply Z.div_lt_upper_bound]; lia.
Qed.

Lemma length_big_Bytes n k : 0 ≤ n < 256 ^ Z.of_nat k → (length (big_Bytes n) ≤ k)%nat.
Proof.
  intros. unfold big_Bytes. rewrite Z.abs_eq by lia.
  pose proof (length_big_Bytes_go (S (Z.to_nat (Z.log2 n))) n [] k). simpl in *. lia.
Qed.

Lemma big_Bytes_nonempty n : 0 < n → big_Bytes n ≠ [].
Proof.
  intros Hn Heq. apply (f_equal big_SetBytes) in Heq.
  rewrite big_SetBytes_Bytes in Heq by lia. change (n = 0) in Heq. lia.
Qed.

(** ** crypto/aes and crypto/cipher *)

Class BlockCipher : Type := {
  aes_Encrypt : bytes → bytes → bytes;   (** key, then one 16-byte block *)
  aes_Decrypt : bytes → bytes → bytes;
}.

Definition aes_BlockSize : nat := 16.
Definition aes_key_size (n : nat) : Prop := n = 16%nat ∨ n = 24%nat ∨ n = 32%nat.
Global Instance aes_key_size_dec n : Decision (aes_key_size n).
Proof. unfold aes_key_size. apply _. Defined.

(** For each key the block function is a permutation of the 16-byte blocks. *)
Class BlockCipherLaws (C : BlockCipher) : Prop := {
  length_aes_Encrypt : ∀ k b, length b = 16%nat → length (aes_Encrypt k b) = 16%nat;
  length_aes_Decrypt : ∀ k b, length b = 16%nat → length (aes_Decrypt k b) = 16%nat;
  aes_Decrypt_Encrypt : ∀ k b,
    aes_key_size (length k) → length b = 16%nat → aes_Decrypt k (aes_Encrypt k b) = b;
  aes_Encrypt_Decrypt : ∀ k b,
    aes_key_size (length k) → length b = 16%nat → aes_Encrypt k (aes_Decrypt k b) = b;
}.

(** [aes.NewCipher] refuses the other key sizes with [KeySizeError]; a cipher
    is its key. *)
Definition aes_NewCipher (key : bytes) : outcome message bytes :=
  if decide (aes_key_size (length key)) then Ok key
  else Err (Text ("crypto/aes: invalid key size " ++ Itoa (Z.of_nat (length key)))).

Definition bxor (a b : byte) : byte := bmk (Z.lxor (bval a) (bval b)).
Definition xor_bytes : bytes → bytes → bytes := zip_with bxor.

Lemma bxor_cancel a b : bxor (bxor a b) b = a.
Proof.
  apply (inj bval). unfold bxor. rewrite !bval_bmk.
  pose proof (bval_range a). pose proof (bval_range b).
  assert (0 ≤ Z.lxor (bval a) (bval b)) by (apply Z.lxor_nonneg; lia).
  change 256 with (2 ^ 8). rewrite <-!Z.land_ones by lia.
  apply Z.bits_inj'. intros i Hi. rewrite !Z.land_spec, !Z.lxor_spec, !Z.land_spec, !Z.lxor_spec.
  destruct (decide (i < 8)).
  - rewrite Z.ones_spec_low by lia. by destruct (Z.testbit (bval a) i), (Z.testbit (bval b) i).
  - rewrite Z.ones_spec_high, !andb_false_r by lia. symmetry.
    rewrite <-(Z.mod_small (bval a) (2 ^ 8)) by lia. rewrite Z.mod_pow2_bits_high by lia. done.
Qed.

Lemma xor_bytes_cancel a b : length a = length b → xor_bytes (xor_bytes a b) b = a.
Proof.
  revert b. induction a as [|x a IH]; intros [|y b] Hlen; simpl in *; [done..|].
  rewrite bxor_cancel. f_equal. apply IH. lia.
Qed.

Lemma length_xor_bytes a b : length a = length b → length (xor_bytes a b) = length a.
Proof. intros Hlen. unfold xor_bytes. rewrite length_zip_with, Hlen. lia. Qed.

Section cbc.
Context `{C : BlockCipher}.

(** The blocks of a buffer, [n] bytes each. *)
Fixpoint blocks (fuel n : nat) (l : bytes) : list bytes :=
  match fuel with
  | O => []
  | S fuel' => match l with [] => [] | _ => take n l :: blocks fuel' n (drop n l) end
  end.

Fixpoint cbc_enc (key prev : bytes) (bs : list bytes) : list bytes :=
  match bs with
  | [] => []
  | b :: bs' => let c := aes_Encrypt key (xor_bytes b prev) in c :: cbc_enc key c bs'
  end.
Fixpoint cbc_dec (key prev : bytes) (bs : list bytes) : list bytes :=
  match bs with
  | [] => []
  | c :: bs' => xor_bytes (aes_Decrypt key c) prev :: cbc_dec key c bs'
  end.

(** [cipher.NewCBCEncrypter(block, iv).CryptBlocks]: it panics unless the
    input is a whole number of blocks. *)
Definition CBCEncrypter (key iv input : bytes) : outcome message bytes :=
  if decide (length input `mod` aes_BlockSize ≠ 0)%nat
  then Panic "crypto/cipher: input not full blocks"
  else Ok (concat (cbc_enc key iv (blocks (length input) aes_BlockSize input))).
Definition CBCDecrypter (key iv input : bytes) : outcome message bytes :=
  if decide (length input `mod` aes_BlockSize ≠ 0)%nat
  then Panic "crypto/cipher: input not full blocks"
  else Ok (concat (cbc_dec key iv (blocks (length input) aes_BlockSize input))).

Lemma blocks_concat n (bs : list bytes) fuel :
  (0 < n)%nat → Forall (λ b, length b = n) bs → (length bs ≤ fuel)%nat →
  blocks fuel n (concat bs) = bs.
Proof.
  intros Hn Hbs. revert fuel. induction Hbs as [|b bs Hb Hbs IH]; intros fuel Hf.
  { by destruct fuel. }
  destruct fuel as [|fuel]; simpl in Hf; [lia|]. simpl.
  destruct (b ++ concat bs) as [|x l] eqn:Heq.
  { destruct b; simpl in *; [lia|done]. }
  rewrite <-Heq. rewrite take_app_length', drop_app_length' by done. f_equal. apply IH. lia.
Qed.

Lemma concat_blocks n l fuel :
  (0 < n)%nat → (length l ≤ fuel)%nat → concat (blocks fuel n l) = l.
Proof.
  intros Hn. revert l. induction fuel as [|fuel IH]; intros l Hf.
  { by destruct l; simpl in *; [|lia]. }
  destruct l as [|x l]; [done|]. simpl. rewrite IH.
  - by rewrite take_drop.
  - rewrite length_drop. simpl in *. lia.
Qed.

Lemma blocks_full n l fuel k :
  length l = (k * n)%nat → Forall (λ b, length b = n) (blocks fuel n l).
Proof.
  revert l k. induction fuel as [|fuel IH]; intros l k Hl; simpl; [done|].
  destruct l as [|x l]; [done|]. destruct k as [|k]; [done|].
  constructor; [rewrite length_take; lia|]. apply (IH _ k). rewrite length_drop. lia.
Qed.

Lemma blocks_mod n l fuel :
  (0 < n)%nat → (length l `mod` n = 0)%nat → Forall (λ b, length b = n) (blocks fuel n l).
Proof.
  intros Hn Hl. apply (blocks_full n l fuel (length l / n)).
  pose proof (Nat.div_mod (length l) n). lia.
Qed.

Lemma length_concat_blocks n (bs : list bytes) :
  Forall (λ b, length b = n) bs → length (concat bs) = (length bs * n)%nat.
Proof. induction 1; simpl; [done|]. rewrite length_app. lia. Qed.

Context `{!BlockCipherLaws C}.

Lemma cbc_enc_full key prev bs :
  length prev = 16%nat → Forall (λ b, length b = 16%nat) bs →
  Forall (λ b, length b = 16%nat) (cbc_enc key prev bs) ∧
  length (cbc_enc key prev bs) = length bs.
Proof.
  intros Hprev Hbs. revert prev Hprev.
  induction Hbs as [|b bs Hb Hbs IH]; intros prev Hprev; simpl; [done|].
  assert (length (aes_Encrypt key (xor_bytes b prev)) = 16%nat) as Hc.
  { apply length_aes_Encrypt. rewrite length_xor_bytes; lia. }
  destruct (IH _ Hc). split; [by constructor|lia].
Qed.

Lemma cbc_dec_enc key prev bs :
  aes_key_size (length key) → length prev = 16%nat → Forall (λ b, length b = 16%nat) bs →
  cbc_dec key prev (cbc_enc key prev bs) = bs.
Proof.
  intros Hkey Hprev Hbs. revert prev Hprev.
  induction Hbs as [|b bs Hb Hbs IH]; intros prev Hprev; simpl; [done|].
  assert (length (xor_bytes b prev) = 16%nat) by (rewrite length_xor_bytes; lia).
  rewrite aes_Decrypt_Encrypt, xor_bytes_cancel by (done || lia).
  f_equal. apply IH. by apply length_aes_Encrypt.
Qed.

(** Decrypting what the encrypter produced under the same key and IV. *)
Lemma CBC_round_trip key iv input out :
  aes_key_size (length key) → length iv = 16%nat →
  CBCEncrypter key iv input = Ok out →
  CBCDecrypter key iv out = Ok input ∧ length out = length input.
Proof.
  intros Hkey Hiv. unfold CBCEncrypter, CBCDecrypter. case_decide as Hm; [done|].
  intros [= <-]. assert (length input `mod` 16 = 0)%nat as Hmod by (unfold aes_BlockSize in Hm; lia).
  unfold aes_BlockSize in *.
  pose proof (blocks_mod 16 input (length input) ltac:(lia) Hmod) as Hfull.
  destruct (cbc_enc_full key iv _ Hiv Hfull) as [Hc Hlen].
  assert (length (concat (cbc_enc key iv (blocks (length input) 16 input))) = length input) as Hl.
  { rewrite (length_concat_blocks 16) by done. rewrite Hlen.
    rewrite <-(length_concat_blocks 16) by done. by rewrite concat_blocks by lia. }
  rewrite Hl. split; [|done]. rewrite decide_False by lia. f_equal.
  rewrite blocks_concat; [|lia|done|].
  - rewrite cbc_dec_enc by done. by apply concat_blocks; lia.
  - rewrite Hlen. rewrite (length_concat_blocks 16) in Hl by done. lia.
Qed.
End cbc.

(** ** crypto/rsa, crypto/ecdsa, crypto/elliptic and the hashes *)

Inductive Hash : Type := SHA1 | SHA256 | SHA384 | SHA512.
Global Instance Hash_eq_dec : EqDecision Hash.
Proof. solve_decision. Defined.

Inductive Curve : Type := P256 | P384 | P521.
Global Instance Curve_eq_dec : EqDecision Curve.
Proof. solve_decision. Defined.

(** [curve.Params().BitSize]. *)
Definition BitSize (c : Curve) : nat := match c with P256 => 256 | P384 => 384 | P521 => 521 end.

Record rsa_PublicKey : Type := mk_rsa_PublicKey { rsa_N : Z; rsa_E : Z }.
Record rsa_PrivateKey : Type := mk_rsa_PrivateKey {
  rsa_Public : rsa_PublicKey;
  rsa_D : Z;
  rsa_Primes : list Z;
}.
Record ecdsa_PublicKey : Type := mk_ecdsa_PublicKey { ec_Curve : Curve; ec_X : Z; ec_Y : Z }.
Record ecdsa_PrivateKey : Type := mk_ecdsa_PrivateKey { ec_Public : ecdsa_PublicKey; ec_D : Z }.

Global Instance rsa_PublicKey_eq_dec : EqDecision rsa_PublicKey.
Proof. solve_decision. Defined.
Global Instance rsa_PrivateKey_eq_dec : EqDecision rsa_PrivateKey.
Proof. solve_decision. Defined.
Global Instance ecdsa_PublicKey_eq_dec : EqDecision ecdsa_PublicKey.
Proof. solve_decision. Defined.
Global Instance ecdsa_PrivateKey_eq_dec : EqDecision ecdsa_PrivateKey.
Proof. solve_decision. Defined.

Class PublicKeyLib : Type := {
  rsa_GenerateKey : Env → Z → outcome message rsa_PrivateKey;
  (** [Precompute] returns nothing; it may panic on numbers that are not a key *)
  rsa_Precompute : rsa_PrivateKey → outcome message rsa_PrivateKey;
  rsa_EncryptOAEP : Hash → Env → rsa_PublicKey → bytes → outcome message bytes;
  rsa_EncryptPKCS1v15 : Env → rsa_PublicKey → bytes → outcome message bytes;
  rsa_DecryptOAEP : Hash → rsa_PrivateKey → bytes → outcome message bytes;
  rsa_DecryptPKCS1v15 : rsa_PrivateKey → bytes → outcome message bytes;
  rsa_SignPSS : Env → rsa_PrivateKey → Hash → bytes → outcome message bytes;
  rsa_SignPKCS1v15 : Env → rsa_PrivateKey → Hash → bytes → outcome message bytes;
  rsa_VerifyPSS : rsa_PublicKey → Hash → bytes → bytes → bool;        (** no error *)
  rsa_VerifyPKCS1v15 : rsa_PublicKey → Hash → bytes → bytes → bool;
  ecdsa_GenerateKey : Curve → Env → outcome message ecdsa_PrivateKey;
  ecdsa_Sign : Env → ecdsa_PrivateKey → bytes → outcome message (Z * Z);
  ecdsa_Verify : ecdsa_PublicKey → bytes → Z → Z → bool;
  hash_Sum : Hash → bytes → bytes;
}.

(** The documented behaviour relied on: for a key that the library generated,
    decryption inverts encryption and verification accepts a signature; an
    ECDSA signature consists of two numbers below the order of the curve. *)
Class PublicKeyLaws (L : PublicKeyLib) : Prop := {
  rsa_generated_public e n k : rsa_GenerateKey e n = Ok k →
    0 < rsa_N (rsa_Public k) ∧ 1 < rsa_E (rsa_Public k) ≤ max_int64;
  rsa_OAEP_inverse e n k h e' m c : rsa_GenerateKey e n = Ok k →
    rsa_EncryptOAEP h e' (rsa_Public k) m = Ok c → rsa_DecryptOAEP h k c = Ok m;
  rsa_PKCS1v15_inverse e n k e' m c : rsa_GenerateKey e n = Ok k →
    rsa_EncryptPKCS1v15 e' (rsa_Public k) m = Ok c → rsa_DecryptPKCS1v15 k c = Ok m;
  rsa_PSS_correct e n k h e' d s : rsa_GenerateKey e n = Ok k →
    rsa_SignPSS e' k h d = Ok s → rsa_VerifyPSS (rsa_Public k) h d s = true;
  rsa_PKCS1v15_correct e n k h e' d s : rsa_GenerateKey e n = Ok k →
    rsa_SignPKCS1v15 e' k h d = Ok s → rsa_VerifyPKCS1v15 (rsa_Public k) h d s = true;
  ecdsa_generated_curve c e k : ecdsa_GenerateKey c e = Ok k → ec_Curve (ec_Public k) = c;
  ecdsa_generated_point c e k : ecdsa_GenerateKey c e = Ok k →
    0 ≤ ec_X (ec_Public k) ∧ 0 ≤ ec_Y (ec_Public k);
  ecdsa_Sign_range e k d r s : ecdsa_Sign e k d = Ok (r, s) →
    0 ≤ r < 2 ^ Z.of_nat (BitSize (ec_Curve (ec_Public k))) ∧
    0 ≤ s < 2 ^ Z.of_nat (BitSize (ec_Curve (ec_Public k)));
  ecdsa_correct c e k e' d r s : ecdsa_GenerateKey c e = Ok k →
    ecdsa_Sign e' k d = Ok (r, s) → ecdsa_Verify (ec_Public k) d r s = true;
}.
