(* ===== verification/GoX509.v ===== *)
(** * [encoding/pem], [crypto/x509] and [golang.org/x/crypto/pkcs12]

    Certificates are opaque: the program reads their bytes and their public
    key.  The functions are parameters with the documented laws the theorems
    rely on. *)

From S2P Require Import Prelude GoStrings GoCrypto.

Record pem_Block : Type := mk_pem_Block_headers {
  pem_Type : string;
  pem_Headers : gmap string string;
  pem_Bytes : bytes;
}.
(** [&pem.Block{Type: ty, Bytes: b}]. *)
Definition mk_pem_Block (ty : string) (b : bytes) : pem_Block := mk_pem_Block_headers ty ∅ b.

(** The part of [pkix.Name] that [ParseSubject] fills. *)
Record pkix_Name : Type := mk_pkix_Name {
  pn_CommonName : string;
  pn_Organization : list string;
  pn_OrganizationalUnit : list string;
  pn_Country : list string;
  pn_Province : list string;
  pn_Locality : list string;
}.

Inductive KeyUsage : Type := KeyUsageDigitalSignature | KeyUsageCertSign | KeyUsageCRLSign | KeyUsageKeyEncipherment.
Inductive ExtKeyUsage : Type := ExtKeyUsageServerAuth | ExtKeyUsageClientAuth.

(** The fields [GenerateCert] sets in its template; times in nanoseconds
    since the epoch. *)
Record x509_Template : Type := mk_x509_Template {
  tpl_SerialNumber : Z;
  tpl_Subject : pkix_Name;
  tpl_NotBefore : Z;
  tpl_NotAfter : Z;
  tpl_KeyUsage : list KeyUsage;
  tpl_ExtKeyUsage : list ExtKeyUsage;
  tpl_BasicConstraintsValid : bool;
  tpl_IsCA : bool;
}.

Class CertLib : Type := {
  x509_Certificate : Type;
  cert_Raw : x509_Certificate → bytes;
  (** [cert.PublicKey.( *rsa.PublicKey)] *)
  cert_RSAPublicKey : x509_Certificate → option rsa_PublicKey;
  x509_ParseCertificate : bytes → outcome message x509_Certificate;
  (** template, parent ([None]: the template itself), public key, signer *)
  x509_CreateCertificate : Env → x509_Template → option x509_Certificate → rsa_PublicKey →
    option rsa_PrivateKey → outcome message bytes;
  x509_MarshalPKCS1PrivateKey : rsa_PrivateKey → bytes;
  x509_ParsePKCS1PrivateKey : bytes → outcome message rsa_PrivateKey;
  (** [None]: a key that is not an RSA key *)
  x509_ParsePKCS8PrivateKey : bytes → outcome message (option rsa_PrivateKey);
  pem_EncodeToMemory : pem_Block → bytes;
  (** the first block of the data and what follows it *)
  pem_Decode : bytes → option (pem_Block * bytes);
  pkcs12_ToPEM : bytes → string → outcome message (list pem_Block);
  (** [rand.Int(rand.Reader, max)] *)
  rand_Int : Env → Z → outcome message Z;
  (** the result of [int64(f)] where Go leaves it to the implementation *)
  int64_of_float_overflow : Z;
}.

(** The DER forms of keys that the SQL store and the UI write. *)
Class KeyDer : Type := {
  x509_MarshalPKCS1PublicKey : rsa_PublicKey → bytes;
  x509_ParsePKCS1PublicKey : bytes → outcome message rsa_PublicKey;
  x509_MarshalECPrivateKey : ecdsa_PrivateKey → outcome message bytes;
  x509_ParseECPrivateKey : bytes → outcome message ecdsa_PrivateKey;
  (** [MarshalPKIXPublicKey], by the type of its argument *)
  x509_MarshalPKIX_rsa : rsa_PublicKey → outcome message bytes;
  x509_MarshalPKIX_ecdsa : ecdsa_PublicKey → outcome message bytes;
  (** [None]: a key that is not an ECDSA key *)
  x509_ParsePKIXPublicKey : bytes → outcome message (option ecdsa_PublicKey);
}.

(** A key that the library generated or parsed is written and parses back;
    nothing parses from no bytes. *)
Class KeyDerLaws (L : PublicKeyLib) (KD : KeyDer) : Prop := {
  x509_PKCS1Public_generated e n k : rsa_GenerateKey e n = Ok k →
    x509_ParsePKCS1PublicKey (x509_MarshalPKCS1PublicKey (rsa_Public k)) = Ok (rsa_Public k);
  x509_PKCS1Public_parsed der k : x509_ParsePKCS1PublicKey der = Ok k →
    x509_ParsePKCS1PublicKey (x509_MarshalPKCS1PublicKey k) = Ok k;
  x509_PKCS1Public_empty k : x509_ParsePKCS1PublicKey [] ≠ Ok k;
  x509_EC_generated c e k : ecdsa_GenerateKey c e = Ok k →
    ∃ der, x509_MarshalECPrivateKey k = Ok der ∧ x509_ParseECPrivateKey der = Ok k;
  x509_EC_parsed der k : x509_ParseECPrivateKey der = Ok k →
    ∃ der', x509_MarshalECPrivateKey k = Ok der' ∧ x509_ParseECPrivateKey der' = Ok k;
  x509_EC_empty k : x509_ParseECPrivateKey [] ≠ Ok k;
  x509_PKIX_generated c e k : ecdsa_GenerateKey c e = Ok k →
    ∃ der, x509_MarshalPKIX_ecdsa (ec_Public k) = Ok der ∧ x509_ParsePKIXPublicKey der = Ok (Some (ec_Public k));
  x509_PKIX_parsed der k : x509_ParsePKIXPublicKey der = Ok (Some k) →
    ∃ der', x509_MarshalPKIX_ecdsa k = Ok der' ∧ x509_ParsePKIXPublicKey der' = Ok (Some k);
  x509_PKIX_empty k : x509_ParsePKIXPublicKey [] ≠ Ok k;
}.

(** What the certificate of the TLS listener is made with. *)
Class TlsLib (X : CertLib) : Type := {
  tls_Certificate : Type;
  tls_DER : tls_Certificate → bytes;
  tls_PrivateKey : tls_Certificate → rsa_PrivateKey;
  cert_DNSNames : x509_Certificate → list string;
  (** [x509.CreateCertificate] with a parsed certificate as its template and
      its parent, after an assignment to its [DNSNames] *)
  x509_CreateFrom : Env → x509_Certificate → list string → rsa_PublicKey → rsa_PrivateKey → outcome message bytes;
  tls_X509KeyPair : bytes → bytes → outcome message tls_Certificate;
}.

(** A certificate holds the key and the names it was made with; a pair is
    accepted when the certificate is for the public half of the key. *)
Class TlsLaws (L : PublicKeyLib) (X : CertLib) (TL : TlsLib X) : Prop := {
  x509_Parse_CreateFrom e t dns pub k der : x509_CreateFrom e t dns pub k = Ok der →
    ∃ c, x509_ParseCertificate der = Ok c ∧ cert_RSAPublicKey c = Some pub ∧ cert_DNSNames c = dns;
  tls_X509KeyPair_matches der key c k :
    x509_ParseCertificate der = Ok c → x509_ParsePKCS1PrivateKey key = Ok k → cert_RSAPublicKey c = Some (rsa_Public k) →
    ∃ t, tls_X509KeyPair (pem_EncodeToMemory (mk_pem_Block "CERTIFICATE" der))
        (pem_EncodeToMemory (mk_pem_Block "RSA PRIVATE KEY" key)) = Ok t ∧ tls_DER t = der ∧ tls_PrivateKey t = k;
}.

Class CertLaws (L : PublicKeyLib) (X : CertLib) : Prop := {
  cert_Raw_Parse b c : x509_ParseCertificate b = Ok c → cert_Raw c = b;
  (** what [CreateCertificate] writes parses, and holds the key it was given *)
  x509_Parse_Create e t p pub k der : x509_CreateCertificate e t p pub k = Ok der →
    ∃ c, x509_ParseCertificate der = Ok c ∧ cert_RSAPublicKey c = Some pub;
  x509_PKCS1_round_trip e n k : rsa_GenerateKey e n = Ok k →
    x509_ParsePKCS1PrivateKey (x509_MarshalPKCS1PrivateKey k) = Ok k;
  x509_PKCS1_empty k : x509_ParsePKCS1PrivateKey [] ≠ Ok k;
  pem_Decode_Encode ty b rest : ty ∈ ["CERTIFICATE"; "RSA PRIVATE KEY"]%string →
    pem_Decode (pem_EncodeToMemory (mk_pem_Block ty b) ++ rest) = Some (mk_pem_Block ty b, rest);
  pem_Decode_nil : pem_Decode [] = None;
  pem_Decode_shrinks d b rest : pem_Decode d = Some (b, rest) → (length rest < length d)%nat;
  pem_Encode_header ty b : ∃ tail,
    pem_EncodeToMemory (mk_pem_Block ty b) = to_bytes ("-----BEGIN " ++ ty ++ "-----")%string ++ tail;
}.
