(* ===== verification/GoSql.v ===== *)
(** * [database/sql]: errors, rows, and programs of statements

    A function that talks to a database is a [prog]: a tree whose nodes are the
    statements and queries it sends, with their texts and arguments as the code
    writes them.  [run] executes it against an engine from start to end;
    [interleave] executes two of them statement by statement under a schedule,
    because nothing but the engine orders the statements of two requests. *)

From S2P Require Import Prelude GoStrings.

(** The errors of database/sql the code tells apart. *)
Inductive sql_error : Type := ErrNoRows | SqlError (m : message).
#[export] Instance sql_error_eq_dec : EqDecision sql_error.
Proof. solve_decision. Defined.

(** [err.Error()]. *)
Definition sql_error_text (err : sql_error) : message :=
  match err with ErrNoRows => "sql: no rows in result set" | SqlError m => m end.

(** ** Values and rows *)

Inductive value : Type := VNull | VText (s : string) | VInt (z : Z).
#[export] Instance value_eq_dec : EqDecision value.
Proof. solve_decision. Defined.

(** The columns of a row, named, in the order of the query. *)
Notation row := (list (string * value)) (only parsing).

(** [rows.Scan(dest...)] with [n] destinations compares [n] to the width of
    the row, then converts column by column. *)
Definition scan_width (n : nat) (r : row) : outcome message unit :=
  if decide (length r = n) then Ok () else
  Err (Text ("sql: expected " ++ Itoa (Z.of_nat (length r)) ++ " destination arguments in Scan, not " ++
    Itoa (Z.of_nat n))%string).

Definition scan_error (i : nat) (column : string) (why : list part) : message :=
  Format ([Lit ("sql: Scan error on column index " ++ Itoa (Z.of_nat i) ++ ", name ")%string; Quoted column; Lit ": "] ++ why).

Definition scan_with {A} (convert : value → outcome (list part) A) (r : row) (i : nat) : outcome message A :=
  match r !! i with
  | Some (column, v) => o_maperr (scan_error i column) (convert v)
  | None => Err (Text ("sql: expected " ++ Itoa (Z.of_nat (length r)) ++ " destination arguments in Scan, not " ++
      Itoa (Z.of_nat (S i)))%string)
  end.

(** Into a [string]. *)
Definition scan_text : row → nat → outcome message string := scan_with (λ v,
  match v with
  | VText s => Ok s
  | VInt z => Ok (Itoa z)
  | VNull => Err [Lit "converting NULL to string is unsupported"]
  end).
(** Into an [int] or [int64]. *)
Definition scan_int : row → nat → outcome message Z := scan_with (λ v,
  match v with
  | VInt z => Ok z
  | VText s =>
      match Atoi s with
      | Some z => Ok z
      | None => Err [Lit "converting driver.Value type string ("; Quoted s; Lit ") to a int64: invalid syntax"]
      end
  | VNull => Err [Lit "converting NULL to int64 is unsupported"]
  end).
(** Into a [sql.NullString]: [None] is one that is not valid. *)
Definition scan_null_text : row → nat → outcome message (option string) := scan_with (λ v,
  match v with VText s => Ok (Some s) | VInt z => Ok (Some (Itoa z)) | VNull => Ok None end).

(** ** The engine *)

(** The rows a query gives before it ends, and the error that ended it. *)
Notation row_set := (list row * option sql_error)%type (only parsing).

Class SqlEngine : Type := {
  sdb : Type;
  sql_Exec : string → list value → sdb → outcome sql_error unit * sdb;
  sql_Query : string → list value → sdb → outcome sql_error row_set;
}.

(** ** Programs *)

Inductive prog (E A : Type) : Type :=
| Done (o : outcome E A)
| Exec (q : string) (args : list value) (k : outcome sql_error unit → prog E A)
| Query (q : string) (args : list value) (k : outcome sql_error row_set → prog E A).
Arguments Done {E A} o.
Arguments Exec {E A} q args k.
Arguments Query {E A} q args k.

Fixpoint p_bind {E A B} (p : prog E A) (f : A → prog E B) : prog E B :=
  match p with
  | Done (Ok a) => f a
  | Done (Err e) => Done (Err e)
  | Done (Panic m) => Done (Panic m)
  | Exec q args k => Exec q args (λ o, p_bind (k o) f)
  | Query q args k => Query q args (λ o, p_bind (k o) f)
  end.
Definition p_ret {E A} (a : A) : prog E A := Done (Ok a).
Definition p_fail {E A} (e : E) : prog E A := Done (Err e).

(** The result as a value, for a caller that looks at the error. *)
Fixpoint p_try {E A} (p : prog E A) : prog E (outcome E A) :=
  match p with
  | Done (Panic m) => Done (Panic m)
  | Done o => p_ret o
  | Exec q args k => Exec q args (λ o, p_try (k o))
  | Query q args k => Query q args (λ o, p_try (k o))
  end.

Notation "'let+' x ':=' p 'in' k" := (p_bind p (λ x, k))
  (at level 10, x binder, p at level 100, k at level 200,
   format "'[v' 'let+'  x  ':='  p  'in'  '/' k ']'") : go_scope.

(** [for _, x := range l { ... }] *)
Fixpoint p_iter {E A} (f : A → prog E unit) (l : list A) : prog E unit :=
  match l with [] => p_ret () | x :: l => let+ _ := f x in p_iter f l end.
Fixpoint p_traverse {E A B} (f : A → prog E B) (l : list A) : prog E (list B) :=
  match l with
  | [] => p_ret []
  | x :: l => let+ y := f x in let+ ys := p_traverse f l in p_ret (y :: ys)
  end.

Section calls.
Context {E : Type} (fail : sql_error → E).   (** how the caller returns the error *)

(** [_, err := db.Exec(q, args...)]; [if err != nil { return err }] *)
Definition exec (q : string) (args : list value) : prog E unit := Exec q args (λ o, Done (o_maperr fail o)).
(** [db.Exec(q, args...)], its error dropped. *)
Definition exec_ignore (q : string) (args : list value) : prog E unit := Exec q args (λ o,
  match o with Panic m => Done (Panic m) | _ => p_ret () end).

Definition first_row (o : outcome sql_error row_set) : outcome sql_error row :=
  match o with
  | Ok (r :: _, _) => Ok r
  | Ok ([], Some err) => Err err
  | Ok ([], None) => Err ErrNoRows
  | Err err => Err err
  | Panic m => Panic m
  end.
(** [err := db.QueryRow(q, args...).Scan(...)], the error left to the caller. *)
Definition QueryRow {A} (q : string) (args : list value) (scan : row → outcome message A)
    (k : outcome sql_error A → prog E A) : prog E A :=
  Query q args (λ o, k (let! r := first_row o in o_maperr SqlError (scan r))).
(** The error returned as it is. *)
Definition query_row {A} (q : string) (args : list value) (scan : row → outcome message A) : prog E A :=
  QueryRow q args scan (λ o, Done (o_maperr fail o)).

(** [rows, err := db.Query(q, args...)], [body] on each row, [rows.Err()]. *)
Definition query_rows {A} (q : string) (args : list value) (body : row → outcome E A) : prog E (list A) :=
  Query q args (λ o, Done (
    let! rs := o_maperr fail o in
    let! l := o_traverse body rs.1 in
    match rs.2 with Some err => Err (fail err) | None => Ok l end)).
End calls.

(** ** Execution *)

Section run.
Context `{D : SqlEngine} {E : Type}.

Fixpoint run {A} (p : prog E A) : M sdb E A := λ d,
  match p with
  | Done o => (o, d)
  | Exec q args k => run (k (sql_Exec q args d).1) (sql_Exec q args d).2
  | Query q args k => run (k (sql_Query q args d)) d
  end.

Lemma run_bind {A B} (p : prog E A) (f : A → prog E B) d :
  run (p_bind p f) d = m_bind (run p) (λ a, run (f a)) d.
Proof.
  revert d. induction p as [o|q args k IH|q args k IH]; intros d; unfold m_bind in *.
  - by destruct o.
  - apply (IH _ _).
  - apply (IH _ _).
Qed.

Lemma run_bind_Ok {A B} (p : prog E A) (f : A → prog E B) d a d' :
  run p d = (Ok a, d') → run (p_bind p f) d = run (f a) d'.
Proof. intros Hp. rewrite run_bind. unfold m_bind. by rewrite Hp. Qed.
Lemma run_bind_Err {A B} (p : prog E A) (f : A → prog E B) d e d' :
  run p d = (Err e, d') → run (p_bind p f) d = (Err e, d').
Proof. intros Hp. rewrite run_bind. unfold m_bind. by rewrite Hp. Qed.

Lemma run_bind_inv {A B} (p : prog E A) (f : A → prog E B) d b d' :
  run (p_bind p f) d = (Ok b, d') → ∃ a d1, run p d = (Ok a, d1) ∧ run (f a) d1 = (Ok b, d').
Proof. rewrite run_bind. unfold m_bind. destruct (run p d) as [[a| |] d1]; [|done..]. intros Hf. by exists a, d1. Qed.

Lemma run_traverse {A B} (g : A → prog E B) (h : A → B) l d :
  (∀ x, x ∈ l → run (g x) d = (Ok (h x), d)) → run (p_traverse g l) d = (Ok (h <$> l), d).
Proof.
  induction l as [|x l IH]; intros Hg; [done|]. cbn [p_traverse].
  rewrite (run_bind_Ok _ _ _ _ _ (Hg x ltac:(set_solver))), (run_bind_Ok _ _ _ (h <$> l) d) by (apply IH; set_solver). done.
Qed.

Lemma run_try {A} (p : prog E A) d :
  run (p_try p) d =
    match run p d with (Panic m, d') => (Panic m, d') | (o, d') => (Ok o, d') end.
Proof. revert d. induction p as [[]|q args k IH|q args k IH]; intros d; simpl; auto. Qed.

(** One statement or query of a program. *)
Definition p_step {A} (p : prog E A) (d : sdb) : prog E A * sdb :=
  match p with
  | Done o => (Done o, d)
  | Exec q args k => (k (sql_Exec q args d).1, (sql_Exec q args d).2)
  | Query q args k => (k (sql_Query q args d), d)
  end.

(** Two requests; [true] lets the first one take its next step. *)
Fixpoint interleave {A B} (sched : list bool) (p : prog E A) (q : prog E B) (d : sdb)
    : prog E A * prog E B * sdb :=
  match sched with
  | [] => (p, q, d)
  | true :: sched => let '(p, d) := p_step p d in interleave sched p q d
  | false :: sched => let '(q, d) := p_step q d in interleave sched p q d
  end.

(** Any number of requests: the program at [i] takes a step. *)
Inductive pool_step {A} : list (prog E A) * sdb → list (prog E A) * sdb → Prop :=
| pool_step_at i ps p d :
    ps !! i = Some p → pool_step (ps, d) (<[i := (p_step p d).1]> ps, (p_step p d).2).
End run.

(** ** Programs that keep an invariant of the database at every step *)

Section keeps.
Context `{D : SqlEngine} {E : Type} (I : sdb → Prop).

Fixpoint keeps {A} (p : prog E A) : Prop :=
  match p with
  | Done _ => True
  | Exec q args k => (∀ d, I d → I (sql_Exec q args d).2) ∧ ∀ o, keeps (k o)
  | Query q args k => ∀ d, I d → keeps (k (sql_Query q args d))
  end.

(** What a program returns, when every query it made was answered by a
    database that satisfies the invariant. *)
Fixpoint returns {A} (p : prog E A) (Q : A → Prop) : Prop :=
  match p with
  | Done o => match o with Ok a => Q a | _ => True end
  | Exec q args k => ∀ o, returns (k o) Q
  | Query q args k => ∀ d, I d → returns (k (sql_Query q args d)) Q
  end.

Lemma keeps_bind {A B} (p : prog E A) (Q : A → Prop) (f : A → prog E B) :
  keeps p → returns p Q → (∀ a, Q a → keeps (f a)) → keeps (p_bind p f).
Proof.
  intros Hp HQ Hf. induction p as [[a| |]|q args k IH|q args k IH]; simpl in *; auto.
  destruct Hp as [Hd Hk]. split; [done|]. intros o. by apply IH.
Qed.

Lemma returns_bind {A B} (p : prog E A) (Q : A → Prop) (f : A → prog E B) (R : B → Prop) :
  returns p Q → (∀ a, Q a → returns (f a) R) → returns (p_bind p f) R.
Proof. intros HQ Hf. induction p as [[a| |]|q args k IH|q args k IH]; simpl in *; auto. Qed.

Lemma returns_True {A} (p : prog E A) : returns p (λ _, True).
Proof. induction p as [[]| |]; simpl; auto. Qed.

Lemma keeps_try {A} (p : prog E A) : keeps p → keeps (p_try p).
Proof. induction p as [[]|q args k IH|q args k IH]; simpl; intuition. Qed.

Lemma keeps_then {A B} (p : prog E A) (f : A → prog E B) :
  keeps p → (∀ a, keeps (f a)) → keeps (p_bind p f).
Proof. intros Hp Hf. eapply keeps_bind; [done|apply returns_True|auto]. Qed.

Lemma keeps_p_step {A} (p : prog E A) d :
  I d → keeps p → I (p_step p d).2 ∧ keeps (p_step p d).1.
Proof. destruct p; simpl; intuition. Qed.

(** The invariant survives every schedule of programs that keep it. *)
Lemma keeps_pool {A} (x y : list (prog E A) * sdb) :
  rtc pool_step x y → I x.2 → Forall keeps x.1 → I y.2 ∧ Forall keeps y.1.
Proof.
  induction 1 as [x|x y z Hxy _ IH]; [done|]. intros Hd Hps. destruct Hxy as [i ps p d Hi]. simpl in *.
  destruct (keeps_p_step p d) as [Hd' Hp']; [done|by eapply Forall_lookup_1|].
  apply IH; [done|]. by apply Forall_insert.
Qed.
End keeps.
