(* ===== verification/GoGcm.v ===== *)
(** * Galois/counter mode, as [crypto/cipher] implements it

    [cipher.NewGCM] over the block cipher of [crypto/aes] with the standard
    12-byte nonce and 16-byte tag (NIST SP 800-38D). *)

From S2P Require Import Prelude GoStrings GoCrypto.

(** [n] bytes of an integer, most significant first. *)
Fixpoint be_bytes (n : nat) (z : Z) : bytes :=
  match n with O => [] | S n => bmk (Z.shiftr z (8 * Z.of_nat n)) :: be_bytes n z end.

Lemma length_be_bytes n z : length (be_bytes n z) = n.
Proof. induction n; simpl; congruence. Qed.

(** ** GHASH: polynomial hashing in GF(2^128), bits in reflected order *)

Definition gf_R : Z := Z.shiftl 225 120.

(** One step of the product: the accumulator takes [v] when the bit of [x] is
    set, then [v] is multiplied by the variable. *)
Fixpoint gf_mul_go (bits : nat) (x z v : Z) : Z :=
  match bits with
  | O => z
  | S bits =>
      let z := if Z.testbit x (Z.of_nat bits) then Z.lxor z v else z in
      let v := if Z.testbit v 0 then Z.lxor (Z.shiftr v 1) gf_R else Z.shiftr v 1 in
      gf_mul_go bits x z v
  end.
Definition gf_mul (x y : Z) : Z := gf_mul_go 128 x 0 y.

Definition ghash (h : Z) (bs : list bytes) : Z :=
  foldl (λ y b, gf_mul (Z.lxor y (big_SetBytes b)) h) 0 bs.

(** Zero bytes up to a whole number of 16-byte blocks. *)
Definition gcm_pad (l : bytes) : bytes :=
  l ++ replicate ((16 - length l mod 16) mod 16)%nat (bmk 0).

(** The hashed text: the padded additional data, the padded ciphertext and
    their lengths in bits. *)
Definition gcm_text (data c : bytes) : bytes :=
  gcm_pad data ++ gcm_pad c ++
  be_bytes 8 (8 * Z.of_nat (length data)) ++ be_bytes 8 (8 * Z.of_nat (length c)).

Definition gcm_nonce_size : nat := 12.
Definition gcm_tag_size : nat := 16.
Definition gcm_max_plaintext : Z := (2 ^ 32 - 2) * 16.

Section gcm.
Context `{C : BlockCipher}.

(** The counter block [i] of a nonce. *)
Definition gcm_counter (nonce : bytes) (i : nat) : bytes := nonce ++ be_bytes 4 (Z.of_nat i mod 2 ^ 32).

(** Counter mode from counter 2: as many key-stream bytes as the input has. *)
Definition gcm_keystream (key nonce : bytes) (n : nat) : bytes :=
  take n (concat ((λ i, aes_Encrypt key (gcm_counter nonce (i + 2))) <$> seq 0 ((n + 15) / 16)%nat)).
Definition gcm_ctr (key nonce input : bytes) : bytes :=
  xor_bytes input (gcm_keystream key nonce (length input)).

Definition gcm_tag (key nonce data c : bytes) : bytes :=
  let h := big_SetBytes (aes_Encrypt key (replicate 16 (bmk 0))) in
  let text := gcm_text data c in
  xor_bytes (be_bytes 16 (ghash h (blocks (length text) 16 text))) (aes_Encrypt key (gcm_counter nonce 1)).

Definition gcm_errOpen : message := Text "cipher: message authentication failed".

(** [gcm.Seal(nil, nonce, plaintext, data)]. *)
Definition gcm_Seal (key nonce plaintext data : bytes) : outcome message bytes :=
  if decide (length nonce ≠ gcm_nonce_size)
  then Panic "crypto/cipher: incorrect nonce length given to GCM" else
  if decide (gcm_max_plaintext < Z.of_nat (length plaintext))
  then Panic "crypto/cipher: message too large for GCM" else
  let c := gcm_ctr key nonce plaintext in
  Ok (c ++ gcm_tag key nonce data c).

(** [gcm.Open(nil, nonce, ciphertext, data)]. *)
Definition gcm_Open (key nonce ciphertext data : bytes) : outcome message bytes :=
  if decide (length nonce ≠ gcm_nonce_size)
  then Panic "crypto/cipher: incorrect nonce length given to GCM" else
  if decide (length ciphertext < gcm_tag_size)%nat then Err gcm_errOpen else
  if decide (gcm_max_plaintext + Z.of_nat gcm_tag_size < Z.of_nat (length ciphertext))
  then Err gcm_errOpen else
  let n := (length ciphertext - gcm_tag_size)%nat in
  let c := take n ciphertext in
  if decide (drop n ciphertext = gcm_tag key nonce data c)
  then Ok (gcm_ctr key nonce c) else Err gcm_errOpen.

Context `{!BlockCipherLaws C}.

Lemma length_gcm_counter nonce i : length nonce = gcm_nonce_size → length (gcm_counter nonce i) = 16%nat.
Proof. intros Hn. unfold gcm_counter. rewrite length_app, length_be_bytes, Hn. done. Qed.

Lemma length_gcm_keystream key nonce n :
  length nonce = gcm_nonce_size → length (gcm_keystream key nonce n) = n.
Proof.
  intros Hn. unfold gcm_keystream. rewrite length_take, (length_concat_blocks 16).
  - rewrite length_fmap, length_seq. pose proof (Nat.div_mod (n + 15) 16).
    pose proof (Nat.mod_upper_bound (n + 15) 16). lia.
  - apply Forall_fmap, Forall_forall. intros i _. by apply length_aes_Encrypt, length_gcm_counter.
Qed.

Lemma length_gcm_ctr key nonce input :
  length nonce = gcm_nonce_size → length (gcm_ctr key nonce input) = length input.
Proof. intros Hn. unfold gcm_ctr. by rewrite length_xor_bytes by (by rewrite length_gcm_keystream). Qed.

Lemma gcm_ctr_involutive key nonce input :
  length nonce = gcm_nonce_size → gcm_ctr key nonce (gcm_ctr key nonce input) = input.
Proof.
  intros Hn. unfold gcm_ctr at 1. rewrite length_gcm_ctr by done.
  apply xor_bytes_cancel. by rewrite length_gcm_keystream.
Qed.

Lemma length_gcm_tag key nonce data c :
  length nonce = gcm_nonce_size → length (gcm_tag key nonce data c) = gcm_tag_size.
Proof.
  intros Hn. unfold gcm_tag. rewrite length_xor_bytes; rewrite length_be_bytes; [done|].
  by rewrite length_aes_Encrypt by (by apply length_gcm_counter).
Qed.

Lemma gcm_Seal_Ok key nonce p data :
  length nonce = gcm_nonce_size → Z.of_nat (length p) ≤ gcm_max_plaintext →
  gcm_Seal key nonce p data =
    Ok (gcm_ctr key nonce p ++ gcm_tag key nonce data (gcm_ctr key nonce p)).
Proof. intros Hn Hp. unfold gcm_Seal. rewrite !decide_False by (lia || (intros ?; done)). done. Qed.

(** [Open] accepts exactly what [Seal] produces. *)
Lemma gcm_Open_iff key nonce c data p :
  length nonce = gcm_nonce_size → gcm_Open key nonce c data = Ok p ↔ gcm_Seal key nonce p data = Ok c.
Proof.
  intros Hn. unfold gcm_Open, gcm_Seal. rewrite !(decide_False (P := length nonce ≠ _)) by (intros ?; done).
  pose proof (λ x, length_gcm_tag key nonce data x Hn) as Ht. unfold gcm_tag_size in *. split.
  - destruct (decide (length c < 16)%nat) as [|Hlen]; [done|].
    destruct (decide (_ < Z.of_nat (length c))) as [|Hmax]; [done|].
    destruct (decide (drop _ c = _)) as [Htag|]; [|done]. intros [= <-].
    rewrite length_gcm_ctr by done. rewrite gcm_ctr_involutive by done.
    rewrite length_take, (decide_False (P := _ < _)) by lia. by rewrite <-Htag, take_drop.
  - destruct (decide (_ < Z.of_nat (length p))) as [|Hmax]; [done|]. intros [= <-].
    rewrite length_app, Ht, length_gcm_ctr by done. rewrite !(decide_False (P := _ < _)), Nat.add_sub by lia.
    rewrite decide_False by lia.
    rewrite take_app_length', drop_app_length' by (by rewrite length_gcm_ctr).
    rewrite decide_True by done. by rewrite gcm_ctr_involutive.
Qed.

Lemma gcm_Open_no_panic key nonce c data :
  length nonce = gcm_nonce_size → ¬ is_Panic (gcm_Open key nonce c data).
Proof. intros Hn. unfold gcm_Open. rewrite decide_False by (intros ?; done). repeat case_match; by intros []. Qed.

Lemma gcm_Seal_length key nonce p data c :
  length nonce = gcm_nonce_size → gcm_Seal key nonce p data = Ok c →
  length c = (length p + gcm_tag_size)%nat.
Proof.
  intros Hn. unfold gcm_Seal. rewrite decide_False by (intros ?; done). case_match; [done|].
  intros [= <-]. by rewrite length_app, length_gcm_tag, length_gcm_ctr.
Qed.
End gcm.

(** The hash of test case 2 of the GCM specification. *)
Example ghash_test_case_2 :
  ghash 0x66e94bd4ef8a2c3b884cfa59ca342b2e
    [be_bytes 16 0x0388dace60b6a392f328c2b971b2fe78; be_bytes 8 0 ++ be_bytes 8 128] =
  0xf38cbb1ad69223dcc3457ae5b6b0f885.
Proof. vm_compute. reflexivity. Qed.
