(* ===== verification/Toy.v ===== *)
(** * Concrete primitives

    Small instances of the classes of [GoCrypto] that satisfy their laws.  The
    witnesses of the theorems run on them; nothing else uses them. *)

From S2P Require Import Prelude GoStrings GoJson GoCrypto.

(** A block cipher: reverse the block masked with the key. *)
Definition toy_mask (k : bytes) : bytes := take 16 (k ++ replicate 16 (bmk 0)).

#[export] Instance toy_cipher : BlockCipher := {|
  aes_Encrypt k b := reverse (xor_bytes b (toy_mask k));
  aes_Decrypt k b := xor_bytes (reverse b) (toy_mask k);
|}.

Lemma length_toy_mask k : length (toy_mask k) = 16%nat.
Proof. unfold toy_mask. rewrite length_take, length_app, length_replicate. lia. Qed.

#[export] Instance toy_cipher_laws : BlockCipherLaws toy_cipher.
Proof.
  split; intros k b; simpl; intros.
  - by rewrite length_reverse, length_xor_bytes by (rewrite length_toy_mask; lia).
  - rewrite length_xor_bytes; rewrite length_reverse; [done|rewrite length_toy_mask; lia].
  - by rewrite reverse_involutive, xor_bytes_cancel by (rewrite length_toy_mask; lia).
  - rewrite xor_bytes_cancel by (rewrite length_reverse, length_toy_mask; lia).
    apply reverse_involutive.
Qed.

(** Public-key primitives: the ciphertext is the message behind a header byte,
    a signature is the digest behind a header byte. *)
Definition toy_rsa : rsa_PrivateKey :=
  mk_rsa_PrivateKey (mk_rsa_PublicKey 3233 17) 413 [61; 53].
Definition toy_ec (c : Curve) : ecdsa_PrivateKey :=
  mk_ecdsa_PrivateKey (mk_ecdsa_PublicKey c 5 1) 9.
Definition toy_open (c : bytes) : outcome message bytes :=
  match c with [] => Err (Text "crypto/rsa: decryption error") | _ :: m => Ok m end.
Definition toy_r (d : bytes) : Z := big_SetBytes (take 16 d).

#[export] Instance toy_pk : PublicKeyLib := {|
  rsa_GenerateKey e n := if rand_ok e 1 then Ok toy_rsa else Err (Text (rand_err e));
  rsa_Precompute k := Ok k;
  rsa_EncryptOAEP h e k m := Ok (bmk 7 :: m);
  rsa_EncryptPKCS1v15 e k m := Ok (bmk 8 :: m);
  rsa_DecryptOAEP h k c := toy_open c;
  rsa_DecryptPKCS1v15 k c := toy_open c;
  rsa_SignPSS e k h d := Ok (bmk 1 :: d);
  rsa_SignPKCS1v15 e k h d := Ok (bmk 2 :: d);
  rsa_VerifyPSS k h d s := bool_decide (s = bmk 1 :: d);
  rsa_VerifyPKCS1v15 k h d s := bool_decide (s = bmk 2 :: d);
  ecdsa_GenerateKey c e := Ok (toy_ec c);
  ecdsa_Sign e k d := Ok (toy_r d, 7);
  ecdsa_Verify k d r s := bool_decide (r = toy_r d ∧ s = 7);
  hash_Sum h d := take 4 d;
|}.

Lemma toy_r_range d c : 0 ≤ toy_r d < 2 ^ Z.of_nat (BitSize c).
Proof.
  pose proof (big_SetBytes_range (take 16 d)) as [Hlo Hhi]. split; [done|].
  eapply Z.lt_le_trans; [exact Hhi|].
  assert (Z.of_nat (length (take 16 d)) ≤ 16) by (rewrite length_take; lia).
  transitivity (256 ^ 16); [apply Z.pow_le_mono_r; lia|].
  transitivity (2 ^ 256); [vm_compute; discriminate|].
  apply Z.pow_le_mono_r; [lia|]. destruct c; simpl; lia.
Qed.

#[export] Instance toy_pk_laws : PublicKeyLaws toy_pk.
Proof.
  split; simpl; intros; simplify_eq; repeat case_match; simplify_eq/=; try done.
  - by rewrite bool_decide_true.
  - by rewrite bool_decide_true.
  - split; [apply toy_r_range|]. split; [lia|]. destruct k as [[[] ? ?] ?]; simpl; lia.
  - by rewrite bool_decide_true.
Qed.

(** An environment: the clock stands still and the random source counts. *)
Definition toy_env : Env := {|
  clock _ := 1700000000;
  clock_nanos _ := 0;
  rand_ok _ := true;
  rand_byte i j := bmk (Z.of_nat (i * 16 + j));
  rand_err := "";
|}.

(** The texts of decoding errors. *)
#[export] Instance toy_json_errors : JsonErrors := {| json_error kind _ := Text ("json: cannot decode " ++ kind)%string |}.
