(* ===== verification/ToyX509.v ===== *)
(** * Concrete X.509 and PEM functions for the witnesses

    A certificate is the byte 48 in front of a serial number and always holds
    the toy key; a PEM block is its header, its bytes in hexadecimal and an
    exclamation mark. *)

From S2P Require Import Prelude GoStrings GoCrypto GoX509 Toy.

Definition toy_header (ty : string) : bytes := to_bytes ("-----BEGIN " ++ ty ++ "-----")%string.
Definition toy_mark : byte := "!"%char.

Definition toy_strip (p l : bytes) : option bytes :=
  if decide (take (length p) l = p) then Some (drop (length p) l) else None.

Fixpoint toy_until (l : bytes) : option (bytes * bytes) :=
  match l with
  | [] => None
  | b :: l => if decide (b = toy_mark) then Some ([], l) else
      '(p, r) ← toy_until l; Some (b :: p, r)
  end.

Definition toy_pem_encode (b : pem_Block) : bytes :=
  toy_header (pem_Type b) ++ hex_encode (pem_Bytes b) ++ [toy_mark].

Definition toy_pem_decode_as (ty : string) (d : bytes) : option (pem_Block * bytes) :=
  l ← toy_strip (toy_header ty) d;
  '(h, rest) ← toy_until l;
  match hex_decode h with Ok b => Some (mk_pem_Block ty b, rest) | _ => None end.

Definition toy_pem_decode (d : bytes) : option (pem_Block * bytes) :=
  match toy_pem_decode_as "CERTIFICATE" d with
  | Some r => Some r
  | None => toy_pem_decode_as "RSA PRIVATE KEY" d
  end.

#[export] Instance toy_certs : CertLib := {|
  x509_Certificate := bytes;
  cert_Raw c := c;
  cert_RSAPublicKey c := Some (rsa_Public toy_rsa);
  x509_ParseCertificate b :=
    match b with c :: _ => if decide (c = bmk 48) then Ok b else Err (Text "x509: malformed certificate")
    | [] => Err (Text "x509: malformed certificate") end;
  x509_CreateCertificate e t p pub k :=
    if decide (pub = rsa_Public toy_rsa) then Ok (bmk 48 :: big_Bytes (tpl_SerialNumber t))
    else Err (Text "x509: unsupported key");
  x509_MarshalPKCS1PrivateKey k := [bmk 2];
  x509_ParsePKCS1PrivateKey b := if decide (b = [bmk 2]) then Ok toy_rsa else Err (Text "asn1: structure error");
  x509_ParsePKCS8PrivateKey b := Err (Text "asn1: structure error");
  pem_EncodeToMemory := toy_pem_encode;
  pem_Decode := toy_pem_decode;
  pkcs12_ToPEM d p := Err (Text "pkcs12: error reading P12 data");
  rand_Int e max := Ok (big_SetBytes (rand_byte e 2 <$> seq 0 4));
  int64_of_float_overflow := - 2 ^ 63;
|}.

Lemma hex_digit_facts v : 0 ≤ v < 16 → hex_digit v ≠ toy_mark ∧ bval (hex_digit v) < 128.
Proof.
  intros Hv. unfold hex_digit, toy_mark. split.
  - intros H%(f_equal bval). rewrite bval_bmk in H. change (bval "!"%char) with 33 in H.
    case_decide; rewrite Z.mod_small in H; lia.
  - rewrite bval_bmk. case_decide; rewrite Z.mod_small; lia.
Qed.

Lemma hex_encode_facts l : Forall (λ b, b ≠ toy_mark ∧ bval b < 128) (hex_encode l).
Proof.
  induction l as [|b l IH]; [constructor|]. cbn [hex_encode].
  pose proof (bval_range b).
  repeat constructor; try exact IH; apply hex_digit_facts;
    first [apply Z.mod_pos_bound; lia | split; [apply Z.div_pos; lia|apply Z.div_lt_upper_bound; lia]].
Qed.

Lemma toy_until_app p rest :
  Forall (λ b, b ≠ toy_mark ∧ bval b < 128) p → toy_until (p ++ toy_mark :: rest) = Some (p, rest).
Proof.
  induction 1 as [|b p [Hb _] _ IH]; [done|]. cbn [app toy_until].
  rewrite decide_False, IH by done. done.
Qed.

Lemma toy_strip_app p l : toy_strip p (p ++ l) = Some l.
Proof. unfold toy_strip. by rewrite take_app_length, decide_True, drop_app_length. Qed.

Lemma toy_pem_decode_as_app ty b rest :
  toy_pem_decode_as ty (toy_pem_encode (mk_pem_Block ty b) ++ rest) = Some (mk_pem_Block ty b, rest).
Proof.
  unfold toy_pem_decode_as, toy_pem_encode. cbn [pem_Type pem_Bytes].
  rewrite <-!app_assoc, toy_strip_app. cbn [mbind option_bind app].
  rewrite toy_until_app by apply hex_encode_facts. cbn [mbind option_bind].
  by rewrite hex_decode_encode.
Qed.

Lemma toy_until_shrinks l p r : toy_until l = Some (p, r) → (length r < length l)%nat.
Proof.
  revert p r. induction l as [|b l IH]; intros p r; [done|]. cbn [toy_until]. case_decide.
  - intros [= <- <-]. simpl. lia.
  - intros ([p' r'] & Hu%IH & [= <- <-])%bind_Some. simpl. lia.
Qed.

Lemma toy_pem_shrinks ty d b rest :
  toy_pem_decode_as ty d = Some (b, rest) → (length rest < length d)%nat.
Proof.
  unfold toy_pem_decode_as, toy_strip. intros (l & Hl & H)%bind_Some. apply bind_Some in H as ([h r] & Hu & H).
  case_decide; simplify_eq. apply toy_until_shrinks in Hu. rewrite length_drop in Hu.
  destruct (hex_decode h); simplify_eq. lia.
Qed.

#[export] Instance toy_cert_laws : CertLaws toy_pk toy_certs.
Proof.
  split; simpl.
  - intros b c. destruct b; repeat case_decide; by intros [= <-].
  - intros e t p pub k der. case_decide; [|done]. intros [= <-]. subst. eauto.
  - intros e n k. case_match; by intros [= <-].
  - done.
  - intros ty b rest Hty.
    change (toy_pem_decode (toy_pem_encode (mk_pem_Block ty b) ++ rest) = Some (mk_pem_Block ty b, rest)).
    unfold toy_pem_decode.
    apply elem_of_cons in Hty as [->|Hty%list_elem_of_singleton]; [by rewrite toy_pem_decode_as_app|].
    subst ty. rewrite toy_pem_decode_as_app.
    destruct (toy_pem_decode_as "CERTIFICATE" _) as [r|] eqn:Hr; [|done]. revert Hr.
    unfold toy_pem_decode_as, toy_strip, toy_pem_encode, toy_header. by case_decide.
  - done.
  - intros d b rest. unfold toy_pem_decode.
    destruct (toy_pem_decode_as "CERTIFICATE" d) eqn:H; [intros [= ->]|intros H'];
      by eapply toy_pem_shrinks.
  - intros b. eexists. unfold toy_pem_encode, toy_header. reflexivity.
Qed.

(** ** Keys in DER: the only keys are the toy ones, each a byte *)

Definition toy_curve_byte (c : Curve) : byte := bmk (match c with P256 => 4 | P384 => 5 | P521 => 6 end).
Definition toy_der_curve (b : bytes) : outcome message Curve :=
  if decide (b = [bmk 4]) then Ok P256 else if decide (b = [bmk 5]) then Ok P384 else
  if decide (b = [bmk 6]) then Ok P521 else Err (Text "asn1: structure error").

#[export] Instance toy_key_der : KeyDer := {|
  x509_MarshalPKCS1PublicKey k := [bmk 3];
  x509_ParsePKCS1PublicKey b := if decide (b = [bmk 3]) then Ok (rsa_Public toy_rsa) else Err (Text "asn1: structure error");
  x509_MarshalECPrivateKey k :=
    if decide (k = toy_ec (ec_Curve (ec_Public k))) then Ok [toy_curve_byte (ec_Curve (ec_Public k))]
    else Err (Text "x509: unknown elliptic curve");
  x509_ParseECPrivateKey b := o_map toy_ec (toy_der_curve b);
  x509_MarshalPKIX_rsa k := Err (Text "unsupported");
  x509_MarshalPKIX_ecdsa k :=
    if decide (k = ec_Public (toy_ec (ec_Curve k))) then Ok [toy_curve_byte (ec_Curve k)]
    else Err (Text "x509: unsupported elliptic curve");
  x509_ParsePKIXPublicKey b := o_map (λ c, Some (ec_Public (toy_ec c))) (toy_der_curve b);
|}.

Lemma toy_der_curve_byte c : toy_der_curve [toy_curve_byte c] = Ok c.
Proof. by destruct c. Qed.

#[export] Instance toy_key_der_laws : KeyDerLaws toy_pk toy_key_der.
Proof.
  split; simpl; try done.
  - intros e n k. by case_match; intros [= <-].
  - intros der k. by case_decide; intros [= <-].
  - intros c e k [= <-]. simpl. rewrite decide_True by done. eexists. by rewrite toy_der_curve_byte.
  - intros der k. destruct (toy_der_curve der); simpl; intros [= <-]. simpl.
    rewrite decide_True by done. eexists. by rewrite toy_der_curve_byte.
  - intros c e k [= <-]. simpl. rewrite decide_True by done. eexists. by rewrite toy_der_curve_byte.
  - intros der k. destruct (toy_der_curve der); simpl; intros [= <-]. simpl.
    rewrite decide_True by done. eexists. by rewrite toy_der_curve_byte.
Qed.

(** ** The certificate of the listener: the only names are the server's *)

Definition toy_dns : list string := ["localhost"; "emulator"]%string.
#[export] Instance toy_tls : TlsLib toy_certs := {|
  tls_Certificate := bytes * rsa_PrivateKey;
  tls_DER := fst;
  tls_PrivateKey := snd;
  cert_DNSNames c := if decide (c = [bmk 48; bmk 1]) then toy_dns else [];
  x509_CreateFrom e t dns pub k :=
    if decide (dns = toy_dns ∧ pub = rsa_Public toy_rsa) then Ok [bmk 48; bmk 1] else Err (Text "x509: unsupported");
  tls_X509KeyPair certPEM keyPEM :=
    match toy_pem_decode certPEM, toy_pem_decode keyPEM with
    | Some (c, _), Some (k, _) => Ok (pem_Bytes c, toy_rsa)
    | _, _ => Err (Text "tls: failed to find any PEM data")
    end;
|}.
#[export] Instance toy_tls_laws : TlsLaws toy_pk toy_certs toy_tls.
Proof.
  split.
  - intros e t dns pub k der. simpl. case_decide as Hd; [|done]. destruct Hd as [-> ->]. intros [= <-]. by eexists.
  - intros der key c k Hc Hk _. simpl in *.
    pose proof (pem_Decode_Encode "CERTIFICATE" der [] ltac:(by left)) as H1.
    pose proof (pem_Decode_Encode "RSA PRIVATE KEY" key [] ltac:(by right; left)) as H2.
    rewrite app_nil_r in H1, H2. simpl in H1, H2. rewrite H1, H2. cbn.
    eexists. split; [done|]. split; [done|]. revert Hk. case_decide; [|done]. by intros [= <-].
Qed.
