(* ===== verification/AesModes.v ===== *)
(** * Symmetric operations of [internal/crypto/keys.go]

    AES-CBC with and without PKCS#7 padding, and AES key wrap (RFC 3394), over
    the block cipher of [crypto/aes]. *)

From S2P Require Import Prelude GoStrings GoCrypto Toy.

(** ** PKCS#7 padding *)

Definition pkcs7Pad (data : bytes) (blockSize : nat) : bytes :=
  let padLen := (blockSize - length data `mod` blockSize)%nat in
  let padding := replicate padLen (bmk (Z.of_nat padLen)) in
  data ++ padding.

Definition pkcs7Unpad (data : bytes) (blockSize : nat) : outcome message bytes :=
  if decide (length data = 0 ∨ length data `mod` blockSize ≠ 0)%nat
  then Err (Text "invalid padded data") else
  let! final := index_expr (Z.of_nat (length data) - 1) data in
  let padLen := Z.to_nat (bval final) in
  if decide (padLen = 0 ∨ blockSize < padLen ∨ length data < padLen)%nat
  then Err (Text "invalid padding") else
  let! tail := slice_expr (Z.of_nat (length data) - Z.of_nat padLen) (Z.of_nat (length data)) data in
  if decide (Forall (λ b, Z.to_nat (bval b) = padLen) tail)
  then slice_expr 0 (Z.of_nat (length data) - Z.of_nat padLen) data
  else Err (Text "invalid padding").

(** ** Key selection *)

Definition selectAESKey (key : bytes) (alg : string) : outcome message bytes :=
  let size : option nat :=
    if decide (alg ∈ ["A128CBC"; "A128CBCPAD"; "A128KW"]) then Some 16%nat
    else if decide (alg ∈ ["A192KW"]) then Some 24%nat
    else if decide (alg ∈ ["A256CBC"; "A256CBCPAD"; "A256KW"]) then Some 32%nat
    else None in
  match size with
  | None => Err (Format [Lit "unsupported symmetric algorithm "; Quoted alg])
  | Some size =>
      if decide (length key ≠ size)
      then Err (Text ("algorithm " ++ alg ++ " requires a " ++ Itoa (Z.of_nat size) ++ "-byte key"))
      else Ok key
  end.

Definition mapKWAlg (keyLen : nat) : string :=
  match keyLen with
  | 16%nat => "A128KW"
  | 24%nat => "A192KW"
  | _ => "A256KW"
  end.

(** ** Key wrap steps *)

(** [for i := 0; i < 8; i++ { out[7-i] ^= byte(t & 0xff); t >>= 8 }]; the
    callers pass the eight bytes of the integrity register. *)
Definition xor64 (input : bytes) (t : Z) : bytes :=
  (foldl (λ (st : bytes * Z) (i : nat),
     (alter (λ b, bxor b (bmk (Z.land st.2 255))) (7 - i)%nat st.1, Z.shiftr st.2 8))
     (input, t) (seq 0 8)).1.

Definition uint64 (z : Z) : Z := z mod 2 ^ 64.

Arguments xor64 : simpl never.
Arguments uint64 : simpl never.

Definition default_iv : bytes := replicate 8 (bmk 166).

Section modes.
Context `{C : BlockCipher}.

(** The loop body of [aesKeyWrap]: [n] blocks, round [j], block [i]. *)
Definition wrap_step (kek : bytes) (n j : nat) (st : bytes * list bytes) (i : nat)
    : bytes * list bytes :=
  let '(a, r) := st in
  let buf := take 8 a ++ take 8 (r !!! i) in
  let buf := aes_Encrypt kek buf in
  let t := uint64 (Z.of_nat (n * j + i + 1)) in
  (xor64 (take 8 buf) t, <[i := drop 8 buf]> r).

(** The loop body of [aesKeyUnwrap]. *)
Definition unwrap_step (kek : bytes) (n j : nat) (st : bytes * list bytes) (i : nat)
    : bytes * list bytes :=
  let '(a, r) := st in
  let t := uint64 (Z.of_nat (n * j + i + 1)) in
  let buf := take 8 (xor64 a t) ++ take 8 (r !!! i) in
  let buf := aes_Decrypt kek buf in
  (take 8 buf, <[i := drop 8 buf]> r).

Definition aesKeyWrap (kek plaintext : bytes) : outcome message bytes :=
  let! _ := selectAESKey kek (mapKWAlg (length kek)) in
  if decide (length plaintext = 0 ∨ length plaintext `mod` 8 ≠ 0)%nat
  then Err (Text "plaintext must be a non-empty multiple of 8 bytes") else
  let! block := aes_NewCipher kek in
  let n := (length plaintext / 8)%nat in
  let a := default_iv in
  let! r := o_traverse (λ i, slice_expr (Z.of_nat (i * 8)) (Z.of_nat ((i + 1) * 8)) plaintext) (seq 0 n) in
  let '(a, r) :=
    foldl (λ st j, foldl (wrap_step block n j) st (seq 0 n)) (a, r) (seq 0 6) in
  Ok (a ++ concat r).

Definition aesKeyUnwrap (kek ciphertext : bytes) : outcome message bytes :=
  let! _ := selectAESKey kek (mapKWAlg (length kek)) in
  if decide (length ciphertext < 16 ∨ length ciphertext `mod` 8 ≠ 0)%nat
  then Err (Text "ciphertext must be at least 16 bytes and a multiple of 8") else
  let! block := aes_NewCipher kek in
  let n := (length ciphertext / 8 - 1)%nat in
  let! a := slice_expr 0 8 ciphertext in
  let! r := o_traverse (λ i, slice_expr (Z.of_nat ((i + 1) * 8)) (Z.of_nat ((i + 2) * 8)) ciphertext) (seq 0 n) in
  let '(a, r) :=
    foldl (λ st j, foldl (unwrap_step block n j) st (reverse (seq 0 n))) (a, r)
      (reverse (seq 0 6)) in
  if decide (a ≠ default_iv) then Err (Text "integrity check failed") else
  Ok (concat r).

(** ** CBC *)

Definition encryptCBC (e : Env) (key : bytes) (alg : string) (plaintext iv : bytes)
    : outcome message (bytes * bytes) :=
  let! iv := if decide (length iv = 0%nat) then rand_Read e 0 aes_BlockSize else Ok iv in
  if decide (length iv ≠ aes_BlockSize) then Err (Text "iv must be 16 bytes") else
  let! key := selectAESKey key alg in
  let! block := aes_NewCipher key in
  let! input :=
    if HasSuffix alg "PAD" then Ok (pkcs7Pad plaintext aes_BlockSize)
    else if decide (length plaintext `mod` aes_BlockSize ≠ 0)%nat
    then Err (Text "plaintext size must be a multiple of 16 bytes")
    else Ok plaintext in
  let! out := CBCEncrypter block iv input in
  Ok (out, iv).

Definition decryptCBC (key : bytes) (alg : string) (ciphertext iv : bytes)
    : outcome message (bytes * bytes) :=
  if decide (length iv ≠ aes_BlockSize) then Err (Text "iv must be 16 bytes") else
  if decide (length ciphertext `mod` aes_BlockSize ≠ 0)%nat
  then Err (Text "ciphertext size must be a multiple of 16 bytes") else
  let! key := selectAESKey key alg in
  let! block := aes_NewCipher key in
  let! out := CBCDecrypter block iv ciphertext in
  let! out := if HasSuffix alg "PAD" then pkcs7Unpad out aes_BlockSize else Ok out in
  Ok (out, iv).
End modes.

(** ** PKCS#7: unpadding inverts padding, and accepts nothing else *)

Lemma length_pkcs7Pad data bs :
  (0 < bs)%nat → (length (pkcs7Pad data bs) `mod` bs = 0)%nat.
Proof.
  intros Hbs. unfold pkcs7Pad. rewrite length_app, length_replicate.
  pose proof (Nat.mod_upper_bound (length data) bs).
  pose proof (Nat.div_mod (length data) bs).
  replace (length data + (bs - length data `mod` bs))%nat
    with ((length data / bs + 1) * bs)%nat by nia.
  apply Nat.Div0.mod_mul.
Qed.

Lemma pad_byte_eq b p : (p < 256)%nat → Z.to_nat (bval b) = p → b = bmk (Z.of_nat p).
Proof.
  intros Hp Hb. apply (inj bval). rewrite bval_bmk, Z.mod_small by lia.
  pose proof (bval_range b). lia.
Qed.

Lemma last_pkcs7Pad data bs :
  (0 < bs < 256)%nat →
  bval (List.last (pkcs7Pad data bs) (bmk 0)) = Z.of_nat (bs - length data `mod` bs)%nat.
Proof.
  intros Hbs. unfold pkcs7Pad. pose proof (Nat.mod_upper_bound (length data) bs).
  set (p := (bs - length data `mod` bs)%nat).
  assert (replicate p (bmk (Z.of_nat p)) = replicate (p - 1) (bmk (Z.of_nat p)) ++ [bmk (Z.of_nat p)])
    as ->.
  { rewrite <-replicate_S_end. f_equal. lia. }
  rewrite app_assoc, List.last_last, bval_bmk, Z.mod_small; lia.
Qed.

(** The slice expressions of the unpadding are in range. *)
Lemma pkcs7Unpad_eq data bs :
  pkcs7Unpad data bs =
    if decide (length data = 0 ∨ length data `mod` bs ≠ 0)%nat then Err (Text "invalid padded data") else
    let padLen := Z.to_nat (bval (List.last data (bmk 0))) in
    if decide (padLen = 0 ∨ bs < padLen ∨ length data < padLen)%nat then Err (Text "invalid padding") else
    if decide (Forall (λ b, Z.to_nat (bval b) = padLen) (drop (length data - padLen) data))
    then Ok (take (length data - padLen) data) else Err (Text "invalid padding").
Proof.
  unfold pkcs7Unpad. case_decide as Hl; [done|]. rewrite (index_expr_last (bmk 0)) by (intros ->; cbn in Hl; lia).
  cbn [o_bind]. case_decide as Hp; [done|]. rewrite <-Nat2Z.inj_sub by lia.
  rewrite slice_expr_from, slice_expr_to by lia. done.
Qed.

Lemma pkcs7Unpad_Pad data bs :
  (0 < bs < 256)%nat → pkcs7Unpad (pkcs7Pad data bs) bs = Ok data.
Proof.
  intros Hbs. rewrite pkcs7Unpad_eq. cbn zeta.
  rewrite length_pkcs7Pad, last_pkcs7Pad, Nat2Z.id by lia.
  pose proof (Nat.mod_upper_bound (length data) bs).
  set (p := (bs - length data `mod` bs)%nat).
  assert (length (pkcs7Pad data bs) = length data + p)%nat as Hlen.
  { unfold pkcs7Pad. by rewrite length_app, length_replicate. }
  rewrite Hlen, !decide_False by lia.
  replace (length data + p - p)%nat with (length data) by lia.
  unfold pkcs7Pad. rewrite take_app_length, drop_app_length.
  rewrite decide_True; [done|]. fold p.
  apply Forall_replicate. rewrite bval_bmk, Z.mod_small; lia.
Qed.

Lemma pad_length_unique n p bs :
  (0 < bs)%nat → (n `mod` bs = 0)%nat → (0 < p ≤ bs)%nat → (p ≤ n)%nat →
  (bs - (n - p) `mod` bs = p)%nat.
Proof.
  intros Hbs Hn Hp Hpn. pose proof (Nat.div_mod n bs).
  pose proof (Nat.div_mod (n - p) bs). pose proof (Nat.mod_upper_bound (n - p) bs).
  assert (n / bs = (n - p) / bs + 1)%nat by nia. nia.
Qed.

Lemma pkcs7Unpad_Ok d bs x :
  (0 < bs < 256)%nat → pkcs7Unpad d bs = Ok x → d = pkcs7Pad x bs.
Proof.
  intros Hbs. rewrite pkcs7Unpad_eq. cbn zeta. set (p := Z.to_nat _).
  case_decide; [done|]. case_decide; [done|]. case_decide as Hall; [|done].
  intros [= <-]. unfold pkcs7Pad.
  assert (bs - length (take (length d - p) d) `mod` bs = p)%nat as ->.
  { rewrite length_take, Nat.min_l by lia. apply pad_length_unique; lia. }
  rewrite <-(take_drop (length d - p) d) at 1. f_equal.
  symmetry. apply replicate_as_Forall_2; [rewrite length_drop; lia|].
  apply (Forall_impl _ _ _ Hall). intros b Hb. symmetry. apply pad_byte_eq; lia.
Qed.

Lemma pkcs7Unpad_iff d bs x :
  (0 < bs < 256)%nat → pkcs7Unpad d bs = Ok x ↔ d = pkcs7Pad x bs.
Proof.
  intros Hbs. split; [by apply pkcs7Unpad_Ok|]. intros ->. by apply pkcs7Unpad_Pad.
Qed.

(** ** The key-wrap register and blocks *)

Lemma xor64_length a t : length a = 8%nat → length (xor64 a t) = 8%nat.
Proof. intros Ha. unfold xor64. simpl. by rewrite !length_alter. Qed.

Lemma xor64_cancel a t : length a = 8%nat → xor64 (xor64 a t) t = a.
Proof.
  intros Ha. do 8 (destruct a as [|? a]; [done|]). destruct a; [|done].
  unfold xor64. cbn [seq foldl fst snd alter list_alter Nat.sub].
  by rewrite !bxor_cancel.
Qed.

(** ** AES key wrap: the two loops undo each other *)

Definition blocks_ok (n : nat) (st : bytes * list bytes) : Prop :=
  length st.1 = 8%nat ∧ length st.2 = n ∧ Forall (λ b : bytes, length b = 8%nat) st.2.

Lemma blocks_ok_lookup n st i :
  blocks_ok n st → (i < n)%nat → length (st.2 !!! i) = 8%nat.
Proof.
  intros (_ & Hn & Hall) Hi. rewrite Forall_lookup in Hall. apply (Hall i).
  apply list_lookup_lookup_total_lt. lia.
Qed.

Lemma blocks_ok_insert n a r i b :
  blocks_ok n (a, r) → length b = 8%nat → blocks_ok n (a, <[i := b]> r).
Proof.
  intros (Ha & Hn & Hall) Hb. split_and!; simpl in *; [done|by rewrite length_insert|].
  by apply Forall_insert.
Qed.

Section key_wrap.
Context `{C : BlockCipher} `{!BlockCipherLaws C}.
Context (kek : bytes) (Hkek : aes_key_size (length kek)) (n : nat).

Lemma take_drop_8 (b : bytes) :
  length b = 16%nat → length (take 8 b) = 8%nat ∧ length (drop 8 b) = 8%nat.
Proof. intros. rewrite length_take, length_drop. lia. Qed.

Lemma wrap_step_inv j st i :
  i ∈ seq 0 n → blocks_ok n st →
  blocks_ok n (wrap_step kek n j st i) ∧
  unwrap_step kek n j (wrap_step kek n j st i) i = st.
Proof.
  intros Hi%elem_of_seq Hok. pose proof (blocks_ok_lookup n st i Hok ltac:(lia)) as Hri.
  destruct st as [a r]. pose proof Hok as (Ha & Hn & Hall).
  cbn [fst snd] in Ha, Hn, Hall, Hri. unfold unwrap_step, wrap_step.
  rewrite (take_ge a), (take_ge (r !!! i)) by lia.
  set (buf := aes_Encrypt kek (a ++ r !!! i)).
  assert (length buf = 16%nat) as Hbuf.
  { apply length_aes_Encrypt. rewrite length_app. lia. }
  destruct (take_drop_8 _ Hbuf) as [Ht Hd]. set (t := uint64 _). split.
  - apply blocks_ok_insert; [|done]. split_and!; simpl; [by apply xor64_length|done..].
  - rewrite xor64_cancel by done. rewrite list_lookup_total_insert_eq by lia.
    rewrite (take_ge (take 8 buf)), (take_ge (drop 8 buf)), take_drop by lia. unfold buf.
    rewrite aes_Decrypt_Encrypt by first [done | rewrite length_app; lia].
    rewrite take_app_length', drop_app_length' by done.
    rewrite list_insert_insert_eq. f_equal. apply list_insert_id.
    apply list_lookup_lookup_total_lt. lia.
Qed.

Lemma unwrap_step_inv j st i :
  i ∈ seq 0 n → blocks_ok n st →
  blocks_ok n (unwrap_step kek n j st i) ∧
  wrap_step kek n j (unwrap_step kek n j st i) i = st.
Proof.
  intros Hi%elem_of_seq Hok. pose proof (blocks_ok_lookup n st i Hok ltac:(lia)) as Hri.
  destruct st as [a r]. pose proof Hok as (Ha & Hn & Hall).
  cbn [fst snd] in Ha, Hn, Hall, Hri. unfold unwrap_step, wrap_step.
  set (t := uint64 _). pose proof (xor64_length a t Ha) as Hx.
  rewrite (take_ge (xor64 a t)), (take_ge (r !!! i)) by lia.
  set (buf := aes_Decrypt kek (xor64 a t ++ r !!! i)).
  assert (length buf = 16%nat) as Hbuf.
  { apply length_aes_Decrypt. rewrite length_app. lia. }
  destruct (take_drop_8 _ Hbuf) as [Ht Hd]. split.
  - apply blocks_ok_insert; [|done]. split_and!; simpl; done.
  - rewrite list_lookup_total_insert_eq by lia.
    rewrite (take_ge (take 8 buf)), (take_ge (drop 8 buf)), take_drop by lia. unfold buf.
    rewrite aes_Encrypt_Decrypt by first [done | rewrite length_app; lia].
    rewrite take_app_length', drop_app_length' by done. rewrite xor64_cancel by done.
    rewrite list_insert_insert_eq. f_equal. apply list_insert_id.
    apply list_lookup_lookup_total_lt. lia.
Qed.

Definition wrap_rounds (st : bytes * list bytes) : bytes * list bytes :=
  foldl (λ st j, foldl (wrap_step kek n j) st (seq 0 n)) st (seq 0 6).
Definition unwrap_rounds (st : bytes * list bytes) : bytes * list bytes :=
  foldl (λ st j, foldl (unwrap_step kek n j) st (reverse (seq 0 n))) st (reverse (seq 0 6)).

Lemma unwrap_wrap_rounds st :
  blocks_ok n st → blocks_ok n (wrap_rounds st) ∧ unwrap_rounds (wrap_rounds st) = st.
Proof.
  apply (foldl_undo (blocks_ok n)). intros st' j _. 
  apply (foldl_undo (blocks_ok n)). intros. by apply wrap_step_inv.
Qed.

Lemma wrap_unwrap_rounds st :
  blocks_ok n st → blocks_ok n (unwrap_rounds st) ∧ wrap_rounds (unwrap_rounds st) = st.
Proof.
  pose proof (foldl_undo (blocks_ok n)
    (λ st j, foldl (unwrap_step kek n j) st (reverse (seq 0 n)))
    (λ st j, foldl (wrap_step kek n j) st (seq 0 n)) (reverse (seq 0 6))) as Hout.
  rewrite reverse_involutive in Hout. apply Hout. intros st' j _ Hst'.
  pose proof (foldl_undo (blocks_ok n) (unwrap_step kek n j) (wrap_step kek n j)
    (reverse (seq 0 n))) as Hin.
  rewrite reverse_involutive in Hin. apply Hin; [|done].
  intros st'' i Hi. apply unwrap_step_inv. by rewrite elem_of_reverse in Hi.
Qed.
End key_wrap.

(** The eight-byte windows of a buffer are its blocks. *)
Lemma length_windows k n (l : bytes) :
  length l = ((k + n) * 8)%nat →
  Forall (λ b : bytes, length b = 8%nat)
    ((λ i, slice ((i + k) * 8) ((i + k + 1) * 8) l) <$> seq 0 n).
Proof.
  intros Hl. apply Forall_fmap, Forall_forall. intros i Hi%elem_of_seq. simpl.
  rewrite length_slice; lia.
Qed.

Lemma concat_windows_from k n (l : bytes) :
  length l = ((k + n) * 8)%nat →
  concat ((λ i, slice ((i + k) * 8) ((i + k + 1) * 8) l) <$> seq 0 n) = drop (k * 8) l.
Proof.
  revert k. induction n as [|n IH]; intros k Hl.
  { simpl. symmetry. apply drop_ge. lia. }
  cbn [seq fmap list_fmap concat]. rewrite <-fmap_S_seq, <-list_fmap_compose.
  rewrite (list_fmap_ext _ (λ i, slice ((i + S k) * 8) ((i + S k + 1) * 8) l)).
  2:{ intros i x _. simpl. f_equal; lia. }
  rewrite IH by lia. unfold slice.
  replace ((0 + k + 1) * 8 - (0 + k) * 8)%nat with 8%nat by lia.
  replace (S k * 8)%nat with (k * 8 + 8)%nat by lia.
  rewrite <-drop_drop. apply take_drop.
Qed.

Lemma concat_blocks_inj n (l1 l2 : list bytes) :
  (0 < n)%nat → Forall (λ b, length b = n) l1 → Forall (λ b, length b = n) l2 →
  concat l1 = concat l2 → l1 = l2.
Proof.
  intros Hn H1 H2 Heq.
  rewrite <-(blocks_concat n l1 (length l1 + length l2)) by (done || lia).
  rewrite Heq. apply blocks_concat; (done || lia).
Qed.

Lemma windows_concat (a : bytes) r k n :
  length a = (k * 8)%nat → length r = n → Forall (λ b : bytes, length b = 8%nat) r →
  (λ i, slice ((i + k) * 8) ((i + k + 1) * 8) (a ++ concat r)) <$> seq 0 n = r.
Proof.
  intros Ha Hn Hr.
  assert (length (a ++ concat r) = (k + n) * 8)%nat as Hl.
  { rewrite length_app, (length_concat_blocks 8) by done. lia. }
  apply (concat_blocks_inj 8); [lia|by apply length_windows|done|].
  rewrite concat_windows_from by done. by apply drop_app_length'.
Qed.

Definition windows (k n : nat) (l : bytes) : list bytes :=
  (λ i, slice ((i + k) * 8) ((i + k + 1) * 8) l) <$> seq 0 n.

Lemma windows_0 {E} n (l : bytes) : (n * 8 ≤ length l)%nat →
  o_traverse (λ i, slice_expr (E:=E) (Z.of_nat (i * 8)) (Z.of_nat ((i + 1) * 8)) l) (seq 0 n) = Ok (windows 0 n l).
Proof.
  intros Hl. apply o_traverse_all. intros i Hi%elem_of_seq. rewrite slice_expr_in by lia.
  by rewrite !Nat2Z.id, Nat.add_0_r.
Qed.
Lemma windows_1 {E} n (l : bytes) : ((n + 1) * 8 ≤ length l)%nat →
  o_traverse (λ i, slice_expr (E:=E) (Z.of_nat ((i + 1) * 8)) (Z.of_nat ((i + 2) * 8)) l) (seq 0 n) = Ok (windows 1 n l).
Proof.
  intros Hl. apply o_traverse_all. intros i Hi%elem_of_seq. rewrite slice_expr_in by lia.
  rewrite !Nat2Z.id. do 2 f_equal. lia.
Qed.

Lemma windows_ok k n (l a : bytes) :
  length l = ((k + n) * 8)%nat → length a = 8%nat → blocks_ok n (a, windows k n l).
Proof.
  intros Hl Ha. split_and!; simpl; [done| |by apply length_windows].
  unfold windows. by rewrite length_fmap, length_seq.
Qed.

Lemma mapKWAlg_other n : n ≠ 16%nat → n ≠ 24%nat → mapKWAlg n = "A256KW"%string.
Proof. intros H16 H24. do 25 (destruct n as [|n]; [done|]). done. Qed.

Lemma selectAESKey_KW kek :
  selectAESKey kek (mapKWAlg (length kek)) =
    if decide (aes_key_size (length kek)) then Ok kek
    else Err (Text "algorithm A256KW requires a 32-byte key").
Proof.
  unfold selectAESKey. destruct (decide (aes_key_size (length kek))) as [Hs|Hs].
  - destruct Hs as [Hs|[Hs|Hs]]; rewrite Hs; reflexivity.
  - unfold aes_key_size in Hs. rewrite mapKWAlg_other by lia.
    simpl. by rewrite decide_True by lia.
Qed.

Lemma mult_8_length (l : bytes) :
  (length l `mod` 8 = 0)%nat → length l = ((0 + length l / 8) * 8)%nat.
Proof. intros. pose proof (Nat.div_mod (length l) 8). lia. Qed.

Lemma aes_NewCipher_size key : aes_key_size (length key) → aes_NewCipher key = Ok key.
Proof. intros. unfold aes_NewCipher. by rewrite decide_True. Qed.

Section key_wrap_spec.
Context `{C : BlockCipher} `{!BlockCipherLaws C}.

(** The blocks are cut out in range. *)
Lemma aesKeyWrap_eq kek p :
  aesKeyWrap kek p =
    if decide (aes_key_size (length kek)) then
      if decide (length p = 0 ∨ length p `mod` 8 ≠ 0)%nat then Err (Text "plaintext must be a non-empty multiple of 8 bytes") else
      let n := (length p / 8)%nat in
      let st := wrap_rounds kek n (default_iv, windows 0 n p) in
      Ok (st.1 ++ concat st.2)
    else Err (Text "algorithm A256KW requires a 32-byte key").
Proof.
  unfold aesKeyWrap. rewrite selectAESKey_KW. destruct (decide (aes_key_size (length kek))) as [Hk|Hk]; [|done].
  cbn [o_bind]. case_decide as Hp; [done|]. rewrite aes_NewCipher_size by done. cbn [o_bind].
  pose proof (Nat.div_mod (length p) 8). rewrite windows_0 by lia. cbn [o_bind].
  fold (wrap_rounds kek (length p / 8) (default_iv, windows 0 (length p / 8) p)).
  by destruct (wrap_rounds _ _ _).
Qed.

Lemma aesKeyUnwrap_eq kek c :
  aesKeyUnwrap kek c =
    if decide (aes_key_size (length kek)) then
      if decide (length c < 16 ∨ length c `mod` 8 ≠ 0)%nat then Err (Text "ciphertext must be at least 16 bytes and a multiple of 8") else
      let n := (length c / 8 - 1)%nat in
      let st := unwrap_rounds kek n (take 8 c, windows 1 n c) in
      if decide (st.1 ≠ default_iv) then Err (Text "integrity check failed") else Ok (concat st.2)
    else Err (Text "algorithm A256KW requires a 32-byte key").
Proof.
  unfold aesKeyUnwrap. rewrite selectAESKey_KW. destruct (decide (aes_key_size (length kek))) as [Hk|Hk]; [|done].
  cbn [o_bind]. case_decide as Hp; [done|]. rewrite aes_NewCipher_size by done. cbn [o_bind].
  pose proof (Nat.div_mod (length c) 8). assert (slice_expr (E:=message) 0 8 c = Ok (take 8 c)) as -> by (apply (slice_expr_to 8); lia). cbn [o_bind].
  rewrite windows_1 by lia. cbn [o_bind].
  fold (unwrap_rounds kek (length c / 8 - 1) (take 8 c, windows 1 (length c / 8 - 1) c)).
  by destruct (unwrap_rounds _ _ _).
Qed.

Lemma aesKeyWrap_Ok kek p c :
  aesKeyWrap kek p = Ok c ↔
  aes_key_size (length kek) ∧ ∃ n, (0 < n)%nat ∧ length p = (n * 8)%nat ∧
    c = (wrap_rounds kek n (default_iv, windows 0 n p)).1 ++
        concat (wrap_rounds kek n (default_iv, windows 0 n p)).2.
Proof.
  rewrite aesKeyWrap_eq. destruct (decide (aes_key_size (length kek))) as [Hk|Hk]; [|naive_solver].
  case_decide as Hp.
  - split; [done|]. intros (_ & n & Hn & Hl & _). exfalso. rewrite Hl in Hp.
    rewrite Nat.Div0.mod_mul in Hp. lia.
  - pose proof (Nat.div_mod (length p) 8) as Hdm. split.
    + intros [= <-]. split; [done|]. exists (length p / 8)%nat. split_and!; [lia|lia|done].
    + intros (_ & n & Hn & Hl & ->). by rewrite Hl, Nat.div_mul by lia.
Qed.

Lemma aesKeyUnwrap_Ok kek c p :
  aesKeyUnwrap kek c = Ok p ↔
  aes_key_size (length kek) ∧ ∃ n, (0 < n)%nat ∧ length c = ((1 + n) * 8)%nat ∧
    (unwrap_rounds kek n (take 8 c, windows 1 n c)).1 = default_iv ∧
    p = concat (unwrap_rounds kek n (take 8 c, windows 1 n c)).2.
Proof.
  rewrite aesKeyUnwrap_eq. destruct (decide (aes_key_size (length kek))) as [Hk|Hk]; [|naive_solver].
  case_decide as Hc.
  - split; [done|]. intros (_ & n & Hn & Hl & _). exfalso. rewrite Hl in Hc.
    rewrite Nat.Div0.mod_mul in Hc. lia.
  - pose proof (Nat.div_mod (length c) 8) as Hdm. cbn zeta. split.
    + case_decide as Ha; [done|]. intros [= <-]. split; [done|].
      exists (length c / 8 - 1)%nat. split_and!; [lia|lia| |done].
      match goal with |- ?x = _ => destruct (decide (x = default_iv)) end; [done|by destruct Ha].
    + intros (_ & n & Hn & Hl & Ha & ->). replace (length c / 8 - 1)%nat with n by (rewrite Hl, Nat.div_mul by lia; lia).
      by rewrite decide_False by auto.
Qed.

Lemma aesKeyUnwrap_Wrap kek p c : aesKeyWrap kek p = Ok c → aesKeyUnwrap kek c = Ok p.
Proof.
  intros (Hk & n & Hn & Hl & ->)%aesKeyWrap_Ok. apply aesKeyUnwrap_Ok. split; [done|].
  destruct (unwrap_wrap_rounds kek Hk n (default_iv, windows 0 n p)) as [Hok Hun].
  { apply windows_ok; [lia|done]. }
  destruct (wrap_rounds kek n _) as [a r]. pose proof Hok as (Ha & Hr & Hall). cbn [fst snd] in *.
  exists n. rewrite take_app_length' by done.
  assert (windows 1 n (a ++ concat r) = r) as -> by (apply windows_concat; done || lia).
  rewrite Hun. cbn [fst snd]. split_and!; [done| |done|].
  - rewrite length_app, (length_concat_blocks 8) by done. lia.
  - unfold windows. by rewrite concat_windows_from by lia.
Qed.

Lemma aesKeyWrap_Unwrap kek p c : aesKeyUnwrap kek c = Ok p → aesKeyWrap kek p = Ok c.
Proof.
  intros (Hk & n & Hn & Hl & Hiv & ->)%aesKeyUnwrap_Ok. apply aesKeyWrap_Ok. split; [done|].
  destruct (wrap_unwrap_rounds kek Hk n (take 8 c, windows 1 n c)) as [Hok Hun].
  { apply windows_ok; [lia|]. rewrite length_take. lia. }
  destruct (unwrap_rounds kek n _) as [a r]. pose proof Hok as (Ha & Hr & Hall).
  cbn [fst snd] in *. subst a. exists n.
  assert (windows 0 n (concat r) = r) as ->.
  { apply (windows_concat [] r 0 n); done. }
  rewrite Hun. cbn [fst snd]. split_and!; [done| |].
  - rewrite (length_concat_blocks 8) by done. lia.
  - unfold windows. rewrite concat_windows_from by lia. by rewrite take_drop.
Qed.
End key_wrap_spec.

(** ** AES-CBC *)

Section cbc_spec.
Context `{C : BlockCipher} `{!BlockCipherLaws C}.

Lemma selectAESKey_Ok key alg k : selectAESKey key alg = Ok k → k = key ∧ aes_key_size (length key).
Proof.
  unfold selectAESKey, aes_key_size. repeat case_decide; intros; simplify_eq; split; [done|lia|done|lia|done|lia].
Qed.

Lemma aes_NewCipher_Ok key b : aes_NewCipher key = Ok b → b = key.
Proof. unfold aes_NewCipher. case_decide; naive_solver. Qed.

(** What a successful encryption is made of. *)
Lemma encryptCBC_Ok e key alg p iv c iv' :
  encryptCBC e key alg p iv = Ok (c, iv') →
  length iv' = aes_BlockSize ∧ selectAESKey key alg = Ok key ∧ aes_key_size (length key) ∧
  (length iv ≠ 0%nat → iv' = iv) ∧
  CBCEncrypter key iv' (if HasSuffix alg "PAD" then pkcs7Pad p aes_BlockSize else p) = Ok c.
Proof.
  unfold encryptCBC. intros (iv1 & Hiv & Henc)%o_bind_Ok.
  case_decide as Hl; [done|].
  apply o_bind_Ok in Henc as (k & Hsel & Henc).
  destruct (selectAESKey_Ok _ _ _ Hsel) as [-> Hk].
  apply o_bind_Ok in Henc as (k & ->%aes_NewCipher_Ok & Henc).
  apply o_bind_Ok in Henc as (input & Hin & Henc).
  apply o_bind_Ok in Henc as (out & Hout & [= -> ->]).
  split_and!; [lia|done|done| |].
  - intros Hne. rewrite decide_False in Hiv by done. by simplify_eq.
  - destruct (HasSuffix alg "PAD"); [by simplify_eq|]. case_decide; by simplify_eq.
Qed.

Lemma decryptCBC_encryptCBC e key alg p iv c iv' :
  encryptCBC e key alg p iv = Ok (c, iv') → decryptCBC key alg c iv' = Ok (p, iv').
Proof.
  intros (Hiv & Hsel & Hk & _ & Henc)%encryptCBC_Ok.
  unfold decryptCBC. rewrite decide_False by lia.
  destruct (CBC_round_trip key iv' _ c Hk Hiv Henc) as [Hdec Hlen].
  assert (length c `mod` aes_BlockSize = 0)%nat as Hm.
  { rewrite Hlen. unfold CBCEncrypter in Henc. case_decide; [done|lia]. }
  rewrite decide_False by lia. rewrite Hsel. cbn [o_bind].
  rewrite aes_NewCipher_size by done. cbn [o_bind]. rewrite Hdec. cbn [o_bind].
  destruct (HasSuffix alg "PAD"); [|done].
  rewrite pkcs7Unpad_Pad by (unfold aes_BlockSize; lia). done.
Qed.
End cbc_spec.

(** ** Properties *)

(** C26: unpadding accepts exactly the paddings the code produces: for every
    block size below 256, a buffer unpads to some data if and only if it is
    that data padded. *)
Theorem pkcs7Unpad_exact data bs x :
  (0 < bs < 256)%nat → pkcs7Unpad data bs = Ok x ↔ data = pkcs7Pad x bs.
Proof. apply pkcs7Unpad_iff. Qed.

(** C25: AES key unwrap is the exact inverse of AES key wrap: a ciphertext
    unwraps to a plaintext if and only if that plaintext wraps to it, so no
    other ciphertext passes the integrity check. *)
Theorem aesKeyUnwrap_exact `{BlockCipherLaws} kek p c :
  aesKeyUnwrap kek c = Ok p ↔ aesKeyWrap kek p = Ok c.
Proof. split; [apply aesKeyWrap_Unwrap|apply aesKeyUnwrap_Wrap]. Qed.

(** ** Witnesses *)

Lemma pkcs7Unpad_exact_witness :
  pkcs7Unpad (to_bytes "twelve bytes" ++ replicate 4 (bmk 4)) 16 = Ok (to_bytes "twelve bytes").
Proof. apply (pkcs7Unpad_exact _ 16 (to_bytes "twelve bytes")); [lia|]. vm_compute. reflexivity. Defined.

Lemma aesKeyUnwrap_exact_witness : ∃ c,
  aesKeyWrap (replicate 16 (bmk 5)) (to_bytes "sixteen byte key") = Ok c ∧
  aesKeyUnwrap (replicate 16 (bmk 5)) c = Ok (to_bytes "sixteen byte key").
Proof.
  eexists. split; [vm_compute; reflexivity|].
  apply (aesKeyUnwrap_exact (replicate 16 (bmk 5)) (to_bytes "sixteen byte key")).
  vm_compute. reflexivity.
Defined.
