(* ===== verification/Encryption.v ===== *)
(** * Component: authenticated encryption ([internal/encryption/encryption.go])

    AES-256-GCM under a key derived from a passphrase.  The key derivation of
    [golang.org/x/crypto/pbkdf2] is a parameter; GCM is [GoGcm]. *)

From S2P Require Import Prelude GoStrings GoCrypto GoGcm Toy.

Definition saltSize : nat := 16.
Definition nonceSize : nat := 12.
Definition keySize : nat := 32.
Definition pbkdf2Iters : nat := 100 * 1000.
Arguments pbkdf2Iters : simpl never.

(** [pbkdf2.Key(password, salt, iter, keyLen, sha256.New)]. *)
Class Pbkdf2 : Type := { pbkdf2_Key : bytes → bytes → nat → nat → bytes }.

Class Pbkdf2Laws (D : Pbkdf2) : Prop := {
  length_pbkdf2_Key : ∀ password salt iter n, length (pbkdf2_Key password salt iter n) = n;
}.

Definition DeriveKey `{Pbkdf2} (passphrase : string) (salt : bytes) : bytes :=
  pbkdf2_Key (to_bytes passphrase) salt pbkdf2Iters keySize.

(** The [i]-th read of the random source. *)
Definition GenerateSalt (e : Env) (i : nat) : outcome message bytes := rand_Read e i saltSize.

(** The errors of [DecryptString]: of encoding/hex, or of the cipher. *)
Inductive decrypt_error : Type :=
| HexError (h : hex_error)
| CipherError (m : message).

(** A GCM instance is its key. *)
Definition newGCM (key : bytes) : outcome message bytes :=
  if decide (length key ≠ keySize)
  then Err (Text ("key must be " ++ Itoa (Z.of_nat keySize) ++ " bytes"))
  else let! block := aes_NewCipher key in Ok block.

Section encryption.
Context `{C : BlockCipher}.

(** The nonce is the call's [i]-th read of the random source. *)
Definition Encrypt (e : Env) (i : nat) (key plaintext : bytes) : outcome message bytes :=
  let! gcm := newGCM key in
  let! nonce := rand_Read e i nonceSize in
  let! ciphertext := gcm_Seal gcm nonce plaintext [] in
  Ok (nonce ++ ciphertext).

Definition Decrypt (key ciphertext : bytes) : outcome message bytes :=
  let! gcm := newGCM key in
  if decide (length ciphertext < nonceSize)%nat then Err (Text "ciphertext too short") else
  let nonce := take nonceSize ciphertext in
  let data := drop nonceSize ciphertext in
  gcm_Open gcm nonce data [].

Definition EncryptString (e : Env) (i : nat) (key : bytes) (s : string) : outcome message string :=
  o_map hex_EncodeToString (Encrypt e i key (to_bytes s)).

Definition DecryptString (key : bytes) (s : string) : outcome decrypt_error string :=
  let! ciphertext := o_maperr HexError (hex_DecodeString s) in
  let! plaintext := o_maperr CipherError (Decrypt key ciphertext) in
  Ok (of_bytes plaintext).

Lemma newGCM_ok key : length key = keySize → newGCM key = Ok key.
Proof.
  intros Hk. unfold newGCM, aes_NewCipher. rewrite decide_False by (intros ?; done).
  rewrite decide_True; [done|]. right; right. exact Hk.
Qed.

Context `{!BlockCipherLaws C}.

Lemma Encrypt_Ok e i key p c :
  Encrypt e i key p = Ok c →
  length key = keySize ∧ ∃ nonce sealed, rand_Read e i nonceSize = Ok nonce ∧
    gcm_Seal key nonce p [] = Ok sealed ∧ c = nonce ++ sealed.
Proof.
  unfold Encrypt. destruct (decide (length key = keySize)) as [Hk|Hk].
  - rewrite newGCM_ok by done. cbn [o_bind]. destruct (rand_Read _ _ _) as [nonce| |]; [|done..]. cbn [o_bind].
    destruct (gcm_Seal _ _ _ _) as [sealed| |] eqn:Hs; [|done..]. intros [= <-]. eauto 6.
  - unfold newGCM. by rewrite decide_True.
Qed.

(** Under a 32-byte key, [Decrypt] accepts a byte string exactly when it
    is a 12-byte nonce followed by what AES-GCM produces for that nonce and
    the plaintext it returns; so a ciphertext that was altered anywhere is
    either refused or is itself a genuine encryption. *)
Theorem Decrypt_exact key c p :
  length key = keySize →
  Decrypt key c = Ok p ↔
  ∃ nonce sealed, length nonce = nonceSize ∧ gcm_Seal key nonce p [] = Ok sealed ∧ c = nonce ++ sealed.
Proof.
  intros Hk. unfold Decrypt. rewrite newGCM_ok by done. cbn [o_bind].
  destruct (decide (length c < nonceSize)%nat) as [Hlt|Hge].
  - split; [done|]. intros (nonce & sealed & Hn & _ & ->). rewrite length_app in Hlt. lia.
  - assert (length (take nonceSize c) = gcm_nonce_size) as Hlen.
    { rewrite length_take. unfold gcm_nonce_size, nonceSize in *. lia. }
    rewrite gcm_Open_iff by done. split.
    + intros Hs. exists (take nonceSize c), (drop nonceSize c). by rewrite take_drop.
    + intros (nonce & sealed & Hn & Hs & ->). by rewrite take_app_length', drop_app_length'.
Qed.

Lemma Decrypt_Encrypt_bytes e i key p c : Encrypt e i key p = Ok c → Decrypt key c = Ok p.
Proof.
  intros (Hk & nonce & sealed & Hn & Hs & ->)%Encrypt_Ok. apply length_rand_Read in Hn.
  unfold Decrypt. rewrite newGCM_ok by done. cbn [o_bind].
  rewrite decide_False by (rewrite length_app; lia).
  rewrite take_app_length', drop_app_length' by done. by apply gcm_Open_iff.
Qed.

Lemma length_Encrypt e i key p c :
  Encrypt e i key p = Ok c → length c = (nonceSize + length p + gcm_tag_size)%nat.
Proof.
  intros (Hk & nonce & sealed & Hn & Hs & ->)%Encrypt_Ok. apply length_rand_Read in Hn.
  apply gcm_Seal_length in Hs; [|done]. rewrite length_app. lia.
Qed.

Lemma DecryptString_EncryptString e i key s c :
  EncryptString e i key s = Ok c → DecryptString key c = Ok s.
Proof.
  unfold EncryptString, DecryptString. destruct (Encrypt _ _ _ _) as [ct| |] eqn:He; [|done..].
  intros [= <-]. rewrite hex_round_trip. cbn. rewrite (Decrypt_Encrypt_bytes _ _ _ _ _ He). cbn.
  by rewrite of_to_bytes.
Qed.

Lemma EncryptString_bytes e i key s c :
  EncryptString e i key s = Ok c → ∃ ct, Encrypt e i key (to_bytes s) = Ok ct ∧ c = hex_EncodeToString ct.
Proof. unfold EncryptString. destruct (Encrypt _ _ _ _) as [ct| |]; [|done..]. intros [= <-]. eauto. Qed.

Lemma EncryptString_total e i key s :
  length key = keySize → rand_ok e i = true → Z.of_nat (String.length s) ≤ gcm_max_plaintext →
  ∃ c, EncryptString e i key s = Ok c.
Proof.
  intros Hk Hr Hs. unfold EncryptString, Encrypt. rewrite newGCM_ok by done. cbn [o_bind].
  unfold rand_Read. rewrite Hr. cbn [o_bind]. rewrite gcm_Seal_Ok; [by eexists|..].
  - by rewrite length_fmap, length_seq.
  - by rewrite length_to_bytes.
Qed.

Lemma EncryptString_nonempty e i key s c : EncryptString e i key s = Ok c → c ≠ ""%string.
Proof.
  intros (ct & He & ->)%EncryptString_bytes. apply hex_EncodeToString_nonempty.
  apply length_Encrypt in He. intros ->. cbn in He. unfold nonceSize in He. lia.
Qed.

Lemma EncryptString_ne e i key s c : EncryptString e i key s = Ok c → c ≠ s.
Proof.
  intros (ct & Hct & ->)%EncryptString_bytes Hs'. apply length_Encrypt in Hct.
  apply (f_equal to_bytes) in Hs'. unfold hex_EncodeToString in Hs'. rewrite to_of_bytes in Hs'.
  apply (f_equal length) in Hs'. rewrite length_hex_encode in Hs'.
  unfold nonceSize, gcm_tag_size in *. lia.
Qed.

(** A string encrypted under a 32-byte key decrypts to itself; encryption
    succeeds whenever the random source does and the text fits in a GCM
    message; and a key of any other size is refused by both directions. *)
Theorem EncryptString_round_trip e i key s :
  (length key = keySize → rand_ok e i = true → Z.of_nat (String.length s) ≤ gcm_max_plaintext →
   ∃ c, EncryptString e i key s = Ok c ∧ DecryptString key c = Ok s ∧ c ≠ s) ∧
  (length key ≠ keySize →
   EncryptString e i key s = Err (Text "key must be 32 bytes") ∧
   ∀ ct, Decrypt key ct = Err (Text "key must be 32 bytes")).
Proof.
  split.
  - intros Hk Hr Hs. destruct (EncryptString_total e i key s Hk Hr Hs) as [c Hc]. exists c.
    split; [done|]. split; [by eapply DecryptString_EncryptString|by eapply EncryptString_ne].
  - intros Hk. unfold EncryptString, Encrypt, Decrypt, newGCM. by rewrite decide_True.
Qed.
End encryption.

Lemma Decrypt_exact_witness : ∃ c,
  Decrypt (bmk <$> seqZ 0 32) c = Ok (to_bytes "secret") ∧ length c = 34%nat.
Proof.
  exists (match Encrypt toy_env 0 (bmk <$> seqZ 0 32) (to_bytes "secret") with Ok c => c | _ => [] end).
  split; [|vm_compute; reflexivity].
  apply (Decrypt_exact (C := toy_cipher) (bmk <$> seqZ 0 32)); [reflexivity|].
  eexists (rand_byte toy_env 0 <$> seq 0 12), _.
  split; [reflexivity|]. split; [reflexivity|]. vm_compute. reflexivity.
Defined.

Lemma EncryptString_round_trip_witness : ∃ c,
  EncryptString toy_env 0 (bmk <$> seqZ 0 32) "secret" = Ok c ∧ DecryptString (bmk <$> seqZ 0 32) c = Ok "secret"%string.
Proof.
  destruct (proj1 (EncryptString_round_trip (C := toy_cipher) toy_env 0 (bmk <$> seqZ 0 32) "secret"))
    as (c & Hc & Hd & _); [reflexivity|reflexivity|vm_compute; discriminate|].
  by exists c.
Defined.
