(* ===== verification/Model.v ===== *)
(** * The request and record types of [internal/model]

    Go's [*T] and [map] fields that may be nil are [option]s; a nil slice and
    an empty one are told apart only where the code does. *)

From S2P Require Import Prelude.
From Stdlib Require Import Floats.SpecFloat.

Notation tags := (option (gmap string string)) (only parsing).

(** ** internal/model/common.go *)

Record Attributes : Type := mkAttributes {
  Enabled : option bool;
  NotBefore : option Z;
  Expires : option Z;
  Created : Z;
  Updated : Z;
  RecoveryLevel : string;
  RecoverableDays : Z;
}.
Global Instance Attributes_eq_dec : EqDecision Attributes.
Proof. solve_decision. Defined.

Record ListResult (T : Type) : Type := mkListResult {
  lr_Value : list T;
  lr_NextLink : option string;
}.
Arguments mkListResult {T}.
Arguments lr_Value {T}.
Arguments lr_NextLink {T}.

(** ** internal/model/secret.go *)

Record SecretSetRequest : Type := mkSecretSetRequest {
  ssr_Value : string;
  ssr_ContentType : string;
  ssr_Attributes : option Attributes;
  ssr_Tags : tags;
}.

Record SecretUpdateRequest : Type := mkSecretUpdateRequest {
  sur_ContentType : option string;
  sur_Attributes : option Attributes;
  sur_Tags : tags;
}.

Record SecretBundle : Type := mkSecretBundle {
  sb_Value : string;
  sb_ID : string;
  sb_ContentType : string;
  sb_Attributes : Attributes;
  sb_Tags : tags;
}.

Record SecretItem : Type := mkSecretItem {
  si_ID : string;
  si_ContentType : string;
  si_Attributes : Attributes;
  si_Tags : tags;
}.

Record DeletedSecretBundle : Type := mkDeletedSecretBundle {
  dsb_SecretBundle : SecretBundle;
  dsb_RecoveryID : string;
  dsb_DeletedDate : Z;
  dsb_ScheduledPurgeDate : Z;
}.

(** ** internal/model/key.go *)

Record JSONWebKey : Type := mkJSONWebKey {
  jwk_Kid : string;
  jwk_Kty : string;
  jwk_KeyOps : list string;
  jwk_N : string;
  jwk_E : string;
  jwk_D : string;
  jwk_P : string;
  jwk_Q : string;
  jwk_DP : string;
  jwk_DQ : string;
  jwk_QI : string;
  jwk_Crv : string;
  jwk_X : string;
  jwk_Y : string;
  jwk_K : string;
}.
Global Instance JSONWebKey_eq_dec : EqDecision JSONWebKey.
Proof. solve_decision. Defined.

(** The zero value [model.JSONWebKey{}]. *)
Definition zero_jwk : JSONWebKey := mkJSONWebKey "" "" [] "" "" "" "" "" "" "" "" "" "" "" "".

Record CreateKeyRequest : Type := mkCreateKeyRequest {
  ckr_Kty : string;
  ckr_KeySize : Z;
  ckr_KeyOps : list string;
  ckr_Attributes : option Attributes;
  ckr_Tags : tags;
  ckr_Crv : string;
  ckr_Value : string;
}.

Record ImportKeyRequest : Type := mkImportKeyRequest {
  ikr_Key : JSONWebKey;
  ikr_Attributes : option Attributes;
  ikr_Tags : tags;
}.

Record UpdateKeyRequest : Type := mkUpdateKeyRequest {
  ukr_Attributes : option Attributes;
  ukr_Tags : tags;
  ukr_KeyOps : option (list string);   (** the code tests it against nil *)
}.

Record KeyBundle : Type := mkKeyBundle { kb_Key : JSONWebKey; kb_Attributes : Attributes; kb_Tags : tags }.
Record KeyItem : Type := mkKeyItem { ki_Kid : string; ki_Attributes : Attributes; ki_Tags : tags }.

Record DeletedKeyBundle : Type := mkDeletedKeyBundle {
  dkb_KeyBundle : KeyBundle;
  dkb_RecoveryID : string;
  dkb_DeletedDate : Z;
  dkb_ScheduledPurgeDate : Z;
}.

Record CryptoResponse : Type := mkCryptoResponse { crs_Kid : string; crs_Value : string; crs_Alg : string; crs_IV : string }.
Record VerifyResponse : Type := mkVerifyResponse { vrs_Value : bool }.

Record EncryptRequest : Type := mkEncryptRequest { er_Alg : string; er_Value : string; er_IV : string }.
Record SignRequest : Type := mkSignRequest { sgr_Alg : string; sgr_Value : string }.
Record VerifyRequest : Type := mkVerifyRequest { vr_Alg : string; vr_Digest : string; vr_Value : string }.

(** ** internal/model/certificate.go *)

(** The dynamic values of a [map[string]any]: what [encoding/json] decodes
    into, and Go [int]s where the code builds the map itself.  An [AMap] is a
    list of entries with distinct keys. *)
Inductive any : Type :=
| ANil
| ABool (b : bool)
| AInt (z : Z)
| AFloat (f : spec_float)
| AString (s : string)
| AList (l : list any)
| AMap (m : list (string * any)).

Notation anymap := (list (string * any)) (only parsing).

(** [m[k].(string)] with its [ok] result; [m[k]] of a missing key is nil. *)
Definition any_lookup (m : anymap) (k : string) : any :=
  match list_find (λ p, p.1 = k) m with Some (_, p) => p.2 | None => ANil end.
Definition any_string (a : any) : option string :=
  match a with AString s => Some s | _ => None end.

Record CertificatePolicy : Type := mkCertificatePolicy {
  pol_ID : string;
  pol_Issuer : option anymap;
  pol_KeyProps : option anymap;
  pol_SecretProps : option anymap;
  pol_X509Props : option anymap;
  pol_LifetimeActions : list (option anymap);
  pol_Attributes : option anymap;
}.

(** The zero value [model.CertificatePolicy{}]. *)
Definition zero_policy : CertificatePolicy := mkCertificatePolicy "" None None None None [] None.

Record CreateCertificateRequest : Type := mkCreateCertificateRequest {
  ccr_Policy : option CertificatePolicy;
  ccr_Attributes : option Attributes;
  ccr_Tags : tags;
}.

Record ImportCertificateRequest : Type := mkImportCertificateRequest {
  icr_Value : string;
  icr_Password : string;
  icr_Policy : option CertificatePolicy;
  icr_Attributes : option Attributes;
  icr_Tags : tags;
}.

Record UpdateCertificateRequest : Type := mkUpdateCertificateRequest {
  ucr_Attributes : option Attributes;
  ucr_Tags : tags;
}.

Record CertificateOperation : Type := mkCertificateOperation {
  co_ID : string;
  co_Status : string;
  co_Target : string;
  co_StatusDetails : string;
}.

Record CertificateBundle : Type := mkCertificateBundle {
  cb_ID : string;
  cb_Kid : string;
  cb_Sid : string;
  cb_Cer : string;
  cb_Attributes : Attributes;
  cb_Tags : tags;
  cb_Policy : option CertificatePolicy;
}.

Record CertificateItem : Type := mkCertificateItem {
  ci_ID : string;
  ci_Kid : string;
  ci_Sid : string;
  ci_X5t : string;
  ci_Attributes : Attributes;
  ci_Tags : tags;
}.

Record DeletedCertificateBundle : Type := mkDeletedCertificateBundle {
  dcb_CertificateBundle : CertificateBundle;
  dcb_RecoveryID : string;
  dcb_DeletedDate : Z;
  dcb_ScheduledPurgeDate : Z;
}.

(** ** internal/model/error.go *)

Record CloudError : Type := mkCloudError { ce_Code : string; ce_Message : message }.
Record KeyVaultError : Type := mkKeyVaultError { kve_Error : CloudError }.
Definition NewKeyVaultError (code : string) (msg : message) : KeyVaultError :=
  mkKeyVaultError (mkCloudError code msg).
