(* ===== verification/KeyCrypto.v ===== *)
(** * [internal/crypto/keys.go]: key material, JSON web keys and key operations *)

From S2P Require Import Prelude GoStrings GoBase64 GoCrypto AesModes Model Toy.

Record KeyMaterial : Type := mkKeyMaterial {
  km_RSA : option rsa_PrivateKey;
  km_ECDSA : option ecdsa_PrivateKey;
  km_AES : option bytes;
  km_RSAPub : option rsa_PublicKey;
  km_ECDSAPub : option ecdsa_PublicKey;
}.
Global Instance KeyMaterial_eq_dec : EqDecision KeyMaterial.
Proof. solve_decision. Defined.

(** [KeyMaterial{}]. *)
Definition zero_material : KeyMaterial := mkKeyMaterial None None None None None.

(** The bytes of the [AES] field; nil has none. *)
Definition aes_key (m : KeyMaterial) : bytes := default [] (km_AES m).

Definition EncodeBase64URL (data : bytes) : string := b64_EncodeToString RawURLEncoding data.

Definition DecodeBase64URL (value : string) : outcome message bytes :=
  o_maperr (λ off, Text (CorruptInputError off)) (b64_DecodeString RawURLEncoding value).

Definition decodeBigInt (value : string) : outcome message Z :=
  let! data := DecodeBase64URL value in
  Ok (big_SetBytes data).

Definition padBytes (data : bytes) (size : nat) : bytes :=
  if decide (size ≤ length data)%nat then data
  else replicate (size - length data) (bmk 0) ++ data.

Definition resolveCurve (crv : string) : outcome message (Curve * string) :=
  if decide (crv ∈ [""; "P-256"]%string) then Ok (P256, "P-256"%string)
  else if decide (crv = "P-384"%string) then Ok (P384, "P-384"%string)
  else if decide (crv = "P-521"%string) then Ok (P521, "P-521"%string)
  else Err (Format [Lit "unsupported curve "; Quoted crv]).

Definition rsaHash (alg : string) : outcome message (Hash * bool) :=
  if decide (alg = "RS256"%string) then Ok (SHA256, false)
  else if decide (alg = "RS384"%string) then Ok (SHA384, false)
  else if decide (alg = "RS512"%string) then Ok (SHA512, false)
  else if decide (alg = "PS256"%string) then Ok (SHA256, true)
  else if decide (alg = "PS384"%string) then Ok (SHA384, true)
  else if decide (alg = "PS512"%string) then Ok (SHA512, true)
  else Err (Format [Lit "unsupported signing algorithm "; Quoted alg]).

(** The zero hash is [None]. *)
Definition HashForAlg (alg : string) : option Hash :=
  if decide (alg ∈ ["RS256"; "PS256"; "ES256"]%string) then Some SHA256
  else if decide (alg ∈ ["RS384"; "PS384"; "ES384"]%string) then Some SHA384
  else if decide (alg ∈ ["RS512"; "PS512"; "ES512"]%string) then Some SHA512
  else None.

Definition RSAToJWK (kid kty : string) (ops : list string) (pub : rsa_PublicKey) : JSONWebKey :=
  {| jwk_Kid := kid; jwk_Kty := kty; jwk_KeyOps := ops;
     jwk_N := EncodeBase64URL (big_Bytes (rsa_N pub));
     jwk_E := EncodeBase64URL (big_Bytes (rsa_E pub));
     jwk_D := ""; jwk_P := ""; jwk_Q := ""; jwk_DP := ""; jwk_DQ := ""; jwk_QI := "";
     jwk_Crv := ""; jwk_X := ""; jwk_Y := ""; jwk_K := "" |}.

Definition field_size (c : Curve) : nat := ((BitSize c + 7) / 8)%nat.

Definition ECDSAToJWK (kid kty : string) (ops : list string) (crv : string)
    (pub : ecdsa_PublicKey) : JSONWebKey :=
  let size := field_size (ec_Curve pub) in
  {| jwk_Kid := kid; jwk_Kty := kty; jwk_KeyOps := ops;
     jwk_N := ""; jwk_E := "";
     jwk_D := ""; jwk_P := ""; jwk_Q := ""; jwk_DP := ""; jwk_DQ := ""; jwk_QI := "";
     jwk_Crv := crv;
     jwk_X := EncodeBase64URL (padBytes (big_Bytes (ec_X pub)) size);
     jwk_Y := EncodeBase64URL (padBytes (big_Bytes (ec_Y pub)) size);
     jwk_K := "" |}.

Definition SymmetricToJWK (kid kty : string) (ops : list string) (key : option bytes) : JSONWebKey :=
  {| jwk_Kid := kid; jwk_Kty := kty; jwk_KeyOps := ops;
     jwk_N := ""; jwk_E := "";
     jwk_D := ""; jwk_P := ""; jwk_Q := ""; jwk_DP := ""; jwk_DQ := ""; jwk_QI := "";
     jwk_Crv := ""; jwk_X := ""; jwk_Y := "";
     jwk_K := match key with Some key => EncodeBase64URL key | None => ""%string end |}.

(** [make([]byte, n)] panics on a length the runtime cannot allocate. *)
Definition max_alloc : Z := 2 ^ 48.
Definition make_len (n : Z) : outcome message nat :=
  if decide (0 ≤ n ≤ max_alloc) then Ok (Z.to_nat n)
  else Panic "runtime error: makeslice: len out of range".

(** [kty] selects a family by prefix in the key operations. *)
Definition is_RSA (kty : string) : bool := HasPrefix kty "RSA".
Definition is_EC (kty : string) : bool := HasPrefix kty "EC".
Definition is_oct (kty : string) : bool := HasPrefix kty "oct".

Section keys.
Context `{C : BlockCipher} `{L : PublicKeyLib}.

(** [i] counts the reads of the random source the caller made before. *)
Definition GenerateKey (e : Env) (i : nat) (kty : string) (keySize : Z) (crv kid : string)
    (keyOps : list string) : outcome message (KeyMaterial * JSONWebKey) :=
  if decide (kty ∈ ["RSA"; "RSA-HSM"]%string) then
    let keySize := if decide (keySize = 0) then 2048 else keySize in
    let! priv := rsa_GenerateKey e keySize in
    Ok (mkKeyMaterial (Some priv) None None (Some (rsa_Public priv)) None,
        RSAToJWK kid kty keyOps (rsa_Public priv))
  else if decide (kty ∈ ["EC"; "EC-HSM"]%string) then
    let! cr := resolveCurve crv in
    let '(curve, resolvedCrv) := cr : Curve * string in
    let! priv := ecdsa_GenerateKey curve e in
    Ok (mkKeyMaterial None (Some priv) None None (Some (ec_Public priv)),
        ECDSAToJWK kid kty keyOps resolvedCrv (ec_Public priv))
  else if decide (kty ∈ ["oct"; "oct-HSM"]%string) then
    let keySize := if decide (keySize = 0) then 256 else keySize in
    if decide (Z.rem keySize 8 ≠ 0) then Err (Text "invalid symmetric key size") else
    let! n := make_len (Z.quot keySize 8) in
    let! buf := rand_Read e i n in
    Ok (mkKeyMaterial None None (Some buf) None None, SymmetricToJWK kid kty keyOps None)
  else Err (Format [Lit "unsupported key type "; Quoted kty]).

Definition ImportKey (jwk : JSONWebKey) (kid : string) : outcome message (KeyMaterial * JSONWebKey) :=
  let kty := jwk_Kty jwk in
  if decide (kty ∈ ["oct"; "oct-HSM"]%string) then
    if decide (jwk_K jwk = ""%string) then Err (Text "missing key material") else
    let! key := DecodeBase64URL (jwk_K jwk) in
    Ok (mkKeyMaterial None None (Some key) None None,
        SymmetricToJWK kid kty (jwk_KeyOps jwk) None)
  else if decide (kty ∈ ["RSA"; "RSA-HSM"]%string) then
    if decide (jwk_N jwk = ""%string ∨ jwk_E jwk = ""%string)
    then Err (Text "missing rsa modulus or exponent") else
    let! n := decodeBigInt (jwk_N jwk) in
    let! eBig := decodeBigInt (jwk_E jwk) in
    if decide (eBig ≤ 1) then Err (Text "invalid rsa exponent") else
    if decide (max_int64 < eBig) then Err (Text "rsa exponent out of range") else
    let pub := mk_rsa_PublicKey n (wrap64 eBig) in
    let! priv :=
      if decide (jwk_D jwk = ""%string) then Ok None else
      let! d := decodeBigInt (jwk_D jwk) in
      if decide (jwk_P jwk = ""%string ∨ jwk_Q jwk = ""%string)
      then Ok (Some (mk_rsa_PrivateKey pub d [])) else
      let! p := decodeBigInt (jwk_P jwk) in
      let! q := decodeBigInt (jwk_Q jwk) in
      o_map Some (rsa_Precompute (mk_rsa_PrivateKey pub d [p; q])) in
    Ok (mkKeyMaterial priv None None (Some pub) None, RSAToJWK kid kty (jwk_KeyOps jwk) pub)
  else if decide (kty ∈ ["EC"; "EC-HSM"]%string) then
    let! cr := resolveCurve (jwk_Crv jwk) in
    let '(curve, resolvedCrv) := cr : Curve * string in
    if decide (jwk_X jwk = ""%string ∨ jwk_Y jwk = ""%string)
    then Err (Text "missing ec coordinates") else
    let! x := decodeBigInt (jwk_X jwk) in
    let! y := decodeBigInt (jwk_Y jwk) in
    let pub := mk_ecdsa_PublicKey curve x y in
    let! priv :=
      if decide (jwk_D jwk = ""%string) then Ok None else
      let! d := decodeBigInt (jwk_D jwk) in
      Ok (Some (mk_ecdsa_PrivateKey pub d)) in
    Ok (mkKeyMaterial None priv None None (Some pub),
        ECDSAToJWK kid kty (jwk_KeyOps jwk) resolvedCrv pub)
  else Err (Format [Lit "unsupported key type "; Quoted kty]).

(** The public key an RSA or EC operation uses: the private key's own. *)
Definition rsa_public_of (m : KeyMaterial) : option rsa_PublicKey :=
  match km_RSA m with Some k => Some (rsa_Public k) | None => km_RSAPub m end.
Definition ecdsa_public_of (m : KeyMaterial) : option ecdsa_PublicKey :=
  match km_ECDSA m with Some k => Some (ec_Public k) | None => km_ECDSAPub m end.

Definition Encrypt (e : Env) (m : KeyMaterial) (kty alg : string) (plaintext iv : bytes)
    : outcome message (bytes * bytes) :=
  if is_RSA kty then
    match rsa_public_of m with
    | None => Err (Text "rsa public key not available")
    | Some pub =>
        if decide (alg = "RSA-OAEP"%string)
        then o_map (λ out, (out, [])) (rsa_EncryptOAEP SHA1 e pub plaintext)
        else if decide (alg = "RSA-OAEP-256"%string)
        then o_map (λ out, (out, [])) (rsa_EncryptOAEP SHA256 e pub plaintext)
        else if decide (alg = "RSA1_5"%string)
        then o_map (λ out, (out, [])) (rsa_EncryptPKCS1v15 e pub plaintext)
        else Err (Format [Lit "unsupported encrypt algorithm "; Quoted alg])
    end
  else if is_oct kty then encryptCBC e (aes_key m) alg plaintext iv
  else Err (Format [Lit "encrypt not supported for "; Quoted kty]).

Definition Decrypt (m : KeyMaterial) (kty alg : string) (ciphertext iv : bytes)
    : outcome message (bytes * bytes) :=
  if is_RSA kty then
    match km_RSA m with
    | None => Err (Text "rsa private key not available")
    | Some priv =>
        if decide (alg = "RSA-OAEP"%string)
        then o_map (λ out, (out, [])) (rsa_DecryptOAEP SHA1 priv ciphertext)
        else if decide (alg = "RSA-OAEP-256"%string)
        then o_map (λ out, (out, [])) (rsa_DecryptOAEP SHA256 priv ciphertext)
        else if decide (alg = "RSA1_5"%string)
        then o_map (λ out, (out, [])) (rsa_DecryptPKCS1v15 priv ciphertext)
        else Err (Format [Lit "unsupported decrypt algorithm "; Quoted alg])
    end
  else if is_oct kty then decryptCBC (aes_key m) alg ciphertext iv
  else Err (Format [Lit "decrypt not supported for "; Quoted kty]).

Definition Sign (e : Env) (m : KeyMaterial) (kty alg : string) (digest : bytes)
    : outcome message bytes :=
  if is_RSA kty then
    match km_RSA m with
    | None => Err (Text "rsa private key not available")
    | Some priv =>
        let! hp := rsaHash alg in
        let '(hash, pss) := hp : Hash * bool in
        if pss then rsa_SignPSS e priv hash digest else rsa_SignPKCS1v15 e priv hash digest
    end
  else if is_EC kty then
    match km_ECDSA m with
    | None => Err (Text "ecdsa private key not available")
    | Some priv =>
        let size := field_size (ec_Curve (ec_Public priv)) in
        let! rs := ecdsa_Sign e priv digest in
        Ok (padBytes (big_Bytes rs.1) size ++ padBytes (big_Bytes rs.2) size)
    end
  else Err (Format [Lit "sign not supported for "; Quoted kty]).

Definition Verify (m : KeyMaterial) (kty alg : string) (digest signature : bytes)
    : outcome message bool :=
  if is_RSA kty then
    match rsa_public_of m with
    | None => Err (Text "rsa public key not available")
    | Some pub =>
        let! hp := rsaHash alg in
        let '(hash, pss) := hp : Hash * bool in
        Ok (if pss then rsa_VerifyPSS pub hash digest signature
            else rsa_VerifyPKCS1v15 pub hash digest signature)
    end
  else if is_EC kty then
    match ecdsa_public_of m with
    | None => Err (Text "ecdsa public key not available")
    | Some pub =>
        let size := field_size (ec_Curve pub) in
        if decide (length signature ≠ size * 2)%nat then Ok false else
        let! r := o_map big_SetBytes (slice_expr 0 (Z.of_nat size) signature) in
        let! s := o_map big_SetBytes (slice_expr (Z.of_nat size) (Z.of_nat (length signature)) signature) in
        Ok (ecdsa_Verify pub digest r s)
    end
  else Err (Format [Lit "verify not supported for "; Quoted kty]).

Definition Wrap (e : Env) (m : KeyMaterial) (kty alg : string) (plaintext : bytes)
    : outcome message bytes :=
  if is_RSA kty then o_map fst (Encrypt e m kty alg plaintext [])
  else if is_oct kty then aesKeyWrap (aes_key m) plaintext
  else Err (Format [Lit "wrap not supported for "; Quoted kty]).

Definition Unwrap (m : KeyMaterial) (kty alg : string) (ciphertext : bytes)
    : outcome message bytes :=
  if is_RSA kty then o_map fst (Decrypt m kty alg ciphertext [])
  else if is_oct kty then aesKeyUnwrap (aes_key m) ciphertext
  else Err (Format [Lit "unwrap not supported for "; Quoted kty]).

Definition DigestForAlg (alg : string) (data : bytes) : bytes :=
  match HashForAlg alg with Some h => hash_Sum h data | None => data end.
End keys.

(** ** Encodings *)

Lemma DecodeBase64URL_Encode data : DecodeBase64URL (EncodeBase64URL data) = Ok data.
Proof. unfold DecodeBase64URL, EncodeBase64URL. by rewrite b64_round_trip by apply _. Qed.

Lemma padBytes_value data size : big_SetBytes (padBytes data size) = big_SetBytes data.
Proof.
  unfold padBytes. case_decide; [done|].
  rewrite big_SetBytes_app, big_SetBytes_zeros. lia.
Qed.

Lemma length_padBytes data size :
  (length data ≤ size)%nat → length (padBytes data size) = size.
Proof.
  intros. unfold padBytes. case_decide; [lia|]. rewrite length_app, length_replicate. lia.
Qed.

Lemma padBytes_nonempty data size : (0 < size)%nat → padBytes data size ≠ [].
Proof.
  intros Hs Heq%(f_equal length). unfold padBytes in Heq. simpl in Heq.
  case_decide; [lia|]. rewrite length_app, length_replicate in Heq. lia.
Qed.

Lemma field_size_pos c : (0 < field_size c)%nat.
Proof. destruct c; vm_compute; lia. Qed.

Lemma field_size_bits c : Z.of_nat (BitSize c) ≤ 8 * Z.of_nat (field_size c).
Proof. destruct c; vm_compute; discriminate. Qed.

(** An element of the field fits its padded width. *)
Lemma length_padBytes_field c n :
  0 ≤ n < 2 ^ Z.of_nat (BitSize c) →
  length (padBytes (big_Bytes n) (field_size c)) = field_size c.
Proof.
  intros [H0 Hn]. apply length_padBytes, length_big_Bytes. split; [done|].
  eapply Z.lt_le_trans; [exact Hn|]. change 256 with (2 ^ 8).
  rewrite <-Z.pow_mul_r by lia. apply Z.pow_le_mono_r; [lia|apply field_size_bits].
Qed.

Lemma padBytes_field_value c n :
  0 ≤ n → big_SetBytes (padBytes (big_Bytes n) (field_size c)) = n.
Proof. intros. by rewrite padBytes_value, big_SetBytes_Bytes. Qed.

Lemma decodeBigInt_Encode data : decodeBigInt (EncodeBase64URL data) = Ok (big_SetBytes data).
Proof. unfold decodeBigInt. by rewrite DecodeBase64URL_Encode. Qed.

Lemma EncodeBase64URL_nonempty data : data ≠ [] → EncodeBase64URL data ≠ ""%string.
Proof. apply b64_EncodeToString_nonempty. Qed.

#[export] Hint Rewrite DecodeBase64URL_Encode decodeBigInt_Encode padBytes_value : kv.

(** ** Key families *)

Inductive family : Type := FamRSA | FamEC | FamOct.

(** The key types [GenerateKey] and [ImportKey] accept, by family. *)
Definition kty_family (kty : string) : option family :=
  if decide (kty ∈ ["RSA"; "RSA-HSM"]%string) then Some FamRSA
  else if decide (kty ∈ ["EC"; "EC-HSM"]%string) then Some FamEC
  else if decide (kty ∈ ["oct"; "oct-HSM"]%string) then Some FamOct
  else None.

Lemma kty_family_prefix kty f :
  kty_family kty = Some f →
  (is_RSA kty, is_EC kty, is_oct kty) =
    match f with FamRSA => (true, false, false) | FamEC => (false, true, false)
               | FamOct => (false, false, true) end.
Proof.
  unfold kty_family. intros Hf.
  repeat case_decide; simplify_eq;
    repeat match goal with H : _ ∈ _ :: _ |- _ => apply elem_of_cons in H as [->|H] end;
    try reflexivity; set_solver.
Qed.

Lemma resolveCurve_Ok crv c name :
  resolveCurve crv = Ok (c, name) → resolveCurve name = Ok (c, name).
Proof.
  unfold resolveCurve at 1.
  destruct (decide (crv ∈ _)); [|repeat (case_decide; [|])];
    intros; simplify_eq; vm_compute; reflexivity.
Qed.

(** The public half of a key's material. *)
Definition public_material (m : KeyMaterial) : KeyMaterial :=
  mkKeyMaterial None None None (rsa_public_of m) (ecdsa_public_of m).

(** The private members of a JSON web key. *)
Definition jwk_private (k : JSONWebKey) : list string :=
  [jwk_D k; jwk_P k; jwk_Q k; jwk_DP k; jwk_DQ k; jwk_QI k; jwk_K k].
Definition jwk_is_public (k : JSONWebKey) : Prop := Forall (λ s, s = ""%string) (jwk_private k).

Lemma RSAToJWK_public kid kty ops pub : jwk_is_public (RSAToJWK kid kty ops pub).
Proof. repeat constructor. Qed.
Lemma ECDSAToJWK_public kid kty ops crv pub : jwk_is_public (ECDSAToJWK kid kty ops crv pub).
Proof. repeat constructor. Qed.
Lemma SymmetricToJWK_public kid kty ops : jwk_is_public (SymmetricToJWK kid kty ops None).
Proof. repeat constructor. Qed.
#[export] Hint Resolve RSAToJWK_public ECDSAToJWK_public SymmetricToJWK_public : kv.

(** ** Generated keys *)

Ltac split_bind H :=
  repeat match type of H with
  | o_bind _ _ = Ok _ => let x := fresh "x" in let Hx := fresh "Hx" in
      apply o_bind_Ok in H as (x & Hx & H)
  | context [decide ?P] => destruct (decide P); try done
  end.

Section generated.
Context `{C : BlockCipher} `{L : PublicKeyLib}.

(** What [GenerateKey] returns, by family. *)
Inductive generated (kty kid : string) (ops : list string) : KeyMaterial → JSONWebKey → Prop :=
| gen_rsa e n priv :
    kty_family kty = Some FamRSA → rsa_GenerateKey e n = Ok priv →
    generated kty kid ops
      (mkKeyMaterial (Some priv) None None (Some (rsa_Public priv)) None)
      (RSAToJWK kid kty ops (rsa_Public priv))
| gen_ec e c name priv :
    kty_family kty = Some FamEC → resolveCurve name = Ok (c, name) →
    ecdsa_GenerateKey c e = Ok priv →
    generated kty kid ops
      (mkKeyMaterial None (Some priv) None None (Some (ec_Public priv)))
      (ECDSAToJWK kid kty ops name (ec_Public priv))
| gen_oct buf :
    kty_family kty = Some FamOct → buf ≠ [] →
    generated kty kid ops (mkKeyMaterial None None (Some buf) None None)
      (SymmetricToJWK kid kty ops None).

Lemma GenerateKey_generated e i kty n crv kid ops m jwk :
  GenerateKey e i kty n crv kid ops = Ok (m, jwk) → generated kty kid ops m jwk.
Proof.
  unfold GenerateKey. intros H.
  destruct (decide (kty ∈ ["RSA"; "RSA-HSM"]%string)) as [Hr|Hr].
  { apply o_bind_Ok in H as (priv & Hp & [= <- <-]).
    eapply gen_rsa; [unfold kty_family; by repeat case_decide|exact Hp]. }
  destruct (decide (kty ∈ ["EC"; "EC-HSM"]%string)) as [He|He].
  { apply o_bind_Ok in H as ([c name] & Hc & H). apply o_bind_Ok in H as (priv & Hp & [= <- <-]).
    eapply gen_ec; [unfold kty_family; by repeat case_decide|
      by eapply resolveCurve_Ok|exact Hp]. }
  destruct (decide (kty ∈ ["oct"; "oct-HSM"]%string)) as [Ho|Ho]; [|done].
  case_decide; [done|].
  apply o_bind_Ok in H as (len & Hn & H). apply o_bind_Ok in H as (buf & Hb & [= <- <-]).
  apply gen_oct; [unfold kty_family; by repeat case_decide|].
  intros ->. apply length_rand_Read in Hb. simpl in Hb. subst len.
  unfold make_len in Hn. case_decide as Hk; [|done]. injection Hn as Hn.
  set (k := if decide (n = 0) then 256 else n) in *.
  assert (k ≠ 0) by (unfold k; case_decide; lia).
  pose proof (Z.quot_rem' k 8). lia.
Qed.

Lemma generated_public kty kid ops m jwk : generated kty kid ops m jwk → jwk_is_public jwk.
Proof. destruct 1; auto with kv. Qed.

(** A key imported from a public JSON web key. *)
Lemma ImportKey_RSAToJWK kid kid' kty ops pub :
  kty_family kty = Some FamRSA → 0 < rsa_N pub → 1 < rsa_E pub ≤ max_int64 →
  ImportKey (RSAToJWK kid kty ops pub) kid' =
    Ok (mkKeyMaterial None None None (Some pub) None, RSAToJWK kid' kty ops pub).
Proof.
  intros Hf HN HE. unfold kty_family in Hf.
  destruct (decide (kty ∈ ["RSA"; "RSA-HSM"]%string)) as [Hr|Hr];
    [|by repeat case_decide].
  unfold ImportKey, RSAToJWK; cbn [jwk_Kty jwk_N jwk_E jwk_D jwk_KeyOps].
  rewrite (decide_False (P:=kty ∈ ["oct"; "oct-HSM"]%string)) by set_solver.
  rewrite (decide_True (P:=kty ∈ ["RSA"; "RSA-HSM"]%string)) by done.
  rewrite decide_False.
  2:{ intros [Heq|Heq]; revert Heq; apply EncodeBase64URL_nonempty, big_Bytes_nonempty; lia. }
  rewrite !decodeBigInt_Encode. cbn [o_bind]. rewrite !big_SetBytes_Bytes by lia.
  rewrite (decide_False (P:=rsa_E pub ≤ 1)), (decide_False (P:=max_int64 < _)) by lia.
  cbn [o_bind]. rewrite wrap64_id by (unfold in_int64, max_int64 in *; lia).
  by destruct pub.
Qed.

Lemma ImportKey_ECDSAToJWK kid kid' kty ops name pub :
  kty_family kty = Some FamEC → resolveCurve name = Ok (ec_Curve pub, name) →
  0 ≤ ec_X pub → 0 ≤ ec_Y pub →
  ImportKey (ECDSAToJWK kid kty ops name pub) kid' =
    Ok (mkKeyMaterial None None None None (Some pub), ECDSAToJWK kid' kty ops name pub).
Proof.
  intros Hf Hc HX HY. unfold kty_family in Hf.
  destruct (decide (kty ∈ ["RSA"; "RSA-HSM"]%string)) as [Hr|Hr]; [done|].
  destruct (decide (kty ∈ ["EC"; "EC-HSM"]%string)) as [He|He]; [|by repeat case_decide].
  unfold ImportKey, ECDSAToJWK; cbn [jwk_Kty jwk_Crv jwk_X jwk_Y jwk_D jwk_KeyOps].
  rewrite (decide_False (P:=kty ∈ ["oct"; "oct-HSM"]%string)) by set_solver.
  rewrite (decide_False (P:=kty ∈ ["RSA"; "RSA-HSM"]%string)) by done.
  rewrite (decide_True (P:=kty ∈ ["EC"; "EC-HSM"]%string)) by done. rewrite Hc. cbn [o_bind].
  rewrite decide_False.
  2:{ intros [Heq|Heq]; revert Heq;
      apply EncodeBase64URL_nonempty, padBytes_nonempty, field_size_pos. }
  rewrite !decodeBigInt_Encode. cbn [o_bind]. rewrite !padBytes_field_value by done.
  by destruct pub.
Qed.

Lemma ImportKey_public jwk kid m jwk' :
  ImportKey jwk kid = Ok (m, jwk') → jwk_is_public jwk' ∧ jwk_Kty jwk' = jwk_Kty jwk.
Proof.
  unfold ImportKey. intros H.
  repeat match type of H with
  | o_bind _ _ = Ok _ => apply o_bind_Ok in H as (? & ? & H)
  | (if decide ?P then _ else _) = Ok _ => destruct (decide P); [try done|try done]
  | (let '(_, _) := ?p in _) = Ok _ => destruct p
  | Ok _ = Ok _ => injection H as <- <-
  end; auto with kv.
Qed.
End generated.

(** ** Properties of the key operations *)

Section properties.
Context `{C : BlockCipher} `{!BlockCipherLaws C} `{L : PublicKeyLib} `{!PublicKeyLaws L}.

Lemma encrypt_decrypt_generated kty kid ops m jwk e alg p iv c iv' :
  generated kty kid ops m jwk →
  Encrypt e m kty alg p iv = Ok (c, iv') → Decrypt m kty alg c iv' = Ok (p, iv').
Proof.
  intros Hg. unfold Encrypt, Decrypt.
  destruct Hg as [e0 n priv Hf Hp|e0 cv name priv Hf|buf Hf];
    pose proof (kty_family_prefix _ _ Hf) as [= Hr He Ho]; rewrite Hr, ?Ho; [|done|].
  - cbn [km_RSA rsa_public_of].
    repeat (case_decide; [match goal with |- o_map _ ?x = _ → _ =>
      destruct x eqn:Henc; simpl; try done; intros [= -> <-] end;
      erewrite ?rsa_OAEP_inverse, ?rsa_PKCS1v15_inverse by done; done|]). done.
  - apply decryptCBC_encryptCBC.
Qed.

Lemma wrap_unwrap_generated kty kid ops m jwk e alg p c :
  generated kty kid ops m jwk →
  Wrap e m kty alg p = Ok c → Unwrap m kty alg c = Ok p.
Proof.
  intros Hg. unfold Wrap, Unwrap.
  destruct (is_RSA kty) eqn:Hr.
  - destruct (Encrypt e m kty alg p []) as [[c' iv']| |] eqn:Henc; [|done..].
    intros [= ->]. eapply encrypt_decrypt_generated in Henc; [|done].
    revert Henc. unfold Encrypt, Decrypt. rewrite Hr. case_match; [|done].
    repeat case_decide; intros Henc; try done;
      match goal with |- o_map _ ?y = _ => destruct y as [[]| |]; simplify_eq/=; try done end;
      match goal with H : o_map _ ?y = _ |- _ => destruct y; simplify_eq/=; done end.
  - destruct (is_oct kty); [|done]. apply aesKeyUnwrap_Wrap.
Qed.

Lemma sign_verify_generated kty kid ops m jwk e alg d sig :
  generated kty kid ops m jwk →
  Sign e m kty alg d = Ok sig → Verify m kty alg d sig = Ok true.
Proof.
  intros Hg. unfold Sign, Verify.
  destruct Hg as [e0 n priv Hf Hp|e0 cv name priv Hf Hc Hp|buf Hf];
    pose proof (kty_family_prefix _ _ Hf) as [= Hr He Ho]; rewrite Hr, ?He; [| |done].
  - cbn [km_RSA rsa_public_of]. intros ([h pss] & Hh & Hs)%o_bind_Ok. rewrite Hh. simpl.
    destruct pss; f_equal; [by eapply rsa_PSS_correct|by eapply rsa_PKCS1v15_correct].
  - cbn [km_ECDSA ecdsa_public_of]. intros ([r s] & Hs & [= <-])%o_bind_Ok. cbn [fst snd].
    destruct (ecdsa_Sign_range _ _ _ _ _ Hs) as [Hrr Hsr].
    set (cu := ec_Curve (ec_Public priv)) in *.
    pose proof (length_padBytes_field cu r Hrr) as Hlr.
    pose proof (length_padBytes_field cu s Hsr) as Hls.
    rewrite decide_False by (rewrite length_app, Hlr, Hls; lia).
    rewrite slice_expr_to, slice_expr_from by (rewrite length_app, Hlr, Hls; lia). cbn [o_map o_bind].
    rewrite take_app_length', drop_app_length' by done.
    rewrite !padBytes_field_value by lia. f_equal. by eapply ecdsa_correct.
Qed.
End properties.

(** Base64url is lossless: decoding what the emulator encoded returns the
    same bytes, for every byte string. *)
Theorem base64url_round_trip data : DecodeBase64URL (EncodeBase64URL data) = Ok data.
Proof. apply DecodeBase64URL_Encode. Qed.

(** C22: with a generated key, decryption with the returned IV inverts
    encryption, for every key type, algorithm, plaintext and IV for which
    encryption succeeds. *)
Theorem Decrypt_Encrypt `{BlockCipherLaws} `{PublicKeyLaws}
    e i kty n crv kid ops m jwk e' alg p iv c iv' :
  GenerateKey e i kty n crv kid ops = Ok (m, jwk) →
  Encrypt e' m kty alg p iv = Ok (c, iv') → Decrypt m kty alg c iv' = Ok (p, iv').
Proof. intros Hg%GenerateKey_generated. by eapply encrypt_decrypt_generated. Qed.

(** C23: with a generated key, verification accepts every signature that the
    same key produced for the same digest and algorithm; for EC keys this
    includes splitting the signature into its two zero-padded halves. *)
Theorem Verify_Sign `{C : BlockCipher} `{PublicKeyLaws} e i kty n crv kid ops m jwk e' alg d sig :
  GenerateKey e i kty n crv kid ops = Ok (m, jwk) →
  Sign e' m kty alg d = Ok sig → Verify m kty alg d sig = Ok true.
Proof. intros Hg%GenerateKey_generated. by eapply sign_verify_generated. Qed.

(** C24: with a generated key, unwrapping inverts wrapping. *)
Theorem Unwrap_Wrap `{BlockCipherLaws} `{PublicKeyLaws} e i kty n crv kid ops m jwk e' alg p c :
  GenerateKey e i kty n crv kid ops = Ok (m, jwk) →
  Wrap e' m kty alg p = Ok c → Unwrap m kty alg c = Ok p.
Proof. intros Hg%GenerateKey_generated. by eapply wrap_unwrap_generated. Qed.

(** C33: the JSON web key of a generated key carries the whole public key and
    nothing private: importing it again gives the public half of the generated
    material and the same JSON web key, for RSA and EC, and fails for want of
    key material for a symmetric key. *)
Theorem ImportKey_of_generated `{PublicKeyLaws} e i kty n crv kid ops m jwk kid' :
  GenerateKey e i kty n crv kid ops = Ok (m, jwk) →
  jwk_is_public jwk ∧
  ImportKey jwk kid' =
    match kty_family kty with
    | Some FamOct => Err (Text "missing key material")
    | _ => Ok (public_material m, mkJSONWebKey kid' (jwk_Kty jwk) (jwk_KeyOps jwk)
             (jwk_N jwk) (jwk_E jwk) "" "" "" "" "" "" (jwk_Crv jwk) (jwk_X jwk) (jwk_Y jwk) "")
    end.
Proof.
  intros Hg%GenerateKey_generated. split; [by eapply generated_public|].
  destruct Hg as [e0 k priv Hf Hp|e0 c name priv Hf Hc Hp|buf Hf Hb]; rewrite Hf.
  - destruct (rsa_generated_public _ _ _ Hp). by apply ImportKey_RSAToJWK.
  - destruct (ecdsa_generated_point _ _ _ Hp). pose proof (ecdsa_generated_curve _ _ _ Hp) as <-.
    by apply ImportKey_ECDSAToJWK.
  - unfold kty_family in Hf. unfold ImportKey. cbn [SymmetricToJWK jwk_Kty jwk_K].
    repeat case_decide; done.
Qed.

(** C36: generating a symmetric key panics exactly when the requested bit length is
    a multiple of 8 that is negative or that no allocation can serve; every
    other request returns a key or an error. *)
Theorem GenerateKey_oct_panics `{PublicKeyLib} e i kty n crv kid ops :
  kty_family kty = Some FamOct →
  is_Panic (GenerateKey e i kty n crv kid ops) ↔
  Z.rem n 8 = 0 ∧ (n < 0 ∨ 8 * max_alloc < n).
Proof.
  intros Hf. unfold kty_family in Hf. unfold GenerateKey.
  destruct (decide (kty ∈ ["RSA"; "RSA-HSM"]%string)); [done|].
  destruct (decide (kty ∈ ["EC"; "EC-HSM"]%string)); [done|].
  destruct (decide (kty ∈ ["oct"; "oct-HSM"]%string)); [|done].
  destruct (decide (n = 0)) as [->|Hn].
  { simpl. unfold rand_Read. destruct (rand_ok e i); simpl; unfold max_alloc; lia. }
  case_decide as Hr; [simpl; tauto|]. pose proof (Z.quot_rem' n 8). pose proof (Z.rem_bound_abs n 8).
  unfold make_len. case_decide as Hl; simpl; [|unfold max_alloc in *; split; [lia|done]].
  unfold rand_Read. destruct (rand_ok e i); simpl; unfold max_alloc in *; lia.
Qed.

(** ** Witnesses *)

Lemma Decrypt_Encrypt_witness : ∃ m jwk c iv,
  GenerateKey toy_env 0 "oct" 128 "" "" [] = Ok (m, jwk) ∧
  Encrypt toy_env m "oct" "A128CBCPAD" (to_bytes "attack at dawn!!!") [] = Ok (c, iv) ∧
  Decrypt m "oct" "A128CBCPAD" c iv = Ok (to_bytes "attack at dawn!!!", iv).
Proof.
  eexists _, _, _, _. split; [vm_compute; reflexivity|]. split; [vm_compute; reflexivity|].
  eapply (Decrypt_Encrypt toy_env 0 "oct" 128 "" "" [] _ _ toy_env "A128CBCPAD"
    (to_bytes "attack at dawn!!!") []); vm_compute; reflexivity.
Defined.

Lemma Verify_Sign_witness : ∃ m jwk sig,
  GenerateKey toy_env 0 "EC-HSM" 0 "P-521" "" [] = Ok (m, jwk) ∧
  Sign toy_env m "EC-HSM" "ES512" (to_bytes "digest") = Ok sig ∧
  length sig = 132%nat ∧
  Verify m "EC-HSM" "ES512" (to_bytes "digest") sig = Ok true.
Proof.
  eexists _, _, _. split; [vm_compute; reflexivity|]. split; [vm_compute; reflexivity|].
  split; [vm_compute; reflexivity|].
  eapply (Verify_Sign toy_env 0 "EC-HSM" 0 "P-521" "" [] _ _ toy_env
    "ES512" (to_bytes "digest")); vm_compute; reflexivity.
Defined.

Lemma Unwrap_Wrap_witness : ∃ m jwk c,
  GenerateKey toy_env 0 "oct" 256 "" "" [] = Ok (m, jwk) ∧
  Wrap toy_env m "oct" "A256KW" (to_bytes "0123456789abcdef") = Ok c ∧
  Unwrap m "oct" "A256KW" c = Ok (to_bytes "0123456789abcdef").
Proof.
  eexists _, _, _. split; [vm_compute; reflexivity|]. split; [vm_compute; reflexivity|].
  eapply (Unwrap_Wrap toy_env 0 "oct" 256 "" "" [] _ _ toy_env "A256KW"
    (to_bytes "0123456789abcdef")); vm_compute; reflexivity.
Defined.

Lemma ImportKey_of_generated_witness : ∃ m jwk,
  GenerateKey toy_env 0 "EC" 0 "" "" ["sign"] = Ok (m, jwk) ∧
  ImportKey jwk "kid" = Ok (public_material m,
    mkJSONWebKey "kid" "EC" ["sign"] "" "" "" "" "" "" "" "" "P-256" (jwk_X jwk) (jwk_Y jwk) "").
Proof.
  eexists _, _. split; [vm_compute; reflexivity|].
  eapply (ImportKey_of_generated toy_env 0 "EC" 0 "" "" ["sign"]); vm_compute; reflexivity.
Defined.

Lemma GenerateKey_oct_panics_witness : is_Panic (GenerateKey toy_env 0 "oct" (-8) "" "" []).
Proof. apply (GenerateKey_oct_panics toy_env 0 "oct" (-8) "" "" [] eq_refl).
  split; [reflexivity|left; reflexivity].
Defined.
