(* ===== verification/CertCrypto.v ===== *)
(** * [internal/crypto/certificates.go]: making and reading certificates *)

From S2P Require Import Prelude GoStrings GoBase64 GoUtf8 GoCrypto GoX509 Model.
From Stdlib Require Import Floats.SpecFloat.

(** ** [strings.TrimSpace] and [strings.TrimPrefix] *)

(** The UTF-8 encodings of the runes [unicode.IsSpace] accepts. *)
Definition space_runes : list bytes :=
  map (map bmk) (
    map (λ z, [z]) [9; 10; 11; 12; 13; 32] ++ map (λ z, [194; z]) [133; 160] ++ [[225; 154; 128]] ++
    map (λ z, [226; 128; z]) [128; 129; 130; 131; 132; 133; 134; 135; 136; 137; 138; 168; 169; 175] ++
    [[226; 129; 159]; [227; 128; 128]]).

Definition strip_prefix (p l : bytes) : option bytes :=
  if decide (take (length p) l = p) then Some (drop (length p) l) else None.

(** Removes the [runes] that lead [l]; [fuel] is the number of bytes left. *)
Fixpoint trim_runes (runes : list bytes) (fuel : nat) (l : bytes) : bytes :=
  match fuel with
  | O => l
  | S fuel' =>
      match omap (λ r, strip_prefix r l) runes with
      | l' :: _ => trim_runes runes fuel' l'
      | [] => l
      end
  end.

Definition TrimSpace (l : bytes) : bytes :=
  let l := trim_runes space_runes (length l) l in
  reverse (trim_runes (reverse <$> space_runes) (length l) (reverse l)).

Definition add_part (name : pkix_Name) (part : bytes) : pkix_Name :=
  let piece := of_bytes (TrimSpace part) in
  let rest (n : nat) := of_bytes (drop n (to_bytes piece)) in
  let '(mk_pkix_Name cn o ou c st l) := name in
  if HasPrefix piece "CN=" then mk_pkix_Name (rest 3%nat) o ou c st l
  else if HasPrefix piece "O=" then mk_pkix_Name cn (o ++ [rest 2%nat]) ou c st l
  else if HasPrefix piece "OU=" then mk_pkix_Name cn o (ou ++ [rest 3%nat]) c st l
  else if HasPrefix piece "C=" then mk_pkix_Name cn o ou (c ++ [rest 2%nat]) st l
  else if HasPrefix piece "ST=" then mk_pkix_Name cn o ou c (st ++ [rest 3%nat]) l
  else if HasPrefix piece "L=" then mk_pkix_Name cn o ou c st (l ++ [rest 2%nat])
  else name.

Definition ParseSubject (subject : string) : pkix_Name :=
  let name := mk_pkix_Name subject [] [] [] [] [] in
  foldl add_part name (split_on ","%char (to_bytes subject)).

(** ** The validity period *)

(** [float64] arithmetic: 53 bits of precision, exponents up to 1024. *)
Definition float_of_int (z : Z) : spec_float := binary_normalize 53 1024 z 0 false.
Definition float_mul (x y : spec_float) : spec_float := SFmul 53 1024 x y.

Definition Hour : Z := 3600 * 10 ^ 9.
Definition Minute : Z := 60 * 10 ^ 9.

Section certificates.
Context `{L : PublicKeyLib} `{X : CertLib}.

(** [int64(f)]: truncation towards zero. *)
Definition int64_of_float (f : spec_float) : Z :=
  match f with
  | S754_zero _ => 0
  | S754_finite s m e =>
      let a := if decide (0 ≤ e) then Z.pos m * 2 ^ e else Z.pos m / 2 ^ (- e) in
      let v := if s then - a else a in
      if decide (in_int64 v) then v else int64_of_float_overflow
  | _ => int64_of_float_overflow
  end.

(** [time.Duration(vm*30*24) * time.Hour]. *)
Definition validity_duration (vm : spec_float) : Z :=
  wrap64 (int64_of_float (float_mul (float_mul vm (float_of_int 30)) (float_of_int 24)) * Hour).

Record CertOptions : Type := mkCertOptions {
  opt_CertType : string;
  opt_IssuerCert : option x509_Certificate;
  opt_IssuerKey : option rsa_PrivateKey;
}.

(** The properties of the policy, none if the policy or its map is nil. *)
Definition x509_prop (policy : option CertificatePolicy) (key : string) : any :=
  match policy with
  | Some p => match pol_X509Props p with Some m => any_lookup m key | None => ANil end
  | None => ANil
  end.

(** [i] is the reading of the clock. *)
Definition GenerateCert (e : Env) (i : nat) (name : string) (policy : option CertificatePolicy)
    (opts : CertOptions) : outcome message (rsa_PrivateKey * bytes) :=
  let! priv := rsa_GenerateKey e 2048 in
  let certType := if decide (opt_CertType opts = ""%string) then "leaf"%string else opt_CertType opts in
  let subject :=
    match any_string (x509_prop policy "subject") with
    | Some raw => if decide (raw ≠ ""%string) then raw else ("CN=" ++ name)%string
    | None => ("CN=" ++ name)%string
    end in
  let notBefore := clock e i * 10 ^ 9 + clock_nanos e i - 5 * Minute in
  let notAfter :=
    match x509_prop policy "validity_months" with
    | AFloat vm =>
        if SFltb (float_of_int 0) vm then notBefore + validity_duration vm
        else notBefore + 365 * 24 * Hour
    | _ => notBefore + 365 * 24 * Hour
    end in
  let serialLimit := Z.shiftl 1 128 in
  let! serial := rand_Int e serialLimit in
  let isCA := bool_decide (certType = "CA" ∨ certType = "intermediate")%string in
  let '(keyUsage, extKeyUsage) :=
    if isCA then ([KeyUsageDigitalSignature; KeyUsageCertSign; KeyUsageCRLSign], [])
    else ([KeyUsageDigitalSignature; KeyUsageKeyEncipherment],
          [ExtKeyUsageServerAuth; ExtKeyUsageClientAuth]) in
  let tpl := mk_x509_Template serial (ParseSubject subject) notBefore notAfter keyUsage extKeyUsage
    true isCA in
  let '(signerCert, signerKey) :=
    match opt_IssuerCert opts with
    | None => (None, Some priv)
    | Some _ => (opt_IssuerCert opts, opt_IssuerKey opts)
    end in
  let! der := x509_CreateCertificate e tpl signerCert (rsa_Public priv) signerKey in
  Ok (priv, der).

Definition GenerateSelfSignedCert (e : Env) (i : nat) (name : string)
    (policy : option CertificatePolicy) : outcome message (rsa_PrivateKey * bytes) :=
  GenerateCert e i name policy (mkCertOptions "CA" None None).

(** The certificate is made twice, because the first template has no DNS names. *)
Definition GenerateTLSCertificate `{TL : !TlsLib X} (e : Env) (i : nat) (cn : string) (dnsNames : list string)
    : outcome message tls_Certificate :=
  let policy := mkCertificatePolicy "" None None None (Some [("subject", AString ("CN=" ++ cn))]%string) [] None in
  let! pd := GenerateSelfSignedCert e i cn (Some policy) in
  let '(priv, der) := pd : rsa_PrivateKey * bytes in
  let! leaf := x509_ParseCertificate der in
  let! updatedDER := x509_CreateFrom e leaf dnsNames (rsa_Public priv) priv in
  let certPEM := pem_EncodeToMemory (mk_pem_Block "CERTIFICATE" updatedDER) in
  let keyPEM := pem_EncodeToMemory (mk_pem_Block "RSA PRIVATE KEY" (x509_MarshalPKCS1PrivateKey priv)) in
  tls_X509KeyPair certPEM keyPEM.

(** The body of the loop: the first certificate and the first RSA key win. *)
Definition scan_block (cert : option x509_Certificate) (priv : option rsa_PrivateKey) (block : pem_Block)
    : option x509_Certificate * option rsa_PrivateKey :=
  if decide (pem_Type block = "CERTIFICATE"%string) then
    match x509_ParseCertificate (pem_Bytes block), cert with
    | Ok c, None => (Some c, priv)
    | _, _ => (cert, priv)
    end
  else if decide (pem_Type block = "RSA PRIVATE KEY"%string) then
    match x509_ParsePKCS1PrivateKey (pem_Bytes block), priv with
    | Ok k, None => (cert, Some k)
    | _, _ => (cert, priv)
    end
  else if decide (pem_Type block = "PRIVATE KEY"%string) then
    match x509_ParsePKCS8PrivateKey (pem_Bytes block), priv with
    | Ok (Some k), None => (cert, Some k)
    | _, _ => (cert, priv)
    end
  else (cert, priv).

(** [fuel] bounds the number of blocks by the number of bytes. *)
Fixpoint scan_pem (fuel : nat) (cert : option x509_Certificate) (priv : option rsa_PrivateKey)
    (data : bytes) : option x509_Certificate * option rsa_PrivateKey :=
  match fuel with
  | O => (cert, priv)
  | S fuel' =>
      match pem_Decode data with
      | None => (cert, priv)
      | Some (block, rest) =>
          let '(cert, priv) := scan_block cert priv block in scan_pem fuel' cert priv rest
      end
  end.

Definition invalid_certificate : message := Text "invalid certificate value".

Definition parsePEMData (data : bytes)
    : outcome message (x509_Certificate * option rsa_PrivateKey * bytes) :=
  let '(cert, priv) := scan_pem (S (length data)) None None data in
  match cert with
  | None => Err invalid_certificate
  | Some cert =>
      let pemOut :=
        match priv with
        | Some k =>
            if Contains (of_bytes data) "PRIVATE KEY" then data
            else data ++ pem_EncodeToMemory (mk_pem_Block "RSA PRIVATE KEY" (x509_MarshalPKCS1PrivateKey k))
        | None => data
        end in
      Ok (cert, priv, pemOut)
  end.

Definition ParseImportedCertificate (value password : string)
    : outcome message (x509_Certificate * option rsa_PrivateKey * bytes) :=
  let data :=
    if Contains value "BEGIN " then to_bytes value
    else match b64_DecodeString StdEncoding value with
         | Ok decoded => decoded
         | _ => to_bytes value
         end in
  match pem_Decode data with
  | Some _ => parsePEMData data
  | None =>
      let raw_der :=
        match x509_ParseCertificate data with
        | Ok parsed => Ok (parsed, None, pem_EncodeToMemory (mk_pem_Block "CERTIFICATE" data))
        | Err _ => Err invalid_certificate
        | Panic p => Panic p
        end in
      match pkcs12_ToPEM data password with
      | Ok (b :: bs) => parsePEMData (concat (pem_EncodeToMemory <$> b :: bs))
      | Panic p => Panic p
      | _ => raw_der
      end
  end.
Lemma GenerateCert_Ok e i name policy opts priv der :
  GenerateCert e i name policy opts = Ok (priv, der) →
  rsa_GenerateKey e 2048 = Ok priv ∧
  ∃ tpl signer, x509_CreateCertificate e tpl (opt_IssuerCert opts) (rsa_Public priv) signer = Ok der ∧
    tpl_NotBefore tpl = clock e i * 10 ^ 9 + clock_nanos e i - 5 * Minute ∧
    (is_Some (opt_IssuerCert opts) → signer = opt_IssuerKey opts) ∧
    (opt_IssuerCert opts = None → signer = Some priv).
Proof.
  unfold GenerateCert. intros (k & Hk & H)%o_bind_Ok. apply o_bind_Ok in H as (serial & _ & H).
  destruct (if bool_decide _ then _ else _) as [ku eku].
  destruct (opt_IssuerCert opts) as [ic|] eqn:Hic;
    apply o_bind_Ok in H as (d & Hd & [= <- <-]); (split; [done|]);
    eexists _, _; (split; [exact Hd|]); (split; [done|]); (split; [|done]); by intros [].
Qed.
End certificates.
