(* ===== verification/StoreCore.v ===== *)
(** * [internal/store/store.go]: the data of the in-memory store

    The six maps of [Store], the records and entries they hold, and the helper
    functions the three object stores share.  A Go pointer to a version
    ([*secretVersion]) is the version's position in its entry together with
    the version itself; the entry of a name is owned by exactly one of the two
    maps of its kind, because every operation moves it. *)

From S2P Require Import Prelude GoStrings GoBase64 GoCrypto Model KeyCrypto.

Definition recoveryLevel : string := "Recoverable+Purgeable".
Definition recoverableDays : Z := 90.

(** ** Errors: [*Error], or an error of another type *)

Inductive error : Type :=
| StoreError (status : Z) (code : string) (msg : message)
| OtherError (msg : message).
Global Instance error_eq_dec : EqDecision error.
Proof. solve_decision. Defined.

Definition newError (status : Z) (code : string) (msg : message) : error :=
  StoreError status code msg.

(** [err.Error()]. *)
Definition error_text (err : error) : message :=
  match err with StoreError _ _ m => m | OtherError m => m end.

(** [net/http]'s status codes. *)
Definition StatusBadRequest : Z := 400.
Definition StatusNotFound : Z := 404.
Definition StatusConflict : Z := 409.

(** ** Records, versions and entries *)

Record SecretRecord : Type := mkSecretRecord {
  sr_Name : string;
  sr_Version : string;
  sr_Value : string;
  sr_ContentType : string;
  sr_Attributes : Attributes;
  sr_Tags : tags;
}.

Record DeletedSecretRecord : Type := mkDeletedSecretRecord {
  dsr_SecretRecord : SecretRecord;
  dsr_RecoveryID : string;
  dsr_DeletedDate : Z;
  dsr_ScheduledPurgeDate : Z;
}.

Record KeyRecord : Type := mkKeyRecord {
  kr_Name : string;
  kr_Version : string;
  kr_Key : JSONWebKey;
  kr_Attributes : Attributes;
  kr_Tags : tags;
}.

Record DeletedKeyRecord : Type := mkDeletedKeyRecord {
  dkr_KeyRecord : KeyRecord;
  dkr_RecoveryID : string;
  dkr_DeletedDate : Z;
  dkr_ScheduledPurgeDate : Z;
}.

Record CertificateRecord : Type := mkCertificateRecord {
  cr_Name : string;
  cr_Version : string;
  cr_Cer : bytes;
  cr_Kid : string;
  cr_Sid : string;
  cr_Attributes : Attributes;
  cr_Tags : tags;
  cr_Policy : option CertificatePolicy;
}.

Record DeletedCertificateRecord : Type := mkDeletedCertificateRecord {
  dcr_CertificateRecord : CertificateRecord;
  dcr_RecoveryID : string;
  dcr_DeletedDate : Z;
  dcr_ScheduledPurgeDate : Z;
}.

Record secretVersion : Type := mkSecretVersion { sv_record : SecretRecord }.
Record secretEntry : Type := mkSecretEntry { se_versions : list secretVersion }.
Record deletedSecretEntry : Type := mkDeletedSecretEntry {
  dse_entry : secretEntry;
  dse_recoveryID : string;
  dse_deletedDate : Z;
  dse_scheduledPurgeDate : Z;
}.

Record keyVersion : Type := mkKeyVersion { kv_record : KeyRecord; kv_material : KeyMaterial }.
Record keyEntry : Type := mkKeyEntry { ke_versions : list keyVersion }.
Record deletedKeyEntry : Type := mkDeletedKeyEntry {
  dke_entry : keyEntry;
  dke_recoveryID : string;
  dke_deletedDate : Z;
  dke_scheduledPurgeDate : Z;
}.

Record certificateVersion : Type := mkCertificateVersion { cv_record : CertificateRecord; cv_pem : bytes }.
Record certificateEntry : Type := mkCertificateEntry { ce_versions : list certificateVersion }.
Record deletedCertificateEntry : Type := mkDeletedCertificateEntry {
  dce_entry : certificateEntry;
  dce_recoveryID : string;
  dce_deletedDate : Z;
  dce_scheduledPurgeDate : Z;
}.

Global Instance SecretRecord_eq_dec : EqDecision SecretRecord.
Proof. solve_decision. Defined.
Global Instance DeletedSecretRecord_eq_dec : EqDecision DeletedSecretRecord.
Proof. solve_decision. Defined.
Global Instance KeyRecord_eq_dec : EqDecision KeyRecord.
Proof. solve_decision. Defined.

(** ** The store: [sync.RWMutex] makes each operation one atomic step *)

Record Store : Type := mkStore {
  secrets : gmap string secretEntry;
  deletedSecrets : gmap string deletedSecretEntry;
  keys : gmap string keyEntry;
  deletedKeys : gmap string deletedKeyEntry;
  certificates : gmap string certificateEntry;
  deletedCertificates : gmap string deletedCertificateEntry;
}.

Definition New : Store := mkStore ∅ ∅ ∅ ∅ ∅ ∅.

Definition set_secrets (f : gmap string secretEntry → gmap string secretEntry) (s : Store) : Store :=
  mkStore (f (secrets s)) (deletedSecrets s) (keys s) (deletedKeys s) (certificates s) (deletedCertificates s).
Definition set_deletedSecrets (f : gmap string deletedSecretEntry → gmap string deletedSecretEntry) (s : Store) : Store :=
  mkStore (secrets s) (f (deletedSecrets s)) (keys s) (deletedKeys s) (certificates s) (deletedCertificates s).
Definition set_keys (f : gmap string keyEntry → gmap string keyEntry) (s : Store) : Store :=
  mkStore (secrets s) (deletedSecrets s) (f (keys s)) (deletedKeys s) (certificates s) (deletedCertificates s).
Definition set_deletedKeys (f : gmap string deletedKeyEntry → gmap string deletedKeyEntry) (s : Store) : Store :=
  mkStore (secrets s) (deletedSecrets s) (keys s) (f (deletedKeys s)) (certificates s) (deletedCertificates s).
Definition set_certificates (f : gmap string certificateEntry → gmap string certificateEntry) (s : Store) : Store :=
  mkStore (secrets s) (deletedSecrets s) (keys s) (deletedKeys s) (f (certificates s)) (deletedCertificates s).
Definition set_deletedCertificates (f : gmap string deletedCertificateEntry → gmap string deletedCertificateEntry) (s : Store) : Store :=
  mkStore (secrets s) (deletedSecrets s) (keys s) (deletedKeys s) (certificates s) (f (deletedCertificates s)).

(** A store operation: it may fail with an [error] or panic, and leaves a store. *)
Notation SM := (M Store error).

(** ** Shared helpers *)

Definition cloneTags (t : tags) : tags :=
  match t with
  | None => None
  | Some t => Some (map_fold (λ k v out, <[k := v]> out) ∅ t)
  end.

Definition clonePtr {A} (p : option A) : option A :=
  match p with Some v => Some v | None => None end.

Definition cloneAttributes (a : Attributes) : Attributes :=
  mkAttributes (clonePtr (Enabled a)) (clonePtr (NotBefore a)) (clonePtr (Expires a))
    (Created a) (Updated a) (RecoveryLevel a) (RecoverableDays a).

Definition buildAttributes (input : option Attributes) (created updated : Z) : Attributes :=
  match input with
  | None => mkAttributes None None None created updated recoveryLevel recoverableDays
  | Some input =>
      mkAttributes (clonePtr (Enabled input)) (clonePtr (NotBefore input)) (clonePtr (Expires input))
        created updated recoveryLevel recoverableDays
  end.

(** [int64]. *)
Definition nowUnix (e : Env) : Z := wrap64 (clock e 0).

Definition mergeAttributes (e : Env) (current : Attributes) (patch : option Attributes) : Attributes :=
  let out := cloneAttributes current in
  let pick {A} (field : Attributes → option A) : option A :=
    match patch with
    | Some patch => match field patch with Some v => Some v | None => field out end
    | None => field out
    end in
  mkAttributes (pick Enabled) (pick NotBefore) (pick Expires)
    (Created out) (nowUnix e) recoveryLevel recoverableDays.

Definition newVersion (e : Env) : outcome error string :=
  match rand_Read e 0 16 with
  | Ok buf => Ok (hex_EncodeToString buf)
  | Err _ => Panic ("failed to generate version id: " ++ rand_err e)
  | Panic p => Panic p
  end.

Definition newRecoveryID (e : Env) (kind name : string) : outcome error string :=
  let! v := newVersion e in
  Ok ("/deleted" ++ kind ++ "/" ++ name ++ "/" ++ v)%string.

(** [now + int64(recoverableDays*24*60*60)]. *)
Definition scheduledPurge (now : Z) : Z := wrap64 (now + recoverableDays * 24 * 60 * 60).

Definition paginateNames {T} (items : list T) (skipToken : string) (maxResults : Z)
    : outcome error (list T * option string) :=
  let maxResults := if decide (maxResults ≤ 0) then 25 else maxResults in
  let maxResults := if decide (100 < maxResults) then 100 else maxResults in
  let! start :=
    if decide (skipToken = ""%string) then Ok 0 else
    match Atoi skipToken with
    | Some parsed =>
        if decide (parsed < 0)
        then Err (newError 400 "BadParameter" "The provided $skiptoken is invalid.")
        else Ok parsed
    | None => Err (newError 400 "BadParameter" "The provided $skiptoken is invalid.")
    end in
  let len := Z.of_nat (length items) in
  if decide (len ≤ start) then Ok ([], None) else
  let end_ := wrap64 (start + maxResults) in
  let end_ := if decide (len < end_) then len else end_ in
  let! page := slice_expr start end_ items in
  if decide (len ≤ end_) then Ok (page, None) else
  let next := Itoa end_ in
  Ok (page, Some next).

(** A pointer to the last element of a slice. *)
Definition last_ptr {A} (l : list A) : option (nat * A) :=
  match last l with Some v => Some ((length l - 1)%nat, v) | None => None end.

Definition latestSecret (entry : option secretEntry) : option (nat * secretVersion) :=
  match entry with None => None | Some entry => last_ptr (se_versions entry) end.
Definition latestKey (entry : option keyEntry) : option (nat * keyVersion) :=
  match entry with None => None | Some entry => last_ptr (ke_versions entry) end.
Definition latestCertificate (entry : option certificateEntry) : option (nat * certificateVersion) :=
  match entry with None => None | Some entry => last_ptr (ce_versions entry) end.

(** Reading through a pointer; a nil one is a run-time panic. *)
Definition deref {A} (p : option (nat * A)) : outcome error A :=
  match p with
  | Some (_, v) => Ok v
  | None => Panic "runtime error: invalid memory address or nil pointer dereference"
  end.

(** ** Facts about the helpers *)

Lemma cloneTags_id t : cloneTags t = t.
Proof.
  destruct t as [t|]; [|done]. simpl. f_equal.
  induction t as [|k v t Hk IH] using map_ind; [done|].
  rewrite map_fold_insert_L; [by rewrite IH| |done].
  intros j1 j2 z1 z2 y Hne _ _. by apply insert_insert_ne.
Qed.
Lemma clonePtr_id {A} (p : option A) : clonePtr p = p.
Proof. by destruct p. Qed.
Lemma cloneAttributes_id a : cloneAttributes a = a.
Proof. destruct a. unfold cloneAttributes. by rewrite !clonePtr_id. Qed.
#[export] Hint Rewrite cloneTags_id @clonePtr_id cloneAttributes_id : kv.

(** The identifier [newVersion] makes out of 16 random bytes. *)
Definition version_id (e : Env) : string := hex_EncodeToString (rand_byte e 0 <$> seq 0 16).

Arguments version_id : simpl never.

Lemma newVersion_Ok e : rand_ok e 0 = true → newVersion e = Ok (version_id e).
Proof. intros H. unfold newVersion, rand_Read. by rewrite H. Qed.
Lemma newVersion_Panic e :
  rand_ok e 0 = false → newVersion e = Panic ("failed to generate version id: " ++ rand_err e).
Proof. intros H. unfold newVersion, rand_Read. by rewrite H. Qed.
Lemma newVersion_cases e :
  newVersion e = Ok (version_id e) ∨
  newVersion e = Panic ("failed to generate version id: " ++ rand_err e).
Proof. destruct (rand_ok e 0) eqn:H; [left; by apply newVersion_Ok|right; by apply newVersion_Panic]. Qed.

Lemma newRecoveryID_cases e kind name :
  newRecoveryID e kind name =
    if rand_ok e 0 then Ok ("/deleted" ++ kind ++ "/" ++ name ++ "/" ++ version_id e)%string
    else Panic ("failed to generate version id: " ++ rand_err e).
Proof.
  unfold newRecoveryID. destruct (rand_ok e 0) eqn:Hr;
    [by rewrite newVersion_Ok|by rewrite newVersion_Panic].
Qed.

Lemma version_id_nonempty e : version_id e ≠ ""%string.
Proof. unfold version_id. by apply hex_EncodeToString_nonempty. Qed.

Lemma last_ptr_last {A} (l : list A) : snd <$> last_ptr l = last l.
Proof. unfold last_ptr. by destruct (last l). Qed.

Lemma last_ptr_Some {A} (l : list A) i v :
  last_ptr l = Some (i, v) → l !! i = Some v ∧ last l = Some v ∧ i = (length l - 1)%nat.
Proof.
  unfold last_ptr. destruct (last l) eqn:Hl; [|done]. intros [= <- <-].
  split; [|done]. rewrite last_lookup in Hl. by rewrite Nat.sub_1_r.
Qed.

Lemma last_ptr_app {A} (l : list A) v : last_ptr (l ++ [v]) = Some (length l, v).
Proof. unfold last_ptr. rewrite last_snoc, length_app. simpl. repeat f_equal. lia. Qed.

Lemma last_ptr_nonempty {A} (l : list A) : l ≠ [] → ∃ v, last_ptr l = Some ((length l - 1)%nat, v) ∧ last l = Some v.
Proof. intros [v Hv]%last_is_Some. exists v. unfold last_ptr. by rewrite Hv. Qed.

(** ** Pagination *)

Section pagination.
Context {T : Type} (items : list T).
Implicit Types m start : Z.

Definition page_size m : Z :=
  let m := if decide (m ≤ 0) then 25 else m in if decide (100 < m) then 100 else m.

Lemma page_size_range m : 1 ≤ page_size m ≤ 100.
Proof. unfold page_size. repeat case_decide; lia. Qed.

(** The token that asks for the page at [start]. *)
Definition page_token start : string := if decide (start = 0) then "" else Itoa start.

Lemma paginateNames_page start m :
  Z.of_nat (length items) ≤ max_int64 - 100 → 0 ≤ start < Z.of_nat (length items) →
  let stop := Z.min (Z.of_nat (length items)) (start + page_size m) in
  paginateNames items (page_token start) m =
    Ok (slice (Z.to_nat start) (Z.to_nat stop) items,
        if decide (stop = Z.of_nat (length items)) then None else Some (Itoa stop)).
Proof.
  intros Hlen Hst stop. pose proof (page_size_range m) as Hm.
  unfold paginateNames. fold (page_size m). unfold page_token.
  assert (forall K : Z → outcome error (list T * option string),
    (let! start0 := if decide ((if decide (start = 0) then "" else Itoa start) = ""%string)
                   then Ok 0 else
      match Atoi (if decide (start = 0) then "" else Itoa start) with
      | Some parsed => if decide (parsed < 0)
          then Err (newError 400 "BadParameter" "The provided $skiptoken is invalid.")
          else Ok parsed
      | None => Err (newError 400 "BadParameter" "The provided $skiptoken is invalid.")
      end in K start0) = K start) as ->.
  { intros K. destruct (decide (start = 0)) as [->|Hne]; [done|].
    rewrite decide_False by apply Itoa_nonempty.
    rewrite Atoi_Itoa by lia. by rewrite decide_False by lia. }
  cbn zeta. rewrite decide_False by lia.
  rewrite wrap64_id by (unfold in_int64, max_int64 in *; lia).
  destruct (decide (Z.of_nat (length items) < start + page_size m)).
  - assert (stop = Z.of_nat (length items)) as -> by lia.
    rewrite slice_expr_in by lia. cbn [o_bind]. by rewrite !decide_True by lia.
  - assert (stop = start + page_size m) as -> by lia. rewrite slice_expr_in by lia. cbn [o_bind].
    destruct (decide (Z.of_nat (length items) ≤ start + page_size m)).
    + by rewrite decide_True by lia.
    + by rewrite decide_False by lia.
Qed.

(** Follows the continuation tokens; [fuel] bounds the number of pages. *)
Fixpoint walk (fuel : nat) (token : string) m : option (list (list T)) :=
  match fuel with
  | 0%nat => None
  | S fuel =>
      match paginateNames items token m with
      | Ok (page, None) => Some [page]
      | Ok (page, Some next) => cons page <$> walk fuel next m
      | _ => None
      end
  end.

Lemma walk_from m fuel start :
  Z.of_nat (length items) ≤ max_int64 - 100 → 0 ≤ start < Z.of_nat (length items) →
  (length items - Z.to_nat start ≤ fuel)%nat →
  ∃ pages, walk fuel (page_token start) m = Some pages ∧
    concat pages = drop (Z.to_nat start) items ∧
    Forall (λ p, (0 < length p)%nat ∧ Z.of_nat (length p) ≤ page_size m) pages.
Proof.
  intros Hlen. pose proof (page_size_range m) as Hm. revert start.
  induction fuel as [|fuel IH]; intros start Hst Hf; [lia|].
  cbn [walk]. rewrite paginateNames_page by lia. cbn zeta.
  set (stop := Z.min _ _). assert (start < stop) by lia.
  assert (Forall (λ p : list T, (0 < length p)%nat ∧ Z.of_nat (length p) ≤ page_size m)
    [slice (Z.to_nat start) (Z.to_nat stop) items]) as Hp.
  { constructor; [|done]. rewrite length_slice by lia. lia. }
  destruct (decide (stop = Z.of_nat (length items))) as [He|He].
  - eexists. split; [done|]. split; [|done]. simpl. rewrite app_nil_r, He, Nat2Z.id.
    unfold slice. apply take_ge. rewrite length_drop. lia.
  - destruct (IH stop) as (pages & Hw & Hc & Hall); [lia..|].
    unfold page_token in Hw. rewrite decide_False in Hw by lia.
    exists (slice (Z.to_nat start) (Z.to_nat stop) items :: pages). rewrite Hw. split; [done|].
    split; [|by apply Forall_cons; inversion Hp].
    simpl. rewrite Hc. unfold slice.
    rewrite <-(take_drop (Z.to_nat stop - Z.to_nat start) (drop (Z.to_nat start) items)) at 2.
    rewrite drop_drop. do 2 f_equal. lia.
Qed.
End pagination.

(** A page is a piece of the list, and paging never panics. *)
Lemma elem_of_slice {T} (items : list T) i j x : x ∈ slice i j items → x ∈ items.
Proof.
  unfold slice. intros Hx%subseteq_take. rewrite <-(take_drop i items). set_solver.
Qed.

Lemma paginateNames_elem {T} (items : list T) token m page next x :
  paginateNames items token m = Ok (page, next) → x ∈ page → x ∈ items.
Proof.
  unfold paginateNames. intros (start & _ & H)%o_bind_Ok. case_decide; [simplify_eq; by rewrite elem_of_nil|].
  apply o_bind_Ok in H as (l & ->%slice_expr_Ok & H). case_decide; simplify_eq; apply elem_of_slice.
Qed.

(** The slice of the page is in range: the start was checked on both sides. *)
Lemma paginateNames_no_panic {T} (items : list T) token m :
  Z.of_nat (length items) ≤ max_int64 - 100 → ¬ is_Panic (paginateNames items token m).
Proof.
  intros Hlen. pose proof (page_size_range m) as Hm. unfold paginateNames. fold (page_size m).
  assert (∀ start, 0 ≤ start → ¬ is_Panic (
    if decide (Z.of_nat (length items) ≤ start) then Ok ([], None) else
    let end_ := wrap64 (start + page_size m) in
    let end_ := if decide (Z.of_nat (length items) < end_) then Z.of_nat (length items) else end_ in
    let! page := slice_expr start end_ items in
    if decide (Z.of_nat (length items) ≤ end_) then Ok (page, None) else
    let next := Itoa end_ in Ok (E:=error) (page, Some next))) as Hpage.
  { intros start Hst. case_decide; [by intros []|]. rewrite wrap64_id by (unfold in_int64, max_int64 in *; lia). cbn zeta.
    rewrite slice_expr_in by (case_decide; lia). cbn [o_bind]. by case_decide; intros []. }
  destruct (decide (token = ""%string)); cbn [o_bind]; [by apply Hpage|].
  destruct (Atoi token) as [z|]; [|by intros []]. destruct (decide (z < 0)) in |- *; [by intros []|].
  cbn [o_bind]. apply Hpage. lia.
Qed.

Lemma walk_all {T} (items : list T) m :
  Z.of_nat (length items) ≤ max_int64 - 100 →
  ∃ pages, walk items (S (length items)) "" m = Some pages ∧ concat pages = items ∧
    Forall (λ p, Z.of_nat (length p) ≤ page_size m) pages.
Proof.
  intros Hlen. destruct items as [|x items'] eqn:Hi.
  { exists [[]]. split; [vm_compute; by repeat case_match|]. split; [done|].
    pose proof (page_size_range m). constructor; [simpl; lia|done]. }
  rewrite <-Hi in *.
  destruct (walk_from items m (S (length items)) 0) as (pages & Hw & Hc & Hall);
    [done|subst; simpl; lia|lia|].
  exists pages. split; [done|]. split; [done|]. apply (Forall_impl _ _ _ Hall). by intros p [_ ?].
Qed.

(** C32: following the continuation tokens from the empty token terminates and
    enumerates the whole list, in order, each item once, in pages of at most
    the requested size (25 by default, never more than 100). *)
Theorem pagination_complete {T} (items : list T) m :
  Z.of_nat (length items) ≤ max_int64 - 100 →
  ∃ pages, walk items (S (length items)) "" m = Some pages ∧ concat pages = items ∧
    Forall (λ p, Z.of_nat (length p) ≤ page_size m) pages.
Proof. apply walk_all. Qed.

Lemma pagination_complete_witness :
  ∃ pages, walk (seq 0 7) 8 "" 3 = Some pages ∧ concat pages = seq 0 7 ∧
    Forall (λ p : list nat, Z.of_nat (length p) ≤ page_size 3) pages.
Proof. apply (pagination_complete (seq 0 7) 3). vm_compute. discriminate. Defined.
