(* ===== verification/SqlSchema.v ===== *)
(** * The SQL store's schema ([internal/store/sqlstore/sqlstore.go])

    The flavours of SQL, the texts that depend on them and the migration; then
    the language of the statements the store sends, as [exec_text] and
    [query_text] write them, and what SQL documents of each one: [effect] on
    the tables and [answers].  [SqlLaws] says that an engine follows them. *)

From S2P Require Import Prelude GoStrings GoSql StoreCore.

(** ** Flavours *)

Inductive DBFlavor : Type := FlavorSQLite | FlavorPostgres | FlavorMSSQL.

Definition ph (f : DBFlavor) (n : nat) : string :=
  match f with
  | FlavorPostgres => ("$" ++ Itoa (Z.of_nat n))%string
  | FlavorMSSQL => ("@p" ++ Itoa (Z.of_nat n))%string
  | FlavorSQLite => "?"
  end.

Definition phs (f : DBFlavor) (start count : nat) : string :=
  String.concat ", " ((λ i, ph f (start + i)) <$> seq 0 count).

Definition limitOne (f : DBFlavor) : string :=
  match f with FlavorMSSQL => "OFFSET 0 ROWS FETCH NEXT 1 ROWS ONLY" | _ => "LIMIT 1" end.
Definition textType (f : DBFlavor) : string :=
  match f with FlavorMSSQL => "NVARCHAR(MAX)" | _ => "TEXT" end.
Definition keyType (f : DBFlavor) : string :=
  match f with FlavorMSSQL => "NVARCHAR(450)" | _ => "TEXT" end.

Definition createTable (f : DBFlavor) (name body : string) : string :=
  match f with
  | FlavorMSSQL =>
      ("IF OBJECT_ID(N'" ++ name ++ "', N'U') IS NULL BEGIN CREATE TABLE " ++ name ++ " (" ++ body ++ ") END")%string
  | _ => ("CREATE TABLE IF NOT EXISTS " ++ name ++ " (" ++ body ++ ")")%string
  end.

(** ** Programs of the store: an error of the engine is returned as it is *)

Notation SP := (prog error).
Definition db_error (err : sql_error) : error := OtherError (sql_error_text err).
Definition db_Exec : string → list value → SP unit := exec db_error.
Definition db_QueryRow {A} : string → list value → (row → outcome message A) → SP A := query_row db_error.

(** ** Migration *)

(** A line break in a statement, with the indentation of the source. *)
Definition break : string := of_bytes (bmk <$> [10; 9; 9; 9]).

Definition create_statements (f : DBFlavor) : list string :=
  let kt := keyType f in
  let tt := textType f in
  let deleted (table : string) := createTable f table
    ("name " ++ kt ++ " NOT NULL PRIMARY KEY, recovery_id " ++ kt ++ " NOT NULL," ++ break ++
     "deleted_date BIGINT NOT NULL, scheduled_purge_date BIGINT NOT NULL, versions " ++ tt ++ " NOT NULL")%string in
  [ createTable f "kv_secrets"
      ("name " ++ kt ++ " NOT NULL, version " ++ kt ++ " NOT NULL, value " ++ tt ++ " NOT NULL," ++ break ++
       "content_type " ++ tt ++ " NOT NULL, attributes " ++ tt ++ " NOT NULL, tags " ++ tt ++ " NOT NULL," ++ break ++
       "created_at BIGINT NOT NULL, PRIMARY KEY (name, version)")%string;
    deleted "kv_deleted_secrets";
    createTable f "kv_keys"
      ("name " ++ kt ++ " NOT NULL, version " ++ kt ++ " NOT NULL, jwk " ++ tt ++ " NOT NULL," ++ break ++
       "key_material " ++ tt ++ " NOT NULL, attributes " ++ tt ++ " NOT NULL, tags " ++ tt ++ " NOT NULL," ++ break ++
       "created_at BIGINT NOT NULL, PRIMARY KEY (name, version)")%string;
    deleted "kv_deleted_keys";
    createTable f "kv_certificates"
      ("name " ++ kt ++ " NOT NULL, version " ++ kt ++ " NOT NULL, cer " ++ tt ++ " NOT NULL," ++ break ++
       "kid " ++ tt ++ " NOT NULL, sid " ++ tt ++ " NOT NULL, pem_data " ++ tt ++ " NOT NULL," ++ break ++
       "attributes " ++ tt ++ " NOT NULL, tags " ++ tt ++ " NOT NULL, policy " ++ tt ++ " NULL," ++ break ++
       "created_at BIGINT NOT NULL, PRIMARY KEY (name, version)")%string;
    deleted "kv_deleted_certificates" ].

Definition migrate (f : DBFlavor) : SP unit := p_iter (λ stmt, db_Exec stmt []) (create_statements f).
(** The store is the database handle and the flavour. *)
Definition NewSQLStore (f : DBFlavor) : SP unit := migrate f.

(** ** The statements the store sends *)

Inductive kind : Type := Secrets | Keys | Certificates.
#[export] Instance kind_eq_dec : EqDecision kind.
Proof. solve_decision. Defined.

Definition live_table (k : kind) : string :=
  match k with Secrets => "kv_secrets" | Keys => "kv_keys" | Certificates => "kv_certificates" end.
Definition deleted_table (k : kind) : string :=
  match k with
  | Secrets => "kv_deleted_secrets" | Keys => "kv_deleted_keys" | Certificates => "kv_deleted_certificates"
  end.
(** The columns between the primary key and [created_at]. *)
Definition data_columns (k : kind) : list string :=
  match k with
  | Secrets => ["value"; "content_type"; "attributes"; "tags"]
  | Keys => ["jwk"; "key_material"; "attributes"; "tags"]
  | Certificates => ["cer"; "kid"; "sid"; "pem_data"; "attributes"; "tags"; "policy"]
  end.
Definition deleted_columns : list string := ["name"; "recovery_id"; "deleted_date"; "scheduled_purge_date"; "versions"].

Inductive statement : Type :=
| Insert (k : kind)
| InsertDeleted (k : kind)
| Delete (k : kind)
| DeleteDeleted (k : kind)
| Update (k : kind) (columns : list string).
#[export] Instance statement_eq_dec : EqDecision statement.
Proof. solve_decision. Defined.

Inductive question : Type :=
| Count (k : kind)
| CountDeleted (k : kind)
| Latest (k : kind) (columns : list string)
| Version (k : kind) (columns : list string)
| Versions (k : kind) (columns : list string) (newest_first : bool)
| Names (k : kind)
| DeletedNames (k : kind)
| Deleted (k : kind).
#[export] Instance question_eq_dec : EqDecision question.
Proof. solve_decision. Defined.

(** The ones the store sends. *)
Definition kinds : list kind := [Secrets; Keys; Certificates].
Definition statements : list statement :=
  (Insert <$> kinds) ++ (InsertDeleted <$> kinds) ++ (Delete <$> kinds) ++ (DeleteDeleted <$> kinds) ++
  [Update Secrets ["content_type"; "attributes"; "tags"]; Update Keys ["jwk"; "attributes"; "tags"];
   Update Certificates ["attributes"; "tags"]; Update Certificates ["policy"; "attributes"]]%string.

(** The columns of a version that is read whole. *)
Definition version_columns (k : kind) : list string := "version"%string :: data_columns k.
(** Those that the list of versions reads. *)
Definition listed_columns (k : kind) : list string :=
  match k with
  | Secrets => ["version"; "content_type"; "attributes"; "tags"]
  | Keys => ["version"; "jwk"; "attributes"; "tags"]
  | Certificates => ["version"; "cer"; "kid"; "sid"; "attributes"; "tags"; "policy"]
  end%string.
Definition questions : list question :=
  (Count <$> kinds) ++ (CountDeleted <$> kinds) ++ ((λ k, Latest k (version_columns k)) <$> kinds) ++
  ((λ k, Version k (version_columns k)) <$> kinds) ++
  ((λ k, Versions k (version_columns k ++ ["created_at"%string]) false) <$> kinds) ++
  ((λ k, Versions k (listed_columns k) true) <$> kinds) ++
  (Names <$> kinds) ++ (DeletedNames <$> kinds) ++ (Deleted <$> kinds).

Section texts.
Context (f : DBFlavor).
Local Open Scope string_scope.

Definition columns_text (columns : list string) : string := String.concat ", " columns.

(** [c1 = $n, c2 = $n+1, ...] and what follows. *)
Fixpoint assignments (n : nat) (columns : list string) (rest : string) : string :=
  match columns with
  | [] => rest
  | [c] => c ++ " = " ++ ph f n ++ rest
  | c :: columns => c ++ " = " ++ ph f n ++ ", " ++ assignments (S n) columns rest
  end.

Definition exec_text (s : statement) : string :=
  match s with
  | Insert k =>
      "INSERT INTO " ++ live_table k ++ " (" ++ columns_text (["name"; "version"] ++ data_columns k ++ ["created_at"])%list ++
      ") VALUES (" ++ phs f 1 (length (data_columns k) + 3) ++ ")"
  | InsertDeleted k =>
      "INSERT INTO " ++ deleted_table k ++ " (" ++ columns_text deleted_columns ++ ") VALUES (" ++ phs f 1 5 ++ ")"
  | Delete k => "DELETE FROM " ++ live_table k ++ " WHERE name = " ++ ph f 1
  | DeleteDeleted k => "DELETE FROM " ++ deleted_table k ++ " WHERE name = " ++ ph f 1
  | Update k columns =>
      "UPDATE " ++ live_table k ++ " SET " ++ assignments 1 columns
      (" WHERE name = " ++ ph f (length columns + 1) ++ " AND version = " ++ ph f (length columns + 2))
  end.

Definition query_text (q : question) : string :=
  match q with
  | Count k => "SELECT COUNT(*) FROM " ++ live_table k ++ " WHERE name = " ++ ph f 1
  | CountDeleted k => "SELECT COUNT(*) FROM " ++ deleted_table k ++ " WHERE name = " ++ ph f 1
  | Latest k columns =>
      "SELECT " ++ columns_text columns ++ " FROM " ++ live_table k ++ " WHERE name = " ++ ph f 1 ++
      " ORDER BY created_at DESC " ++ limitOne f
  | Version k columns =>
      "SELECT " ++ columns_text columns ++ " FROM " ++ live_table k ++ " WHERE name = " ++ ph f 1 ++
      " AND version = " ++ ph f 2
  | Versions k columns newest_first =>
      "SELECT " ++ columns_text columns ++ " FROM " ++ live_table k ++ " WHERE name = " ++ ph f 1 ++
      " ORDER BY created_at " ++ (if newest_first then "DESC" else "ASC")
  | Names k => "SELECT DISTINCT name FROM " ++ live_table k ++ " ORDER BY name"
  | DeletedNames k => "SELECT name FROM " ++ deleted_table k ++ " ORDER BY name"
  | Deleted k => "SELECT " ++ columns_text deleted_columns ++ " FROM " ++ deleted_table k ++ " WHERE name = " ++ ph f 1
  end.
End texts.

(** ** What the statements do

    A live table maps its primary key, name and version, to the data columns
    and [created_at]; a table of deleted objects maps the name to the rest.
    That these are the primary keys is read off the CREATE TABLE texts above:
    the tables are modelled as keyed by them, and an INSERT that repeats one
    does not succeed. *)

Notation live_row := (list value * Z)%type (only parsing).
Record grave : Type := mkGrave { g_recovery_id : string; g_deleted : Z; g_purge : Z; g_versions : string }.

Class SqlTables (D : SqlEngine) : Type := {
  live : kind → sdb → gmap (string * string) live_row;
  gone : kind → sdb → gmap string grave;
  name_le : relation string;   (** the collation of ORDER BY name *)
}.

Section semantics.
Context {D : SqlEngine} {T : SqlTables D}.

Definition same (d d' : sdb) : Prop := ∀ k, live k d' = live k d ∧ gone k d' = gone k d.
Definition changes_live (k : kind) (g : gmap (string * string) live_row → gmap (string * string) live_row) (d d' : sdb) : Prop :=
  (∀ k', live k' d' = if decide (k' = k) then g (live k' d) else live k' d) ∧ ∀ k', gone k' d' = gone k' d.
Definition changes_gone (k : kind) (g : gmap string grave → gmap string grave) (d d' : sdb) : Prop :=
  (∀ k', gone k' d' = if decide (k' = k) then g (gone k' d) else gone k' d) ∧ ∀ k', live k' d' = live k' d.

(** The data columns after [SET columns = vals]. *)
Definition set_columns (k : kind) (columns : list string) (vals old : list value) : list value :=
  zip_with (λ c v, match list_find (λ p : string * value, p.1 = c) (zip columns vals) with
                   | Some (_, p) => p.2 | None => v end) (data_columns k) old.

(** What a statement that succeeds did; nothing is said of other arguments. *)
Definition effect (s : statement) (args : list value) (d d' : sdb) : Prop :=
  match s, args with
  | Insert k, VText name :: VText version :: rest => ∀ vals ts,
      rest = vals ++ [VInt ts] → length vals = length (data_columns k) →
      live k d !! (name, version) = None ∧ changes_live k <[(name, version) := (vals, ts)]> d d'
  | InsertDeleted k, [VText name; VText id; VInt deleted; VInt purge; VText versions] =>
      gone k d !! name = None ∧ changes_gone k <[name := mkGrave id deleted purge versions]> d d'
  | Delete k, [VText name] => changes_live k (filter (λ p, p.1.1 ≠ name)) d d'
  | DeleteDeleted k, [VText name] => changes_gone k (delete name) d d'
  | Update k columns, args => ∀ vals name version,
      args = vals ++ [VText name; VText version] → length vals = length columns →
      changes_live k (alter (λ r, (set_columns k columns vals r.1, r.2)) (name, version)) d d'
  | _, _ => True
  end.

(** The versions of a name, in no order. *)
Definition versions_of (k : kind) (name : string) (d : sdb) : list (string * live_row) :=
  (λ p, (p.1.2, p.2)) <$> filter (λ p : string * string * live_row, p.1.1 = name) (map_to_list (live k d)).

Definition newer (a b : string * live_row) : Prop := b.2.2 ≤ a.2.2.
Definition older (a b : string * live_row) : Prop := a.2.2 ≤ b.2.2.

Definition column (k : kind) (r : string * live_row) (c : string) : string * value :=
  (c, if decide (c = "version"%string) then VText r.1 else
      if decide (c = "created_at"%string) then VInt r.2.2 else
      match list_find (λ p : string * value, p.1 = c) (zip (data_columns k) r.2.1) with
      | Some (_, p) => p.2 | None => VNull end).
Definition project (k : kind) (columns : list string) (r : string * live_row) : row := column k r <$> columns.

Definition grave_row (name : string) (g : grave) : row :=
  [("name", VText name); ("recovery_id", VText (g_recovery_id g)); ("deleted_date", VInt (g_deleted g));
   ("scheduled_purge_date", VInt (g_purge g)); ("versions", VText (g_versions g))]%string.
Definition name_row (name : string) : row := [("name"%string, VText name)].

(** The rows of the answer. *)
Definition answers (q : question) (args : list value) (d : sdb) (rows : list row) : Prop :=
  match q, args with
  | Count k, [VText name] => ∃ c, rows = [[(c, VInt (Z.of_nat (length (versions_of k name d))))]]
  | CountDeleted k, [VText name] => ∃ c, rows = [[(c, VInt (if decide (is_Some (gone k d !! name)) then 1 else 0))]]
  | Latest k columns, [VText name] => ∃ l,
      l ≡ₚ versions_of k name d ∧ Sorted newer l ∧ rows = project k columns <$> take 1 l
  | Version k columns, [VText name; VText version] =>
      rows = match live k d !! (name, version) with Some r => [project k columns (version, r)] | None => [] end
  | Versions k columns newest_first, [VText name] => ∃ l,
      l ≡ₚ versions_of k name d ∧ Sorted (if newest_first then newer else older) l ∧ rows = project k columns <$> l
  | Names k, [] => ∃ l,
      NoDup l ∧ (∀ n, n ∈ l ↔ versions_of k n d ≠ []) ∧ Sorted name_le l ∧ rows = name_row <$> l
  | DeletedNames k, [] => ∃ l,
      NoDup l ∧ (∀ n, n ∈ l ↔ is_Some (gone k d !! n)) ∧ Sorted name_le l ∧ rows = name_row <$> l
  | Deleted k, [VText name] =>
      rows = match gone k d !! name with Some g => [grave_row name g] | None => [] end
  | _, _ => True
  end.
End semantics.

(** [q] is the text of the statement, or of the question, as the store sends it. *)
Definition sends (f : DBFlavor) (q : string) (s : statement) : Prop := s ∈ statements ∧ q = exec_text f s.
Definition asks (f : DBFlavor) (q : string) (a : question) : Prop := a ∈ questions ∧ q = query_text f a.
(** Decides it for a given text. *)
Ltac sent := split; [apply (bool_decide_unpack _); vm_compute; exact I|reflexivity].

(** An engine that speaks the flavour [f], on a database whose collation
    compares names byte by byte.  A statement is atomic; a query may be cut
    short by an error. *)
Class SqlLaws (f : DBFlavor) {D : SqlEngine} (T : SqlTables D) : Prop := {
  exec_ok q s args d d' : sends f q s → sql_Exec q args d = (Ok (), d') → effect s args d d';
  exec_failed q args d o d' : sql_Exec q args d = (o, d') → o ≠ Ok () → same d d';
  exec_create q d d' : q ∈ create_statements f → sql_Exec q [] d = (Ok (), d') → same d d';
  query_ok q a args d rows err : asks f q a → sql_Query q args d = Ok (rows, err) →
    ∃ full, answers a args d full ∧ rows `prefix_of` full ∧ (err = None → rows = full);
}.

(** What a column takes: a policy may be NULL. *)
Definition column_takes (c : string) (v : value) : Prop :=
  match v with VText _ => True | VNull => c = "policy"%string | VInt _ => False end.

(** The arguments that the placeholders of a statement, or of a question, take;
    a statement does not repeat a primary key. *)
Definition applicable {D : SqlEngine} {T : SqlTables D} (s : statement) (args : list value) (d : sdb) : Prop :=
  match s with
  | Insert k => ∃ name version vals ts,
      args = VText name :: VText version :: vals ++ [VInt ts] ∧ Forall2 column_takes (data_columns k) vals ∧
      live k d !! (name, version) = None
  | InsertDeleted k => ∃ name id deleted purge versions,
      args = [VText name; VText id; VInt deleted; VInt purge; VText versions] ∧ gone k d !! name = None
  | Delete _ | DeleteDeleted _ => ∃ name, args = [VText name]
  | Update _ columns => ∃ vals name version,
      args = vals ++ [VText name; VText version] ∧ Forall2 column_takes columns vals
  end.
Definition askable (q : question) (args : list value) : Prop :=
  match q with
  | Version _ _ => ∃ name version, args = [VText name; VText version]
  | Names _ | DeletedNames _ => args = []
  | _ => ∃ name, args = [VText name]
  end.

(** An engine that does not fail on its own, on such arguments. *)
Class SqlReliable (f : DBFlavor) {D : SqlEngine} (T : SqlTables D) : Prop := {
  exec_reliable q s args d : sends f q s → applicable s args d → (sql_Exec q args d).1 = Ok ();
  query_reliable q a args d : asks f q a → askable a args → ∃ rows, sql_Query q args d = Ok (rows, None);
}.

(** ** The migration *)

Section migration.
Context {D : SqlEngine} {T : SqlTables D}.

(** The migration creates tables and touches no row, even when it fails. *)
Lemma NewSQLStore_same f {HL : SqlLaws f T} d o d' : run (NewSQLStore f) d = (o, d') → same d d'.
Proof.
  unfold NewSQLStore, migrate.
  cut (∀ l, (∀ q, q ∈ l → q ∈ create_statements f) → ∀ d, run (p_iter (λ stmt, db_Exec stmt []) l) d = (o, d') → same d d').
  { intros H. by apply H. }
  clear d. induction l as [|q l IH]; intros Hall d; [by intros [= _ <-]|]. cbn [p_iter].
  rewrite run_bind. unfold m_bind. cbn [db_Exec exec run].
  destruct (sql_Exec q [] d) as [o1 d1] eqn:Hq. cbn [fst snd].
  assert (same d d1) as Hsame.
  { destruct o1 as [[]| |]; [by eapply (exec_create (f:=f)); [apply Hall; left|]|..]; by eapply (exec_failed (f:=f)). }
  assert (∀ d2, same d1 d2 → same d d2) as Htrans.
  { intros d2 H2 k. destruct (Hsame k), (H2 k). split; congruence. }
  destruct o1 as [[]| |]; cbn [o_maperr]; [|by intros [= _ <-]..]. intros Hrun.
  apply Htrans. eapply IH; [|exact Hrun]. intros q' Hin. apply Hall. by right.
Qed.
End migration.
