(* ===== verification/SecretStore.v ===== *)
(** * [internal/store/secrets.go]: the secret operations of the store *)

From S2P Require Import Prelude GoStrings GoBase64 Model StoreCore.

Definition secret_not_found {A} (name : string) : SM A :=
  m_fail (newError StatusNotFound "SecretNotFound"
    ("A secret with (name/id) " ++ name ++ " was not found in this key vault.")%string).
Definition deleted_secret_not_found {A} (name : string) : SM A :=
  m_fail (newError StatusNotFound "SecretNotFound"
    ("A deleted secret with name " ++ name ++ " was not found in this key vault.")%string).

Definition cloneSecretRecord (r : SecretRecord) : SecretRecord :=
  mkSecretRecord (sr_Name r) (sr_Version r) (sr_Value r) (sr_ContentType r)
    (cloneAttributes (sr_Attributes r)) (cloneTags (sr_Tags r)).

(** [copy.Value = ""]. *)
Definition blank_value (r : SecretRecord) : SecretRecord :=
  mkSecretRecord (sr_Name r) (sr_Version r) "" (sr_ContentType r) (sr_Attributes r) (sr_Tags r).

Definition findSecretVersion (entry : secretEntry) (version : string) : option (nat * secretVersion) :=
  if decide (version = ""%string) then latestSecret (Some entry)
  else list_find (λ current, sr_Version (sv_record current) = version) (se_versions entry).

(** [entry := s.secrets[name]; if entry == nil { entry = &secretEntry{}; ... };
    entry.versions = append(entry.versions, v)]. *)
Definition append_secret (name : string) (v : secretVersion) : SM unit :=
  let* s := m_get in
  let entry := default (mkSecretEntry []) (secrets s !! name) in
  m_modify (set_secrets <[name := mkSecretEntry (se_versions entry ++ [v])]>).

Definition SetSecret (e : Env) (name : string) (req : SecretSetRequest) : SM SecretRecord :=
  if decide (name = ""%string)
  then m_fail (newError StatusBadRequest "BadParameter" "Secret name is required.") else
  if decide (ssr_Value req = ""%string)
  then m_fail (newError StatusBadRequest "BadParameter" "Secret value is required.") else
  let* s := m_get in
  if decide (is_Some (deletedSecrets s !! name))
  then m_fail (newError StatusConflict "InvalidOperation"
    ("Secret " ++ name ++ " is currently deleted and cannot be reused until recovered or purged.")%string)
  else
  let now := nowUnix e in
  let* version := m_lift (newVersion e) in
  let record := mkSecretRecord name version (ssr_Value req) (ssr_ContentType req)
    (buildAttributes (ssr_Attributes req) now now) (cloneTags (ssr_Tags req)) in
  let* _ := append_secret name (mkSecretVersion record) in
  m_ret (cloneSecretRecord record).

Definition GetSecret (name version : string) : SM SecretRecord :=
  let* s := m_get in
  match secrets s !! name with
  | None => secret_not_found name
  | Some entry =>
      match findSecretVersion entry version with
      | None => secret_not_found name
      | Some (_, ver) => m_ret (cloneSecretRecord (sv_record ver))
      end
  end.

Definition ListSecrets (maxResults : Z) (skipToken : string)
    : SM (list SecretRecord * option string) :=
  let* s := m_get in
  let names := sorted_keys (secrets s) in
  let* pn := m_lift (paginateNames names skipToken maxResults) in
  let '(page, next) := pn in
  let items := omap (λ name,
    match latestSecret (secrets s !! name) with
    | Some (_, latest) => Some (blank_value (cloneSecretRecord (sv_record latest)))
    | None => None
    end) page in
  m_ret (items, next).

Definition ListSecretVersions (name : string) (maxResults : Z) (skipToken : string)
    : SM (list SecretRecord * option string) :=
  let* s := m_get in
  match secrets s !! name with
  | None => secret_not_found name
  | Some entry =>
      let versions := (λ v, blank_value (cloneSecretRecord (sv_record v))) <$>
        reverse (se_versions entry) in
      m_lift (paginateNames versions skipToken maxResults)
  end.

(** The body of [UpdateSecret] on the record it found. *)
Definition update_secret_record (e : Env) (req : SecretUpdateRequest) (r : SecretRecord) : SecretRecord :=
  mkSecretRecord (sr_Name r) (sr_Version r) (sr_Value r)
    (match sur_ContentType req with Some ct => ct | None => sr_ContentType r end)
    (mergeAttributes e (sr_Attributes r) (sur_Attributes req))
    (match sur_Tags req with Some _ => cloneTags (sur_Tags req) | None => sr_Tags r end).

Definition UpdateSecret (e : Env) (name version : string) (req : SecretUpdateRequest) : SM SecretRecord :=
  let* s := m_get in
  match secrets s !! name with
  | None => secret_not_found name
  | Some entry =>
      match findSecretVersion entry version with
      | None => secret_not_found name
      | Some (i, ver) =>
          let record := update_secret_record e req (sv_record ver) in
          let entry := mkSecretEntry (<[i := mkSecretVersion record]> (se_versions entry)) in
          let* _ := m_modify (set_secrets <[name := entry]>) in
          m_ret (cloneSecretRecord record)
      end
  end.

Definition DeleteSecret (e : Env) (name : string) : SM DeletedSecretRecord :=
  let* s := m_get in
  match secrets s !! name with
  | None => secret_not_found name
  | Some entry =>
      if decide (is_Some (deletedSecrets s !! name)) then secret_not_found name else
      let* _ := m_modify (set_secrets (delete name)) in
      let now := nowUnix e in
      let* recoveryID := m_lift (newRecoveryID e "secrets" name) in
      let deleted := mkDeletedSecretEntry entry recoveryID now (scheduledPurge now) in
      let* _ := m_modify (set_deletedSecrets <[name := deleted]>) in
      let* latest := m_lift (deref (latestSecret (Some entry))) in
      m_ret (mkDeletedSecretRecord (cloneSecretRecord (sv_record latest)) (dse_recoveryID deleted)
        (dse_deletedDate deleted) (dse_scheduledPurgeDate deleted))
  end.

(** What [ListDeletedSecrets] and [GetDeletedSecret] report of an entry. *)
Definition deleted_secret_record (deleted : deletedSecretEntry) : outcome error DeletedSecretRecord :=
  let! latest := deref (latestSecret (Some (dse_entry deleted))) in
  Ok (mkDeletedSecretRecord (cloneSecretRecord (sv_record latest)) (dse_recoveryID deleted)
    (dse_deletedDate deleted) (dse_scheduledPurgeDate deleted)).

Definition blank_deleted (d : DeletedSecretRecord) : DeletedSecretRecord :=
  mkDeletedSecretRecord (blank_value (dsr_SecretRecord d)) (dsr_RecoveryID d)
    (dsr_DeletedDate d) (dsr_ScheduledPurgeDate d).

Definition ListDeletedSecrets (maxResults : Z) (skipToken : string)
    : SM (list DeletedSecretRecord * option string) :=
  let* s := m_get in
  let names := sorted_keys (deletedSecrets s) in
  let* pn := m_lift (paginateNames names skipToken maxResults) in
  let '(page, next) := pn in
  let* items := m_lift (o_traverse (λ name,
    match deletedSecrets s !! name with
    | Some deleted => o_map blank_deleted (deleted_secret_record deleted)
    | None => Panic "runtime error: invalid memory address or nil pointer dereference"
    end) page) in
  m_ret (items, next).

Definition GetDeletedSecret (name : string) : SM DeletedSecretRecord :=
  let* s := m_get in
  match deletedSecrets s !! name with
  | None => deleted_secret_not_found name
  | Some deleted => m_lift (deleted_secret_record deleted)
  end.

Definition PurgeDeletedSecret (name : string) : SM unit :=
  let* s := m_get in
  if decide (is_Some (deletedSecrets s !! name))
  then m_modify (set_deletedSecrets (delete name))
  else deleted_secret_not_found name.

Definition RecoverDeletedSecret (name : string) : SM SecretRecord :=
  let* s := m_get in
  if decide (is_Some (secrets s !! name))
  then m_fail (newError StatusConflict "Conflict" ("Secret " ++ name ++ " already exists.")%string)
  else
  match deletedSecrets s !! name with
  | None => deleted_secret_not_found name
  | Some deleted =>
      let* _ := m_modify (set_secrets <[name := dse_entry deleted]>) in
      let* _ := m_modify (set_deletedSecrets (delete name)) in
      let* latest := m_lift (deref (latestSecret (Some (dse_entry deleted)))) in
      m_ret (cloneSecretRecord (sv_record latest))
  end.

(** Called by the certificate operations. *)
Definition putSecretVersion (name version value contentType : string) (attrs : Attributes) (t : tags)
    : SM SecretRecord :=
  let record := mkSecretRecord name version value contentType (cloneAttributes attrs) (cloneTags t) in
  let* _ := append_secret name (mkSecretVersion record) in
  m_ret record.
