(* ===== verification/EncryptedStore.v ===== *)
(** * Component: encryption at rest ([internal/web/encryptedstore.go])

    A wrapper around any [store.Storer] that keeps secret values encrypted
    under the vault key.  Six operations are overridden; the others are the
    wrapped store's own, by embedding.  The wrapper is proved against the
    interface [SecretStorer]; the in-memory store is an instance of it. *)

From S2P Require Import Prelude GoStrings GoCrypto GoGcm Toy Encryption Model StoreCore SecretStore.

(** ** The interface: the secret operations of [store.Storer] *)

Class SecretStorer (St : Type) : Type := {
  st_SetSecret : Env → string → SecretSetRequest → M St error SecretRecord;
  st_GetSecret : string → string → M St error SecretRecord;
  st_UpdateSecret : Env → string → string → SecretUpdateRequest → M St error SecretRecord;
  st_DeleteSecret : Env → string → M St error DeletedSecretRecord;
  st_GetDeletedSecret : string → M St error DeletedSecretRecord;
  st_RecoverDeletedSecret : string → M St error SecretRecord;
}.
(** The store with each secret value replaced: what its laws speak of. *)
Class SecretMap (St : Type) : Type := { st_map : (string → string) → St → St }.

Definition map_value (f : string → string) (r : SecretRecord) : SecretRecord :=
  mkSecretRecord (sr_Name r) (sr_Version r) (f (sr_Value r)) (sr_ContentType r) (sr_Attributes r) (sr_Tags r).
Definition map_deleted (f : string → string) (d : DeletedSecretRecord) : DeletedSecretRecord :=
  mkDeletedSecretRecord (map_value f (dsr_SecretRecord d)) (dsr_RecoveryID d) (dsr_DeletedDate d)
    (dsr_ScheduledPurgeDate d).
Definition with_Value (v : string) (req : SecretSetRequest) : SecretSetRequest :=
  {| ssr_Value := v; ssr_ContentType := ssr_ContentType req; ssr_Attributes := ssr_Attributes req;
     ssr_Tags := ssr_Tags req |}.

(** The results and states of two runs that differ in the values of secrets. *)
Definition both {St A} (g : A → A) (h : St → St) (x : outcome error A * St) : outcome error A * St :=
  (o_map g x.1, h x.2).

(** A store does not look at the values it is given, but to refuse "". *)
Class SecretStorerLaws (St : Type) (T : SecretStorer St) (W : SecretMap St) : Prop := {
  map_SetSecret : ∀ f e n req v s,
    (v = "" ↔ f v = "")%string →
    st_SetSecret e n (with_Value (f v) req) (st_map f s) =
      both (map_value f) (st_map f) (st_SetSecret e n (with_Value v req) s);
  map_GetSecret : ∀ f n v s,
    st_GetSecret n v (st_map f s) = both (map_value f) (st_map f) (st_GetSecret n v s);
  map_UpdateSecret : ∀ f e n v req s,
    st_UpdateSecret e n v req (st_map f s) = both (map_value f) (st_map f) (st_UpdateSecret e n v req s);
  map_DeleteSecret : ∀ f e n s,
    st_DeleteSecret e n (st_map f s) = both (map_deleted f) (st_map f) (st_DeleteSecret e n s);
  map_GetDeletedSecret : ∀ f n s,
    st_GetDeletedSecret n (st_map f s) = both (map_deleted f) (st_map f) (st_GetDeletedSecret n s);
  map_RecoverDeletedSecret : ∀ f n s,
    st_RecoverDeletedSecret n (st_map f s) = both (map_value f) (st_map f) (st_RecoverDeletedSecret n s);
}.

(** ** The in-memory store is one *)

Definition map_version (f : string → string) (v : secretVersion) : secretVersion :=
  mkSecretVersion (map_value f (sv_record v)).
Definition map_entry (f : string → string) (en : secretEntry) : secretEntry :=
  mkSecretEntry (map (map_version f) (se_versions en)).
Definition map_deleted_entry (f : string → string) (d : deletedSecretEntry) : deletedSecretEntry :=
  mkDeletedSecretEntry (map_entry f (dse_entry d)) (dse_recoveryID d) (dse_deletedDate d) (dse_scheduledPurgeDate d).
Definition map_store (f : string → string) (s : Store) : Store :=
  mkStore (map_entry f <$> secrets s) (map_deleted_entry f <$> deletedSecrets s)
    (keys s) (deletedKeys s) (certificates s) (deletedCertificates s).

#[export] Instance Store_SecretStorer : SecretStorer Store := {|
  st_SetSecret := SetSecret; st_GetSecret := GetSecret; st_UpdateSecret := UpdateSecret;
  st_DeleteSecret := DeleteSecret; st_GetDeletedSecret := GetDeletedSecret;
  st_RecoverDeletedSecret := RecoverDeletedSecret;
|}.
#[export] Instance Store_SecretMap : SecretMap Store := {| st_map := map_store |}.

Section map_store.
Context (f : string → string).

Lemma last_ptr_map {A B} (g : A → B) (l : list A) :
  last_ptr (map g l) = (λ p, (p.1, g p.2)) <$> last_ptr l.
Proof. unfold last_ptr. rewrite fmap_last, length_fmap. by destruct (last l). Qed.

Lemma findSecretVersion_map en v :
  findSecretVersion (map_entry f en) v = (λ p, (p.1, map_version f p.2)) <$> findSecretVersion en v.
Proof.
  unfold findSecretVersion. destruct (decide (v = "")%string).
  - unfold latestSecret. apply last_ptr_map.
  - destruct en as [vs]. cbn [se_versions map_entry].
    induction vs as [|w vs IH]; [done|]. cbn. destruct (decide (sr_Version _ = v)); [done|].
    rewrite IH. by destruct (list_find _ vs) as [[]|].
Qed.

Lemma cloneSecretRecord_map r : cloneSecretRecord (map_value f r) = map_value f (cloneSecretRecord r).
Proof. done. Qed.

Lemma map_store_secrets s n : secrets (map_store f s) !! n = map_entry f <$> secrets s !! n.
Proof. apply lookup_fmap. Qed.
Lemma map_store_deleted s n : deletedSecrets (map_store f s) !! n = map_deleted_entry f <$> deletedSecrets s !! n.
Proof. apply lookup_fmap. Qed.

Lemma deref_latest_map en :
  deref (last_ptr (se_versions (map_entry f en))) = o_map (map_version f) (deref (last_ptr (se_versions en))).
Proof. cbn [map_entry se_versions]. rewrite last_ptr_map. by destruct (last_ptr _) as [[]|]. Qed.

Lemma set_secrets_map n en s :
  set_secrets <[n := map_entry f en]> (map_store f s) = map_store f (set_secrets <[n := en]> s).
Proof. unfold set_secrets, map_store. cbn. by rewrite fmap_insert. Qed.
Lemma set_secrets_delete_map n s :
  set_secrets (delete n) (map_store f s) = map_store f (set_secrets (delete n) s).
Proof. unfold set_secrets, map_store. cbn. by rewrite fmap_delete. Qed.
Lemma set_deletedSecrets_map n d s :
  set_deletedSecrets <[n := map_deleted_entry f d]> (map_store f s) = map_store f (set_deletedSecrets <[n := d]> s).
Proof. unfold set_deletedSecrets, map_store. cbn. by rewrite fmap_insert. Qed.
Lemma set_deletedSecrets_delete_map n s :
  set_deletedSecrets (delete n) (map_store f s) = map_store f (set_deletedSecrets (delete n) s).
Proof. unfold set_deletedSecrets, map_store. cbn. by rewrite fmap_delete. Qed.
End map_store.

#[export] Instance Store_SecretStorer_laws : SecretStorerLaws Store Store_SecretStorer Store_SecretMap.
Proof.
  split; cbn -[map_store]; intros f.
  - intros e n req v s Hv. unfold SetSecret, append_secret, both, m_lift. go_unfold. cbn [ssr_Value with_Value ssr_ContentType ssr_Attributes ssr_Tags].
    destruct (decide (n = "")%string); [done|].
    destruct (decide (v = "")%string) as [E|E], (decide (f v = "")%string) as [E'|E']; [done|naive_solver..|].
    rewrite map_store_deleted. destruct (deletedSecrets s !! n) eqn:Hd.
    { rewrite !decide_True by eauto. done. }
    rewrite !decide_False by (by intros [? [=]]).
    destruct (newVersion e) as [version| |]; [|done..].
    rewrite map_store_secrets. cbn -[map_store]. f_equal.
    set (en := default (mkSecretEntry []) (secrets s !! n)).
    assert (default (mkSecretEntry []) (map_entry f <$> secrets s !! n) = map_entry f en) as ->
      by (subst en; by destruct (secrets s !! n)).
    rewrite <-set_secrets_map. unfold map_entry. cbn. by rewrite map_app.
  - intros n v s. unfold GetSecret, both. go_unfold. rewrite map_store_secrets.
    destruct (secrets s !! n) as [en|]; [|done]. cbn -[map_store]. rewrite findSecretVersion_map.
    by destruct (findSecretVersion en v) as [[i ver]|].
  - intros e n v req s. unfold UpdateSecret, both. go_unfold. rewrite map_store_secrets.
    destruct (secrets s !! n) as [en|]; [|done]. cbn -[map_store set_secrets]. rewrite findSecretVersion_map.
    destruct (findSecretVersion en v) as [[i ver]|]; [|done]. cbn -[map_store set_secrets]. f_equal.
    rewrite <-set_secrets_map. unfold map_entry. cbn -[map_store set_secrets]. by rewrite list_fmap_insert.
  - intros e n s. unfold DeleteSecret, both. go_unfold. rewrite map_store_secrets, map_store_deleted.
    destruct (secrets s !! n) as [en|]; [|done]. cbn -[map_store map_entry map_deleted_entry set_secrets set_deletedSecrets newRecoveryID deref].
    destruct (deletedSecrets s !! n) as [d|]; [by rewrite !decide_True by eauto|].
    rewrite !decide_False by (by intros [? [=]]). destruct (newRecoveryID e "secrets" n) as [id| |].
    + rewrite set_secrets_delete_map, deref_latest_map. cbn -[map_store map_entry map_deleted_entry set_secrets set_deletedSecrets deref].
      destruct (deref _); cbn -[map_store map_entry set_secrets set_deletedSecrets]; by rewrite <-set_deletedSecrets_map.
    + by rewrite set_secrets_delete_map.
    + by rewrite set_secrets_delete_map.
  - intros n s. unfold GetDeletedSecret, both. go_unfold. rewrite map_store_deleted.
    destruct (deletedSecrets s !! n) as [d|]; [|done]. cbn -[map_store map_entry deref].
    unfold deleted_secret_record. cbn -[map_store map_entry deref]. rewrite deref_latest_map. by destruct (deref _).
  - intros n s. unfold RecoverDeletedSecret, both. go_unfold. rewrite map_store_secrets, map_store_deleted.
    destruct (secrets s !! n) as [en|]; [by rewrite !decide_True by eauto|].
    rewrite !decide_False by (by intros [? [=]]). destruct (deletedSecrets s !! n) as [d|]; [|done].
    cbn -[map_store map_entry map_deleted_entry set_secrets set_deletedSecrets deref].
    change (dse_entry (map_deleted_entry f d)) with (map_entry f (dse_entry d)).
    rewrite set_secrets_map, set_deletedSecrets_delete_map, deref_latest_map. by destruct (deref _).
Qed.

(** ** The wrapper

    [getKey] and [isLocked] are functions of the web handler; a record holds
    what they return during one call ([isLocked] may be a nil function).  No
    operation reads either twice. *)

Record encryptedStore : Type := newEncryptedStore {
  getKey : option bytes;
  isLocked : option bool;
}.

(** The environment after the first [n] reads of the random source. *)
Definition skip_rand (n : nat) (e : Env) : Env := {|
  clock := clock e; clock_nanos := clock_nanos e;
  rand_ok i := rand_ok e (n + i); rand_byte i := rand_byte e (n + i); rand_err := rand_err e;
|}.

Section wrapper.
Context `{C : BlockCipher} {St : Type} `{T : SecretStorer St}.
Implicit Types es : encryptedStore.

(** The value [decryptRecord] shows for a stored one. *)
Definition reveal (key : option bytes) (v : string) : string :=
  match key with
  | None => v
  | Some key =>
      if decide (v = ""%string) then v else
      match DecryptString key v with Ok decrypted => decrypted | _ => v end
  end.
Definition decryptRecord es (record : SecretRecord) : SecretRecord := map_value (reveal (getKey es)) record.
Definition decryptDeleted es (record : DeletedSecretRecord) : DeletedSecretRecord :=
  mkDeletedSecretRecord (decryptRecord es (dsr_SecretRecord record)) (dsr_RecoveryID record)
    (dsr_DeletedDate record) (dsr_ScheduledPurgeDate record).

Definition es_SetSecret es (e : Env) (name : string) (req : SecretSetRequest) : M St error SecretRecord :=
  match getKey es with
  | None =>
      if decide (isLocked es = Some true)
      then m_fail (OtherError (Text "vault is locked: unlock before writing secrets"))
      else st_SetSecret e name req
  | Some key =>
      if decide (ssr_Value req = ""%string) then st_SetSecret e name req else
      let* encrypted := m_lift (o_maperr OtherError (EncryptString e 0 key (ssr_Value req))) in
      st_SetSecret (skip_rand 1 e) name (with_Value encrypted req)
  end.

Definition es_GetSecret es (name version : string) : M St error SecretRecord :=
  let* record := st_GetSecret name version in m_ret (decryptRecord es record).
Definition es_GetDeletedSecret es (name : string) : M St error DeletedSecretRecord :=
  let* record := st_GetDeletedSecret name in m_ret (decryptDeleted es record).
Definition es_RecoverDeletedSecret es (name : string) : M St error SecretRecord :=
  let* record := st_RecoverDeletedSecret name in m_ret (decryptRecord es record).
Definition es_UpdateSecret es (e : Env) (name version : string) (req : SecretUpdateRequest) : M St error SecretRecord :=
  let* record := st_UpdateSecret e name version req in m_ret (decryptRecord es record).
Definition es_DeleteSecret es (e : Env) (name : string) : M St error DeletedSecretRecord :=
  let* record := st_DeleteSecret e name in m_ret (decryptDeleted es record).

Context `{!BlockCipherLaws C} {W : SecretMap St} `{!SecretStorerLaws St T W}.

Lemma reveal_encrypted key e i v c : EncryptString e i key v = Ok c → reveal (Some key) c = v.
Proof.
  intros Hc. unfold reveal. rewrite decide_False by by eapply EncryptString_nonempty.
  by rewrite (DecryptString_EncryptString _ _ _ _ _ Hc).
Qed.

Lemma with_Value_id req : with_Value (ssr_Value req) req = req.
Proof. by destruct req. Qed.

Lemma both_bind {A} (g : A → A) (h : St → St) (m : M St error A) s :
  both id h ((let* r := m in m_ret (g r)) s) = both g h (m s).
Proof. go_unfold. unfold both. by destruct (m s) as [[]]. Qed.

(** The six operations of the wrapper over any store that obeys the laws.
    Take the vault as a client sees it, each stored value read through the
    current key: an operation of the wrapper answers what the wrapped store's
    own operation answers on that view, and leaves the state whose view is the
    one the plain operation leaves.  For [SetSecret] this needs the encryption
    to succeed, and its answer is the stored record, not yet decrypted. *)
Theorem overridden_transparent es :
  let view := st_map (reveal (getKey es)) in
  (∀ e name req s key c, getKey es = Some key → EncryptString e 0 key (ssr_Value req) = Ok c →
    ssr_Value req ≠ ""%string →
    st_SetSecret (skip_rand 1 e) name req (view s) = both (decryptRecord es) view (es_SetSecret es e name req s)) ∧
  (∀ name version s, st_GetSecret name version (view s) = both id view (es_GetSecret es name version s)) ∧
  (∀ e name version req s,
    st_UpdateSecret e name version req (view s) = both id view (es_UpdateSecret es e name version req s)) ∧
  (∀ e name s, st_DeleteSecret e name (view s) = both id view (es_DeleteSecret es e name s)) ∧
  (∀ name s, st_GetDeletedSecret name (view s) = both id view (es_GetDeletedSecret es name s)) ∧
  (∀ name s, st_RecoverDeletedSecret name (view s) = both id view (es_RecoverDeletedSecret es name s)).
Proof.
  intros view. split_and!; intros.
  - unfold es_SetSecret, decryptRecord, view. rewrite H, decide_False by done. unfold m_lift, m_bind. rewrite H0. cbn [o_maperr].
    rewrite <-(with_Value_id req) at 1. rewrite <-(reveal_encrypted _ _ _ _ _ H0). apply map_SetSecret.
    rewrite (reveal_encrypted _ _ _ _ _ H0). apply EncryptString_nonempty in H0. naive_solver.
  - unfold es_GetSecret. rewrite both_bind. apply map_GetSecret.
  - unfold es_UpdateSecret. rewrite both_bind. apply map_UpdateSecret.
  - unfold es_DeleteSecret. rewrite both_bind. apply map_DeleteSecret.
  - unfold es_GetDeletedSecret. rewrite both_bind. apply map_GetDeletedSecret.
  - unfold es_RecoverDeletedSecret. rewrite both_bind. apply map_RecoverDeletedSecret.
Qed.
End wrapper.

