(* ===== verification/SecretBackup.v ===== *)
(** * Backup and restore ([internal/store/secrets.go])

    The JSON form of [model.Attributes], [SecretRecord] and [secretBackup],
    and the operations [BackupSecret] and [RestoreSecret]. *)

From S2P Require Import Prelude GoStrings GoBase64 GoUtf8 GoJson JsonFacts Model StoreCore SecretStore.

Record secretBackup : Type := mkSecretBackup {
  bk_Name : string;
  bk_Versions : nat * list SecretRecord;   (** length and backing array *)
}.

Definition zero_attributes : Attributes := mkAttributes None None None 0 0 "" 0.
Definition zero_secret : SecretRecord := mkSecretRecord "" "" "" "" zero_attributes None.
Definition zero_backup : secretBackup := mkSecretBackup "" (0%nat, []).

(** ** Marshal *)

Definition json_of_attributes (a : Attributes) : json :=
  JObj (
    match Enabled a with Some b => [("enabled", JBool b)] | None => [] end ++
    match NotBefore a with Some z => [("nbf", enc_int z)] | None => [] end ++
    match Expires a with Some z => [("exp", enc_int z)] | None => [] end ++
    omitempty (bool_decide (Created a = 0)) "created" (enc_int (Created a)) ++
    omitempty (bool_decide (Updated a = 0)) "updated" (enc_int (Updated a)) ++
    omitempty (bool_decide (RecoveryLevel a = ""%string)) "recoveryLevel" (JStr (RecoveryLevel a)) ++
    omitempty (bool_decide (RecoverableDays a = 0)) "recoverableDays" (enc_int (RecoverableDays a))).

Definition json_of_secret (r : SecretRecord) : json :=
  JObj [("Name", JStr (sr_Name r)); ("Version", JStr (sr_Version r)); ("Value", JStr (sr_Value r));
        ("ContentType", JStr (sr_ContentType r)); ("Attributes", json_of_attributes (sr_Attributes r));
        ("Tags", enc_string_map (sr_Tags r))].

Definition json_of_backup (name : string) (versions : list SecretRecord) : json :=
  JObj [("name", JStr name); ("versions", JArr (map json_of_secret versions))].

(** ** Unmarshal *)

Definition attributes_fields : fields Attributes := [
  ("enabled", λ a j, (λ v, mkAttributes v (NotBefore a) (Expires a) (Created a) (Updated a) (RecoveryLevel a) (RecoverableDays a))
     <$> dec_ptr false dec_bool (Enabled a) j);
  ("nbf", λ a j, (λ v, mkAttributes (Enabled a) v (Expires a) (Created a) (Updated a) (RecoveryLevel a) (RecoverableDays a))
     <$> dec_ptr 0 dec_int64 (NotBefore a) j);
  ("exp", λ a j, (λ v, mkAttributes (Enabled a) (NotBefore a) v (Created a) (Updated a) (RecoveryLevel a) (RecoverableDays a))
     <$> dec_ptr 0 dec_int64 (Expires a) j);
  ("created", λ a j, (λ v, mkAttributes (Enabled a) (NotBefore a) (Expires a) v (Updated a) (RecoveryLevel a) (RecoverableDays a))
     <$> dec_int64 (Created a) j);
  ("updated", λ a j, (λ v, mkAttributes (Enabled a) (NotBefore a) (Expires a) (Created a) v (RecoveryLevel a) (RecoverableDays a))
     <$> dec_int64 (Updated a) j);
  ("recoveryLevel", λ a j, (λ v, mkAttributes (Enabled a) (NotBefore a) (Expires a) (Created a) (Updated a) v (RecoverableDays a))
     <$> dec_string (RecoveryLevel a) j);
  ("recoverableDays", λ a j, (λ v, mkAttributes (Enabled a) (NotBefore a) (Expires a) (Created a) (Updated a) (RecoveryLevel a) v)
     <$> dec_int64 (RecoverableDays a) j)].
Definition dec_attributes : decoder Attributes := dec_struct attributes_fields.

Definition secret_fields : fields SecretRecord := [
  ("Name", λ r j, (λ v, mkSecretRecord v (sr_Version r) (sr_Value r) (sr_ContentType r) (sr_Attributes r) (sr_Tags r))
     <$> dec_string (sr_Name r) j);
  ("Version", λ r j, (λ v, mkSecretRecord (sr_Name r) v (sr_Value r) (sr_ContentType r) (sr_Attributes r) (sr_Tags r))
     <$> dec_string (sr_Version r) j);
  ("Value", λ r j, (λ v, mkSecretRecord (sr_Name r) (sr_Version r) v (sr_ContentType r) (sr_Attributes r) (sr_Tags r))
     <$> dec_string (sr_Value r) j);
  ("ContentType", λ r j, (λ v, mkSecretRecord (sr_Name r) (sr_Version r) (sr_Value r) v (sr_Attributes r) (sr_Tags r))
     <$> dec_string (sr_ContentType r) j);
  ("Attributes", λ r j, (λ v, mkSecretRecord (sr_Name r) (sr_Version r) (sr_Value r) (sr_ContentType r) v (sr_Tags r))
     <$> dec_attributes (sr_Attributes r) j);
  ("Tags", λ r j, (λ v, mkSecretRecord (sr_Name r) (sr_Version r) (sr_Value r) (sr_ContentType r) (sr_Attributes r) v)
     <$> dec_string_map (sr_Tags r) j)].
Definition dec_secret : decoder SecretRecord := dec_struct secret_fields.

Definition backup_fields : fields secretBackup := [
  ("name", λ b j, (λ v, mkSecretBackup v (bk_Versions b)) <$> dec_string (bk_Name b) j);
  ("versions", λ b j, (λ v, mkSecretBackup (bk_Name b) v)
     <$> dec_slice zero_secret dec_secret (bk_Versions b) j)].

(** [json.Unmarshal(data, &payload)]. *)
Definition unmarshal_backup (data : bytes) : option secretBackup :=
  j ← json_parse data; dec_struct backup_fields zero_backup j.

(** ** The operations *)

Definition BackupSecret (name : string) : SM string :=
  let* s := m_get in
  match secrets s !! name with
  | None => secret_not_found name
  | Some entry =>
      let versions := (λ v, cloneSecretRecord (sv_record v)) <$> se_versions entry in
      let data := json_print (json_of_backup name versions) in
      m_ret (b64_EncodeToString StdEncoding data)
  end.

Definition invalid_backup : error :=
  newError StatusBadRequest "BadParameter" "The provided backup blob is invalid.".

(** The body of the loop of [RestoreSecret]. *)
Definition restored_version (name : string) (version : SecretRecord) : secretVersion :=
  let a := sr_Attributes version in
  mkSecretVersion (cloneSecretRecord
    (mkSecretRecord name (sr_Version version) (sr_Value version) (sr_ContentType version)
      (mkAttributes (Enabled a) (NotBefore a) (Expires a) (Created a) (Updated a) recoveryLevel recoverableDays)
      (sr_Tags version))).

Definition RestoreSecret (token : string) : SM SecretRecord :=
  match b64_DecodeString StdEncoding token with
  | Ok data =>
      match unmarshal_backup data with
      | Some payload =>
          let '(len, backing) := bk_Versions payload in
          if decide (bk_Name payload = ""%string ∨ len = 0%nat) then m_fail invalid_backup else
          let entry := mkSecretEntry (restored_version (bk_Name payload) <$> take len backing) in
          let* _ := m_modify (set_secrets <[bk_Name payload := entry]>) in
          let* _ := m_modify (set_deletedSecrets (delete (bk_Name payload))) in
          let* latest := m_lift (deref (latestSecret (Some entry))) in
          m_ret (cloneSecretRecord (sv_record latest))
      | None => m_fail invalid_backup
      end
  | _ => m_fail invalid_backup
  end.

(** ** Decoding inverts encoding *)

(** The values a record can hold: integers of 64 bits, UTF-8 strings. *)
Definition attributes_int64 (a : Attributes) : Prop :=
  (∀ z, NotBefore a = Some z → in_int64 z) ∧ (∀ z, Expires a = Some z → in_int64 z) ∧
  in_int64 (Created a) ∧ in_int64 (Updated a) ∧ in_int64 (RecoverableDays a).
Definition attributes_ok (a : Attributes) : Prop :=
  attributes_int64 a ∧ utf8_valid (RecoveryLevel a) = true.

Definition tags_ok (t : tags) : Prop :=
  match t with
  | None => True
  | Some t => map_Forall (λ k v, utf8_valid k = true ∧ utf8_valid v = true) t
  end.

Definition secret_ok (r : SecretRecord) : Prop :=
  utf8_valid (sr_Version r) = true ∧ utf8_valid (sr_Value r) = true ∧
  utf8_valid (sr_ContentType r) = true ∧ attributes_ok (sr_Attributes r) ∧ tags_ok (sr_Tags r).

(** Any string is decoded as UTF-8. *)
Lemma dec_attributes_coerce a :
  attributes_int64 a → dec_attributes zero_attributes (json_coerce (json_of_attributes a)) =
    Some (mkAttributes (Enabled a) (NotBefore a) (Expires a) (Created a) (Updated a) (utf8_coerce (RecoveryLevel a))
      (RecoverableDays a)).
Proof.
  intros (Hn & He & Hc & Hu & Hd). destruct a as [en nb ex cr up lv dy]; cbn [Enabled NotBefore
    Expires Created Updated RecoveryLevel RecoverableDays] in *.
  unfold dec_attributes, json_of_attributes. rewrite dec_struct_obj, !map_app, !foldl_app.
  cbn [Enabled NotBefore Expires Created Updated RecoveryLevel RecoverableDays].
  unfold zero_attributes.
  erewrite (step_optional _ _ en "enabled" _ _ (mkAttributes en None None 0 0 "" 0));
    [|reflexivity|reflexivity|by intros ->|by intros x ->].
  erewrite (step_optional _ _ nb "nbf" _ _ (mkAttributes en nb None 0 0 "" 0));
    [|reflexivity|reflexivity|by intros ->|].
  2:{ intros x ->. specialize (Hn x eq_refl). dec_int. }
  erewrite (step_optional _ _ ex "exp" _ _ (mkAttributes en nb ex 0 0 "" 0));
    [|reflexivity|reflexivity|by intros ->|].
  2:{ intros x ->. specialize (He x eq_refl). dec_int. }
  erewrite (step_omitempty _ _ _ "created" _ _ (mkAttributes en nb ex cr 0 "" 0));
    [|reflexivity|reflexivity|by intros ->%bool_decide_eq_true|intros _; dec_int].
  erewrite (step_omitempty _ _ _ "updated" _ _ (mkAttributes en nb ex cr up "" 0));
    [|reflexivity|reflexivity|by intros ->%bool_decide_eq_true|intros _; dec_int].
  erewrite (step_omitempty _ _ _ "recoveryLevel" _ _ (mkAttributes en nb ex cr up (utf8_coerce lv) 0));
    [|reflexivity|reflexivity|by intros ->%bool_decide_eq_true|done].
  erewrite (step_omitempty _ _ _ "recoverableDays" _ _ (mkAttributes en nb ex cr up (utf8_coerce lv) dy));
    [done|reflexivity|reflexivity|by intros ->%bool_decide_eq_true|intros _; dec_int].
Qed.

Lemma dec_attributes_enc a :
  attributes_ok a → dec_attributes zero_attributes (json_coerce (json_of_attributes a)) = Some a.
Proof.
  intros [Ha Hl]. rewrite dec_attributes_coerce, utf8_coerce_valid by done. by destruct a.
Qed.

(** Decoded attributes hold 64-bit integers. *)
Lemma dec_int64_range cur j z : in_int64 cur → dec_int64 cur j = Some z → in_int64 z.
Proof. destruct j; simpl; try done; [by intros ? [= <-]|]. intros _. apply Atoi_range. Qed.

Lemma dec_attributes_int64 cur j a : attributes_int64 cur → dec_attributes cur j = Some a → attributes_int64 a.
Proof.
  assert (∀ p j v, (∀ z, p = Some z → in_int64 z) → dec_ptr 0 dec_int64 p j = Some v → ∀ z, v = Some z → in_int64 z) as Hptr.
  { intros p j' v Hp. destruct j'; simpl; try done; [by intros [= <-]|].
    intros (x & Hx%Atoi_range & ->)%fmap_Some z [= <-]. done. }
  apply (dec_struct_inv attributes_int64). intros name d Hd cur' j' v (Hn & He & Hc & Hu & Hr).
  apply list_elem_of_In in Hd. cbn in Hd.
  destruct_or! Hd; try done; injection Hd as <- <-; intros (x & Hx & ->)%fmap_Some; split_and!; cbn; try done;
    first [eapply Hptr; [|exact Hx]; done|eapply dec_int64_range; [|exact Hx]; done].
Qed.

Lemma dec_string_map_enc t :
  tags_ok t → dec_string_map None (json_coerce (enc_string_map t)) = Some t.
Proof. intros Ht. by rewrite dec_string_map_coerce, text_string_map_id. Qed.

(** A record as it is read back: every string of it as UTF-8. *)
Definition text_attributes (a : Attributes) : Attributes :=
  mkAttributes (Enabled a) (NotBefore a) (Expires a) (Created a) (Updated a) (utf8_coerce (RecoveryLevel a))
    (RecoverableDays a).
Definition text_record (r : SecretRecord) : SecretRecord :=
  mkSecretRecord (utf8_coerce (sr_Name r)) (utf8_coerce (sr_Version r)) (utf8_coerce (sr_Value r))
    (utf8_coerce (sr_ContentType r)) (text_attributes (sr_Attributes r)) (text_string_map (sr_Tags r)).

Lemma text_record_id r : secret_ok r → utf8_valid (sr_Name r) = true → text_record r = r.
Proof.
  intros (Hv & Hva & Hc & [_ Ha] & Ht) Hn. unfold text_record, text_attributes.
  rewrite text_string_map_id, !utf8_coerce_valid by done. by destruct r as [? ? ? ? []].
Qed.

Lemma dec_secret_coerce r :
  attributes_int64 (sr_Attributes r) → dec_secret zero_secret (json_coerce (json_of_secret r)) = Some (text_record r).
Proof.
  intros Ha. unfold dec_secret, json_of_secret.
  rewrite dec_struct_obj. cbn [map]. unfold coerce_member. cbn [fst snd].
  pose proof (dec_attributes_coerce _ Ha) as Hatt. pose proof (dec_string_map_coerce (sr_Tags r)) as Htags.
  revert Hatt Htags. generalize (json_coerce (json_of_attributes (sr_Attributes r))).
  generalize (json_coerce (enc_string_map (sr_Tags r))). intros jt ja Hatt Htags.
  cbn [json_coerce]. rewrite !(utf8_coerce_valid "Name"), !(utf8_coerce_valid "Version"), !(utf8_coerce_valid "Value"),
    !(utf8_coerce_valid "ContentType"), !(utf8_coerce_valid "Attributes"), !(utf8_coerce_valid "Tags") by reflexivity.
  unfold text_record. generalize (utf8_coerce (sr_Name r)) (utf8_coerce (sr_Version r)) (utf8_coerce (sr_Value r))
    (utf8_coerce (sr_ContentType r)). intros n ve va ct.
  unfold text_attributes. revert Hatt. generalize (utf8_coerce (RecoveryLevel (sr_Attributes r))). intros lv Hatt.
  unfold struct_step. simpl. rewrite Hatt. simpl. by rewrite Htags.
Qed.
Lemma dec_secret_enc r :
  secret_ok r → utf8_valid (sr_Name r) = true →
  dec_secret zero_secret (json_coerce (json_of_secret r)) = Some r.
Proof. intros Hr Hn. rewrite dec_secret_coerce by apply Hr. by rewrite text_record_id. Qed.

Lemma dec_elems_coerce rs :
  Forall (λ r, attributes_int64 (sr_Attributes r)) rs →
  dec_elems zero_secret dec_secret [] (map json_coerce (map json_of_secret rs)) = Some (text_record <$> rs).
Proof.
  induction 1 as [|r rs Hr _ IH]; [done|].
  cbn [map dec_elems hd tail]. rewrite dec_secret_coerce by done. cbn [mbind option_bind].
  by rewrite IH.
Qed.

Lemma json_of_attributes_shape a :
  json_integral (json_of_attributes a) ∧ json_height (json_of_attributes a) = 1.
Proof.
  destruct a as [[] [] [] cr up lv dy]; unfold json_of_attributes, omitempty;
    cbn [Enabled NotBefore Expires Created Updated RecoveryLevel RecoverableDays];
    repeat case_bool_decide; simpl; repeat split; try done; by eexists.
Qed.

Lemma json_of_secret_shape r :
  json_integral (json_of_secret r) ∧ 0 ≤ json_height (json_of_secret r) ≤ 2.
Proof.
  destruct (json_of_attributes_shape (sr_Attributes r)) as [Ha Hha].
  destruct (enc_string_map_shape (sr_Tags r)) as [Ht Hht].
  unfold json_of_secret. revert Ha Hha Ht Hht.
  generalize (json_of_attributes (sr_Attributes r)) (enc_string_map (sr_Tags r)).
  intros ja jt Ha Hha Ht Hht. cbn [json_integral json_height foldr snd].
  repeat split; try done; lia.
Qed.

Lemma json_of_backup_shape name rs :
  json_integral (json_of_backup name rs) ∧ json_height (json_of_backup name rs) ≤ maxNestingDepth.
Proof.
  assert (foldr (λ j P, json_integral j ∧ P) True (map json_of_secret rs) ∧
    0 ≤ foldr (λ j h, Z.max (json_height j) h) 0 (map json_of_secret rs) ≤ 2) as [Hi Hh].
  { induction rs as [|r rs IH]; [done|]. pose proof (json_of_secret_shape r).
    cbn [map foldr]. split; [tauto|lia]. }
  unfold json_of_backup, maxNestingDepth. cbn [json_integral json_height foldr snd]. repeat split; [done|lia].
Qed.

Lemma unmarshal_backup_backing data payload :
  unmarshal_backup data = Some payload → slice_ok (bk_Versions payload).
Proof.
  unfold unmarshal_backup. intros (j & _ & H)%bind_Some. revert H.
  apply (dec_struct_inv (λ b, slice_ok (bk_Versions b))); [|apply le_n].
  intros name d Hd cur j' v Hcur. apply list_elem_of_In in Hd. cbn in Hd.
  destruct Hd as [[= <- <-]|[[= <- <-]|[]]]; intros (x & Hx & ->)%fmap_Some; [done|].
  by eapply dec_slice_ok.
Qed.

Lemma unmarshal_backup_coerce name rs :
  rs ≠ [] → Forall (λ r, attributes_int64 (sr_Attributes r)) rs →
  unmarshal_backup (json_print (json_of_backup name rs)) =
    Some (mkSecretBackup (utf8_coerce name) (length rs, text_record <$> rs)).
Proof.
  intros Hne Hrs. unfold unmarshal_backup.
  destruct (json_of_backup_shape name rs). rewrite json_parse_print by done.
  cbn [mbind option_bind]. unfold json_of_backup. rewrite dec_struct_obj.
  assert (text_record <$> rs ≠ []) as Hne' by (by intros ?%fmap_nil_inv).
  pose proof (dec_slice_fresh _ _ _ _ Hne' (dec_elems_coerce rs Hrs)) as Hsl. rewrite length_fmap in Hsl.
  unfold coerce_member. cbn [map fst snd json_coerce]. generalize (utf8_coerce name). intros n.
  revert Hsl. generalize (map json_coerce (map json_of_secret rs)). intros js Hsl.
  cbn [foldl].
  change (struct_step backup_fields (Some zero_backup) (utf8_coerce "name", JStr n))
    with (Some (mkSecretBackup n (0%nat, []))).
  change (struct_step backup_fields (Some (mkSecretBackup n (0%nat, []))) (utf8_coerce "versions", JArr js))
    with (mkSecretBackup n <$> dec_slice zero_secret dec_secret (0%nat, []) (JArr js)).
  by rewrite Hsl.
Qed.
Lemma unmarshal_backup_print name rs :
  utf8_valid name = true → rs ≠ [] →
  Forall (λ r, secret_ok r ∧ utf8_valid (sr_Name r) = true) rs →
  unmarshal_backup (json_print (json_of_backup name rs)) =
    Some (mkSecretBackup name (length rs, rs)).
Proof.
  intros Hn Hne Hrs. rewrite unmarshal_backup_coerce, utf8_coerce_valid; [|done..|].
  - do 3 f_equal. rewrite <-(list_fmap_id rs) at 2. apply list_fmap_ext. intros i r Hr.
    rewrite Forall_lookup in Hrs. destruct (Hrs _ _ Hr). by apply text_record_id.
  - eapply Forall_impl; [exact Hrs|]. intros r [Hr _]. apply Hr.
Qed.

(** An entry as the operations make them: it has versions, of its own name,
    which is not empty, with the recovery fields and times of 64 bits. *)
Definition entry_ok (name : string) (entry : secretEntry) : Prop :=
  name ≠ ""%string ∧ se_versions entry ≠ [] ∧
  Forall (λ v, sr_Name (sv_record v) = name ∧ attributes_int64 (sr_Attributes (sv_record v)) ∧
    RecoveryLevel (sr_Attributes (sv_record v)) = recoveryLevel ∧
    RecoverableDays (sr_Attributes (sv_record v)) = recoverableDays) (se_versions entry).
(** All its strings are UTF-8. *)
Definition entry_text (name : string) (entry : secretEntry) : Prop :=
  utf8_valid name = true ∧ Forall (λ v, secret_ok (sv_record v)) (se_versions entry).

Definition text_entry (entry : secretEntry) : secretEntry :=
  mkSecretEntry ((λ v, mkSecretVersion (text_record (sv_record v))) <$> se_versions entry).

Lemma text_entry_id name entry : entry_ok name entry → entry_text name entry → text_entry entry = entry.
Proof.
  intros (_ & _ & Hall) [Hn Htext]. destruct entry as [vs]. unfold text_entry. cbn in *. f_equal.
  rewrite <-(list_fmap_id vs) at 2. apply list_fmap_ext. intros i v Hv. rewrite Forall_lookup in Hall, Htext.
  destruct (Hall _ _ Hv) as (Hname & _). rewrite text_record_id; [by destruct v|by eapply Htext|by rewrite Hname].
Qed.

Lemma utf8_coerce_nonempty s : s ≠ ""%string → utf8_coerce s ≠ ""%string.
Proof.
  unfold utf8_coerce. destruct s as [|c s]; [done|]. intros _ H%(f_equal to_bytes). rewrite to_of_bytes in H. revert H.
  cbn [String.length to_bytes list_ascii_of_string utf8_coerce_go].
  destruct (rune_len _) as [n|] eqn:Hn; [|done]. apply rune_len_pos in Hn. destruct n; [lia|done].
Qed.

Lemma cloneSecretRecord_id r : cloneSecretRecord r = r.
Proof. destruct r. unfold cloneSecretRecord. cbn. by rewrite cloneAttributes_id, cloneTags_id. Qed.

Lemma restored_text_version name v :
  sr_Name (sv_record v) = name →
  RecoveryLevel (sr_Attributes (sv_record v)) = recoveryLevel →
  RecoverableDays (sr_Attributes (sv_record v)) = recoverableDays →
  restored_version (utf8_coerce name) (text_record (sv_record v)) = mkSecretVersion (text_record (sv_record v)).
Proof.
  destruct v as [[n ve va ct [en nb ex cr up lv dy] tg]]. cbn. intros <- -> ->.
  unfold restored_version. by rewrite cloneSecretRecord_id.
Qed.

(** Restoring what [BackupSecret] returns. *)
Lemma backup_restores name s s' entry :
  secrets s !! name = Some entry → entry_ok name entry →
  ∃ token latest, BackupSecret name s = (Ok token, s) ∧
    last (se_versions (text_entry entry)) = Some latest ∧
    RestoreSecret token s' =
      (Ok (sv_record latest),
       set_deletedSecrets (delete (utf8_coerce name)) (set_secrets <[utf8_coerce name := text_entry entry]> s')) ∧
    (entry_text name entry → utf8_coerce name = name ∧ text_entry entry = entry).
Proof.
  intros He Hok. pose proof Hok as (Hname & Hne & Hall).
  assert (se_versions (text_entry entry) ≠ []) as Hne' by (by intros ?%fmap_nil_inv).
  destruct (last_ptr_nonempty _ Hne') as (latest & Hptr & Hlast).
  assert ((λ v, cloneSecretRecord (sv_record v)) <$> se_versions entry = sv_record <$> se_versions entry) as Hclone
    by (apply list_fmap_ext; intros ? ? _; apply cloneSecretRecord_id).
  eexists _, latest. split; [|split; [done|split]].
  - unfold BackupSecret, m_bind, m_get, m_ret. by rewrite He, Hclone.
  - unfold RestoreSecret. rewrite b64_round_trip by apply _. cbv iota beta.
    rewrite unmarshal_backup_coerce; [|by intros ?%fmap_nil_inv|].
    2:{ apply Forall_fmap. eapply Forall_impl; [exact Hall|]. intros v (_ & Hv & _). exact Hv. }
    cbn [bk_Versions bk_Name]. rewrite decide_False.
    2:{ rewrite length_fmap. intros [?|?%length_zero_iff_nil]; [by eapply utf8_coerce_nonempty|done]. }
    rewrite take_ge by (by rewrite !length_fmap).
    assert (restored_version (utf8_coerce name) <$> (text_record <$> (sv_record <$> se_versions entry)) =
      se_versions (text_entry entry)) as ->.
    { cbn [text_entry se_versions]. rewrite <-!list_fmap_compose. apply list_fmap_ext. intros i v Hv.
      rewrite Forall_lookup in Hall. destruct (Hall _ _ Hv) as (? & _ & ? & ?). by apply restored_text_version. }
    unfold m_bind, m_modify, m_lift, m_ret. cbn [latestSecret se_versions] in *.
    rewrite Hptr. cbn [deref]. by rewrite cloneSecretRecord_id.
  - intros Htext. split; [by apply utf8_coerce_valid, Htext|by eapply text_entry_id].
Qed.

(** C30: a backup can be restored, and is faithful up to what JSON makes of
    bytes that are no text.  [BackupSecret] returns a token for every live
    secret; restoring it into any store, whatever that store held under the
    name, makes an entry live again with the versions, in order, their values,
    content types, attributes and tags, drops a deleted entry of the same
    name, leaves everything else alone and returns the latest version.  When
    the name and the strings of the versions are UTF-8 it is exactly the entry
    that was backed up, under its own name; otherwise each invalid byte of
    the name and of the strings has become U+FFFD, and so the secret comes back
    under another name.  (The condition on the entry is what the store
    maintains; that the times fit 64 bits is their Go type.) *)
Theorem RestoreSecret_BackupSecret name s s' entry :
  secrets s !! name = Some entry → entry_ok name entry →
  ∃ token latest, BackupSecret name s = (Ok token, s) ∧
    last (se_versions (text_entry entry)) = Some latest ∧
    RestoreSecret token s' =
      (Ok (sv_record latest),
       set_deletedSecrets (delete (utf8_coerce name)) (set_secrets <[utf8_coerce name := text_entry entry]> s')) ∧
    (entry_text name entry → utf8_coerce name = name ∧ text_entry entry = entry).
Proof. apply backup_restores. Qed.

(** ** Witness *)

Definition demo_entry : secretEntry := mkSecretEntry [
  mkSecretVersion (mkSecretRecord "db" "v1" "hunter<2>" "text/plain"
    (mkAttributes (Some true) (Some (-5)) None 1700000000 1700000000 recoveryLevel recoverableDays)
    (Some {["env" := "prod & test"; "team" := ""]}))].
Definition demo_store : Store := set_secrets <["db" := demo_entry]> New.

Lemma demo_attributes_ok :
  attributes_ok (mkAttributes (Some true) (Some (-5)) None 1700000000 1700000000 recoveryLevel recoverableDays).
Proof.
  split; [|reflexivity]. unfold attributes_int64, in_int64, max_int64. cbn.
  split; [intros z [= <-]; lia|]. split; [done|]. split; [lia|]. split; [lia|]. unfold recoverableDays; lia.
Qed.

Lemma demo_tags_ok : tags_ok (Some {["env" := "prod & test"; "team" := ""]}).
Proof. repeat (apply map_Forall_insert_2; [split; reflexivity|]). apply map_Forall_empty. Qed.

Lemma demo_entry_ok : entry_ok "db" demo_entry.
Proof.
  split; [done|]. split; [done|]. constructor; [|done].
  split; [reflexivity|]. split; [exact (proj1 demo_attributes_ok)|split; reflexivity].
Qed.
Lemma demo_entry_text : entry_text "db" demo_entry.
Proof.
  split; [reflexivity|]. constructor; [|done]. split; [reflexivity|]. split; [reflexivity|]. split; [reflexivity|].
  split; [exact demo_attributes_ok|exact demo_tags_ok].
Qed.

Lemma RestoreSecret_BackupSecret_witness : ∃ token latest,
  BackupSecret "db" demo_store = (Ok token, demo_store) ∧
  last (se_versions demo_entry) = Some latest ∧
  RestoreSecret token New =
    (Ok (sv_record latest), set_deletedSecrets (delete "db") (set_secrets <["db" := demo_entry]> New)).
Proof.
  destruct (RestoreSecret_BackupSecret "db" demo_store New demo_entry eq_refl demo_entry_ok)
    as (token & latest & Hb & Hl & Hr & Htext).
  destruct (Htext demo_entry_text) as [Hn He]. rewrite Hn, He in Hr. rewrite He in Hl.
  exists token, latest. split; [exact Hb|]. split; [exact Hl|exact Hr].
Defined.

(** A name that is no text: the secret of /secrets/%FF is restored under the
    replacement character. *)
Definition bad_name : string := of_bytes [bmk 255].
Definition bad_store : Store :=
  set_secrets <[bad_name := mkSecretEntry [mkSecretVersion (mkSecretRecord bad_name "v1" "hunter2" "" (mkAttributes (Some true) None None 1 1 recoveryLevel recoverableDays) None)]]> New.
Lemma restored_under_another_name :
  match BackupSecret bad_name bad_store with
  | (Ok token, _) =>
      let s := (RestoreSecret token New).2 in
      secrets s !! bad_name = None ∧ is_Some (secrets s !! of_bytes rune_error)
  | _ => False
  end.
Proof. vm_compute. split; [reflexivity|by eexists]. Qed.
