(* ===== verification/KeyStore.v ===== *)
(** * [internal/store/keys.go]: the key operations of the store *)

From S2P Require Import Prelude GoStrings GoBase64 GoCrypto AesModes Model KeyCrypto StoreCore.

Definition key_not_found {A} (name : string) : SM A :=
  m_fail (newError StatusNotFound "KeyNotFound"
    ("A key with (name/id) " ++ name ++ " was not found in this key vault.")%string).
Definition deleted_key_not_found {A} (name : string) : SM A :=
  m_fail (newError StatusNotFound "KeyNotFound"
    ("A deleted key with name " ++ name ++ " was not found in this key vault.")%string).

Definition cloneKeyRecord (r : KeyRecord) : KeyRecord :=
  mkKeyRecord (kr_Name r) (kr_Version r) (kr_Key r) (cloneAttributes (kr_Attributes r))
    (cloneTags (kr_Tags r)).

Definition findKeyVersion (entry : keyEntry) (version : string) : option (nat * keyVersion) :=
  if decide (version = ""%string) then latestKey (Some entry)
  else list_find (λ current, kr_Version (kv_record current) = version) (ke_versions entry).

Definition defaultKeyOps (kty : string) (ops : list string) : list string :=
  match ops with
  | _ :: _ => ops
  | [] =>
      if HasPrefix kty "RSA" then ["encrypt"; "decrypt"; "sign"; "verify"; "wrapKey"; "unwrapKey"]
      else if HasPrefix kty "EC" then ["sign"; "verify"]
      else ["encrypt"; "decrypt"; "wrapKey"; "unwrapKey"]
  end.

Definition with_KeyOps (ops : list string) (k : JSONWebKey) : JSONWebKey :=
  mkJSONWebKey (jwk_Kid k) (jwk_Kty k) ops (jwk_N k) (jwk_E k) (jwk_D k) (jwk_P k) (jwk_Q k)
    (jwk_DP k) (jwk_DQ k) (jwk_QI k) (jwk_Crv k) (jwk_X k) (jwk_Y k) (jwk_K k).

(** [entry := s.keys[name]; if entry == nil { ... };
    entry.versions = append(entry.versions, v)]. *)
Definition append_key (name : string) (v : keyVersion) : SM unit :=
  let* s := m_get in
  let entry := default (mkKeyEntry []) (keys s !! name) in
  m_modify (set_keys <[name := mkKeyEntry (ke_versions entry ++ [v])]>).

Definition bad_parameter (msg : message) : error := newError StatusBadRequest "BadParameter" msg.
Definition invalid_operation (msg : message) : error := newError StatusBadRequest "InvalidOperation" msg.

Definition key_deleted_conflict {A} (name : string) : SM A :=
  m_fail (newError StatusConflict "InvalidOperation"
    ("Key " ++ name ++ " is currently deleted and cannot be reused until recovered or purged.")%string).

(** Called by the certificate operations. *)
Definition putKeyVersion (name version : string) (record : KeyRecord) (material : KeyMaterial)
    : SM KeyRecord :=
  let record := mkKeyRecord name version (kr_Key record) (kr_Attributes record) (kr_Tags record) in
  let* _ := append_key name (mkKeyVersion (cloneKeyRecord record) material) in
  m_ret record.

Definition GetKey (name version : string) : SM KeyRecord :=
  let* s := m_get in
  match keys s !! name with
  | None => key_not_found name
  | Some entry =>
      match findKeyVersion entry version with
      | None => key_not_found name
      | Some (_, ver) => m_ret (cloneKeyRecord (kv_record ver))
      end
  end.

Definition ListKeys (maxResults : Z) (skipToken : string) : SM (list KeyRecord * option string) :=
  let* s := m_get in
  let names := sorted_keys (keys s) in
  let* pn := m_lift (paginateNames names skipToken maxResults) in
  let '(page, next) := pn in
  let items := omap (λ name,
    match latestKey (keys s !! name) with
    | Some (_, latest) => Some (cloneKeyRecord (kv_record latest))
    | None => None
    end) page in
  m_ret (items, next).

Definition ListKeyVersions (name : string) (maxResults : Z) (skipToken : string)
    : SM (list KeyRecord * option string) :=
  let* s := m_get in
  match keys s !! name with
  | None => key_not_found name
  | Some entry =>
      let versions := (λ v, cloneKeyRecord (kv_record v)) <$> reverse (ke_versions entry) in
      m_lift (paginateNames versions skipToken maxResults)
  end.

(** The body of [UpdateKey] on the record it found. *)
Definition update_key_record (e : Env) (req : UpdateKeyRequest) (r : KeyRecord) : KeyRecord :=
  mkKeyRecord (kr_Name r) (kr_Version r)
    (match ukr_KeyOps req with Some ops => with_KeyOps ops (kr_Key r) | None => kr_Key r end)
    (mergeAttributes e (kr_Attributes r) (ukr_Attributes req))
    (match ukr_Tags req with Some _ => cloneTags (ukr_Tags req) | None => kr_Tags r end).

Definition UpdateKey (e : Env) (name version : string) (req : UpdateKeyRequest) : SM KeyRecord :=
  let* s := m_get in
  match keys s !! name with
  | None => key_not_found name
  | Some entry =>
      match findKeyVersion entry version with
      | None => key_not_found name
      | Some (i, ver) =>
          let record := update_key_record e req (kv_record ver) in
          let entry := mkKeyEntry (<[i := mkKeyVersion record (kv_material ver)]> (ke_versions entry)) in
          let* _ := m_modify (set_keys <[name := entry]>) in
          m_ret (cloneKeyRecord record)
      end
  end.

Definition DeleteKey (e : Env) (name : string) : SM DeletedKeyRecord :=
  let* s := m_get in
  match keys s !! name with
  | None => key_not_found name
  | Some entry =>
      if decide (is_Some (deletedKeys s !! name)) then key_not_found name else
      let* _ := m_modify (set_keys (delete name)) in
      let now := nowUnix e in
      let* recoveryID := m_lift (newRecoveryID e "keys" name) in
      let deleted := mkDeletedKeyEntry entry recoveryID now (scheduledPurge now) in
      let* _ := m_modify (set_deletedKeys <[name := deleted]>) in
      let* latest := m_lift (deref (latestKey (Some entry))) in
      m_ret (mkDeletedKeyRecord (cloneKeyRecord (kv_record latest)) (dke_recoveryID deleted)
        (dke_deletedDate deleted) (dke_scheduledPurgeDate deleted))
  end.

(** What [ListDeletedKeys] and [GetDeletedKey] report of an entry. *)
Definition deleted_key_record (deleted : deletedKeyEntry) : outcome error DeletedKeyRecord :=
  let! latest := deref (latestKey (Some (dke_entry deleted))) in
  Ok (mkDeletedKeyRecord (cloneKeyRecord (kv_record latest)) (dke_recoveryID deleted)
    (dke_deletedDate deleted) (dke_scheduledPurgeDate deleted)).

Definition ListDeletedKeys (maxResults : Z) (skipToken : string)
    : SM (list DeletedKeyRecord * option string) :=
  let* s := m_get in
  let names := sorted_keys (deletedKeys s) in
  let* pn := m_lift (paginateNames names skipToken maxResults) in
  let '(page, next) := pn in
  let* items := m_lift (o_traverse (λ name,
    match deletedKeys s !! name with
    | Some deleted => deleted_key_record deleted
    | None => Panic "runtime error: invalid memory address or nil pointer dereference"
    end) page) in
  m_ret (items, next).

Definition GetDeletedKey (name : string) : SM DeletedKeyRecord :=
  let* s := m_get in
  match deletedKeys s !! name with
  | None => deleted_key_not_found name
  | Some deleted => m_lift (deleted_key_record deleted)
  end.

Definition PurgeDeletedKey (name : string) : SM unit :=
  let* s := m_get in
  if decide (is_Some (deletedKeys s !! name))
  then m_modify (set_deletedKeys (delete name))
  else deleted_key_not_found name.

Definition RecoverDeletedKey (name : string) : SM KeyRecord :=
  let* s := m_get in
  if decide (is_Some (keys s !! name))
  then m_fail (newError StatusConflict "Conflict" ("Key " ++ name ++ " already exists.")%string)
  else
  match deletedKeys s !! name with
  | None => deleted_key_not_found name
  | Some deleted =>
      let* _ := m_modify (set_keys <[name := dke_entry deleted]>) in
      let* _ := m_modify (set_deletedKeys (delete name)) in
      let* latest := m_lift (deref (latestKey (Some (dke_entry deleted)))) in
      m_ret (cloneKeyRecord (kv_record latest))
  end.

Definition keyMaterial (name version : string) : SM keyVersion :=
  let* s := m_get in
  match keys s !! name with
  | None => key_not_found name
  | Some entry =>
      match findKeyVersion entry version with
      | None => key_not_found name
      | Some (_, ver) => m_ret ver
      end
  end.

Section crypto_operations.
Context `{C : BlockCipher} `{L : PublicKeyLib}.

Definition CreateKey (e : Env) (name : string) (req : CreateKeyRequest) : SM KeyRecord :=
  if decide (name = ""%string) then m_fail (bad_parameter "Key name is required.") else
  if decide (ckr_Kty req = ""%string) then m_fail (bad_parameter "Key type is required.") else
  let* s := m_get in
  if decide (is_Some (deletedKeys s !! name)) then key_deleted_conflict name else
  let now := nowUnix e in
  let* version := m_lift (newVersion e) in
  let ops := defaultKeyOps (ckr_Kty req) (ckr_KeyOps req) in
  let* mj := m_lift (o_maperr bad_parameter
    (GenerateKey e 1 (ckr_Kty req) (ckr_KeySize req) (ckr_Crv req) "" ops)) in
  let '(material, jwk) := mj : KeyMaterial * JSONWebKey in
  let record := mkKeyRecord name version jwk (buildAttributes (ckr_Attributes req) now now)
    (cloneTags (ckr_Tags req)) in
  let* _ := append_key name (mkKeyVersion record material) in
  m_ret (cloneKeyRecord record).

Definition ImportKey (e : Env) (name : string) (req : ImportKeyRequest) : SM KeyRecord :=
  if decide (name = ""%string) then m_fail (bad_parameter "Key name is required.") else
  if decide (jwk_Kty (ikr_Key req) = ""%string)
  then m_fail (bad_parameter "Key type is required.") else
  let* s := m_get in
  if decide (is_Some (deletedKeys s !! name)) then key_deleted_conflict name else
  let* mj := m_lift (o_maperr bad_parameter (KeyCrypto.ImportKey (ikr_Key req) "")) in
  let '(material, jwk) := mj : KeyMaterial * JSONWebKey in
  let ops := defaultKeyOps (jwk_Kty (ikr_Key req)) (jwk_KeyOps (ikr_Key req)) in
  let jwk := with_KeyOps ops jwk in
  let now := nowUnix e in
  let* version := m_lift (newVersion e) in
  let record := mkKeyRecord name version jwk (buildAttributes (ikr_Attributes req) now now)
    (cloneTags (ikr_Tags req)) in
  let* _ := append_key name (mkKeyVersion record material) in
  m_ret (cloneKeyRecord record).

(** [DecodeBase64URL] with the error the operations give for a bad field. *)
Definition decode_field (what value : string) : outcome error bytes :=
  o_maperr (λ _, bad_parameter ("The provided " ++ what ++ " is not valid base64url data.")%string)
    (DecodeBase64URL value).

(** [ivValue]: the IV of the response, absent when empty. *)
Definition encode_iv (iv : bytes) : string :=
  if decide (0 < length iv)%nat then EncodeBase64URL iv else "".

Definition Encrypt (e : Env) (name version : string) (req : EncryptRequest) : SM (string * string) :=
  let* ver := keyMaterial name version in
  m_lift (
    let! value := decode_field "value" (er_Value req) in
    let! iv := if decide (er_IV req = ""%string) then Ok [] else decode_field "iv" (er_IV req) in
    let! co := o_maperr invalid_operation
      (KeyCrypto.Encrypt e (kv_material ver) (jwk_Kty (kr_Key (kv_record ver))) (er_Alg req) value iv) in
    Ok (EncodeBase64URL co.1, encode_iv co.2)).

Definition Decrypt (name version : string) (req : EncryptRequest) : SM (string * string) :=
  let* ver := keyMaterial name version in
  m_lift (
    let! value := decode_field "value" (er_Value req) in
    let! iv := if decide (er_IV req = ""%string) then Ok [] else decode_field "iv" (er_IV req) in
    let! po := o_maperr invalid_operation
      (KeyCrypto.Decrypt (kv_material ver) (jwk_Kty (kr_Key (kv_record ver))) (er_Alg req) value iv) in
    Ok (EncodeBase64URL po.1, encode_iv po.2)).

Definition Sign (e : Env) (name version : string) (req : SignRequest) : SM string :=
  let* ver := keyMaterial name version in
  m_lift (
    let! digest := decode_field "value" (sgr_Value req) in
    let! sig := o_maperr invalid_operation
      (KeyCrypto.Sign e (kv_material ver) (jwk_Kty (kr_Key (kv_record ver))) (sgr_Alg req) digest) in
    Ok (EncodeBase64URL sig)).

Definition Verify (name version : string) (req : VerifyRequest) : SM bool :=
  let* ver := keyMaterial name version in
  m_lift (
    let! digest := decode_field "digest" (vr_Digest req) in
    let! sig := decode_field "value" (vr_Value req) in
    o_maperr invalid_operation
      (KeyCrypto.Verify (kv_material ver) (jwk_Kty (kr_Key (kv_record ver))) (vr_Alg req) digest sig)).

Definition WrapKey (e : Env) (name version : string) (req : EncryptRequest) : SM string :=
  let* ver := keyMaterial name version in
  m_lift (
    let! value := decode_field "value" (er_Value req) in
    let! wrapped := o_maperr invalid_operation
      (KeyCrypto.Wrap e (kv_material ver) (jwk_Kty (kr_Key (kv_record ver))) (er_Alg req) value) in
    Ok (EncodeBase64URL wrapped)).

Definition UnwrapKey (name version : string) (req : EncryptRequest) : SM string :=
  let* ver := keyMaterial name version in
  m_lift (
    let! value := decode_field "value" (er_Value req) in
    let! unwrapped := o_maperr invalid_operation
      (KeyCrypto.Unwrap (kv_material ver) (jwk_Kty (kr_Key (kv_record ver))) (er_Alg req) value) in
    Ok (EncodeBase64URL unwrapped)).
End crypto_operations.

(** A copy of a record is the record. *)
Lemma cloneKeyRecord_id r : cloneKeyRecord r = r.
Proof. destruct r. unfold cloneKeyRecord. cbn. by rewrite cloneAttributes_id, cloneTags_id. Qed.
