(* ===== verification/CertStore.v ===== *)
(** * [internal/store/certificates.go]: the certificate operations of the store *)

From S2P Require Import Prelude GoStrings GoUtf8 GoCrypto GoX509 Model KeyCrypto CertCrypto StoreCore SecretStore KeyStore.
From Stdlib Require Import Floats.SpecFloat.

Definition certificate_not_found {A} (name : string) : SM A :=
  m_fail (newError StatusNotFound "CertificateNotFound"
    ("A certificate with (name/id) " ++ name ++ " was not found in this key vault.")%string).
Definition deleted_certificate_not_found {A} (name : string) : SM A :=
  m_fail (newError StatusNotFound "CertificateNotFound"
    ("A deleted certificate with name " ++ name ++ " was not found in this key vault.")%string).
Definition certificate_deleted_conflict {A} (name : string) : SM A :=
  m_fail (newError StatusConflict "InvalidOperation"
    ("Certificate " ++ name ++ " is currently deleted and cannot be reused until recovered or purged.")%string).

(** ** Policies: a clone goes through JSON

    The clone is what [json.Unmarshal] makes of what [json.Marshal] wrote:
    an [int] comes back as a [float64], a string as UTF-8, a map with its keys
    as UTF-8 (of equal keys the last in the encoder's order stays), an empty
    map under [omitempty] as nil.  A number that is not finite makes
    [json.Marshal] fail; the code ignores that and clones the zero policy. *)

Fixpoint any_finite (a : any) : bool :=
  match a with
  | AFloat (S754_zero _) | AFloat (S754_finite _ _ _) => true
  | AFloat _ => false
  | AList l => forallb any_finite l
  | AMap m => forallb (λ p : string * any, any_finite p.2) m
  | _ => true
  end.

Definition canon_map (m : anymap) : anymap :=
  let g : gmap string any :=
    foldl (λ g k, <[utf8_coerce k := any_lookup m k]> g) ∅ (sort_Strings m.*1) in
  (λ k, (k, default ANil (g !! k))) <$> sorted_keys g.

Fixpoint any_json (a : any) : any :=
  match a with
  | AInt z => AFloat (float_of_int z)
  | AString s => AString (utf8_coerce s)
  | AList l => AList (map any_json l)
  | AMap m => AMap (canon_map (map (λ p : string * any, (p.1, any_json p.2)) m))
  | a => a
  end.

Definition map_json (m : anymap) : anymap :=
  canon_map (map (λ p : string * any, (p.1, any_json p.2)) m).

(** A field with [omitempty]. *)
Definition map_field (m : option anymap) : option anymap :=
  match m with Some (p :: m) => Some (map_json (p :: m)) | _ => None end.

Definition policy_finite (p : CertificatePolicy) : bool :=
  let ok (m : option anymap) := any_finite (AMap (default [] m)) in
  ok (pol_Issuer p) && ok (pol_KeyProps p) && ok (pol_SecretProps p) && ok (pol_X509Props p) &&
  forallb ok (pol_LifetimeActions p) && ok (pol_Attributes p).

Definition clonePolicy (policy : option CertificatePolicy) : option CertificatePolicy :=
  match policy with
  | None => None
  | Some p =>
      if policy_finite p then
        Some (mkCertificatePolicy (utf8_coerce (pol_ID p)) (map_field (pol_Issuer p))
          (map_field (pol_KeyProps p)) (map_field (pol_SecretProps p)) (map_field (pol_X509Props p))
          (map (option_map map_json) (pol_LifetimeActions p)) (map_field (pol_Attributes p)))
      else Some zero_policy
  end.

Definition defaultCertificatePolicy (name : string) (policy : option CertificatePolicy) : CertificatePolicy :=
  let policy := default zero_policy policy in
  let out := default zero_policy (clonePolicy (Some policy)) in
  mkCertificatePolicy (pol_ID out)
    (Some (default [("name", AString "Self")] (pol_Issuer out)))
    (Some (default [("kty", AString "RSA"); ("key_size", AInt 2048); ("reuse_key", ABool false)]
       (pol_KeyProps out)))
    (Some (default [("contentType", AString "application/x-pkcs12")] (pol_SecretProps out)))
    (Some (default [("subject", AString ("CN=" ++ name)%string)] (pol_X509Props out)))
    (pol_LifetimeActions out) (pol_Attributes out).

(** ** Records and versions *)

Definition cloneCertificateRecord (r : CertificateRecord) : CertificateRecord :=
  mkCertificateRecord (cr_Name r) (cr_Version r) (cr_Cer r) (cr_Kid r) (cr_Sid r)
    (cloneAttributes (cr_Attributes r)) (cloneTags (cr_Tags r)) (clonePolicy (cr_Policy r)).

Definition findCertificateVersion (entry : certificateEntry) (version : string)
    : option (nat * certificateVersion) :=
  if decide (version = ""%string) then latestCertificate (Some entry)
  else list_find (λ current, cr_Version (cv_record current) = version) (ce_versions entry).

Definition append_certificate (name : string) (v : certificateVersion) : SM unit :=
  let* s := m_get in
  let entry := default (mkCertificateEntry []) (certificates s !! name) in
  m_modify (set_certificates <[name := mkCertificateEntry (ce_versions entry ++ [v])]>).

(** ** Operations without cryptography *)

Definition GetCertificate (name version : string) : SM CertificateRecord :=
  let* s := m_get in
  match certificates s !! name with
  | None => certificate_not_found name
  | Some entry =>
      match findCertificateVersion entry version with
      | None => certificate_not_found name
      | Some (_, ver) => m_ret (cloneCertificateRecord (cv_record ver))
      end
  end.

Definition ListCertificates (maxResults : Z) (skipToken : string)
    : SM (list CertificateRecord * option string) :=
  let* s := m_get in
  let names := sorted_keys (certificates s) in
  let* pn := m_lift (paginateNames names skipToken maxResults) in
  let '(page, next) := pn in
  let items := omap (λ name,
    match latestCertificate (certificates s !! name) with
    | Some (_, latest) => Some (cloneCertificateRecord (cv_record latest))
    | None => None
    end) page in
  m_ret (items, next).

Definition ListCertificateVersions (name : string) (maxResults : Z) (skipToken : string)
    : SM (list CertificateRecord * option string) :=
  let* s := m_get in
  match certificates s !! name with
  | None => certificate_not_found name
  | Some entry =>
      let versions := (λ v, cloneCertificateRecord (cv_record v)) <$> reverse (ce_versions entry) in
      m_lift (paginateNames versions skipToken maxResults)
  end.

(** The body of [UpdateCertificate] on the record it found. *)
Definition update_certificate_record (e : Env) (req : UpdateCertificateRequest) (r : CertificateRecord)
    : CertificateRecord :=
  mkCertificateRecord (cr_Name r) (cr_Version r) (cr_Cer r) (cr_Kid r) (cr_Sid r)
    (mergeAttributes e (cr_Attributes r) (ucr_Attributes req))
    (match ucr_Tags req with Some _ => cloneTags (ucr_Tags req) | None => cr_Tags r end)
    (cr_Policy r).

Definition UpdateCertificate (e : Env) (name version : string) (req : UpdateCertificateRequest)
    : SM CertificateRecord :=
  let* s := m_get in
  match certificates s !! name with
  | None => certificate_not_found name
  | Some entry =>
      match findCertificateVersion entry version with
      | None => certificate_not_found name
      | Some (i, ver) =>
          let record := update_certificate_record e req (cv_record ver) in
          let entry := mkCertificateEntry
            (<[i := mkCertificateVersion record (cv_pem ver)]> (ce_versions entry)) in
          let* _ := m_modify (set_certificates <[name := entry]>) in
          m_ret (cloneCertificateRecord record)
      end
  end.

Definition GetCertificatePolicy (name : string) : SM (option CertificatePolicy) :=
  let* s := m_get in
  match certificates s !! name with
  | None => certificate_not_found name
  | Some entry =>
      let* latest := m_lift (deref (latestCertificate (Some entry))) in
      m_ret (clonePolicy (cr_Policy (cv_record latest)))
  end.

(** [Attributes.Updated = now]. *)
Definition touch (now : Z) (a : Attributes) : Attributes :=
  mkAttributes (Enabled a) (NotBefore a) (Expires a) (Created a) now (RecoveryLevel a) (RecoverableDays a).

Definition UpdateCertificatePolicy (e : Env) (name : string) (policy : option CertificatePolicy)
    : SM (option CertificatePolicy) :=
  let* s := m_get in
  match certificates s !! name with
  | None => certificate_not_found name
  | Some entry =>
      match latestCertificate (Some entry) with
      | None => m_panic "runtime error: invalid memory address or nil pointer dereference"
      | Some (i, latest) =>
          let r := cv_record latest in
          let policy := defaultCertificatePolicy name policy in
          let record := mkCertificateRecord (cr_Name r) (cr_Version r) (cr_Cer r) (cr_Kid r) (cr_Sid r)
            (touch (nowUnix e) (cr_Attributes r)) (cr_Tags r) (Some policy) in
          let entry := mkCertificateEntry
            (<[i := mkCertificateVersion record (cv_pem latest)]> (ce_versions entry)) in
          let* _ := m_modify (set_certificates <[name := entry]>) in
          m_ret (clonePolicy (Some policy))
      end
  end.

Definition GetPendingCertificateOperation (name : string) : SM CertificateOperation :=
  let* s := m_get in
  match certificates s !! name with
  | None => certificate_not_found name
  | Some entry =>
      let* latest := m_lift (deref (latestCertificate (Some entry))) in
      m_ret (mkCertificateOperation name "completed" (cr_Name (cv_record latest)) "")
  end.

Definition DeleteCertificate (e : Env) (name : string) : SM DeletedCertificateRecord :=
  let* s := m_get in
  match certificates s !! name with
  | None => certificate_not_found name
  | Some entry =>
      if decide (is_Some (deletedCertificates s !! name)) then certificate_not_found name else
      let* _ := m_modify (set_certificates (delete name)) in
      let now := nowUnix e in
      let* recoveryID := m_lift (newRecoveryID e "certificates" name) in
      let deleted := mkDeletedCertificateEntry entry recoveryID now (scheduledPurge now) in
      let* _ := m_modify (set_deletedCertificates <[name := deleted]>) in
      let* latest := m_lift (deref (latestCertificate (Some entry))) in
      m_ret (mkDeletedCertificateRecord (cloneCertificateRecord (cv_record latest))
        (dce_recoveryID deleted) (dce_deletedDate deleted) (dce_scheduledPurgeDate deleted))
  end.

(** What [ListDeletedCertificates] and [GetDeletedCertificate] report of an entry. *)
Definition deleted_certificate_record (deleted : deletedCertificateEntry)
    : outcome error DeletedCertificateRecord :=
  let! latest := deref (latestCertificate (Some (dce_entry deleted))) in
  Ok (mkDeletedCertificateRecord (cloneCertificateRecord (cv_record latest)) (dce_recoveryID deleted)
    (dce_deletedDate deleted) (dce_scheduledPurgeDate deleted)).

Definition ListDeletedCertificates (maxResults : Z) (skipToken : string)
    : SM (list DeletedCertificateRecord * option string) :=
  let* s := m_get in
  let names := sorted_keys (deletedCertificates s) in
  let* pn := m_lift (paginateNames names skipToken maxResults) in
  let '(page, next) := pn in
  let* items := m_lift (o_traverse (λ name,
    match deletedCertificates s !! name with
    | Some deleted => deleted_certificate_record deleted
    | None => Panic "runtime error: invalid memory address or nil pointer dereference"
    end) page) in
  m_ret (items, next).

Definition GetDeletedCertificate (name : string) : SM DeletedCertificateRecord :=
  let* s := m_get in
  match deletedCertificates s !! name with
  | None => deleted_certificate_not_found name
  | Some deleted => m_lift (deleted_certificate_record deleted)
  end.

Definition PurgeDeletedCertificate (name : string) : SM unit :=
  let* s := m_get in
  if decide (is_Some (deletedCertificates s !! name))
  then m_modify (set_deletedCertificates (delete name))
  else deleted_certificate_not_found name.

Definition RecoverDeletedCertificate (name : string) : SM CertificateRecord :=
  let* s := m_get in
  if decide (is_Some (certificates s !! name))
  then m_fail (newError StatusConflict "Conflict" ("Certificate " ++ name ++ " already exists.")%string)
  else
  match deletedCertificates s !! name with
  | None => deleted_certificate_not_found name
  | Some deleted =>
      let* _ := m_modify (set_certificates <[name := dce_entry deleted]>) in
      let* _ := m_modify (set_deletedCertificates (delete name)) in
      let* latest := m_lift (deref (latestCertificate (Some (dce_entry deleted)))) in
      m_ret (cloneCertificateRecord (cv_record latest))
  end.

(** ** Creating and importing *)

Section issuing.
Context `{L : PublicKeyLib} `{X : CertLib}.

Definition getIssuerMaterial (s : Store) (issuerName : string)
    : outcome message (x509_Certificate * rsa_PrivateKey) :=
  match secrets s !! issuerName with
  | None => Err (Format [Lit "issuer certificate "; Quoted issuerName; Lit " not found in vault"])
  | Some entry =>
      match latestSecret (Some entry) with
      | None => Err (Format [Lit "issuer certificate "; Quoted issuerName; Lit " has no versions"])
      | Some (_, latest) =>
          match ParseImportedCertificate (sr_Value (sv_record latest)) "" with
          | Panic p => Panic p
          | Err err => Err (Format ([Lit "failed to parse issuer certificate "; Quoted issuerName; Lit ": "]
              ++ parts_of err))
          | Ok (_, None, _) => Err (Format [Lit "issuer certificate "; Quoted issuerName;
              Lit " has no private key and cannot sign"])
          | Ok (cert, Some key, _) => Ok (cert, key)
          end
      end
  end.

(** The JSON web key of a certificate's public key. *)
Definition cert_key_record (name version : string) (pub : rsa_PublicKey) (attrs : Attributes) (t : tags)
    : KeyRecord :=
  mkKeyRecord name version (RSAToJWK "" "RSA" (defaultKeyOps "RSA" []) pub) attrs t.

Definition CreateCertificate (e : Env) (name : string) (req : CreateCertificateRequest)
    : SM CertificateRecord :=
  if decide (name = ""%string) then m_fail (bad_parameter "Certificate name is required.") else
  let* s := m_get in
  if decide (is_Some (deletedCertificates s !! name)) then certificate_deleted_conflict name else
  let policy := defaultCertificatePolicy name (ccr_Policy req) in
  let now := nowUnix e in
  let* version := m_lift (newVersion e) in
  let attrs := buildAttributes (ccr_Attributes req) now now in
  let prop (key : string) : string :=
    default ""%string (any_string (x509_prop (Some policy) key)) in
  let certType := if decide (prop "cert_type" ≠ ""%string) then prop "cert_type" else "CA"%string in
  let* issuer :=
    if decide (prop "issuer_name" ≠ ""%string) then
      let* ck := m_lift (o_maperr (newError StatusBadRequest "InvalidIssuer")
        (getIssuerMaterial s (prop "issuer_name"))) in
      m_ret (Some ck.1, Some ck.2)
    else m_ret (None, None) in
  let certOpts := mkCertOptions certType issuer.1 issuer.2 in
  let* pd := m_lift (o_maperr invalid_operation (GenerateCert e 1 name (Some policy) certOpts)) in
  let '(priv, der) := pd in
  let certPEM := pem_EncodeToMemory (mk_pem_Block "CERTIFICATE" der) in
  let keyPEM := pem_EncodeToMemory (mk_pem_Block "RSA PRIVATE KEY" (x509_MarshalPKCS1PrivateKey priv)) in
  let managedSecret := of_bytes (certPEM ++ keyPEM) in
  let record := mkCertificateRecord name version der name name attrs (cloneTags (ccr_Tags req))
    (clonePolicy (Some policy)) in
  let* _ := append_certificate name (mkCertificateVersion (cloneCertificateRecord record) certPEM) in
  let keyRecord := cert_key_record name version (rsa_Public priv) attrs (cloneTags (ccr_Tags req)) in
  let* _ := putKeyVersion name version keyRecord
    (mkKeyMaterial (Some priv) None None (Some (rsa_Public priv)) None) in
  let* _ := putSecretVersion name version managedSecret "application/x-pem-file" attrs (ccr_Tags req) in
  m_ret (cloneCertificateRecord record).

Definition ImportCertificate (e : Env) (name : string) (req : ImportCertificateRequest)
    : SM CertificateRecord :=
  if decide (name = ""%string) then m_fail (bad_parameter "Certificate name is required.") else
  if decide (icr_Value req = ""%string) then m_fail (bad_parameter "Certificate value is required.") else
  let* cpp := m_lift (o_maperr bad_parameter
    (ParseImportedCertificate (icr_Value req) (icr_Password req))) in
  let '(cert, priv, pemValue) := cpp in
  let* s := m_get in
  if decide (is_Some (deletedCertificates s !! name)) then certificate_deleted_conflict name else
  let policy := defaultCertificatePolicy name (icr_Policy req) in
  let now := nowUnix e in
  let* version := m_lift (newVersion e) in
  let attrs := buildAttributes (icr_Attributes req) now now in
  let record := mkCertificateRecord name version (cert_Raw cert) name name attrs
    (cloneTags (icr_Tags req)) (clonePolicy (Some policy)) in
  let* _ := append_certificate name (mkCertificateVersion (cloneCertificateRecord record) pemValue) in
  let* _ :=
    match cert_RSAPublicKey cert with
    | Some rsaPub =>
        let material :=
          match priv with
          | Some priv => mkKeyMaterial (Some priv) None None (Some (rsa_Public priv)) None
          | None => mkKeyMaterial None None None (Some rsaPub) None
          end in
        let* _ := putKeyVersion name version
          (cert_key_record name version rsaPub attrs (cloneTags (icr_Tags req))) material in
        m_ret ()
    | None => m_ret ()
    end in
  let* _ := putSecretVersion name version (of_bytes pemValue) "application/x-pem-file" attrs
    (icr_Tags req) in
  m_ret (cloneCertificateRecord record).
End issuing.
