(* ===== verification/HttpJson.v ===== *)
(** * The JSON of the HTTP API

    Encoders of the response types of [internal/model] and decoders of its
    request types, by their struct tags. *)

From S2P Require Import Prelude GoStrings GoJson Model StoreCore SecretBackup.

(** ** Responses *)

Definition str_field (name value : string) : list (string * json) :=
  omitempty (bool_decide (value = ""%string)) name (JStr value).
Definition int_field (name : string) (value : Z) : list (string * json) :=
  omitempty (bool_decide (value = 0)) name (enc_int value).
(** A map with [omitempty] is left out when it has no entry. *)
Definition tags_field (t : tags) : list (string * json) :=
  omitempty (bool_decide (default ∅ t = ∅)) "tags" (enc_string_map t).
Definition strings_field (name : string) (l : list string) : list (string * json) :=
  omitempty (bool_decide (l = [])) name (JArr (map JStr l)).

Definition secret_bundle_members (b : SecretBundle) : list (string * json) :=
  str_field "value" (sb_Value b) ++ str_field "id" (sb_ID b) ++ str_field "contentType" (sb_ContentType b) ++
  [("attributes"%string, json_of_attributes (sb_Attributes b))] ++ tags_field (sb_Tags b).
Definition json_of_SecretBundle (b : SecretBundle) : json := JObj (secret_bundle_members b).

Definition json_of_SecretItem (i : SecretItem) : json :=
  JObj (str_field "id" (si_ID i) ++ str_field "contentType" (si_ContentType i) ++
    [("attributes"%string, json_of_attributes (si_Attributes i))] ++ tags_field (si_Tags i)).

(** The fields of the embedded bundle come first, at the same level. *)
Definition deleted_members (recoveryId : string) (deletedDate scheduledPurgeDate : Z) : list (string * json) :=
  str_field "recoveryId" recoveryId ++ int_field "deletedDate" deletedDate ++
  int_field "scheduledPurgeDate" scheduledPurgeDate.
Definition json_of_DeletedSecretBundle (d : DeletedSecretBundle) : json :=
  JObj (secret_bundle_members (dsb_SecretBundle d) ++
    deleted_members (dsb_RecoveryID d) (dsb_DeletedDate d) (dsb_ScheduledPurgeDate d)).

Definition json_of_JSONWebKey (k : JSONWebKey) : json :=
  JObj (str_field "kid" (jwk_Kid k) ++ str_field "kty" (jwk_Kty k) ++ strings_field "key_ops" (jwk_KeyOps k) ++
    str_field "n" (jwk_N k) ++ str_field "e" (jwk_E k) ++ str_field "d" (jwk_D k) ++ str_field "p" (jwk_P k) ++
    str_field "q" (jwk_Q k) ++ str_field "dp" (jwk_DP k) ++ str_field "dq" (jwk_DQ k) ++ str_field "qi" (jwk_QI k) ++
    str_field "crv" (jwk_Crv k) ++ str_field "x" (jwk_X k) ++ str_field "y" (jwk_Y k) ++ str_field "k" (jwk_K k)).

Definition key_bundle_members (b : KeyBundle) : list (string * json) :=
  [("key"%string, json_of_JSONWebKey (kb_Key b)); ("attributes"%string, json_of_attributes (kb_Attributes b))] ++
  tags_field (kb_Tags b).
Definition json_of_KeyBundle (b : KeyBundle) : json := JObj (key_bundle_members b).
Definition json_of_KeyItem (i : KeyItem) : json :=
  JObj (str_field "kid" (ki_Kid i) ++ [("attributes"%string, json_of_attributes (ki_Attributes i))] ++
    tags_field (ki_Tags i)).
Definition json_of_DeletedKeyBundle (d : DeletedKeyBundle) : json :=
  JObj (key_bundle_members (dkb_KeyBundle d) ++
    deleted_members (dkb_RecoveryID d) (dkb_DeletedDate d) (dkb_ScheduledPurgeDate d)).

Definition json_of_CryptoResponse (c : CryptoResponse) : json :=
  JObj (str_field "kid" (crs_Kid c) ++ str_field "value" (crs_Value c) ++ str_field "alg" (crs_Alg c) ++
    str_field "iv" (crs_IV c)).
Definition json_of_VerifyResponse (v : VerifyResponse) : json := JObj [("value"%string, JBool (vrs_Value v))].

Definition json_of_ListResult {T} (enc : T → json) (l : ListResult T) : json :=
  JObj (("value"%string, JArr (map enc (lr_Value l))) ::
    match lr_NextLink l with Some link => [("nextLink"%string, JStr link)] | None => [] end).

Definition json_page {T} (enc : T → json) (l : ListResult T) : option json := Some (json_of_ListResult enc l).
(** The same for items whose encoding may fail. *)
Definition json_page_opt {T} (enc : T → option json) (l : ListResult T) : option json :=
  (λ js, json_of_ListResult id (mkListResult js (lr_NextLink l))) <$> mapM enc (lr_Value l).

(** ** Requests

    [field name get set d] decodes the member [name] with [d] into the field
    that [get] reads and [set] writes. *)

Definition field {T A} (name : string) (get : T → A) (set : A → T → T) (d : decoder A) : string * decoder T :=
  (name, λ r j, (λ v, set v r) <$> d (get r) j).

Definition dec_attributes_ptr : decoder (option Attributes) := dec_ptr zero_attributes dec_attributes.
(** A [[]string], with its backing array; nil is told from empty. *)
Definition dec_strings : decoder (option (nat * list string)) := λ cur j,
  match j with
  | JNull => Some None
  | _ => Some <$> dec_slice ""%string dec_string (default (0%nat, []) cur) j
  end.
Definition strings_of (s : option (nat * list string)) : list string :=
  match s with Some (n, l) => take n l | None => [] end.

Definition zero_SecretSetRequest : SecretSetRequest := mkSecretSetRequest "" "" None None.
Definition dec_SecretSetRequest : decoder SecretSetRequest := dec_struct [
  field "value" ssr_Value (λ v r, mkSecretSetRequest v (ssr_ContentType r) (ssr_Attributes r) (ssr_Tags r)) dec_string;
  field "contentType" ssr_ContentType (λ v r, mkSecretSetRequest (ssr_Value r) v (ssr_Attributes r) (ssr_Tags r)) dec_string;
  field "attributes" ssr_Attributes (λ v r, mkSecretSetRequest (ssr_Value r) (ssr_ContentType r) v (ssr_Tags r)) dec_attributes_ptr;
  field "tags" ssr_Tags (λ v r, mkSecretSetRequest (ssr_Value r) (ssr_ContentType r) (ssr_Attributes r) v) dec_string_map].

Definition zero_SecretUpdateRequest : SecretUpdateRequest := mkSecretUpdateRequest None None None.
Definition dec_SecretUpdateRequest : decoder SecretUpdateRequest := dec_struct [
  field "contentType" sur_ContentType (λ v r, mkSecretUpdateRequest v (sur_Attributes r) (sur_Tags r)) (dec_ptr ""%string dec_string);
  field "attributes" sur_Attributes (λ v r, mkSecretUpdateRequest (sur_ContentType r) v (sur_Tags r)) dec_attributes_ptr;
  field "tags" sur_Tags (λ v r, mkSecretUpdateRequest (sur_ContentType r) (sur_Attributes r) v) dec_string_map].

(** [restoreRequest] of [internal/handler/secrets.go]. *)
Record restoreRequest : Type := mkRestoreRequest { rr_Value : string }.
Definition dec_restoreRequest : decoder restoreRequest :=
  dec_struct [field "value" rr_Value (λ v _, mkRestoreRequest v) dec_string].

Definition zero_EncryptRequest : EncryptRequest := mkEncryptRequest "" "" "".
Definition dec_EncryptRequest : decoder EncryptRequest := dec_struct [
  field "alg" er_Alg (λ v r, mkEncryptRequest v (er_Value r) (er_IV r)) dec_string;
  field "value" er_Value (λ v r, mkEncryptRequest (er_Alg r) v (er_IV r)) dec_string;
  field "iv" er_IV (λ v r, mkEncryptRequest (er_Alg r) (er_Value r) v) dec_string].
Definition zero_SignRequest : SignRequest := mkSignRequest "" "".
Definition dec_SignRequest : decoder SignRequest := dec_struct [
  field "alg" sgr_Alg (λ v r, mkSignRequest v (sgr_Value r)) dec_string;
  field "value" sgr_Value (λ v r, mkSignRequest (sgr_Alg r) v) dec_string].
Definition zero_VerifyRequest : VerifyRequest := mkVerifyRequest "" "" "".
Definition dec_VerifyRequest : decoder VerifyRequest := dec_struct [
  field "alg" vr_Alg (λ v r, mkVerifyRequest v (vr_Digest r) (vr_Value r)) dec_string;
  field "digest" vr_Digest (λ v r, mkVerifyRequest (vr_Alg r) v (vr_Value r)) dec_string;
  field "value" vr_Value (λ v r, mkVerifyRequest (vr_Alg r) (vr_Digest r) v) dec_string].

(** A [JSONWebKey] while it is decoded: its string fields by name, and its
    operations with their backing array. *)
Definition raw_jwk : Type := (gmap string string * option (nat * list string))%type.
Definition jwk_string_fields : list string :=
  ["kid"; "kty"; "n"; "e"; "d"; "p"; "q"; "dp"; "dq"; "qi"; "crv"; "x"; "y"; "k"]%string.
Definition dec_raw_jwk : decoder raw_jwk := dec_struct (
  field "key_ops" snd (λ v r, (r.1, v)) dec_strings ::
  map (λ n, field n (λ r : raw_jwk, default ""%string (r.1 !! n)) (λ v r, (<[n := v]> r.1, r.2)) dec_string)
    jwk_string_fields).
Definition jwk_of_raw (r : raw_jwk) : JSONWebKey :=
  let f (n : string) : string := default ""%string (r.1 !! n) in
  mkJSONWebKey (f "kid") (f "kty") (strings_of r.2) (f "n") (f "e") (f "d") (f "p") (f "q") (f "dp") (f "dq") (f "qi")
    (f "crv") (f "x") (f "y") (f "k").

(** Request structs with a slice inside decode into a form that keeps it. *)
Record raw_create : Type := mkRawCreate { rc_req : CreateKeyRequest; rc_ops : option (nat * list string) }.
Definition set_create (f : CreateKeyRequest → CreateKeyRequest) (r : raw_create) : raw_create :=
  mkRawCreate (f (rc_req r)) (rc_ops r).
Definition dec_raw_create : decoder raw_create := dec_struct [
  field "kty" (ckr_Kty ∘ rc_req) (λ v, set_create (λ q, mkCreateKeyRequest v (ckr_KeySize q) (ckr_KeyOps q) (ckr_Attributes q) (ckr_Tags q) (ckr_Crv q) (ckr_Value q))) dec_string;
  field "key_size" (ckr_KeySize ∘ rc_req) (λ v, set_create (λ q, mkCreateKeyRequest (ckr_Kty q) v (ckr_KeyOps q) (ckr_Attributes q) (ckr_Tags q) (ckr_Crv q) (ckr_Value q))) dec_int64;
  field "key_ops" rc_ops (λ v r, mkRawCreate (rc_req r) v) dec_strings;
  field "attributes" (ckr_Attributes ∘ rc_req) (λ v, set_create (λ q, mkCreateKeyRequest (ckr_Kty q) (ckr_KeySize q) (ckr_KeyOps q) v (ckr_Tags q) (ckr_Crv q) (ckr_Value q))) dec_attributes_ptr;
  field "tags" (ckr_Tags ∘ rc_req) (λ v, set_create (λ q, mkCreateKeyRequest (ckr_Kty q) (ckr_KeySize q) (ckr_KeyOps q) (ckr_Attributes q) v (ckr_Crv q) (ckr_Value q))) dec_string_map;
  field "crv" (ckr_Crv ∘ rc_req) (λ v, set_create (λ q, mkCreateKeyRequest (ckr_Kty q) (ckr_KeySize q) (ckr_KeyOps q) (ckr_Attributes q) (ckr_Tags q) v (ckr_Value q))) dec_string;
  field "value" (ckr_Value ∘ rc_req) (λ v, set_create (λ q, mkCreateKeyRequest (ckr_Kty q) (ckr_KeySize q) (ckr_KeyOps q) (ckr_Attributes q) (ckr_Tags q) (ckr_Crv q) v)) dec_string].
Definition decode_CreateKeyRequest (j : json) : option CreateKeyRequest :=
  (λ r, let q := rc_req r in mkCreateKeyRequest (ckr_Kty q) (ckr_KeySize q) (strings_of (rc_ops r))
     (ckr_Attributes q) (ckr_Tags q) (ckr_Crv q) (ckr_Value q))
  <$> dec_raw_create (mkRawCreate (mkCreateKeyRequest "" 0 [] None None "" "") None) j.

Record raw_import : Type := mkRawImport { ri_key : raw_jwk; ri_attributes : option Attributes; ri_tags : tags }.
Definition decode_ImportKeyRequest (j : json) : option ImportKeyRequest :=
  (λ r, mkImportKeyRequest (jwk_of_raw (ri_key r)) (ri_attributes r) (ri_tags r)) <$> dec_struct [
    field "key" ri_key (λ v r, mkRawImport v (ri_attributes r) (ri_tags r)) dec_raw_jwk;
    field "attributes" ri_attributes (λ v r, mkRawImport (ri_key r) v (ri_tags r)) dec_attributes_ptr;
    field "tags" ri_tags (λ v r, mkRawImport (ri_key r) (ri_attributes r) v) dec_string_map]
  (mkRawImport (∅, None) None None) j.

Record raw_update : Type := mkRawUpdate { ru_attributes : option Attributes; ru_tags : tags; ru_ops : option (nat * list string) }.
Definition decode_UpdateKeyRequest (j : json) : option UpdateKeyRequest :=
  (λ r, mkUpdateKeyRequest (ru_attributes r) (ru_tags r) ((λ p : nat * list string, take p.1 p.2) <$> ru_ops r)) <$> dec_struct [
    field "attributes" ru_attributes (λ v r, mkRawUpdate v (ru_tags r) (ru_ops r)) dec_attributes_ptr;
    field "tags" ru_tags (λ v r, mkRawUpdate (ru_attributes r) v (ru_ops r)) dec_string_map;
    field "key_ops" ru_ops (λ v r, mkRawUpdate (ru_attributes r) (ru_tags r) v) dec_strings]
  (mkRawUpdate None None None) j.

(** [json.NewDecoder(body).Decode(&v)]: the first value of the body; what
    follows it is not read. *)
Definition json_first (data : bytes) : option json := fst <$> parse_value (2 * length data + 2) 0 data.
