(* ===== verification/CertJson.v ===== *)
(** * The JSON of certificates

    Dynamic values ([any], [map[string]any]) and the certificate types of
    [internal/model], by their struct tags.  An encoder is partial: JSON has
    no infinity and no NaN. *)

From S2P Require Import Prelude GoStrings GoJson GoFloat Model StoreCore SecretBackup HttpJson.
From Stdlib Require Import Floats.SpecFloat.

(** ** Dynamic values *)

(** [m[k] = v]. *)
Fixpoint any_insert (k : string) (v : any) (m : anymap) : anymap :=
  match m with
  | [] => [(k, v)]
  | p :: m => if decide (p.1 = k) then (k, v) :: m else p :: any_insert k v m
  end.
Definition any_inserts (m : anymap) (l : list (string * any)) : anymap :=
  foldl (λ m p, any_insert p.1 p.2 m) m l.

(** A number becomes a [float64], an object a map of its own. *)
Fixpoint dec_any (j : json) : option any :=
  match j with
  | JNull => Some ANil
  | JBool b => Some (ABool b)
  | JNum literal => AFloat <$> ParseFloat literal
  | JStr s => Some (AString s)
  | JArr l => AList <$> mapM dec_any l
  | JObj l => (λ l, AMap (any_inserts [] l)) <$> mapM (λ p : string * json, (p.1,.) <$> dec_any p.2) l
  end.

(** A [map[string]any]: the entries are added to the current map. *)
Definition dec_anymap : decoder (option anymap) := λ cur j,
  match j with
  | JNull => Some None
  | JObj l => (λ l, Some (any_inserts (default [] cur) l)) <$> mapM (λ p : string * json, (p.1,.) <$> dec_any p.2) l
  | _ => None
  end.

Definition enc_members (l : list (string * json)) : json :=
  JObj ((λ k, (k, match list_find (λ p, p.1 = k) l with Some (_, p) => p.2 | None => JNull end)) <$> sort_Strings l.*1).

Fixpoint enc_any (a : any) : option json :=
  match a with
  | ANil => Some JNull
  | ABool b => Some (JBool b)
  | AInt z => Some (enc_int z)
  | AFloat f => JNum <$> FormatFloat f
  | AString s => Some (JStr s)
  | AList l => JArr <$> mapM enc_any l
  | AMap m => enc_members <$> mapM (λ p : string * any, (p.1,.) <$> enc_any p.2) m
  end.
Definition enc_anymap (m : option anymap) : option json :=
  match m with Some m => enc_any (AMap m) | None => Some JNull end.

(** ** Policies *)

(** A field with [omitempty]. *)
Definition anymap_field (name : string) (m : option anymap) : option (list (string * json)) :=
  omitempty (bool_decide (length (default [] m) = 0%nat)) name <$> enc_anymap m.

Definition json_of_CertificatePolicy (p : CertificatePolicy) : option json :=
  issuer ← anymap_field "issuer" (pol_Issuer p);
  key_props ← anymap_field "key_props" (pol_KeyProps p);
  secret_props ← anymap_field "secret_props" (pol_SecretProps p);
  x509_props ← anymap_field "x509_props" (pol_X509Props p);
  actions ← mapM enc_anymap (pol_LifetimeActions p);
  attributes ← anymap_field "attributes" (pol_Attributes p);
  Some (JObj (str_field "id" (pol_ID p) ++ issuer ++ key_props ++ secret_props ++ x509_props ++
    omitempty (bool_decide (length actions = 0%nat)) "lifetime_actions" (JArr actions) ++ attributes)).
(** A nil pointer is null. *)
Definition json_of_policy_ptr (p : option CertificatePolicy) : option json :=
  match p with Some p => json_of_CertificatePolicy p | None => Some JNull end.

(** A policy while it is decoded, with the backing array of its actions. *)
Record raw_policy : Type := mkRawPolicy { rp_policy : CertificatePolicy; rp_actions : nat * list (option anymap) }.
Definition set_policy (f : CertificatePolicy → CertificatePolicy) (r : raw_policy) : raw_policy :=
  mkRawPolicy (f (rp_policy r)) (rp_actions r).
Definition dec_raw_policy : decoder raw_policy := dec_struct [
  field "id" (pol_ID ∘ rp_policy) (λ v, set_policy (λ p, mkCertificatePolicy v (pol_Issuer p) (pol_KeyProps p) (pol_SecretProps p) (pol_X509Props p) (pol_LifetimeActions p) (pol_Attributes p))) dec_string;
  field "issuer" (pol_Issuer ∘ rp_policy) (λ v, set_policy (λ p, mkCertificatePolicy (pol_ID p) v (pol_KeyProps p) (pol_SecretProps p) (pol_X509Props p) (pol_LifetimeActions p) (pol_Attributes p))) dec_anymap;
  field "key_props" (pol_KeyProps ∘ rp_policy) (λ v, set_policy (λ p, mkCertificatePolicy (pol_ID p) (pol_Issuer p) v (pol_SecretProps p) (pol_X509Props p) (pol_LifetimeActions p) (pol_Attributes p))) dec_anymap;
  field "secret_props" (pol_SecretProps ∘ rp_policy) (λ v, set_policy (λ p, mkCertificatePolicy (pol_ID p) (pol_Issuer p) (pol_KeyProps p) v (pol_X509Props p) (pol_LifetimeActions p) (pol_Attributes p))) dec_anymap;
  field "x509_props" (pol_X509Props ∘ rp_policy) (λ v, set_policy (λ p, mkCertificatePolicy (pol_ID p) (pol_Issuer p) (pol_KeyProps p) (pol_SecretProps p) v (pol_LifetimeActions p) (pol_Attributes p))) dec_anymap;
  field "lifetime_actions" rp_actions (λ v r, mkRawPolicy (rp_policy r) v) (dec_slice None dec_anymap);
  field "attributes" (pol_Attributes ∘ rp_policy) (λ v, set_policy (λ p, mkCertificatePolicy (pol_ID p) (pol_Issuer p) (pol_KeyProps p) (pol_SecretProps p) (pol_X509Props p) (pol_LifetimeActions p) v)) dec_anymap].
Definition dec_policy_ptr : decoder (option raw_policy) := dec_ptr (mkRawPolicy zero_policy (0%nat, [])) dec_raw_policy.
Definition policy_of_raw (r : raw_policy) : CertificatePolicy :=
  let p := rp_policy r in
  mkCertificatePolicy (pol_ID p) (pol_Issuer p) (pol_KeyProps p) (pol_SecretProps p) (pol_X509Props p)
    (take (rp_actions r).1 (rp_actions r).2) (pol_Attributes p).

(** ** Requests *)

Record raw_cert_request : Type := mkRawCert {
  rq_value : string; rq_password : string; rq_policy : option raw_policy; rq_attributes : option Attributes; rq_tags : tags }.
Definition zero_raw_cert : raw_cert_request := mkRawCert "" "" None None None.
(** The fields the certificate requests share. *)
Definition attributes_tags_fields : fields raw_cert_request := [
  field "attributes" rq_attributes (λ v r, mkRawCert (rq_value r) (rq_password r) (rq_policy r) v (rq_tags r)) dec_attributes_ptr;
  field "tags" rq_tags (λ v r, mkRawCert (rq_value r) (rq_password r) (rq_policy r) (rq_attributes r) v) dec_string_map].
Definition policy_member : string * decoder raw_cert_request :=
  field "policy" rq_policy (λ v r, mkRawCert (rq_value r) (rq_password r) v (rq_attributes r) (rq_tags r)) dec_policy_ptr.

Definition decode_CreateCertificateRequest (j : json) : option CreateCertificateRequest :=
  (λ r, mkCreateCertificateRequest (policy_of_raw <$> rq_policy r) (rq_attributes r) (rq_tags r))
  <$> dec_struct (policy_member :: attributes_tags_fields) zero_raw_cert j.

Definition decode_ImportCertificateRequest (j : json) : option ImportCertificateRequest :=
  (λ r, mkImportCertificateRequest (rq_value r) (rq_password r) (policy_of_raw <$> rq_policy r) (rq_attributes r) (rq_tags r))
  <$> dec_struct (
    field "value" rq_value (λ v r, mkRawCert v (rq_password r) (rq_policy r) (rq_attributes r) (rq_tags r)) dec_string ::
    field "pwd" rq_password (λ v r, mkRawCert (rq_value r) v (rq_policy r) (rq_attributes r) (rq_tags r)) dec_string ::
    policy_member :: attributes_tags_fields) zero_raw_cert j.

Definition decode_UpdateCertificateRequest (j : json) : option UpdateCertificateRequest :=
  (λ r, mkUpdateCertificateRequest (rq_attributes r) (rq_tags r))
  <$> dec_struct attributes_tags_fields zero_raw_cert j.

(** ** Responses *)

Definition certificate_bundle_members (b : CertificateBundle) : option (list (string * json)) :=
  policy ← match cb_Policy b with
           | Some p => j ← json_of_CertificatePolicy p; Some [("policy"%string, j)]
           | None => Some []
           end;
  Some (str_field "id" (cb_ID b) ++ str_field "kid" (cb_Kid b) ++ str_field "sid" (cb_Sid b) ++ str_field "cer" (cb_Cer b) ++
    [("attributes"%string, json_of_attributes (cb_Attributes b))] ++ tags_field (cb_Tags b) ++ policy).
Definition json_of_CertificateBundle (b : CertificateBundle) : option json := JObj <$> certificate_bundle_members b.

Definition json_of_CertificateItem (i : CertificateItem) : json :=
  JObj (str_field "id" (ci_ID i) ++ str_field "kid" (ci_Kid i) ++ str_field "sid" (ci_Sid i) ++ str_field "x5t" (ci_X5t i) ++
    [("attributes"%string, json_of_attributes (ci_Attributes i))] ++ tags_field (ci_Tags i)).

Definition json_of_DeletedCertificateBundle (d : DeletedCertificateBundle) : option json :=
  (λ ms, JObj (ms ++ deleted_members (dcb_RecoveryID d) (dcb_DeletedDate d) (dcb_ScheduledPurgeDate d)))
  <$> certificate_bundle_members (dcb_CertificateBundle d).

Definition json_of_CertificateOperation (o : CertificateOperation) : json :=
  JObj (str_field "id" (co_ID o) ++ [("status"%string, JStr (co_Status o))] ++ str_field "target" (co_Target o) ++
    str_field "status_details" (co_StatusDetails o)).
