(* ===== verification/SqlCore.v ===== *)
(** * The SQL store's helpers ([internal/store/sqlstore/sqlstore.go])

    The file repeats the helpers of [internal/store/store.go] word for word;
    here they are the same definitions.  The rest turns records into the texts
    of columns and back: JSON for attributes, tags, JSON web keys and
    policies, JSON with base64 DER for key material. *)

From S2P Require Import Prelude GoStrings GoBase64 GoJson GoCrypto GoX509 GoSql Model KeyCrypto StoreCore SecretBackup KeyStore CertStore HttpJson CertJson SqlSchema.
From Stdlib Require Import Floats.SpecFloat.

Definition recoveryLevel : string := StoreCore.recoveryLevel.
Definition recoverableDays : Z := StoreCore.recoverableDays.
Definition cloneTags : tags → tags := StoreCore.cloneTags.
Definition cloneAttributes : Attributes → Attributes := StoreCore.cloneAttributes.
Definition buildAttributes : option Attributes → Z → Z → Attributes := StoreCore.buildAttributes.
Definition mergeAttributes : Env → Attributes → option Attributes → Attributes := StoreCore.mergeAttributes.
Definition nowUnix : Env → Z := StoreCore.nowUnix.
Definition newVersion : Env → outcome error string := StoreCore.newVersion.
Definition newRecoveryID : Env → string → string → outcome error string := StoreCore.newRecoveryID.
Definition clonePolicy : option CertificatePolicy → option CertificatePolicy := CertStore.clonePolicy.
Definition defaultCertificatePolicy : string → option CertificatePolicy → CertificatePolicy :=
  CertStore.defaultCertificatePolicy.
Definition defaultKeyOps : string → list string → list string := KeyStore.defaultKeyOps.
Definition paginateNames {T} : list T → string → Z → outcome error (list T * option string) :=
  StoreCore.paginateNames.

(** [time.Now().UnixNano()]: the [i]-th reading of the clock, in an [int64]. *)
Definition tsNano (e : Env) (i : nat) : Z := wrap64 (clock e i * 10 ^ 9 + clock_nanos e i).

(** ** Columns *)

Definition marshal (j : json) : string := of_bytes (json_print j).

Definition marshalTags (t : tags) : outcome error string := Ok (marshal (enc_string_map t)).
Definition marshalAttrs (attrs : Attributes) : outcome error string := Ok (marshal (json_of_attributes attrs)).
Definition marshalJWK (jwk : JSONWebKey) : outcome error string := Ok (marshal (json_of_JSONWebKey jwk)).

(** The text of the error for a float JSON has no number for; the encoder
    stops at the first one. *)
Definition non_finite (f : spec_float) : option string :=
  match f with
  | S754_nan => Some "NaN"%string
  | S754_infinity s => Some (if s then "-Inf" else "+Inf")%string
  | _ => None
  end.
Fixpoint unsupported (a : any) : option string :=
  match a with
  | AFloat f => non_finite f
  | AList l => head (omap id (map unsupported l))
  | AMap m =>
      let found := map (λ p : string * any, (p.1, unsupported p.2)) m in
      head (omap (λ k, match list_find (λ p : string * option string, p.1 = k) found with Some (_, p) => p.2 | None => None end)
        (sort_Strings m.*1))
  | _ => None
  end.
Definition policy_unsupported (p : CertificatePolicy) : string :=
  let parts := [pol_Issuer p; pol_KeyProps p; pol_SecretProps p; pol_X509Props p] ++ pol_LifetimeActions p ++
    [pol_Attributes p] in
  default ""%string (head (omap (λ m, unsupported (AMap (default [] m))) parts)).

Definition marshalPolicyArg (policy : option CertificatePolicy) : outcome error value :=
  match policy with
  | None => Ok VNull
  | Some policy =>
      match json_of_CertificatePolicy policy with
      | Some j => Ok (VText (marshal j))
      | None => Err (OtherError (Text ("json: unsupported value: " ++ policy_unsupported policy)%string))
      end
  end.

Definition jwk_json (j : json) : option JSONWebKey := jwk_of_raw <$> dec_raw_jwk (∅, None) j.
Definition policy_json (j : json) : option CertificatePolicy :=
  policy_of_raw <$> dec_raw_policy (mkRawPolicy zero_policy (0%nat, [])) j.

(** [var count int; ... Scan(&count)]. *)
Definition scan_count (r : row) : outcome message Z := let! _ := scan_width 1 r in scan_int r 0.

Section columns.
Context `{JE : JsonErrors}.

(** [err := json.Unmarshal([]byte(s), &v)]; the caller returns [err]. *)
Definition unmarshal {T} (type : string) (decode : json → option T) (s : string) : outcome error T :=
  match json_parse (to_bytes s) ≫= decode with
  | Some v => Ok v
  | None => Err (OtherError (json_error type (to_bytes s)))
  end.

Definition unmarshalTags : string → outcome error tags := unmarshal "map[string]string" (dec_string_map None).
Definition unmarshalAttrs : string → outcome error Attributes :=
  unmarshal "model.Attributes" (dec_attributes zero_attributes).
Definition unmarshalJWK : string → outcome error JSONWebKey := unmarshal "model.JSONWebKey" jwk_json.
Definition unmarshalPolicyNS (ns : option string) : outcome error (option CertificatePolicy) :=
  match ns with
  | None => Ok None
  | Some s =>
      if decide (s = ""%string) then Ok None
      else o_map Some (unmarshal "model.CertificatePolicy" policy_json s)
  end.

(** ** Key material *)

Record serializedKeyMaterial : Type := mkSerialized {
  skm_RSAPriv : string;
  skm_RSAPub : string;
  skm_ECPriv : string;
  skm_ECPub : string;
  skm_AES : string;
}.
Definition zero_serialized : serializedKeyMaterial := mkSerialized "" "" "" "" "".
Definition json_of_serialized (s : serializedKeyMaterial) : json :=
  JObj (str_field "rsa_priv" (skm_RSAPriv s) ++ str_field "rsa_pub" (skm_RSAPub s) ++ str_field "ec_priv" (skm_ECPriv s) ++
    str_field "ec_pub" (skm_ECPub s) ++ str_field "aes" (skm_AES s)).
Definition dec_serialized : decoder serializedKeyMaterial := dec_struct [
  field "rsa_priv" skm_RSAPriv (λ v s, mkSerialized v (skm_RSAPub s) (skm_ECPriv s) (skm_ECPub s) (skm_AES s)) dec_string;
  field "rsa_pub" skm_RSAPub (λ v s, mkSerialized (skm_RSAPriv s) v (skm_ECPriv s) (skm_ECPub s) (skm_AES s)) dec_string;
  field "ec_priv" skm_ECPriv (λ v s, mkSerialized (skm_RSAPriv s) (skm_RSAPub s) v (skm_ECPub s) (skm_AES s)) dec_string;
  field "ec_pub" skm_ECPub (λ v s, mkSerialized (skm_RSAPriv s) (skm_RSAPub s) (skm_ECPriv s) v (skm_AES s)) dec_string;
  field "aes" skm_AES (λ v s, mkSerialized (skm_RSAPriv s) (skm_RSAPub s) (skm_ECPriv s) (skm_ECPub s) v) dec_string].

Context `{X : CertLib} `{KD : KeyDer}.

Definition base64_text (der : bytes) : string := b64_EncodeToString StdEncoding der.
(** A Go error of a library call, returned as it is. *)
Definition returned {A} (o : outcome message A) : outcome error A := o_maperr OtherError o.
Definition base64_data (s : string) : outcome error bytes :=
  o_maperr (λ off, OtherError (CorruptInputError off)) (b64_DecodeString StdEncoding s).

Definition serializeKeyMaterial (material : KeyMaterial) : outcome error string :=
  let rsa :=
    match km_RSA material, km_RSAPub material with
    | Some k, _ => (base64_text (x509_MarshalPKCS1PrivateKey k), base64_text (x509_MarshalPKCS1PublicKey (rsa_Public k)))
    | None, Some k => (""%string, base64_text (x509_MarshalPKCS1PublicKey k))
    | None, None => (""%string, ""%string)
    end in
  let! ec :=
    match km_ECDSA material, km_ECDSAPub material with
    | Some k, _ =>
        let! der := returned (x509_MarshalECPrivateKey k) in
        let! der2 := returned (x509_MarshalPKIX_ecdsa (ec_Public k)) in
        Ok (base64_text der, base64_text der2)
    | None, Some k =>
        let! der := returned (x509_MarshalPKIX_ecdsa k) in
        Ok (""%string, base64_text der)
    | None, None => Ok (""%string, ""%string)
    end in
  let aes := match km_AES material with Some key => base64_text key | None => ""%string end in
  Ok (marshal (json_of_serialized (mkSerialized rsa.1 rsa.2 ec.1 ec.2 aes))).

Definition deserializeKeyMaterial (data : string) : outcome error KeyMaterial :=
  let! s := unmarshal "sqlstore.serializedKeyMaterial" (dec_serialized zero_serialized) data in
  let! rsa :=
    if decide (skm_RSAPriv s ≠ ""%string) then
      let! der := base64_data (skm_RSAPriv s) in
      let! priv := returned (x509_ParsePKCS1PrivateKey der) in
      Ok (Some priv, Some (rsa_Public priv))
    else if decide (skm_RSAPub s ≠ ""%string) then
      let! der := base64_data (skm_RSAPub s) in
      let! pub := returned (x509_ParsePKCS1PublicKey der) in
      Ok (None, Some pub)
    else Ok (None, None) in
  let! ec :=
    if decide (skm_ECPriv s ≠ ""%string) then
      let! der := base64_data (skm_ECPriv s) in
      let! priv := returned (x509_ParseECPrivateKey der) in
      Ok (Some priv, Some (ec_Public priv))
    else if decide (skm_ECPub s ≠ ""%string) then
      let! der := base64_data (skm_ECPub s) in
      let! pub := returned (x509_ParsePKIXPublicKey der) in
      Ok (None, pub)
    else Ok (None, None) in
  let! aes :=
    if decide (skm_AES s ≠ ""%string) then o_map Some (base64_data (skm_AES s)) else Ok None in
  Ok (mkKeyMaterial rsa.1 ec.1 aes rsa.2 ec.2).
End columns.

(** ** The deleted table *)

Definition checkNotDeleted (f : DBFlavor) (table name kind : string) : SP unit :=
  let+ count := db_QueryRow ("SELECT COUNT(*) FROM " ++ table ++ " WHERE name = " ++ ph f 1)%string [VText name] scan_count in
  if decide (0 < count) then
    p_fail (newError StatusConflict "InvalidOperation"
      (kind ++ " " ++ name ++ " is currently deleted and cannot be reused until recovered or purged.")%string)
  else p_ret ().

(** [deletedSecretRow], [deletedKeyRow] and [deletedCertRow], which are the
    same struct, and how they are scanned. *)
Record deletedRow : Type := mkDeletedRow {
  dr_Name : string;
  dr_RecoveryID : string;
  dr_DeletedDate : Z;
  dr_ScheduledPurgeDate : Z;
  dr_Versions : string;
}.
Definition scan_deletedRow (r : row) : outcome message deletedRow :=
  let! _ := scan_width 5 r in
  let! name := scan_text r 0 in
  let! recovery_id := scan_text r 1 in
  let! deleted_date := scan_int r 2 in
  let! purge_date := scan_int r 3 in
  let! versions := scan_text r 4 in
  Ok (mkDeletedRow name recovery_id deleted_date purge_date versions).

(** Five string destinations. *)
Definition scan_five_texts (r : row) : outcome message (string * string * string * string * string) :=
  let! _ := scan_width 5 r in
  let! c1 := scan_text r 0 in
  let! c2 := scan_text r 1 in
  let! c3 := scan_text r 2 in
  let! c4 := scan_text r 3 in
  let! c5 := scan_text r 4 in
  Ok (c1, c2, c3, c4, c5).

(** [err == sql.ErrNoRows] becomes [missing]; other errors are returned. *)
Definition or_missing {A} (missing : error) (o : outcome sql_error A) : SP A :=
  match o with
  | Err ErrNoRows => p_fail missing
  | o => Done (o_maperr db_error o)
  end.

(** [var name string; ... Scan(&name)] on every row. *)
Definition scan_name (r : row) : outcome error string :=
  returned (let! _ := scan_width 1 r in scan_text r 0).
