(* ===== verification/SqlSecrets.v ===== *)
(** * The SQL store: secrets ([internal/store/sqlstore/sqlstore.go])

    Each operation is a program of statements.  The store takes no lock and
    opens no transaction, so the statements of two requests may interleave. *)

From S2P Require Import Prelude GoStrings GoBase64 GoJson GoSql Model StoreCore SecretStore SecretBackup HttpJson SqlSchema SqlCore.

Section secrets.
Context `{JE : JsonErrors} (f : DBFlavor).

Definition secret_missing (name : string) : error :=
  newError StatusNotFound "SecretNotFound" ("A secret with (name/id) " ++ name ++ " was not found in this key vault.")%string.
Definition deleted_secret_missing (name : string) : error :=
  newError StatusNotFound "SecretNotFound" ("A deleted secret with name " ++ name ++ " was not found in this key vault.")%string.

(** [index out of range]: the last element of an empty slice. *)
Definition last_of {A} (l : list A) : outcome error A :=
  match last l with Some v => Ok v | None => Panic "runtime error: index out of range [-1]" end.

(** ** Rows *)

Definition insertSecretRow (rec : SecretRecord) (ts : Z) : SP unit :=
  let+ attrsJSON := Done (marshalAttrs (sr_Attributes rec)) in
  let+ tagsJSON := Done (marshalTags (sr_Tags rec)) in
  db_Exec ("INSERT INTO kv_secrets (name, version, value, content_type, attributes, tags, created_at) VALUES (" ++
      phs f 1 7 ++ ")")%string
    [VText (sr_Name rec); VText (sr_Version rec); VText (sr_Value rec); VText (sr_ContentType rec);
     VText attrsJSON; VText tagsJSON; VInt ts].

(** What follows the scan: the columns of a version, decoded. *)
Definition secret_of_columns (name : string) (c : string * string * string * string * string) : outcome error SecretRecord :=
  let '(ver, value, contentType, attrsJSON, tagsJSON) := c in
  let! attrs := unmarshalAttrs attrsJSON in
  let! tags := unmarshalTags tagsJSON in
  Ok (mkSecretRecord name ver value contentType attrs tags).

Definition getSecretVersionRow (name version : string) : SP SecretRecord :=
  let+ c :=
    if decide (version = ""%string) then
      QueryRow ("SELECT version, value, content_type, attributes, tags FROM kv_secrets WHERE name = " ++ ph f 1 ++
          " ORDER BY created_at DESC " ++ limitOne f)%string [VText name] scan_five_texts (or_missing (secret_missing name))
    else
      QueryRow ("SELECT version, value, content_type, attributes, tags FROM kv_secrets WHERE name = " ++ ph f 1 ++
          " AND version = " ++ ph f 2)%string [VText name; VText version] scan_five_texts (or_missing (secret_missing name)) in
  Done (secret_of_columns name c).

(** ** Operations on live secrets *)

Definition SetSecret (e : Env) (name : string) (req : SecretSetRequest) : SP SecretRecord :=
  if decide (name = ""%string)
  then p_fail (newError StatusBadRequest "BadParameter" "Secret name is required.") else
  if decide (ssr_Value req = ""%string)
  then p_fail (newError StatusBadRequest "BadParameter" "Secret value is required.") else
  let+ _ := checkNotDeleted f "kv_deleted_secrets" name "Secret" in
  let now := nowUnix e in
  let+ version := Done (newVersion e) in
  let rec := mkSecretRecord name version (ssr_Value req) (ssr_ContentType req)
    (buildAttributes (ssr_Attributes req) now now) (cloneTags (ssr_Tags req)) in
  let+ _ := insertSecretRow rec (tsNano e 1) in
  p_ret rec.

Definition GetSecret (name version : string) : SP SecretRecord := getSecretVersionRow name version.

Definition ListSecrets (maxResults : Z) (skipToken : string) : SP (list SecretRecord * option string) :=
  let+ names := query_rows db_error "SELECT DISTINCT name FROM kv_secrets ORDER BY name" [] scan_name in
  let+ pn := Done (paginateNames names skipToken maxResults) in
  let '(page, next) := pn in
  let+ items := p_traverse (λ name, let+ rec := getSecretVersionRow name "" in p_ret (blank_value rec)) page in
  p_ret (items, next).

(** A version without its value, scanned and decoded. *)
Definition scan_listed_secret (name : string) (r : row) : outcome error SecretRecord :=
  let! c := returned (
    let! _ := scan_width 4 r in
    let! version := scan_text r 0 in
    let! contentType := scan_text r 1 in
    let! attrsJSON := scan_text r 2 in
    let! tagsJSON := scan_text r 3 in
    Ok (version, contentType, attrsJSON, tagsJSON)) in
  let '(version, contentType, attrsJSON, tagsJSON) := c in
  let! attrs := unmarshalAttrs attrsJSON in
  let! tags := unmarshalTags tagsJSON in
  Ok (mkSecretRecord name version "" contentType attrs tags).

Definition ListSecretVersions (name : string) (maxResults : Z) (skipToken : string)
    : SP (list SecretRecord * option string) :=
  let+ count := db_QueryRow ("SELECT COUNT(*) FROM kv_secrets WHERE name = " ++ ph f 1)%string [VText name] scan_count in
  if decide (count = 0) then p_fail (secret_missing name) else
  let+ versions := query_rows db_error
    ("SELECT version, content_type, attributes, tags FROM kv_secrets WHERE name = " ++ ph f 1 ++ " ORDER BY created_at DESC")%string
    [VText name] (scan_listed_secret name) in
  Done (paginateNames versions skipToken maxResults).

Definition UpdateSecret (e : Env) (name version : string) (req : SecretUpdateRequest) : SP SecretRecord :=
  let+ found := getSecretVersionRow name version in
  let rec := update_secret_record e req found in
  let+ attrsJSON := Done (marshalAttrs (sr_Attributes rec)) in
  let+ tagsJSON := Done (marshalTags (sr_Tags rec)) in
  let+ _ := db_Exec ("UPDATE kv_secrets SET content_type = " ++ ph f 1 ++ ", attributes = " ++ ph f 2 ++ ", tags = " ++
      ph f 3 ++ " WHERE name = " ++ ph f 4 ++ " AND version = " ++ ph f 5)%string
    [VText (sr_ContentType rec); VText attrsJSON; VText tagsJSON; VText (sr_Name rec); VText (sr_Version rec)] in
  p_ret rec.

(** ** Deleted secrets: all versions in one row, as JSON *)

Record secretVersionSnapshot : Type := mkSecretSnapshot {
  ss_Version : string;
  ss_Value : string;
  ss_ContentType : string;
  ss_Attributes : Attributes;
  ss_Tags : tags;
  ss_CreatedAt : Z;
}.
Definition zero_snapshot : secretVersionSnapshot := mkSecretSnapshot "" "" "" zero_attributes None 0.
Definition json_of_secret_snapshot (s : secretVersionSnapshot) : json :=
  JObj [("version", JStr (ss_Version s)); ("value", JStr (ss_Value s)); ("content_type", JStr (ss_ContentType s));
        ("attributes", json_of_attributes (ss_Attributes s)); ("tags", enc_string_map (ss_Tags s));
        ("created_at", enc_int (ss_CreatedAt s))]%string.
Definition dec_secret_snapshot : decoder secretVersionSnapshot := dec_struct [
  field "version" ss_Version (λ v s, mkSecretSnapshot v (ss_Value s) (ss_ContentType s) (ss_Attributes s) (ss_Tags s) (ss_CreatedAt s)) dec_string;
  field "value" ss_Value (λ v s, mkSecretSnapshot (ss_Version s) v (ss_ContentType s) (ss_Attributes s) (ss_Tags s) (ss_CreatedAt s)) dec_string;
  field "content_type" ss_ContentType (λ v s, mkSecretSnapshot (ss_Version s) (ss_Value s) v (ss_Attributes s) (ss_Tags s) (ss_CreatedAt s)) dec_string;
  field "attributes" ss_Attributes (λ v s, mkSecretSnapshot (ss_Version s) (ss_Value s) (ss_ContentType s) v (ss_Tags s) (ss_CreatedAt s)) dec_attributes;
  field "tags" ss_Tags (λ v s, mkSecretSnapshot (ss_Version s) (ss_Value s) (ss_ContentType s) (ss_Attributes s) v (ss_CreatedAt s)) dec_string_map;
  field "created_at" ss_CreatedAt (λ v s, mkSecretSnapshot (ss_Version s) (ss_Value s) (ss_ContentType s) (ss_Attributes s) (ss_Tags s) v) dec_int64].

(** [deletedSecretPayload]; the slice of the snapshots is nil when there is none. *)
Definition json_of_secret_payload (versions : list secretVersionSnapshot) : json :=
  JObj [("versions"%string, match versions with [] => JNull | _ => JArr (map json_of_secret_snapshot versions) end)].
Definition secret_payload_json (j : json) : option (list secretVersionSnapshot) :=
  (λ sl : nat * list secretVersionSnapshot, take sl.1 sl.2) <$>
  dec_struct [("versions"%string, dec_slice zero_snapshot dec_secret_snapshot)] (0%nat, []) j.
Definition unmarshal_secret_payload : string → outcome error (list secretVersionSnapshot) :=
  unmarshal "sqlstore.deletedSecretPayload" secret_payload_json.

(** One row of them, scanned and decoded. *)
Definition scan_secret_snapshot (r : row) : outcome error secretVersionSnapshot :=
  let! c := returned (
    let! _ := scan_width 6 r in
    let! version := scan_text r 0 in
    let! value := scan_text r 1 in
    let! contentType := scan_text r 2 in
    let! attrsJSON := scan_text r 3 in
    let! tagsJSON := scan_text r 4 in
    let! created := scan_int r 5 in
    Ok (version, value, contentType, attrsJSON, tagsJSON, created)) in
  let '(version, value, contentType, attrsJSON, tagsJSON, created) := c in
  let! attrs := unmarshalAttrs attrsJSON in
  let! tags := unmarshalTags tagsJSON in
  Ok (mkSecretSnapshot version value contentType attrs tags created).

Definition allSecretVersionSnapshots (name : string) : SP (list secretVersionSnapshot) :=
  query_rows db_error
    ("SELECT version, value, content_type, attributes, tags, created_at FROM kv_secrets WHERE name = " ++ ph f 1 ++
     " ORDER BY created_at ASC")%string
    [VText name] scan_secret_snapshot.

Definition DeleteSecret (e : Env) (name : string) : SP DeletedSecretRecord :=
  let+ latest := getSecretVersionRow name "" in
  let+ count := db_QueryRow ("SELECT COUNT(*) FROM kv_deleted_secrets WHERE name = " ++ ph f 1)%string
    [VText name] scan_count in
  if decide (0 < count) then p_fail (secret_missing name) else
  let+ snapshots := allSecretVersionSnapshots name in
  let payload := marshal (json_of_secret_payload snapshots) in
  let now := nowUnix e in
  let+ recoveryID := Done (newRecoveryID e "secrets" name) in
  let+ _ := db_Exec ("INSERT INTO kv_deleted_secrets (name, recovery_id, deleted_date, scheduled_purge_date, versions) VALUES (" ++
      phs f 1 5 ++ ")")%string
    [VText name; VText recoveryID; VInt now; VInt (scheduledPurge now); VText payload] in
  let+ _ := db_Exec ("DELETE FROM kv_secrets WHERE name = " ++ ph f 1)%string [VText name] in
  p_ret (mkDeletedSecretRecord latest recoveryID now (scheduledPurge now)).

Definition getDeletedSecretRow (name : string) : SP deletedRow :=
  QueryRow ("SELECT name, recovery_id, deleted_date, scheduled_purge_date, versions FROM kv_deleted_secrets WHERE name = " ++
      ph f 1)%string [VText name] scan_deletedRow (or_missing (deleted_secret_missing name)).

Definition snapshot_record (name : string) (s : secretVersionSnapshot) : SecretRecord :=
  mkSecretRecord name (ss_Version s) (ss_Value s) (ss_ContentType s) (ss_Attributes s) (cloneTags (ss_Tags s)).

Definition deletedSecretFromRow (r : deletedRow) : outcome error DeletedSecretRecord :=
  let! versions := unmarshal_secret_payload (dr_Versions r) in
  match last versions with
  | None => Err (OtherError (Text ("deleted secret " ++ dr_Name r ++ " has no versions")%string))
  | Some latest =>
      Ok (mkDeletedSecretRecord (snapshot_record (dr_Name r) latest) (dr_RecoveryID r) (dr_DeletedDate r)
        (dr_ScheduledPurgeDate r))
  end.

Definition ListDeletedSecrets (maxResults : Z) (skipToken : string) : SP (list DeletedSecretRecord * option string) :=
  let+ names := query_rows db_error "SELECT name FROM kv_deleted_secrets ORDER BY name" [] scan_name in
  let+ pn := Done (paginateNames names skipToken maxResults) in
  let '(page, next) := pn in
  let+ items := p_traverse (λ name,
    let+ r := getDeletedSecretRow name in
    let+ rec := Done (deletedSecretFromRow r) in
    p_ret (blank_deleted rec)) page in
  p_ret (items, next).

Definition GetDeletedSecret (name : string) : SP DeletedSecretRecord :=
  let+ r := getDeletedSecretRow name in Done (deletedSecretFromRow r).

Definition PurgeDeletedSecret (name : string) : SP unit :=
  let+ _ := getDeletedSecretRow name in
  db_Exec ("DELETE FROM kv_deleted_secrets WHERE name = " ++ ph f 1)%string [VText name].

Definition RecoverDeletedSecret (name : string) : SP SecretRecord :=
  let+ count := db_QueryRow ("SELECT COUNT(*) FROM kv_secrets WHERE name = " ++ ph f 1)%string [VText name] scan_count in
  if decide (0 < count)
  then p_fail (newError StatusConflict "Conflict" ("Secret " ++ name ++ " already exists.")%string) else
  let+ r := getDeletedSecretRow name in
  let+ versions := Done (unmarshal_secret_payload (dr_Versions r)) in
  let+ _ := p_iter (λ p : nat * secretVersionSnapshot,
      insertSecretRow (snapshot_record name p.2) (wrap64 (ss_CreatedAt p.2 + Z.of_nat p.1)))
    (imap pair versions) in
  let+ _ := db_Exec ("DELETE FROM kv_deleted_secrets WHERE name = " ++ ph f 1)%string [VText name] in
  Done (let! latest := last_of versions in Ok (snapshot_record name latest)).

(** ** Backup and restore *)

Definition BackupSecret (name : string) : SP string :=
  let+ _ := getSecretVersionRow name "" in
  let+ snapshots := allSecretVersionSnapshots name in
  let data := json_print (json_of_backup name (snapshot_record name <$> snapshots)) in
  p_ret (b64_EncodeToString StdEncoding data).

Definition restored_record (name : string) (ver : SecretRecord) : SecretRecord :=
  let a := sr_Attributes ver in
  mkSecretRecord name (sr_Version ver) (sr_Value ver) (sr_ContentType ver)
    (mkAttributes (Enabled a) (NotBefore a) (Expires a) (Created a) (Updated a) recoveryLevel recoverableDays)
    (sr_Tags ver).

Definition RestoreSecret (token : string) : SP SecretRecord :=
  match b64_DecodeString StdEncoding token with
  | Ok raw =>
      match unmarshal_backup raw with
      | Some payload =>
          let name := bk_Name payload in
          let versions := take (bk_Versions payload).1 (bk_Versions payload).2 in
          if decide (name = ""%string ∨ length versions = 0%nat) then p_fail invalid_backup else
          let+ _ := db_Exec ("DELETE FROM kv_secrets WHERE name = " ++ ph f 1)%string [VText name] in
          let+ _ := exec_ignore ("DELETE FROM kv_deleted_secrets WHERE name = " ++ ph f 1)%string [VText name] in
          let+ _ := p_iter (λ p : nat * SecretRecord, insertSecretRow (restored_record name p.2) (wrap64 (Z.of_nat p.1)))
            (imap pair versions) in
          Done (
            let! latest := last_of versions in
            Ok (mkSecretRecord name (sr_Version latest) (sr_Value latest) (sr_ContentType latest) (sr_Attributes latest)
              (sr_Tags latest)))
      | None => p_fail invalid_backup
      end
  | _ => p_fail invalid_backup
  end.
End secrets.
