(* ===== verification/SqlKeys.v ===== *)
(** * The SQL store: keys ([internal/store/sqlstore/sqlstore.go]) *)

From S2P Require Import Prelude GoStrings GoBase64 GoJson GoCrypto GoX509 GoSql AesModes Model KeyCrypto StoreCore SecretBackup KeyStore HttpJson SqlSchema SqlCore SqlSecrets.

Section keys.
Context `{JE : JsonErrors} `{X : CertLib} `{KD : KeyDer} (f : DBFlavor).

Definition key_missing (name : string) : error :=
  newError StatusNotFound "KeyNotFound" ("A key with (name/id) " ++ name ++ " was not found in this key vault.")%string.
Definition deleted_key_missing (name : string) : error :=
  newError StatusNotFound "KeyNotFound" ("A deleted key with name " ++ name ++ " was not found in this key vault.")%string.

(** ** Rows *)

Definition insertKeyRow (rec : KeyRecord) (material : KeyMaterial) (ts : Z) : SP unit :=
  let+ jwkJSON := Done (marshalJWK (kr_Key rec)) in
  let+ matJSON := Done (serializeKeyMaterial material) in
  let+ attrsJSON := Done (marshalAttrs (kr_Attributes rec)) in
  let+ tagsJSON := Done (marshalTags (kr_Tags rec)) in
  db_Exec ("INSERT INTO kv_keys (name, version, jwk, key_material, attributes, tags, created_at) VALUES (" ++
      phs f 1 7 ++ ")")%string
    [VText (kr_Name rec); VText (kr_Version rec); VText jwkJSON; VText matJSON; VText attrsJSON; VText tagsJSON; VInt ts].

Definition getKeyVersionRow (name version : string) : SP (KeyRecord * KeyMaterial) :=
  let+ c :=
    if decide (version = ""%string) then
      QueryRow ("SELECT version, jwk, key_material, attributes, tags FROM kv_keys WHERE name = " ++ ph f 1 ++
          " ORDER BY created_at DESC " ++ limitOne f)%string [VText name] scan_five_texts (or_missing (key_missing name))
    else
      QueryRow ("SELECT version, jwk, key_material, attributes, tags FROM kv_keys WHERE name = " ++ ph f 1 ++
          " AND version = " ++ ph f 2)%string [VText name; VText version] scan_five_texts (or_missing (key_missing name)) in
  let '(ver, jwkJSON, matJSON, attrsJSON, tagsJSON) := c in
  Done (
    let! jwk := unmarshalJWK jwkJSON in
    let! material := deserializeKeyMaterial matJSON in
    let! attrs := unmarshalAttrs attrsJSON in
    let! tags := unmarshalTags tagsJSON in
    Ok (mkKeyRecord name ver jwk attrs tags, material)).

(** ** Operations on live keys *)

Definition GetKey (name version : string) : SP KeyRecord :=
  let+ rm := getKeyVersionRow name version in p_ret rm.1.

Definition ListKeys (maxResults : Z) (skipToken : string) : SP (list KeyRecord * option string) :=
  let+ names := query_rows db_error "SELECT DISTINCT name FROM kv_keys ORDER BY name" [] scan_name in
  let+ pn := Done (paginateNames names skipToken maxResults) in
  let '(page, next) := pn in
  let+ items := p_traverse (λ name, let+ rm := getKeyVersionRow name "" in p_ret rm.1) page in
  p_ret (items, next).

Definition ListKeyVersions (name : string) (maxResults : Z) (skipToken : string)
    : SP (list KeyRecord * option string) :=
  let+ count := db_QueryRow ("SELECT COUNT(*) FROM kv_keys WHERE name = " ++ ph f 1)%string [VText name] scan_count in
  if decide (count = 0) then p_fail (key_missing name) else
  let+ versions := query_rows db_error
    ("SELECT version, jwk, attributes, tags FROM kv_keys WHERE name = " ++ ph f 1 ++ " ORDER BY created_at DESC")%string
    [VText name] (λ r,
      let! c := returned (
        let! _ := scan_width 4 r in
        let! version := scan_text r 0 in
        let! jwkJSON := scan_text r 1 in
        let! attrsJSON := scan_text r 2 in
        let! tagsJSON := scan_text r 3 in
        Ok (version, jwkJSON, attrsJSON, tagsJSON)) in
      let '(version, jwkJSON, attrsJSON, tagsJSON) := c in
      let! jwk := unmarshalJWK jwkJSON in
      let! attrs := unmarshalAttrs attrsJSON in
      let! tags := unmarshalTags tagsJSON in
      Ok (mkKeyRecord name version jwk attrs tags)) in
  Done (paginateNames versions skipToken maxResults).

Definition UpdateKey (e : Env) (name version : string) (req : UpdateKeyRequest) : SP KeyRecord :=
  let+ found := getKeyVersionRow name version in
  let rec := update_key_record e req found.1 in
  let+ jwkJSON := Done (marshalJWK (kr_Key rec)) in
  let+ attrsJSON := Done (marshalAttrs (kr_Attributes rec)) in
  let+ tagsJSON := Done (marshalTags (kr_Tags rec)) in
  let+ _ := db_Exec ("UPDATE kv_keys SET jwk = " ++ ph f 1 ++ ", attributes = " ++ ph f 2 ++ ", tags = " ++ ph f 3 ++
      " WHERE name = " ++ ph f 4 ++ " AND version = " ++ ph f 5)%string
    [VText jwkJSON; VText attrsJSON; VText tagsJSON; VText (kr_Name rec); VText (kr_Version rec)] in
  p_ret rec.

(** ** Deleted keys *)

Record keyVersionSnapshot : Type := mkKeySnapshot {
  ks_Version : string;
  ks_Key : JSONWebKey;
  ks_Material : string;
  ks_Attributes : Attributes;
  ks_Tags : tags;
  ks_CreatedAt : Z;
}.
Definition json_of_key_snapshot (s : keyVersionSnapshot) : json :=
  JObj [("version", JStr (ks_Version s)); ("key", json_of_JSONWebKey (ks_Key s)); ("material", JStr (ks_Material s));
        ("attributes", json_of_attributes (ks_Attributes s)); ("tags", enc_string_map (ks_Tags s));
        ("created_at", enc_int (ks_CreatedAt s))]%string.

(** A snapshot while it is decoded: its key as [raw_jwk] holds it. *)
Record raw_key_snapshot : Type := mkRawKeySnapshot {
  rk_Version : string; rk_Key : raw_jwk; rk_Material : string; rk_Attributes : Attributes; rk_Tags : tags; rk_CreatedAt : Z }.
Definition zero_raw_key_snapshot : raw_key_snapshot := mkRawKeySnapshot "" (∅, None) "" zero_attributes None 0.
Definition dec_raw_key_snapshot : decoder raw_key_snapshot := dec_struct [
  field "version" rk_Version (λ v s, mkRawKeySnapshot v (rk_Key s) (rk_Material s) (rk_Attributes s) (rk_Tags s) (rk_CreatedAt s)) dec_string;
  field "key" rk_Key (λ v s, mkRawKeySnapshot (rk_Version s) v (rk_Material s) (rk_Attributes s) (rk_Tags s) (rk_CreatedAt s)) dec_raw_jwk;
  field "material" rk_Material (λ v s, mkRawKeySnapshot (rk_Version s) (rk_Key s) v (rk_Attributes s) (rk_Tags s) (rk_CreatedAt s)) dec_string;
  field "attributes" rk_Attributes (λ v s, mkRawKeySnapshot (rk_Version s) (rk_Key s) (rk_Material s) v (rk_Tags s) (rk_CreatedAt s)) dec_attributes;
  field "tags" rk_Tags (λ v s, mkRawKeySnapshot (rk_Version s) (rk_Key s) (rk_Material s) (rk_Attributes s) v (rk_CreatedAt s)) dec_string_map;
  field "created_at" rk_CreatedAt (λ v s, mkRawKeySnapshot (rk_Version s) (rk_Key s) (rk_Material s) (rk_Attributes s) (rk_Tags s) v) dec_int64].
Definition key_snapshot_of_raw (s : raw_key_snapshot) : keyVersionSnapshot :=
  mkKeySnapshot (rk_Version s) (jwk_of_raw (rk_Key s)) (rk_Material s) (rk_Attributes s) (rk_Tags s) (rk_CreatedAt s).

Definition json_of_key_payload (versions : list keyVersionSnapshot) : json :=
  JObj [("versions"%string, match versions with [] => JNull | _ => JArr (map json_of_key_snapshot versions) end)].
Definition key_payload_json (j : json) : option (list keyVersionSnapshot) :=
  (λ sl : nat * list raw_key_snapshot, key_snapshot_of_raw <$> take sl.1 sl.2) <$>
  dec_struct [("versions"%string, dec_slice zero_raw_key_snapshot dec_raw_key_snapshot)] (0%nat, []) j.
Definition unmarshal_key_payload : string → outcome error (list keyVersionSnapshot) :=
  unmarshal "sqlstore.deletedKeyPayload" key_payload_json.

Definition allKeyVersionSnapshots (name : string) : SP (list keyVersionSnapshot) :=
  query_rows db_error
    ("SELECT version, jwk, key_material, attributes, tags, created_at FROM kv_keys WHERE name = " ++ ph f 1 ++
     " ORDER BY created_at ASC")%string
    [VText name] (λ r,
      let! c := returned (
        let! _ := scan_width 6 r in
        let! version := scan_text r 0 in
        let! jwkJSON := scan_text r 1 in
        let! material := scan_text r 2 in
        let! attrsJSON := scan_text r 3 in
        let! tagsJSON := scan_text r 4 in
        let! created := scan_int r 5 in
        Ok (version, jwkJSON, material, attrsJSON, tagsJSON, created)) in
      let '(version, jwkJSON, material, attrsJSON, tagsJSON, created) := c in
      let! jwk := unmarshalJWK jwkJSON in
      let! attrs := unmarshalAttrs attrsJSON in
      let! tags := unmarshalTags tagsJSON in
      Ok (mkKeySnapshot version jwk material attrs tags created)).

Definition DeleteKey (e : Env) (name : string) : SP DeletedKeyRecord :=
  let+ latest := getKeyVersionRow name "" in
  let+ count := db_QueryRow ("SELECT COUNT(*) FROM kv_deleted_keys WHERE name = " ++ ph f 1)%string
    [VText name] scan_count in
  if decide (0 < count) then p_fail (key_missing name) else
  let+ snapshots := allKeyVersionSnapshots name in
  let payload := marshal (json_of_key_payload snapshots) in
  let now := nowUnix e in
  let+ recoveryID := Done (newRecoveryID e "keys" name) in
  let+ _ := db_Exec ("INSERT INTO kv_deleted_keys (name, recovery_id, deleted_date, scheduled_purge_date, versions) VALUES (" ++
      phs f 1 5 ++ ")")%string
    [VText name; VText recoveryID; VInt now; VInt (scheduledPurge now); VText payload] in
  let+ _ := db_Exec ("DELETE FROM kv_keys WHERE name = " ++ ph f 1)%string [VText name] in
  p_ret (mkDeletedKeyRecord latest.1 recoveryID now (scheduledPurge now)).

Definition getDeletedKeyRow (name : string) : SP deletedRow :=
  QueryRow ("SELECT name, recovery_id, deleted_date, scheduled_purge_date, versions FROM kv_deleted_keys WHERE name = " ++
      ph f 1)%string [VText name] scan_deletedRow (or_missing (deleted_key_missing name)).

Definition key_snapshot_record (name : string) (s : keyVersionSnapshot) : KeyRecord :=
  mkKeyRecord name (ks_Version s) (ks_Key s) (ks_Attributes s) (cloneTags (ks_Tags s)).

Definition deletedKeyFromRow (r : deletedRow) : outcome error DeletedKeyRecord :=
  let! versions := unmarshal_key_payload (dr_Versions r) in
  match last versions with
  | None => Err (OtherError (Text ("deleted key " ++ dr_Name r ++ " has no versions")%string))
  | Some latest =>
      Ok (mkDeletedKeyRecord (key_snapshot_record (dr_Name r) latest) (dr_RecoveryID r) (dr_DeletedDate r)
        (dr_ScheduledPurgeDate r))
  end.

Definition ListDeletedKeys (maxResults : Z) (skipToken : string) : SP (list DeletedKeyRecord * option string) :=
  let+ names := query_rows db_error "SELECT name FROM kv_deleted_keys ORDER BY name" [] scan_name in
  let+ pn := Done (paginateNames names skipToken maxResults) in
  let '(page, next) := pn in
  let+ items := p_traverse (λ name, let+ r := getDeletedKeyRow name in Done (deletedKeyFromRow r)) page in
  p_ret (items, next).

Definition GetDeletedKey (name : string) : SP DeletedKeyRecord :=
  let+ r := getDeletedKeyRow name in Done (deletedKeyFromRow r).

Definition PurgeDeletedKey (name : string) : SP unit :=
  let+ _ := getDeletedKeyRow name in
  db_Exec ("DELETE FROM kv_deleted_keys WHERE name = " ++ ph f 1)%string [VText name].

Definition RecoverDeletedKey (name : string) : SP KeyRecord :=
  let+ count := db_QueryRow ("SELECT COUNT(*) FROM kv_keys WHERE name = " ++ ph f 1)%string [VText name] scan_count in
  if decide (0 < count)
  then p_fail (newError StatusConflict "Conflict" ("Key " ++ name ++ " already exists.")%string) else
  let+ r := getDeletedKeyRow name in
  let+ versions := Done (unmarshal_key_payload (dr_Versions r)) in
  let+ _ := p_iter (λ p : nat * keyVersionSnapshot,
      let+ material := Done (deserializeKeyMaterial (ks_Material p.2)) in
      insertKeyRow (key_snapshot_record name p.2) material (wrap64 (ks_CreatedAt p.2 + Z.of_nat p.1)))
    (imap pair versions) in
  let+ _ := db_Exec ("DELETE FROM kv_deleted_keys WHERE name = " ++ ph f 1)%string [VText name] in
  Done (let! latest := last_of versions in Ok (key_snapshot_record name latest)).

(** ** Creating, importing and using keys *)

Context `{C : BlockCipher} `{L : PublicKeyLib}.

Definition CreateKey (e : Env) (name : string) (req : CreateKeyRequest) : SP KeyRecord :=
  if decide (name = ""%string) then p_fail (bad_parameter "Key name is required.") else
  if decide (ckr_Kty req = ""%string) then p_fail (bad_parameter "Key type is required.") else
  let+ _ := checkNotDeleted f "kv_deleted_keys" name "Key" in
  let now := nowUnix e in
  let+ version := Done (newVersion e) in
  let ops := defaultKeyOps (ckr_Kty req) (ckr_KeyOps req) in
  let+ mj := Done (o_maperr bad_parameter (GenerateKey e 1 (ckr_Kty req) (ckr_KeySize req) (ckr_Crv req) "" ops)) in
  let '(material, jwk) := mj : KeyMaterial * JSONWebKey in
  let rec := mkKeyRecord name version jwk (buildAttributes (ckr_Attributes req) now now) (cloneTags (ckr_Tags req)) in
  let+ _ := insertKeyRow rec material (tsNano e 1) in
  p_ret rec.

Definition ImportKey (e : Env) (name : string) (req : ImportKeyRequest) : SP KeyRecord :=
  if decide (name = ""%string) then p_fail (bad_parameter "Key name is required.") else
  if decide (jwk_Kty (ikr_Key req) = ""%string) then p_fail (bad_parameter "Key type is required.") else
  let+ _ := checkNotDeleted f "kv_deleted_keys" name "Key" in
  let+ mj := Done (o_maperr bad_parameter (KeyCrypto.ImportKey (ikr_Key req) "")) in
  let '(material, jwk) := mj : KeyMaterial * JSONWebKey in
  let ops := defaultKeyOps (jwk_Kty (ikr_Key req)) (jwk_KeyOps (ikr_Key req)) in
  let jwk := with_KeyOps ops jwk in
  let now := nowUnix e in
  let+ version := Done (newVersion e) in
  let rec := mkKeyRecord name version jwk (buildAttributes (ikr_Attributes req) now now) (cloneTags (ikr_Tags req)) in
  let+ _ := insertKeyRow rec material (tsNano e 1) in
  p_ret rec.

Definition Encrypt (e : Env) (name version : string) (req : EncryptRequest) : SP (string * string) :=
  let+ rm := getKeyVersionRow name version in
  Done (
    let! value := decode_field "value" (er_Value req) in
    let! iv := if decide (er_IV req = ""%string) then Ok [] else decode_field "iv" (er_IV req) in
    let! co := o_maperr invalid_operation (KeyCrypto.Encrypt e rm.2 (jwk_Kty (kr_Key rm.1)) (er_Alg req) value iv) in
    Ok (EncodeBase64URL co.1, encode_iv co.2)).

Definition Decrypt (name version : string) (req : EncryptRequest) : SP (string * string) :=
  let+ rm := getKeyVersionRow name version in
  Done (
    let! value := decode_field "value" (er_Value req) in
    let! iv := if decide (er_IV req = ""%string) then Ok [] else decode_field "iv" (er_IV req) in
    let! po := o_maperr invalid_operation (KeyCrypto.Decrypt rm.2 (jwk_Kty (kr_Key rm.1)) (er_Alg req) value iv) in
    Ok (EncodeBase64URL po.1, encode_iv po.2)).

Definition Sign (e : Env) (name version : string) (req : SignRequest) : SP string :=
  let+ rm := getKeyVersionRow name version in
  Done (
    let! digest := decode_field "value" (sgr_Value req) in
    let! sig := o_maperr invalid_operation (KeyCrypto.Sign e rm.2 (jwk_Kty (kr_Key rm.1)) (sgr_Alg req) digest) in
    Ok (EncodeBase64URL sig)).

Definition Verify (name version : string) (req : VerifyRequest) : SP bool :=
  let+ rm := getKeyVersionRow name version in
  Done (
    let! digest := decode_field "digest" (vr_Digest req) in
    let! sig := decode_field "value" (vr_Value req) in
    o_maperr invalid_operation (KeyCrypto.Verify rm.2 (jwk_Kty (kr_Key rm.1)) (vr_Alg req) digest sig)).

Definition WrapKey (e : Env) (name version : string) (req : EncryptRequest) : SP string :=
  let+ rm := getKeyVersionRow name version in
  Done (
    let! value := decode_field "value" (er_Value req) in
    let! wrapped := o_maperr invalid_operation (KeyCrypto.Wrap e rm.2 (jwk_Kty (kr_Key rm.1)) (er_Alg req) value) in
    Ok (EncodeBase64URL wrapped)).

Definition UnwrapKey (name version : string) (req : EncryptRequest) : SP string :=
  let+ rm := getKeyVersionRow name version in
  Done (
    let! value := decode_field "value" (er_Value req) in
    let! unwrapped := o_maperr invalid_operation (KeyCrypto.Unwrap rm.2 (jwk_Kty (kr_Key rm.1)) (er_Alg req) value) in
    Ok (EncodeBase64URL unwrapped)).
End keys.
