(* ===== verification/SqlCerts.v ===== *)
(** * The SQL store: certificates ([internal/store/sqlstore/sqlstore.go]) *)

From S2P Require Import Prelude GoStrings GoBase64 GoJson GoCrypto GoX509 GoSql Model KeyCrypto CertCrypto StoreCore SecretBackup KeyStore CertStore HttpJson CertJson SqlSchema SqlCore SqlSecrets SqlKeys.

Section certificates.
Context `{JE : JsonErrors} `{X : CertLib} `{KD : KeyDer} (f : DBFlavor).

Definition certificate_missing (name : string) : error :=
  newError StatusNotFound "CertificateNotFound"
    ("A certificate with (name/id) " ++ name ++ " was not found in this key vault.")%string.
Definition deleted_certificate_missing (name : string) : error :=
  newError StatusNotFound "CertificateNotFound"
    ("A deleted certificate with name " ++ name ++ " was not found in this key vault.")%string.

Definition cloneCertRecord (r : CertificateRecord) : CertificateRecord :=
  mkCertificateRecord (cr_Name r) (cr_Version r) (cr_Cer r) (cr_Kid r) (cr_Sid r)
    (cloneAttributes (cr_Attributes r)) (cloneTags (cr_Tags r)) (clonePolicy (cr_Policy r)).

(** ** Rows *)

Definition insertCertRow (rec : CertificateRecord) (pemData : bytes) (ts : Z) : SP unit :=
  let cerB64 := base64_text (cr_Cer rec) in
  let+ attrsJSON := Done (marshalAttrs (cr_Attributes rec)) in
  let+ tagsJSON := Done (marshalTags (cr_Tags rec)) in
  let+ policyArg := Done (marshalPolicyArg (cr_Policy rec)) in
  db_Exec ("INSERT INTO kv_certificates (name, version, cer, kid, sid, pem_data, attributes, tags, policy, created_at) VALUES (" ++
      phs f 1 10 ++ ")")%string
    [VText (cr_Name rec); VText (cr_Version rec); VText cerB64; VText (cr_Kid rec); VText (cr_Sid rec);
     VText (of_bytes pemData); VText attrsJSON; VText tagsJSON; policyArg; VInt ts].

(** The columns of a version after its bytes, key and secret. *)
Record cert_columns : Type := mkCertColumns {
  cc_version : string; cc_cer : string; cc_kid : string; cc_sid : string; cc_pem : string;
  cc_attrs : string; cc_tags : string; cc_policy : option string }.

Definition scan_cert (r : row) : outcome message cert_columns :=
  let! _ := scan_width 8 r in
  let! version := scan_text r 0 in
  let! cerB64 := scan_text r 1 in
  let! kid := scan_text r 2 in
  let! sid := scan_text r 3 in
  let! pemStr := scan_text r 4 in
  let! attrsJSON := scan_text r 5 in
  let! tagsJSON := scan_text r 6 in
  let! policyNS := scan_null_text r 7 in
  Ok (mkCertColumns version cerB64 kid sid pemStr attrsJSON tagsJSON policyNS).

Definition getCertVersionRow (name version : string) : SP (CertificateRecord * bytes) :=
  let+ c :=
    if decide (version = ""%string) then
      QueryRow ("SELECT version, cer, kid, sid, pem_data, attributes, tags, policy FROM kv_certificates WHERE name = " ++
          ph f 1 ++ " ORDER BY created_at DESC " ++ limitOne f)%string
        [VText name] scan_cert (or_missing (certificate_missing name))
    else
      QueryRow ("SELECT version, cer, kid, sid, pem_data, attributes, tags, policy FROM kv_certificates WHERE name = " ++
          ph f 1 ++ " AND version = " ++ ph f 2)%string
        [VText name; VText version] scan_cert (or_missing (certificate_missing name)) in
  Done (
    let! cer := base64_data (cc_cer c) in
    let! attrs := unmarshalAttrs (cc_attrs c) in
    let! tags := unmarshalTags (cc_tags c) in
    let! policy := unmarshalPolicyNS (cc_policy c) in
    Ok (mkCertificateRecord name (cc_version c) cer (cc_kid c) (cc_sid c) attrs tags policy, to_bytes (cc_pem c))).

(** ** Operations on live certificates *)

Definition GetCertificate (name version : string) : SP CertificateRecord :=
  let+ rp := getCertVersionRow name version in p_ret rp.1.

Definition ListCertificates (maxResults : Z) (skipToken : string) : SP (list CertificateRecord * option string) :=
  let+ names := query_rows db_error "SELECT DISTINCT name FROM kv_certificates ORDER BY name" [] scan_name in
  let+ pn := Done (paginateNames names skipToken maxResults) in
  let '(page, next) := pn in
  let+ items := p_traverse (λ name, let+ rp := getCertVersionRow name "" in p_ret rp.1) page in
  p_ret (items, next).

Definition ListCertificateVersions (name : string) (maxResults : Z) (skipToken : string)
    : SP (list CertificateRecord * option string) :=
  let+ count := db_QueryRow ("SELECT COUNT(*) FROM kv_certificates WHERE name = " ++ ph f 1)%string [VText name] scan_count in
  if decide (count = 0) then p_fail (certificate_missing name) else
  let+ versions := query_rows db_error
    ("SELECT version, cer, kid, sid, attributes, tags, policy FROM kv_certificates WHERE name = " ++ ph f 1 ++
     " ORDER BY created_at DESC")%string
    [VText name] (λ r,
      let! c := returned (
        let! _ := scan_width 7 r in
        let! version := scan_text r 0 in
        let! cerB64 := scan_text r 1 in
        let! kid := scan_text r 2 in
        let! sid := scan_text r 3 in
        let! attrsJSON := scan_text r 4 in
        let! tagsJSON := scan_text r 5 in
        let! policyNS := scan_null_text r 6 in
        Ok (mkCertColumns version cerB64 kid sid "" attrsJSON tagsJSON policyNS)) in
      let! cer := base64_data (cc_cer c) in
      let! attrs := unmarshalAttrs (cc_attrs c) in
      let! tags := unmarshalTags (cc_tags c) in
      let! policy := unmarshalPolicyNS (cc_policy c) in
      Ok (mkCertificateRecord name (cc_version c) cer (cc_kid c) (cc_sid c) attrs tags policy)) in
  Done (paginateNames versions skipToken maxResults).

Definition UpdateCertificate (e : Env) (name version : string) (req : UpdateCertificateRequest) : SP CertificateRecord :=
  let+ found := getCertVersionRow name version in
  let rec := update_certificate_record e req found.1 in
  let+ attrsJSON := Done (marshalAttrs (cr_Attributes rec)) in
  let+ tagsJSON := Done (marshalTags (cr_Tags rec)) in
  let+ _ := db_Exec ("UPDATE kv_certificates SET attributes = " ++ ph f 1 ++ ", tags = " ++ ph f 2 ++ " WHERE name = " ++
      ph f 3 ++ " AND version = " ++ ph f 4)%string
    [VText attrsJSON; VText tagsJSON; VText (cr_Name rec); VText (cr_Version rec)] in
  p_ret rec.

Definition GetCertificatePolicy (name : string) : SP (option CertificatePolicy) :=
  let+ rp := getCertVersionRow name "" in p_ret (clonePolicy (cr_Policy rp.1)).

Definition UpdateCertificatePolicy (e : Env) (name : string) (policy : option CertificatePolicy)
    : SP (option CertificatePolicy) :=
  let+ rp := getCertVersionRow name "" in
  let rec := rp.1 in
  let newPolicy := defaultCertificatePolicy name policy in
  let+ policyArg := Done (marshalPolicyArg (Some newPolicy)) in
  let attrs := touch (nowUnix e) (cr_Attributes rec) in
  let+ attrsJSON := Done (marshalAttrs attrs) in
  let+ _ := db_Exec ("UPDATE kv_certificates SET policy = " ++ ph f 1 ++ ", attributes = " ++ ph f 2 ++ " WHERE name = " ++
      ph f 3 ++ " AND version = " ++ ph f 4)%string
    [policyArg; VText attrsJSON; VText (cr_Name rec); VText (cr_Version rec)] in
  p_ret (Some newPolicy).

Definition GetPendingCertificateOperation (name : string) : SP CertificateOperation :=
  let+ rp := getCertVersionRow name "" in
  p_ret (mkCertificateOperation name "completed" (cr_Name rp.1) "").

(** ** Deleted certificates *)

Record certificateVersionSnapshot : Type := mkCertSnapshot {
  cs_Version : string;
  cs_Cer : string;
  cs_Kid : string;
  cs_Sid : string;
  cs_PEMData : string;
  cs_Attributes : Attributes;
  cs_Tags : tags;
  cs_Policy : option CertificatePolicy;
  cs_CreatedAt : Z;
}.
(** A policy with a number JSON does not have makes [json.Marshal] fail. *)
Definition json_of_cert_snapshot (s : certificateVersionSnapshot) : option json :=
  policy ← match cs_Policy s with
           | Some p => j ← json_of_CertificatePolicy p; Some [("policy"%string, j)]
           | None => Some []
           end;
  Some (JObj ([("version", JStr (cs_Version s)); ("cer", JStr (cs_Cer s))]%string ++ str_field "kid" (cs_Kid s) ++
    str_field "sid" (cs_Sid s) ++ str_field "pem_data" (cs_PEMData s) ++
    [("attributes", json_of_attributes (cs_Attributes s)); ("tags", enc_string_map (cs_Tags s))]%string ++ policy ++
    [("created_at"%string, enc_int (cs_CreatedAt s))])).

Record raw_cert_snapshot : Type := mkRawCertSnapshot {
  rcs_snap : certificateVersionSnapshot; rcs_policy : option raw_policy }.
Definition set_snap (g : certificateVersionSnapshot → certificateVersionSnapshot) (r : raw_cert_snapshot) : raw_cert_snapshot :=
  mkRawCertSnapshot (g (rcs_snap r)) (rcs_policy r).
Definition zero_raw_cert_snapshot : raw_cert_snapshot :=
  mkRawCertSnapshot (mkCertSnapshot "" "" "" "" "" zero_attributes None None 0) None.
Definition dec_raw_cert_snapshot : decoder raw_cert_snapshot := dec_struct [
  field "version" (cs_Version ∘ rcs_snap) (λ v, set_snap (λ s, mkCertSnapshot v (cs_Cer s) (cs_Kid s) (cs_Sid s) (cs_PEMData s) (cs_Attributes s) (cs_Tags s) (cs_Policy s) (cs_CreatedAt s))) dec_string;
  field "cer" (cs_Cer ∘ rcs_snap) (λ v, set_snap (λ s, mkCertSnapshot (cs_Version s) v (cs_Kid s) (cs_Sid s) (cs_PEMData s) (cs_Attributes s) (cs_Tags s) (cs_Policy s) (cs_CreatedAt s))) dec_string;
  field "kid" (cs_Kid ∘ rcs_snap) (λ v, set_snap (λ s, mkCertSnapshot (cs_Version s) (cs_Cer s) v (cs_Sid s) (cs_PEMData s) (cs_Attributes s) (cs_Tags s) (cs_Policy s) (cs_CreatedAt s))) dec_string;
  field "sid" (cs_Sid ∘ rcs_snap) (λ v, set_snap (λ s, mkCertSnapshot (cs_Version s) (cs_Cer s) (cs_Kid s) v (cs_PEMData s) (cs_Attributes s) (cs_Tags s) (cs_Policy s) (cs_CreatedAt s))) dec_string;
  field "pem_data" (cs_PEMData ∘ rcs_snap) (λ v, set_snap (λ s, mkCertSnapshot (cs_Version s) (cs_Cer s) (cs_Kid s) (cs_Sid s) v (cs_Attributes s) (cs_Tags s) (cs_Policy s) (cs_CreatedAt s))) dec_string;
  field "attributes" (cs_Attributes ∘ rcs_snap) (λ v, set_snap (λ s, mkCertSnapshot (cs_Version s) (cs_Cer s) (cs_Kid s) (cs_Sid s) (cs_PEMData s) v (cs_Tags s) (cs_Policy s) (cs_CreatedAt s))) dec_attributes;
  field "tags" (cs_Tags ∘ rcs_snap) (λ v, set_snap (λ s, mkCertSnapshot (cs_Version s) (cs_Cer s) (cs_Kid s) (cs_Sid s) (cs_PEMData s) (cs_Attributes s) v (cs_Policy s) (cs_CreatedAt s))) dec_string_map;
  field "policy" rcs_policy (λ v r, mkRawCertSnapshot (rcs_snap r) v) dec_policy_ptr;
  field "created_at" (cs_CreatedAt ∘ rcs_snap) (λ v, set_snap (λ s, mkCertSnapshot (cs_Version s) (cs_Cer s) (cs_Kid s) (cs_Sid s) (cs_PEMData s) (cs_Attributes s) (cs_Tags s) (cs_Policy s) v)) dec_int64].
Definition cert_snapshot_of_raw (r : raw_cert_snapshot) : certificateVersionSnapshot :=
  let s := rcs_snap r in
  mkCertSnapshot (cs_Version s) (cs_Cer s) (cs_Kid s) (cs_Sid s) (cs_PEMData s) (cs_Attributes s) (cs_Tags s)
    (policy_of_raw <$> rcs_policy r) (cs_CreatedAt s).

Definition marshal_cert_payload (versions : list certificateVersionSnapshot) : outcome error string :=
  match mapM json_of_cert_snapshot versions with
  | Some js => Ok (marshal (JObj [("versions"%string, match js with [] => JNull | _ => JArr js end)]))
  | None => Err (OtherError (Text ("json: unsupported value: " ++
      default ""%string (head (omap (λ s, match json_of_cert_snapshot s, cs_Policy s with
                                          | None, Some p => Some (policy_unsupported p) | _, _ => None end) versions)))%string))
  end.
Definition cert_payload_json (j : json) : option (list certificateVersionSnapshot) :=
  (λ sl : nat * list raw_cert_snapshot, cert_snapshot_of_raw <$> take sl.1 sl.2) <$>
  dec_struct [("versions"%string, dec_slice zero_raw_cert_snapshot dec_raw_cert_snapshot)] (0%nat, []) j.
Definition unmarshal_cert_payload : string → outcome error (list certificateVersionSnapshot) :=
  unmarshal "sqlstore.deletedCertificatePayload" cert_payload_json.

Definition allCertVersionSnapshots (name : string) : SP (list certificateVersionSnapshot) :=
  query_rows db_error
    ("SELECT version, cer, kid, sid, pem_data, attributes, tags, policy, created_at FROM kv_certificates WHERE name = " ++
     ph f 1 ++ " ORDER BY created_at ASC")%string
    [VText name] (λ r,
      let! c := returned (
        let! _ := scan_width 9 r in
        let! c := scan_cert (take 8 r) in
        let! created := scan_int r 8 in
        Ok (c, created)) in
      let '(c, created) := c in
      let! attrs := unmarshalAttrs (cc_attrs c) in
      let! tags := unmarshalTags (cc_tags c) in
      let! policy := unmarshalPolicyNS (cc_policy c) in
      Ok (mkCertSnapshot (cc_version c) (cc_cer c) (cc_kid c) (cc_sid c) (cc_pem c) attrs tags policy created)).

Definition DeleteCertificate (e : Env) (name : string) : SP DeletedCertificateRecord :=
  let+ latest := getCertVersionRow name "" in
  let+ count := db_QueryRow ("SELECT COUNT(*) FROM kv_deleted_certificates WHERE name = " ++ ph f 1)%string
    [VText name] scan_count in
  if decide (0 < count) then p_fail (certificate_missing name) else
  let+ snapshots := allCertVersionSnapshots name in
  let+ payload := Done (marshal_cert_payload snapshots) in
  let now := nowUnix e in
  let+ recoveryID := Done (newRecoveryID e "certificates" name) in
  let+ _ := db_Exec ("INSERT INTO kv_deleted_certificates (name, recovery_id, deleted_date, scheduled_purge_date, versions) VALUES (" ++
      phs f 1 5 ++ ")")%string
    [VText name; VText recoveryID; VInt now; VInt (scheduledPurge now); VText payload] in
  let+ _ := db_Exec ("DELETE FROM kv_certificates WHERE name = " ++ ph f 1)%string [VText name] in
  p_ret (mkDeletedCertificateRecord latest.1 recoveryID now (scheduledPurge now)).

Definition getDeletedCertRow (name : string) : SP deletedRow :=
  QueryRow ("SELECT name, recovery_id, deleted_date, scheduled_purge_date, versions FROM kv_deleted_certificates WHERE name = " ++
      ph f 1)%string [VText name] scan_deletedRow (or_missing (deleted_certificate_missing name)).

Definition cert_snapshot_record (name : string) (cer : bytes) (s : certificateVersionSnapshot) : CertificateRecord :=
  mkCertificateRecord name (cs_Version s) cer (cs_Kid s) (cs_Sid s) (cs_Attributes s) (cloneTags (cs_Tags s))
    (clonePolicy (cs_Policy s)).

Definition deletedCertFromRow (r : deletedRow) : outcome error DeletedCertificateRecord :=
  let! versions := unmarshal_cert_payload (dr_Versions r) in
  match last versions with
  | None => Err (OtherError (Text ("deleted certificate " ++ dr_Name r ++ " has no versions")%string))
  | Some latest =>
      let! cer := base64_data (cs_Cer latest) in
      Ok (mkDeletedCertificateRecord (cert_snapshot_record (dr_Name r) cer latest) (dr_RecoveryID r)
        (dr_DeletedDate r) (dr_ScheduledPurgeDate r))
  end.

Definition ListDeletedCertificates (maxResults : Z) (skipToken : string)
    : SP (list DeletedCertificateRecord * option string) :=
  let+ names := query_rows db_error "SELECT name FROM kv_deleted_certificates ORDER BY name" [] scan_name in
  let+ pn := Done (paginateNames names skipToken maxResults) in
  let '(page, next) := pn in
  let+ items := p_traverse (λ name, let+ r := getDeletedCertRow name in Done (deletedCertFromRow r)) page in
  p_ret (items, next).

Definition GetDeletedCertificate (name : string) : SP DeletedCertificateRecord :=
  let+ r := getDeletedCertRow name in Done (deletedCertFromRow r).

Definition PurgeDeletedCertificate (name : string) : SP unit :=
  let+ _ := getDeletedCertRow name in
  db_Exec ("DELETE FROM kv_deleted_certificates WHERE name = " ++ ph f 1)%string [VText name].

Definition RecoverDeletedCertificate (name : string) : SP CertificateRecord :=
  let+ count := db_QueryRow ("SELECT COUNT(*) FROM kv_certificates WHERE name = " ++ ph f 1)%string [VText name] scan_count in
  if decide (0 < count)
  then p_fail (newError StatusConflict "Conflict" ("Certificate " ++ name ++ " already exists.")%string) else
  let+ r := getDeletedCertRow name in
  let+ versions := Done (unmarshal_cert_payload (dr_Versions r)) in
  let+ _ := p_iter (λ p : nat * certificateVersionSnapshot,
      let+ cer := Done (base64_data (cs_Cer p.2)) in
      insertCertRow (cert_snapshot_record name cer p.2) (to_bytes (cs_PEMData p.2))
        (wrap64 (cs_CreatedAt p.2 + Z.of_nat p.1)))
    (imap pair versions) in
  let+ _ := db_Exec ("DELETE FROM kv_deleted_certificates WHERE name = " ++ ph f 1)%string [VText name] in
  Done (
    let! latest := last_of versions in
    let! cer := base64_data (cs_Cer latest) in
    Ok (cert_snapshot_record name cer latest)).

(** ** Creating and importing *)

Context `{L : PublicKeyLib}.

Definition getIssuerMaterialSQL (issuerName : string) : SP (outcome message (x509_Certificate * rsa_PrivateKey)) :=
  let quoted (what : string) (tail : list part) : message := Format ([Lit what; Quoted issuerName] ++ tail) in
  let+ found := p_try (getSecretVersionRow f issuerName "") in
  p_ret (
    let! rec := o_maperr (λ err, quoted "issuer certificate " (Lit " not found: " :: parts_of (error_text err))) found in
    let! cpp := o_maperr (λ err, quoted "failed to parse issuer certificate " (Lit ": " :: parts_of err))
      (ParseImportedCertificate (sr_Value rec) "") in
    match cpp with
    | (_, None, _) => Err (quoted "issuer certificate " [Lit " has no private key and cannot sign"])
    | (cert, Some key, _) => Ok (cert, key)
    end).

Definition CreateCertificate (e : Env) (name : string) (req : CreateCertificateRequest) : SP CertificateRecord :=
  if decide (name = ""%string) then p_fail (bad_parameter "Certificate name is required.") else
  let+ _ := checkNotDeleted f "kv_deleted_certificates" name "Certificate" in
  let policy := defaultCertificatePolicy name (ccr_Policy req) in
  let now := nowUnix e in
  let+ version := Done (newVersion e) in
  let attrs := buildAttributes (ccr_Attributes req) now now in
  let prop (key : string) : string := default ""%string (any_string (x509_prop (Some policy) key)) in
  let certType := if decide (prop "cert_type" ≠ ""%string) then prop "cert_type" else "CA"%string in
  let+ issuer :=
    if decide (prop "issuer_name" ≠ ""%string) then
      let+ found := getIssuerMaterialSQL (prop "issuer_name") in
      let+ ck := Done (o_maperr (newError StatusBadRequest "InvalidIssuer") found) in
      p_ret (Some ck.1, Some ck.2)
    else p_ret (None, None) in
  let certOpts := mkCertOptions certType issuer.1 issuer.2 in
  let+ pd := Done (o_maperr invalid_operation (GenerateCert e 1 name (Some policy) certOpts)) in
  let '(priv, der) := pd in
  let certPEM := pem_EncodeToMemory (mk_pem_Block "CERTIFICATE" der) in
  let keyPEM := pem_EncodeToMemory (mk_pem_Block "RSA PRIVATE KEY" (x509_MarshalPKCS1PrivateKey priv)) in
  let managedSecret := of_bytes (certPEM ++ keyPEM) in
  let rec := mkCertificateRecord name version der name name attrs (cloneTags (ccr_Tags req)) (clonePolicy (Some policy)) in
  let ts := tsNano e 2 in
  let+ _ := insertCertRow rec certPEM ts in
  let keyRec := cert_key_record name version (rsa_Public priv) attrs (cloneTags (ccr_Tags req)) in
  let+ _ := insertKeyRow f keyRec (mkKeyMaterial (Some priv) None None (Some (rsa_Public priv)) None) ts in
  let secretRec := mkSecretRecord name version managedSecret "application/x-pkcs12" attrs (cloneTags (ccr_Tags req)) in
  let+ _ := insertSecretRow f secretRec ts in
  p_ret (cloneCertRecord rec).

(** The [CERTIFICATE] blocks of a PEM bundle; [fuel] bounds their number. *)
Fixpoint cert_blocks (fuel : nat) (rest : bytes) : bytes :=
  match fuel with
  | O => []
  | S fuel =>
      match pem_Decode rest with
      | None => []
      | Some (block, rest) =>
          (if decide (pem_Type block = "CERTIFICATE"%string) then pem_EncodeToMemory block else []) ++
          cert_blocks fuel rest
      end
  end.
Definition extractCertPEM (pemData : bytes) : bytes :=
  let out := cert_blocks (S (length pemData)) pemData in
  if decide (length out = 0%nat) then pemData else out.

Definition ImportCertificate (e : Env) (name : string) (req : ImportCertificateRequest) : SP CertificateRecord :=
  if decide (name = ""%string) then p_fail (bad_parameter "Certificate name is required.") else
  if decide (icr_Value req = ""%string) then p_fail (bad_parameter "Certificate value is required.") else
  let+ cpp := Done (o_maperr bad_parameter (ParseImportedCertificate (icr_Value req) (icr_Password req))) in
  let '(cert, priv, pemValue) := cpp in
  let+ _ := checkNotDeleted f "kv_deleted_certificates" name "Certificate" in
  let policy := defaultCertificatePolicy name (icr_Policy req) in
  let now := nowUnix e in
  let+ version := Done (newVersion e) in
  let attrs := buildAttributes (icr_Attributes req) now now in
  let rec := mkCertificateRecord name version (cert_Raw cert) name name attrs (cloneTags (icr_Tags req))
    (clonePolicy (Some policy)) in
  let ts := tsNano e 1 in
  let+ _ := insertCertRow rec (extractCertPEM pemValue) ts in
  let+ _ :=
    match cert_RSAPublicKey cert with
    | Some rsaPub =>
        let material :=
          match priv with
          | Some priv => mkKeyMaterial (Some priv) None None (Some (rsa_Public priv)) None
          | None => mkKeyMaterial None None None (Some rsaPub) None
          end in
        insertKeyRow f (cert_key_record name version rsaPub attrs (cloneTags (icr_Tags req))) material ts
    | None => p_ret ()
    end in
  let secretRec := mkSecretRecord name version (of_bytes pemValue) "application/x-pkcs12" attrs
    (cloneTags (icr_Tags req)) in
  let+ _ := insertSecretRow f secretRec ts in
  p_ret (cloneCertRecord rec).
End certificates.
