(* ===== verification/Http.v ===== *)
(** * Component: the HTTP layer ([internal/handler/handler.go])

    Requests as the server hands them to a handler, responses, and the helpers
    every handler uses: bodies, errors, base URL, pagination and next links.
    The text of a JSON decoding error is a parameter. *)

From S2P Require Import Prelude GoStrings GoUrl GoJson Model StoreCore HttpJson.

(** ** Requests and responses *)

Record Request : Type := mkRequest {
  r_Method : string;
  r_Host : string;
  r_TLS : bool;
  r_ForwardedProto : string;      (** the header X-Forwarded-Proto *)
  r_Path : string;                (** [r.URL.Path] *)
  r_RawQuery : string;
  r_Body : option bytes;
}.

Definition with_query (query : string) (r : Request) : Request :=
  mkRequest (r_Method r) (r_Host r) (r_TLS r) (r_ForwardedProto r) (r_Path r) query (r_Body r).

(** [r.URL.Query()]. *)
Definition r_Query (r : Request) : Values := ParseQuery (r_RawQuery r).

Definition StatusOK : Z := 200.
Definition StatusNoContent : Z := 204.
Definition StatusMethodNotAllowed : Z := 405.
Definition StatusInternalServerError : Z := 500.

Inductive response_body : Type :=
| NoBody
| JsonBody (j : json)
| ErrorBody (e : KeyVaultError).
Record Response : Type := mkResponse { rsp_Status : Z; rsp_Body : response_body }.

Definition writeJSON (status : Z) (value : json) : Response := mkResponse status (JsonBody value).
(** A value the encoder refuses leaves the body empty. *)
Definition write_value (status : Z) (value : option json) : Response :=
  match value with Some j => writeJSON status j | None => mkResponse status NoBody end.

Definition writeError (err : error) : Response :=
  match err with
  | StoreError status code msg => mkResponse status (ErrorBody (NewKeyVaultError code msg))
  | OtherError msg => mkResponse StatusInternalServerError (ErrorBody (NewKeyVaultError "InternalServerError" msg))
  end.

Definition modelError (status : Z) (code : string) (msg : message) : error := newError status code msg.
Definition resource_not_found : error :=
  modelError StatusNotFound "NotFound" "The requested resource was not found.".

Definition healthz : Response := writeJSON StatusOK (JObj [("status"%string, JStr "ok")]).
Definition handleNotFound : Response := writeError resource_not_found.

(** ** Handlers

    A handler runs at most one operation of the store and answers; a panic of
    the operation is the handler's own (the server then drops the
    connection). *)

Definition HM (St : Type) : Type := St → outcome Empty_set Response * St.

Definition answer {St} (rsp : Response) : HM St := λ s, (Ok rsp, s).

(** [v, err := op; if err != nil { writeError; return }; ok v]. *)
Definition serve {St A} (op : M St error A) (ok : A → Response) : HM St := λ s,
  match op s with
  | (Ok a, s') => (Ok (ok a), s')
  | (Err err, s') => (Ok (writeError err), s')
  | (Panic m, s') => (Panic m, s')
  end.

(** ** Bodies *)

(** [kind] is the type decoded into, which the error text depends on. *)
Definition parseBody `{JsonErrors} {T} (kind : string) (decode : json → option T) (r : Request) : outcome message T :=
  match r_Body r with
  | None => Err (Text "request body is required")
  | Some body =>
      match json_first body ≫= decode with
      | Some v => Ok v
      | None => Err (json_error kind body)
      end
  end.

Definition with_body `{JsonErrors} {St T} (kind : string) (decode : json → option T) (r : Request) (k : T → HM St) : HM St :=
  match parseBody kind decode r with
  | Ok v => k v
  | Err msg => answer (writeError (modelError StatusBadRequest "BadParameter" msg))
  | Panic m => λ s, (Panic m, s)
  end.

(** ** URLs *)

Definition vaultBaseURL (r : Request) : string :=
  let host := match SplitHost (to_bytes (r_Host r)) with Some parsed => of_bytes parsed | None => r_Host r end in
  let host := if bool_decide (host = ""%string) || negb (Contains host ".vault.") then "emulator"%string else host in
  let scheme :=
    if r_TLS r then "https"%string
    else if decide (r_ForwardedProto r ≠ ""%string) then r_ForwardedProto r else "http"%string in
  (scheme ++ "://" ++ host)%string.

(** A positive page size; what [Atoi] refuses is a bad parameter. *)
Definition parse_maxresults (raw : string) (msg : message) : outcome error Z :=
  match Atoi raw with
  | Some parsed => if decide (parsed ≤ 0) then Err (newError StatusBadRequest "BadParameter" msg) else Ok parsed
  | None => Err (newError StatusBadRequest "BadParameter" msg)
  end.

Definition parsePagination (r : Request) : outcome error (Z * string) :=
  let query := r_Query r in
  let! maxResults :=
    let raw := Get query "$maxresults" in
    if decide (raw = ""%string) then
      let raw := Get query "maxresults" in
      if decide (raw ≠ ""%string)
      then parse_maxresults raw "The provided maxresults value is invalid." else Ok 25
    else parse_maxresults raw "The provided $maxresults value is invalid." in
  let maxResults := if decide (100 < maxResults) then 100 else maxResults in
  let skip := Get query "$skiptoken" in
  let skip := if decide (skip = ""%string) then Get query "skiptoken" else skip in
  Ok (maxResults, skip).

(** [cloneValues] copies: values are immutable here. *)
Definition cloneValues (values : Values) : Values := values.

(** The query of the next link. *)
Definition next_query (r : Request) (next : string) : Values :=
  let query := Set_ "$skiptoken" next (cloneValues (r_Query r)) in
  if decide (Get query "api-version" = ""%string) then Set_ "api-version" "7.4" query else query.

Definition buildNextLink (r : Request) (next : option string) : option string :=
  match next with
  | None => None
  | Some next => Some (vaultBaseURL r ++ r_Path r ++ "?" ++ Encode (next_query r next))%string
  end.

(** [strings.TrimPrefix]. *)
Definition TrimPrefix (p l : bytes) : bytes := if decide (take (length p) l = p) then drop (length p) l else l.

Definition splitPath (path prefix : string) : list string :=
  let trimmed := trim "/"%char (TrimPrefix (to_bytes prefix) (to_bytes path)) in
  if decide (trimmed = []) then [] else map of_bytes (split_on "/"%char trimmed).

Definition recoveryID (baseURL recoveryPath : string) : string :=
  if HasPrefix recoveryPath "http://" || HasPrefix recoveryPath "https://" then recoveryPath
  else if HasPrefix recoveryPath "/" then (baseURL ++ recoveryPath)%string
  else (baseURL ++ "/" ++ recoveryPath)%string.

(** A listing: the pagination, the operation, and the page with its link. *)
Definition listing {St R I} (r : Request) (op : Z → string → M St error (list R * option string))
    (item : R → I) (enc : ListResult I → option json) : HM St :=
  match parsePagination r with
  | Ok (maxResults, skip) =>
      serve (op maxResults skip) (λ rn,
        write_value StatusOK (enc (mkListResult (map item rn.1) (buildNextLink r rn.2))))
  | Err err => answer (writeError err)
  | Panic m => λ s, (Panic m, s)
  end.

(** ** Following a next link *)

Lemma parse_maxresults_Ok raw msg m : parse_maxresults raw msg = Ok m → 0 < m.
Proof. unfold parse_maxresults. destruct (Atoi raw); [|done]. case_decide; [done|]. intros [= <-]. lia. Qed.

Lemma parsePagination_Ok r m skip : parsePagination r = Ok (m, skip) → 1 ≤ m ≤ 100.
Proof.
  unfold parsePagination. intros (k & Hk & [= <- _])%o_bind_Ok. assert (0 < k) as Hpos.
  { repeat case_decide; try (by eapply parse_maxresults_Ok). injection Hk as <-. lia. }
  destruct (decide (100 < k)); lia.
Qed.

Lemma Get_Set m k v : Get (Set_ k v m) k = v.
Proof. unfold Get, Set_. by rewrite lookup_insert_eq. Qed.
Lemma Get_Set_ne m k k' v : k ≠ k' → Get (Set_ k v m) k' = Get m k'.
Proof. intros Hk. unfold Get, Set_. by rewrite lookup_insert_ne. Qed.

(** A query that [ParseQuery] made has a value for each of its keys. *)
Lemma foldl_query_piece_nonempty pieces (m : Values) :
  map_Forall (λ _ vs, vs ≠ []) m → map_Forall (λ _ vs, vs ≠ []) (foldl query_piece m pieces).
Proof.
  revert m. induction pieces as [|p ps IH]; intros m Hm; [done|]. cbn. apply IH. unfold query_piece.
  case_decide; [done|]. destruct (cut _ p) as [k v]. destruct (query_unescape k); [|done].
  destruct (query_unescape v); [|done]. intros j vs Hj.
  destruct (decide (j = of_bytes l)) as [->|Hne].
  - rewrite lookup_partial_alter_eq in Hj. injection Hj as <-. by destruct (default [] _).
  - rewrite lookup_partial_alter_ne in Hj by done. by eapply Hm.
Qed.
Lemma ParseQuery_nonempty query : map_Forall (λ _ vs, vs ≠ []) (ParseQuery query).
Proof.
  unfold ParseQuery. case_decide; [apply map_Forall_empty|]. apply foldl_query_piece_nonempty, map_Forall_empty.
Qed.

Lemma next_query_nonempty r next : map_Forall (λ _ vs, vs ≠ []) (next_query r next).
Proof.
  unfold next_query, cloneValues. assert (map_Forall (λ _ vs, vs ≠ []) (Set_ "$skiptoken" next (r_Query r))) as H
    by (apply map_Forall_insert_2; [done|apply ParseQuery_nonempty]).
  case_decide; [|done]. by apply map_Forall_insert_2.
Qed.

(** The request a client makes of a next link. *)
Definition follow (r : Request) (next : string) : Request := with_query (Encode (next_query r next)) r.

(** Following the link of a page asks for the same page size from the token. *)
Lemma parsePagination_follow r m skip next :
  parsePagination r = Ok (m, skip) → next ≠ ""%string →
  (length (query_pairs (next_query r next)) ≤ max_params)%nat →
  parsePagination (follow r next) = Ok (m, next).
Proof.
  intros Hp Hnext Hlen. revert Hp. unfold parsePagination.
  assert (r_Query (follow r next) = next_query r next) as ->.
  { unfold r_Query, follow. cbn. apply ParseQuery_Encode; [apply next_query_nonempty|done]. }
  assert (∀ k, k ≠ "$skiptoken"%string → k ≠ "api-version"%string → Get (next_query r next) k = Get (r_Query r) k) as Hk.
  { intros k H1 H2. unfold next_query, cloneValues.
    destruct (decide (Get _ "api-version" = ""%string)); by rewrite ?Get_Set_ne by congruence. }
  assert (Get (next_query r next) "$skiptoken" = next) as ->.
  { unfold next_query, cloneValues.
    destruct (decide (Get _ "api-version" = ""%string)); rewrite ?(Get_Set_ne _ "api-version") by done; by rewrite Get_Set. }
  rewrite !Hk by done. intros (k & -> & [= <- _])%o_bind_Ok. cbn [o_bind]. by rewrite (decide_False (P:=next = _)).
Qed.

(** ** Paths *)

Lemma trim_left_other c l : c ∉ l → trim_left c l = l.
Proof. destruct l as [|b l]; [done|]. intros Hc. cbn. rewrite decide_False; [done|]. set_solver. Qed.
Lemma trim_other c l : c ∉ l → trim c l = l.
Proof.
  intros Hc. unfold trim. rewrite (trim_left_other c l Hc), trim_left_other by (by rewrite elem_of_reverse).
  apply reverse_involutive.
Qed.

(** The path of an object: the prefix of its kind, and its name. *)
Lemma splitPath_name prefix name :
  "/"%char ∉ to_bytes name → name ≠ ""%string → splitPath (prefix ++ name) prefix = [name].
Proof.
  intros Hs Hne. unfold splitPath, TrimPrefix.
  rewrite to_bytes_app, take_app_length, (decide_True (P:=to_bytes prefix = _)), drop_app_length by done.
  rewrite trim_other by done. rewrite decide_False by (by destruct name). rewrite split_no_sep by done. cbn [map].
  by rewrite of_to_bytes.
Qed.
