(* ===== verification/HttpSecrets.v ===== *)
(** * Component: the secret routes ([internal/handler/secrets.go])

    Written against the interface [SecretsApi], the secret part of
    [store.Storer]; the in-memory store and the encrypting wrapper over it are
    instances. *)

From S2P Require Import Prelude GoStrings GoUrl GoJson GoCrypto Encryption Model StoreCore SecretStore EncryptedStore SecretBackup HttpJson Http.

(** ** The secret operations of [store.Storer] *)

Class SecretsApi (St : Type) : Type := {
  api_SetSecret : Env → string → SecretSetRequest → M St error SecretRecord;
  api_GetSecret : string → string → M St error SecretRecord;
  api_ListSecrets : Z → string → M St error (list SecretRecord * option string);
  api_ListSecretVersions : string → Z → string → M St error (list SecretRecord * option string);
  api_UpdateSecret : Env → string → string → SecretUpdateRequest → M St error SecretRecord;
  api_DeleteSecret : Env → string → M St error DeletedSecretRecord;
  api_ListDeletedSecrets : Z → string → M St error (list DeletedSecretRecord * option string);
  api_GetDeletedSecret : string → M St error DeletedSecretRecord;
  api_PurgeDeletedSecret : string → M St error unit;
  api_RecoverDeletedSecret : string → M St error SecretRecord;
  api_BackupSecret : string → M St error string;
  api_RestoreSecret : string → M St error SecretRecord;
}.

#[export] Instance Store_SecretsApi : SecretsApi Store := {|
  api_SetSecret := SetSecret; api_GetSecret := GetSecret; api_ListSecrets := ListSecrets;
  api_ListSecretVersions := ListSecretVersions; api_UpdateSecret := UpdateSecret;
  api_DeleteSecret := DeleteSecret; api_ListDeletedSecrets := ListDeletedSecrets;
  api_GetDeletedSecret := GetDeletedSecret; api_PurgeDeletedSecret := PurgeDeletedSecret;
  api_RecoverDeletedSecret := RecoverDeletedSecret; api_BackupSecret := BackupSecret;
  api_RestoreSecret := RestoreSecret;
|}.

(** The wrapper overrides six operations and inherits the others. *)
Definition encrypted_SecretsApi `{BlockCipher} {St} `{SecretStorer St} (inner : SecretsApi St) (es : encryptedStore)
    : SecretsApi St := {|
  api_SetSecret := es_SetSecret es; api_GetSecret := es_GetSecret es; api_ListSecrets := @api_ListSecrets St inner;
  api_ListSecretVersions := @api_ListSecretVersions St inner; api_UpdateSecret := es_UpdateSecret es;
  api_DeleteSecret := es_DeleteSecret es; api_ListDeletedSecrets := @api_ListDeletedSecrets St inner;
  api_GetDeletedSecret := es_GetDeletedSecret es; api_PurgeDeletedSecret := @api_PurgeDeletedSecret St inner;
  api_RecoverDeletedSecret := es_RecoverDeletedSecret es; api_BackupSecret := @api_BackupSecret St inner;
  api_RestoreSecret := @api_RestoreSecret St inner;
|}.

(** ** Bundles *)

Definition secretID (baseURL name version : string) : string :=
  if decide (version = ""%string) then (baseURL ++ "/secrets/" ++ name)%string
  else (baseURL ++ "/secrets/" ++ name ++ "/" ++ version)%string.

Definition secret_item (r : Request) (record : SecretRecord) : SecretItem :=
  mkSecretItem (secretID (vaultBaseURL r) (sr_Name record) (sr_Version record)) (sr_ContentType record)
    (sr_Attributes record) (sr_Tags record).

Definition secretBundle (r : Request) (record : SecretRecord) : SecretBundle :=
  mkSecretBundle (sr_Value record) (secretID (vaultBaseURL r) (sr_Name record) (sr_Version record))
    (sr_ContentType record) (sr_Attributes record) (sr_Tags record).

Definition deletedSecretBundle (r : Request) (record : DeletedSecretRecord) : DeletedSecretBundle :=
  mkDeletedSecretBundle (secretBundle r (dsr_SecretRecord record))
    (recoveryID (vaultBaseURL r) (dsr_RecoveryID record)) (dsr_DeletedDate record) (dsr_ScheduledPurgeDate record).

Definition secret_ok (r : Request) (record : SecretRecord) : Response :=
  writeJSON StatusOK (json_of_SecretBundle (secretBundle r record)).
Definition deleted_secret_ok (r : Request) (record : DeletedSecretRecord) : Response :=
  writeJSON StatusOK (json_of_DeletedSecretBundle (deletedSecretBundle r record)).

(** ** Routes *)

Section routes.
Context `{JE : JsonErrors} {St : Type} `{Api : SecretsApi St}.

Definition http_listSecrets (r : Request) : HM St :=
  listing r api_ListSecrets (secret_item r) (json_page json_of_SecretItem).
Definition listSecretVersions (r : Request) (name : string) : HM St :=
  listing r (api_ListSecretVersions name) (secret_item r) (json_page json_of_SecretItem).
Definition listDeletedSecrets (r : Request) : HM St :=
  listing r api_ListDeletedSecrets (deletedSecretBundle r) (json_page json_of_DeletedSecretBundle).

Definition handleSecretRoutes (e : Env) (r : Request) : HM St :=
  let not_found := answer (writeError resource_not_found) in
  match splitPath (r_Path r) "/secrets/" with
  | [] => not_found
  | name :: rest =>
      if decide (r_Method r = "PUT"%string) then
        match rest with
        | [] =>
            with_body "SecretSetRequest" (dec_SecretSetRequest zero_SecretSetRequest) r (λ req,
              serve (api_SetSecret e name req) (secret_ok r))
        | _ => not_found
        end
      else if decide (r_Method r = "GET"%string) then
        match rest with
        | [] => serve (api_GetSecret name "") (secret_ok r)
        | [version] =>
            if decide (version = "versions"%string) then listSecretVersions r name
            else serve (api_GetSecret name version) (secret_ok r)
        | _ => not_found
        end
      else if decide (r_Method r = "DELETE"%string) then
        match rest with
        | [] => serve (api_DeleteSecret e name) (deleted_secret_ok r)
        | _ => not_found
        end
      else if decide (r_Method r = "PATCH"%string) then
        match rest with
        | [version] =>
            with_body "SecretUpdateRequest" (dec_SecretUpdateRequest zero_SecretUpdateRequest) r (λ req,
              serve (api_UpdateSecret e name version req) (secret_ok r))
        | _ => not_found
        end
      else if decide (r_Method r = "POST"%string) then
        match rest with
        | [action] =>
            if decide (action = "backup"%string) then
              serve (api_BackupSecret name) (λ backup, writeJSON StatusOK (JObj [("value"%string, JStr backup)]))
            else not_found
        | _ => not_found
        end
      else answer (mkResponse StatusMethodNotAllowed NoBody)
  end.

Definition handleDeletedSecretRoutes (r : Request) : HM St :=
  let not_found := answer (writeError resource_not_found) in
  match splitPath (r_Path r) "/deletedsecrets/" with
  | [] => not_found
  | name :: rest =>
      if decide (r_Method r = "GET"%string) then
        match rest with
        | [] => serve (api_GetDeletedSecret name) (deleted_secret_ok r)
        | _ => not_found
        end
      else if decide (r_Method r = "DELETE"%string) then
        match rest with
        | [] => serve (api_PurgeDeletedSecret name) (λ _, mkResponse StatusNoContent NoBody)
        | _ => not_found
        end
      else if decide (r_Method r = "POST"%string) then
        match rest with
        | [action] =>
            if decide (action = "recover"%string) then serve (api_RecoverDeletedSecret name) (secret_ok r)
            else not_found
        | _ => not_found
        end
      else answer (mkResponse StatusMethodNotAllowed NoBody)
  end.

Definition restoreSecret (r : Request) : HM St :=
  with_body "restoreRequest" (dec_restoreRequest (mkRestoreRequest "")) r (λ req,
    serve (api_RestoreSecret (rr_Value req)) (secret_ok r)).

(** The routes [registerSecretRoutes] registers, as the server's multiplexer
    picks them for a clean path (a GET pattern also takes HEAD); [None] is a
    path of another component. *)
Definition secret_routes (e : Env) (r : Request) : option (HM St) :=
  let p := r_Path r in
  let m := r_Method r in
  if decide (p = "/secrets"%string ∧ m ∈ ["GET"; "HEAD"]%string) then Some (http_listSecrets r)
  else if decide (p = "/secrets/restore"%string ∧ m = "POST"%string) then Some (restoreSecret r)
  else if HasPrefix p "/secrets/" && bool_decide (m ∈ ["PUT"; "GET"; "HEAD"; "DELETE"; "PATCH"; "POST"]%string)
  then Some (handleSecretRoutes e r)
  else if decide (p = "/deletedsecrets"%string ∧ m ∈ ["GET"; "HEAD"]%string) then Some (listDeletedSecrets r)
  else if HasPrefix p "/deletedsecrets/" && bool_decide (m ∈ ["GET"; "HEAD"; "DELETE"; "POST"]%string)
  then Some (handleDeletedSecretRoutes r)
  else None.
End routes.
