(* ===== verification/HttpKeys.v ===== *)
(** * Component: the key routes ([internal/handler/keys.go])

    Written against the interface [KeysApi], the key part of [store.Storer]. *)

From S2P Require Import Prelude GoStrings GoUrl GoJson GoCrypto Model KeyCrypto StoreCore KeyStore HttpJson Http.

Class KeysApi (St : Type) : Type := {
  api_CreateKey : Env → string → CreateKeyRequest → M St error KeyRecord;
  api_ImportKey : Env → string → ImportKeyRequest → M St error KeyRecord;
  api_GetKey : string → string → M St error KeyRecord;
  api_ListKeys : Z → string → M St error (list KeyRecord * option string);
  api_ListKeyVersions : string → Z → string → M St error (list KeyRecord * option string);
  api_UpdateKey : Env → string → string → UpdateKeyRequest → M St error KeyRecord;
  api_DeleteKey : Env → string → M St error DeletedKeyRecord;
  api_ListDeletedKeys : Z → string → M St error (list DeletedKeyRecord * option string);
  api_GetDeletedKey : string → M St error DeletedKeyRecord;
  api_PurgeDeletedKey : string → M St error unit;
  api_RecoverDeletedKey : string → M St error KeyRecord;
  api_Encrypt : Env → string → string → EncryptRequest → M St error (string * string);
  api_Decrypt : string → string → EncryptRequest → M St error (string * string);
  api_Sign : Env → string → string → SignRequest → M St error string;
  api_Verify : string → string → VerifyRequest → M St error bool;
  api_WrapKey : Env → string → string → EncryptRequest → M St error string;
  api_UnwrapKey : string → string → EncryptRequest → M St error string;
}.

#[export] Instance Store_KeysApi `{BlockCipher} `{PublicKeyLib} : KeysApi Store := {|
  api_CreateKey := CreateKey; api_ImportKey := ImportKey; api_GetKey := GetKey; api_ListKeys := ListKeys;
  api_ListKeyVersions := ListKeyVersions; api_UpdateKey := UpdateKey; api_DeleteKey := DeleteKey;
  api_ListDeletedKeys := ListDeletedKeys; api_GetDeletedKey := GetDeletedKey;
  api_PurgeDeletedKey := PurgeDeletedKey; api_RecoverDeletedKey := RecoverDeletedKey;
  api_Encrypt := Encrypt; api_Decrypt := Decrypt; api_Sign := Sign; api_Verify := Verify;
  api_WrapKey := WrapKey; api_UnwrapKey := UnwrapKey;
|}.

(** [strings.ToLower], for comparison with ASCII names: of the letters outside
    ASCII only U+0130 and U+212A have a lower case in ASCII. *)
Definition lower (b : byte) : byte := if decide (65 ≤ bval b ≤ 90) then bmk (bval b + 32) else b.
Fixpoint lower_bytes (l : bytes) : bytes :=
  match l with
  | b :: ((c :: l2) as l1) =>
      if decide (bval b = 196 ∧ bval c = 176) then "i"%char :: lower_bytes l2 else
      match l2 with
      | d :: l3 =>
          if decide (bval b = 226 ∧ bval c = 132 ∧ bval d = 170) then "k"%char :: lower_bytes l3
          else lower b :: lower_bytes l1
      | [] => lower b :: lower_bytes l1
      end
  | [b] => [lower b]
  | [] => []
  end.
Definition ToLower (s : string) : string := of_bytes (lower_bytes (to_bytes s)).

(** ** Bundles *)

Definition keyID (baseURL name version : string) : string :=
  if decide (version = ""%string) then (baseURL ++ "/keys/" ++ name)%string
  else (baseURL ++ "/keys/" ++ name ++ "/" ++ version)%string.

Definition key_item (r : Request) (record : KeyRecord) : KeyItem :=
  mkKeyItem (keyID (vaultBaseURL r) (kr_Name record) (kr_Version record)) (kr_Attributes record) (kr_Tags record).

(** [key.Kid = ...] on a copy of the key. *)
Definition with_Kid (kid : string) (k : JSONWebKey) : JSONWebKey :=
  mkJSONWebKey kid (jwk_Kty k) (jwk_KeyOps k) (jwk_N k) (jwk_E k) (jwk_D k) (jwk_P k) (jwk_Q k) (jwk_DP k) (jwk_DQ k)
    (jwk_QI k) (jwk_Crv k) (jwk_X k) (jwk_Y k) (jwk_K k).

Definition keyBundle (r : Request) (record : KeyRecord) : KeyBundle :=
  mkKeyBundle (with_Kid (keyID (vaultBaseURL r) (kr_Name record) (kr_Version record)) (kr_Key record))
    (kr_Attributes record) (kr_Tags record).

Definition deletedKeyBundle (r : Request) (record : DeletedKeyRecord) : DeletedKeyBundle :=
  mkDeletedKeyBundle (keyBundle r (dkr_KeyRecord record)) (recoveryID (vaultBaseURL r) (dkr_RecoveryID record))
    (dkr_DeletedDate record) (dkr_ScheduledPurgeDate record).

Definition key_ok (r : Request) (record : KeyRecord) : Response :=
  writeJSON StatusOK (json_of_KeyBundle (keyBundle r record)).
Definition deleted_key_ok (r : Request) (record : DeletedKeyRecord) : Response :=
  writeJSON StatusOK (json_of_DeletedKeyBundle (deletedKeyBundle r record)).

(** ** Routes *)

Section routes.
Context `{JE : JsonErrors} {St : Type} `{Api : KeysApi St}.

Definition http_listKeys (r : Request) : HM St := listing r api_ListKeys (key_item r) (json_page json_of_KeyItem).
Definition listKeyVersions (r : Request) (name : string) : HM St :=
  listing r (api_ListKeyVersions name) (key_item r) (json_page json_of_KeyItem).
Definition listDeletedKeys (r : Request) : HM St :=
  listing r api_ListDeletedKeys (deletedKeyBundle r) (json_page json_of_DeletedKeyBundle).

Definition crypto_ok (r : Request) (name version alg : string) (valueIV : string * string) : Response :=
  writeJSON StatusOK (json_of_CryptoResponse
    (mkCryptoResponse (keyID (vaultBaseURL r) name version) valueIV.1 alg valueIV.2)).

Definition handleKeyOperation (e : Env) (r : Request) (name version operation : string) : HM St :=
  if decide (operation = "encrypt" ∨ operation = "decrypt")%string then
    with_body "EncryptRequest" (dec_EncryptRequest zero_EncryptRequest) r (λ req,
      serve (if decide (operation = "encrypt"%string) then api_Encrypt e name version req else api_Decrypt name version req)
        (crypto_ok r name version (er_Alg req)))
  else if decide (operation = "sign"%string) then
    with_body "SignRequest" (dec_SignRequest zero_SignRequest) r (λ req,
      serve (api_Sign e name version req) (λ value, crypto_ok r name version (sgr_Alg req) (value, ""%string)))
  else if decide (operation = "verify"%string) then
    with_body "VerifyRequest" (dec_VerifyRequest zero_VerifyRequest) r (λ req,
      serve (api_Verify name version req) (λ ok, writeJSON StatusOK (json_of_VerifyResponse (mkVerifyResponse ok))))
  else if decide (operation = "wrapkey" ∨ operation = "unwrapkey")%string then
    with_body "EncryptRequest" (dec_EncryptRequest zero_EncryptRequest) r (λ req,
      serve (if decide (operation = "wrapkey"%string) then api_WrapKey e name version req else api_UnwrapKey name version req)
        (λ value, crypto_ok r name version (er_Alg req) (value, ""%string)))
  else answer (writeError resource_not_found).

Definition handleKeyPost (e : Env) (r : Request) (name : string) (segments : list string) : HM St :=
  match segments with
  | [_; action] =>
      if decide (action = "create"%string) then
        with_body "CreateKeyRequest" decode_CreateKeyRequest r (λ req, serve (api_CreateKey e name req) (key_ok r))
      else if decide (action = "import"%string) then
        with_body "ImportKeyRequest" decode_ImportKeyRequest r (λ req, serve (api_ImportKey e name req) (key_ok r))
      else answer (writeError resource_not_found)
  | [_; version; operation] => handleKeyOperation e r name version (ToLower operation)
  | _ => answer (writeError resource_not_found)
  end.

Definition handleKeyGet (r : Request) (name : string) (segments : list string) : HM St :=
  match segments with
  | [_] => serve (api_GetKey name "") (key_ok r)
  | [_; version] =>
      if decide (version = "versions"%string) then listKeyVersions r name
      else serve (api_GetKey name version) (key_ok r)
  | _ => answer (writeError resource_not_found)
  end.

Definition handleKeyRoutes (e : Env) (r : Request) : HM St :=
  let segments := splitPath (r_Path r) "/keys/" in
  let not_found := answer (writeError resource_not_found) in
  match segments with
  | [] => not_found
  | name :: rest =>
      if decide (r_Method r = "POST"%string) then handleKeyPost e r name segments
      else if decide (r_Method r = "GET"%string) then handleKeyGet r name segments
      else if decide (r_Method r = "DELETE"%string) then
        match rest with [] => serve (api_DeleteKey e name) (deleted_key_ok r) | _ => not_found end
      else if decide (r_Method r = "PATCH"%string) then
        match rest with
        | [version] =>
            with_body "UpdateKeyRequest" decode_UpdateKeyRequest r (λ req,
              serve (api_UpdateKey e name version req) (key_ok r))
        | _ => not_found
        end
      else answer (mkResponse StatusMethodNotAllowed NoBody)
  end.

Definition handleDeletedKeyRoutes (r : Request) : HM St :=
  let not_found := answer (writeError resource_not_found) in
  match splitPath (r_Path r) "/deletedkeys/" with
  | [] => not_found
  | name :: rest =>
      if decide (r_Method r = "GET"%string) then
        match rest with [] => serve (api_GetDeletedKey name) (deleted_key_ok r) | _ => not_found end
      else if decide (r_Method r = "DELETE"%string) then
        match rest with
        | [] => serve (api_PurgeDeletedKey name) (λ _, mkResponse StatusNoContent NoBody)
        | _ => not_found
        end
      else if decide (r_Method r = "POST"%string) then
        match rest with
        | [action] =>
            if decide (action = "recover"%string) then serve (api_RecoverDeletedKey name) (key_ok r)
            else not_found
        | _ => not_found
        end
      else answer (mkResponse StatusMethodNotAllowed NoBody)
  end.

Definition key_routes (e : Env) (r : Request) : option (HM St) :=
  let p := r_Path r in
  let m := r_Method r in
  if decide (p = "/keys"%string ∧ m ∈ ["GET"; "HEAD"]%string) then Some (http_listKeys r)
  else if HasPrefix p "/keys/" && bool_decide (m ∈ ["POST"; "GET"; "HEAD"; "DELETE"; "PATCH"]%string)
  then Some (handleKeyRoutes e r)
  else if decide (p = "/deletedkeys"%string ∧ m ∈ ["GET"; "HEAD"]%string) then Some (listDeletedKeys r)
  else if HasPrefix p "/deletedkeys/" && bool_decide (m ∈ ["GET"; "HEAD"; "DELETE"; "POST"]%string)
  then Some (handleDeletedKeyRoutes r)
  else None.
End routes.
