(* ===== verification/HttpCerts.v ===== *)
(** * Component: the certificate routes ([internal/handler/certificates.go])

    Written against the interface [CertsApi], the certificate part of
    [store.Storer]. *)

From S2P Require Import Prelude GoStrings GoUrl GoJson GoCrypto GoSha1 GoX509 Model KeyCrypto CertCrypto StoreCore CertStore HttpJson CertJson Http HttpSecrets HttpKeys.

Class CertsApi (St : Type) : Type := {
  api_CreateCertificate : Env → string → CreateCertificateRequest → M St error CertificateRecord;
  api_ImportCertificate : Env → string → ImportCertificateRequest → M St error CertificateRecord;
  api_GetCertificate : string → string → M St error CertificateRecord;
  api_ListCertificates : Z → string → M St error (list CertificateRecord * option string);
  api_ListCertificateVersions : string → Z → string → M St error (list CertificateRecord * option string);
  api_UpdateCertificate : Env → string → string → UpdateCertificateRequest → M St error CertificateRecord;
  api_GetCertificatePolicy : string → M St error (option CertificatePolicy);
  api_UpdateCertificatePolicy : Env → string → option CertificatePolicy → M St error (option CertificatePolicy);
  api_GetPendingCertificateOperation : string → M St error CertificateOperation;
  api_DeleteCertificate : Env → string → M St error DeletedCertificateRecord;
  api_ListDeletedCertificates : Z → string → M St error (list DeletedCertificateRecord * option string);
  api_GetDeletedCertificate : string → M St error DeletedCertificateRecord;
  api_PurgeDeletedCertificate : string → M St error unit;
  api_RecoverDeletedCertificate : string → M St error CertificateRecord;
}.

#[export] Instance Store_CertsApi `{PublicKeyLib} `{CertLib} : CertsApi Store := {|
  api_CreateCertificate := CreateCertificate; api_ImportCertificate := ImportCertificate;
  api_GetCertificate := GetCertificate; api_ListCertificates := ListCertificates;
  api_ListCertificateVersions := ListCertificateVersions; api_UpdateCertificate := UpdateCertificate;
  api_GetCertificatePolicy := GetCertificatePolicy; api_UpdateCertificatePolicy := UpdateCertificatePolicy;
  api_GetPendingCertificateOperation := GetPendingCertificateOperation; api_DeleteCertificate := DeleteCertificate;
  api_ListDeletedCertificates := ListDeletedCertificates; api_GetDeletedCertificate := GetDeletedCertificate;
  api_PurgeDeletedCertificate := PurgeDeletedCertificate; api_RecoverDeletedCertificate := RecoverDeletedCertificate;
|}.

(** ** Bundles *)

Definition certificateID (baseURL name version : string) : string :=
  if decide (version = ""%string) then (baseURL ++ "/certificates/" ++ name)%string
  else (baseURL ++ "/certificates/" ++ name ++ "/" ++ version)%string.

Definition certificateBundle (r : Request) (record : CertificateRecord) : CertificateBundle :=
  let baseURL := vaultBaseURL r in
  mkCertificateBundle (certificateID baseURL (cr_Name record) (cr_Version record))
    (keyID baseURL (cr_Name record) (cr_Version record)) (secretID baseURL (cr_Name record) (cr_Version record))
    (EncodeBase64URL (cr_Cer record)) (cr_Attributes record) (cr_Tags record) (cr_Policy record).

Definition certificateItem (r : Request) (record : CertificateRecord) : CertificateItem :=
  let baseURL := vaultBaseURL r in
  mkCertificateItem (certificateID baseURL (cr_Name record) (cr_Version record))
    (keyID baseURL (cr_Name record) (cr_Version record)) (secretID baseURL (cr_Name record) (cr_Version record))
    (EncodeBase64URL (sha1_Sum (cr_Cer record))) (cr_Attributes record) (cr_Tags record).

Definition deletedCertificateBundle (r : Request) (record : DeletedCertificateRecord) : DeletedCertificateBundle :=
  mkDeletedCertificateBundle (certificateBundle r (dcr_CertificateRecord record))
    (recoveryID (vaultBaseURL r) (dcr_RecoveryID record)) (dcr_DeletedDate record) (dcr_ScheduledPurgeDate record).

Definition certificate_ok (r : Request) (record : CertificateRecord) : Response :=
  write_value StatusOK (json_of_CertificateBundle (certificateBundle r record)).
Definition deleted_certificate_ok (r : Request) (record : DeletedCertificateRecord) : Response :=
  write_value StatusOK (json_of_DeletedCertificateBundle (deletedCertificateBundle r record)).
Definition policy_ok (policy : option CertificatePolicy) : Response :=
  write_value StatusOK (json_of_policy_ptr policy).

(** ** Routes *)

Section routes.
Context `{JE : JsonErrors} {St : Type} `{Api : CertsApi St}.

Definition http_listCertificates (r : Request) : HM St :=
  listing r api_ListCertificates (certificateItem r) (json_page json_of_CertificateItem).
Definition listCertificateVersions (r : Request) (name : string) : HM St :=
  listing r (api_ListCertificateVersions name) (certificateItem r) (json_page json_of_CertificateItem).
Definition listDeletedCertificates (r : Request) : HM St :=
  listing r api_ListDeletedCertificates (deletedCertificateBundle r) (json_page_opt json_of_DeletedCertificateBundle).

Definition handleCertificatePost (e : Env) (r : Request) (name : string) (rest : list string) : HM St :=
  match rest with
  | [action] =>
      if decide (action = "create"%string) then
        with_body "CreateCertificateRequest" decode_CreateCertificateRequest r (λ req,
          serve (api_CreateCertificate e name req) (certificate_ok r))
      else if decide (action = "import"%string) then
        with_body "ImportCertificateRequest" decode_ImportCertificateRequest r (λ req,
          serve (api_ImportCertificate e name req) (certificate_ok r))
      else answer (writeError resource_not_found)
  | _ => answer (writeError resource_not_found)
  end.

Definition handleCertificateGet (r : Request) (name : string) (rest : list string) : HM St :=
  match rest with
  | [] => serve (api_GetCertificate name "") (certificate_ok r)
  | [sub] =>
      if decide (sub = "versions"%string) then listCertificateVersions r name
      else if decide (sub = "policy"%string) then serve (api_GetCertificatePolicy name) policy_ok
      else if decide (sub = "pending"%string) then
        serve (api_GetPendingCertificateOperation name) (λ op, writeJSON StatusOK (json_of_CertificateOperation op))
      else serve (api_GetCertificate name sub) (certificate_ok r)
  | _ => answer (writeError resource_not_found)
  end.

Definition handleCertificatePatch (e : Env) (r : Request) (name : string) (rest : list string) : HM St :=
  match rest with
  | [sub] =>
      if decide (sub = "policy"%string) then
        with_body "CreateCertificateRequest" decode_CreateCertificateRequest r (λ req,
          serve (api_UpdateCertificatePolicy e name (ccr_Policy req)) policy_ok)
      else
        with_body "UpdateCertificateRequest" decode_UpdateCertificateRequest r (λ req,
          serve (api_UpdateCertificate e name sub req) (certificate_ok r))
  | _ => answer (writeError resource_not_found)
  end.

Definition handleCertificateRoutes (e : Env) (r : Request) : HM St :=
  let not_found := answer (writeError resource_not_found) in
  match splitPath (r_Path r) "/certificates/" with
  | [] => not_found
  | name :: rest =>
      if decide (r_Method r = "POST"%string) then handleCertificatePost e r name rest
      else if decide (r_Method r = "GET"%string) then handleCertificateGet r name rest
      else if decide (r_Method r = "PATCH"%string) then handleCertificatePatch e r name rest
      else if decide (r_Method r = "DELETE"%string) then
        match rest with [] => serve (api_DeleteCertificate e name) (deleted_certificate_ok r) | _ => not_found end
      else answer (mkResponse StatusMethodNotAllowed NoBody)
  end.

Definition handleDeletedCertificateRoutes (r : Request) : HM St :=
  let not_found := answer (writeError resource_not_found) in
  match splitPath (r_Path r) "/deletedcertificates/" with
  | [] => not_found
  | name :: rest =>
      if decide (r_Method r = "GET"%string) then
        match rest with [] => serve (api_GetDeletedCertificate name) (deleted_certificate_ok r) | _ => not_found end
      else if decide (r_Method r = "DELETE"%string) then
        match rest with
        | [] => serve (api_PurgeDeletedCertificate name) (λ _, mkResponse StatusNoContent NoBody)
        | _ => not_found
        end
      else if decide (r_Method r = "POST"%string) then
        match rest with
        | [action] =>
            if decide (action = "recover"%string) then serve (api_RecoverDeletedCertificate name) (certificate_ok r)
            else not_found
        | _ => not_found
        end
      else answer (mkResponse StatusMethodNotAllowed NoBody)
  end.

(** The routes [registerCertificateRoutes] registers. *)
Definition certificate_routes (e : Env) (r : Request) : option (HM St) :=
  let p := r_Path r in
  let m := r_Method r in
  if decide (p = "/certificates"%string ∧ m ∈ ["GET"; "HEAD"]%string) then Some (http_listCertificates r)
  else if HasPrefix p "/certificates/" && bool_decide (m ∈ ["POST"; "GET"; "HEAD"; "DELETE"; "PATCH"]%string)
  then Some (handleCertificateRoutes e r)
  else if decide (p = "/deletedcertificates"%string ∧ m ∈ ["GET"; "HEAD"]%string) then Some (listDeletedCertificates r)
  else if HasPrefix p "/deletedcertificates/" && bool_decide (m ∈ ["GET"; "HEAD"; "DELETE"; "POST"]%string)
  then Some (handleDeletedCertificateRoutes r)
  else None.
End routes.

(** The handler of [handler.go] over a store: [Register]. *)
Definition api_handler `{JE : JsonErrors} {St : Type} `{SA : SecretsApi St} `{KA : KeysApi St} `{CA : CertsApi St} (e : Env) (r : Request) : HM St :=
  if decide (r_Path r = "/healthz"%string ∧ r_Method r ∈ ["GET"; "HEAD"]%string) then answer healthz
  else match secret_routes e r with
  | Some h => h
  | None =>
      match key_routes e r with
      | Some h => h
      | None => default (answer handleNotFound) (certificate_routes e r)
      end
  end.
