(* ===== verification/SqlApi.v ===== *)
(** * The SQL store as a [store.Storer]

    Each operation is its program, run against the engine from start to end;
    the handlers of the REST API, the wrapper that encrypts and the web
    handlers are written against these interfaces. *)

From S2P Require Import Prelude GoStrings GoJson GoCrypto GoX509 GoSql Model KeyCrypto StoreCore EncryptedStore HttpSecrets HttpKeys HttpCerts SqlSchema SqlCore SqlSecrets SqlKeys SqlCerts.

Section instances.
Context `{JE : JsonErrors} {D : SqlEngine} (f : DBFlavor).

Definition SQLStore_SecretsApi : SecretsApi sdb := {|
  api_SetSecret e n r := run (SqlSecrets.SetSecret f e n r);
  api_GetSecret n v := run (SqlSecrets.GetSecret f n v);
  api_ListSecrets m t := run (SqlSecrets.ListSecrets f m t);
  api_ListSecretVersions n m t := run (SqlSecrets.ListSecretVersions f n m t);
  api_UpdateSecret e n v r := run (SqlSecrets.UpdateSecret f e n v r);
  api_DeleteSecret e n := run (SqlSecrets.DeleteSecret f e n);
  api_ListDeletedSecrets m t := run (SqlSecrets.ListDeletedSecrets f m t);
  api_GetDeletedSecret n := run (SqlSecrets.GetDeletedSecret f n);
  api_PurgeDeletedSecret n := run (SqlSecrets.PurgeDeletedSecret f n);
  api_RecoverDeletedSecret n := run (SqlSecrets.RecoverDeletedSecret f n);
  api_BackupSecret n := run (SqlSecrets.BackupSecret f n);
  api_RestoreSecret t := run (SqlSecrets.RestoreSecret f t);
|}.

Definition SQLStore_SecretStorer : SecretStorer sdb := {|
  st_SetSecret e n r := run (SqlSecrets.SetSecret f e n r);
  st_GetSecret n v := run (SqlSecrets.GetSecret f n v);
  st_UpdateSecret e n v r := run (SqlSecrets.UpdateSecret f e n v r);
  st_DeleteSecret e n := run (SqlSecrets.DeleteSecret f e n);
  st_GetDeletedSecret n := run (SqlSecrets.GetDeletedSecret f n);
  st_RecoverDeletedSecret n := run (SqlSecrets.RecoverDeletedSecret f n);
|}.

Context `{X : CertLib} `{KD : KeyDer} `{L : PublicKeyLib}.

Definition SQLStore_KeysApi `{C : BlockCipher} : KeysApi sdb := {|
  api_CreateKey e n r := run (SqlKeys.CreateKey f e n r);
  api_ImportKey e n r := run (SqlKeys.ImportKey f e n r);
  api_GetKey n v := run (SqlKeys.GetKey f n v);
  api_ListKeys m t := run (SqlKeys.ListKeys f m t);
  api_ListKeyVersions n m t := run (SqlKeys.ListKeyVersions f n m t);
  api_UpdateKey e n v r := run (SqlKeys.UpdateKey f e n v r);
  api_DeleteKey e n := run (SqlKeys.DeleteKey f e n);
  api_ListDeletedKeys m t := run (SqlKeys.ListDeletedKeys f m t);
  api_GetDeletedKey n := run (SqlKeys.GetDeletedKey f n);
  api_PurgeDeletedKey n := run (SqlKeys.PurgeDeletedKey f n);
  api_RecoverDeletedKey n := run (SqlKeys.RecoverDeletedKey f n);
  api_Encrypt e n v r := run (SqlKeys.Encrypt f e n v r);
  api_Decrypt n v r := run (SqlKeys.Decrypt f n v r);
  api_Sign e n v r := run (SqlKeys.Sign f e n v r);
  api_Verify n v r := run (SqlKeys.Verify f n v r);
  api_WrapKey e n v r := run (SqlKeys.WrapKey f e n v r);
  api_UnwrapKey n v r := run (SqlKeys.UnwrapKey f n v r);
|}.

Definition SQLStore_CertsApi : CertsApi sdb := {|
  api_CreateCertificate e n r := run (SqlCerts.CreateCertificate f e n r);
  api_ImportCertificate e n r := run (SqlCerts.ImportCertificate f e n r);
  api_GetCertificate n v := run (SqlCerts.GetCertificate f n v);
  api_ListCertificates m t := run (SqlCerts.ListCertificates f m t);
  api_ListCertificateVersions n m t := run (SqlCerts.ListCertificateVersions f n m t);
  api_UpdateCertificate e n v r := run (SqlCerts.UpdateCertificate f e n v r);
  api_GetCertificatePolicy n := run (SqlCerts.GetCertificatePolicy f n);
  api_UpdateCertificatePolicy e n p := run (SqlCerts.UpdateCertificatePolicy f e n p);
  api_GetPendingCertificateOperation n := run (SqlCerts.GetPendingCertificateOperation f n);
  api_DeleteCertificate e n := run (SqlCerts.DeleteCertificate f e n);
  api_ListDeletedCertificates m t := run (SqlCerts.ListDeletedCertificates f m t);
  api_GetDeletedCertificate n := run (SqlCerts.GetDeletedCertificate f n);
  api_PurgeDeletedCertificate n := run (SqlCerts.PurgeDeletedCertificate f n);
  api_RecoverDeletedCertificate n := run (SqlCerts.RecoverDeletedCertificate f n);
|}.
End instances.
