(* ===== verification/SqlFacts.v ===== *)
(** * Facts about the SQL store's columns and statements

    What the encoders of columns write decodes again; what a query gives comes
    from the tables. *)

From S2P Require Import Prelude GoStrings GoUtf8 GoJson JsonFacts GoSql Model StoreCore SecretBackup HttpJson SqlSchema SqlCore SqlSecrets.

(** ** Columns *)

Section columns.
Context `{JE : JsonErrors}.

Lemma unmarshal_marshal {T} type (decode : json → option T) j v :
  json_integral j → json_height j ≤ maxNestingDepth → decode (json_coerce j) = Some v →
  unmarshal type decode (marshal j) = Ok v.
Proof.
  intros Hi Hh Hd. unfold unmarshal, marshal. rewrite to_of_bytes, json_parse_print by done.
  cbn [mbind option_bind]. by rewrite Hd.
Qed.

Lemma unmarshal_Ok {T} type (decode : json → option T) s v :
  unmarshal type decode s = Ok v → ∃ j, decode j = Some v.
Proof.
  unfold unmarshal. destruct (json_parse (to_bytes s)) as [j|]; [|done]. cbn [mbind option_bind].
  destruct (decode j) as [v'|] eqn:Hj; [|done]. intros [= <-]. by exists j.
Qed.

Lemma unmarshalAttrs_total a : attributes_int64 a →
  ∃ a', unmarshalAttrs (marshal (json_of_attributes a)) = Ok a' ∧ (attributes_ok a → a' = a).
Proof.
  intros Ha. destruct (json_of_attributes_shape a) as [Hi Hh]. eexists. split.
  - apply unmarshal_marshal; [done|rewrite Hh; vm_compute; discriminate|by apply dec_attributes_coerce].
  - intros [_ Hl]. rewrite utf8_coerce_valid by done. by destruct a.
Qed.

Lemma unmarshalTags_total t :
  ∃ t', unmarshalTags (marshal (enc_string_map t)) = Ok t' ∧ (tags_ok t → t' = t).
Proof.
  destruct (enc_string_map_shape t) as [Hi Hh]. destruct (dec_string_map_total t) as [t' Ht'].
  exists t'. split; [apply unmarshal_marshal; [done|unfold maxNestingDepth; lia|done]|].
  intros Hok. rewrite dec_string_map_enc in Ht' by done. by injection Ht'.
Qed.

Lemma unmarshalAttrs_int64 s a : unmarshalAttrs s = Ok a → attributes_int64 a.
Proof.
  intros [j Hj]%unmarshal_Ok. eapply dec_attributes_int64; [|done].
  unfold attributes_int64, in_int64, max_int64. cbn. split_and!; try done; lia.
Qed.

(** ** Requests hold 64-bit integers *)

Definition request_int64 (a : option Attributes) : Prop :=
  match a with Some a => attributes_int64 a | None => True end.

Lemma recoverableDays_int64 : in_int64 StoreCore.recoverableDays.
Proof. unfold in_int64, max_int64, StoreCore.recoverableDays. lia. Qed.
Lemma nowUnix_int64 e : in_int64 (StoreCore.nowUnix e).
Proof. apply wrap64_range. Qed.
#[local] Hint Resolve recoverableDays_int64 nowUnix_int64 wrap64_range : core.

Lemma buildAttributes_int64 input created updated :
  request_int64 input → in_int64 created → in_int64 updated →
  attributes_int64 (StoreCore.buildAttributes input created updated).
Proof.
  unfold StoreCore.buildAttributes, attributes_int64. destruct input as [a|]; cbn; intros Ha Hc Hu; [|by split_and!].
  rewrite !clonePtr_id. destruct Ha as (Hn & He & _). by split_and!.
Qed.

Lemma mergeAttributes_int64 e current patch :
  attributes_int64 current → request_int64 patch → attributes_int64 (StoreCore.mergeAttributes e current patch).
Proof.
  unfold StoreCore.mergeAttributes, attributes_int64. rewrite !cloneAttributes_id. cbn.
  intros (Hn & He & Hc & Hu & Hd) Hp.
  destruct patch as [p|]; [|by split_and!]. destruct Hp as (Hn' & He' & _).
  split_and!; try done; [destruct (NotBefore p) eqn:E|destruct (Expires p) eqn:E]; naive_solver.
Qed.

(** ** Snapshots of secrets *)

Lemma hex_digit_ascii z : 0 ≤ z < 16 → bval (hex_digit z) < 128.
Proof. intros Hz. unfold hex_digit. rewrite bval_bmk. case_decide; rewrite Z.mod_small; lia. Qed.
Lemma hex_utf8 l : utf8_valid (hex_EncodeToString l) = true.
Proof.
  apply utf8_valid_ascii. unfold hex_EncodeToString. rewrite to_of_bytes.
  induction l as [|b l IH]; [constructor|]. pose proof (bval_range b). cbn [hex_encode].
  repeat constructor; [apply hex_digit_ascii..|done]; [|apply Z.mod_pos_bound; lia].
  split; [apply Z.div_pos; lia|apply Z.div_lt_upper_bound; lia].
Qed.
Lemma version_id_utf8 e : utf8_valid (version_id e) = true.
Proof. apply hex_utf8. Qed.

Definition snapshot_int64 (s : secretVersionSnapshot) : Prop :=
  attributes_int64 (ss_Attributes s) ∧ in_int64 (ss_CreatedAt s).
Definition snapshot_ok (s : secretVersionSnapshot) : Prop :=
  utf8_valid (ss_Version s) = true ∧ utf8_valid (ss_Value s) = true ∧ utf8_valid (ss_ContentType s) = true ∧
  attributes_ok (ss_Attributes s) ∧ tags_ok (ss_Tags s) ∧ in_int64 (ss_CreatedAt s).

Lemma snapshot_ok_int64 s : snapshot_ok s → snapshot_int64 s.
Proof. intros (_ & _ & _ & [Ha _] & _ & Hc). done. Qed.

Lemma dec_secret_snapshot_total s : snapshot_int64 s →
  ∃ s', dec_secret_snapshot zero_snapshot (json_coerce (json_of_secret_snapshot s)) = Some s' ∧
    (snapshot_ok s → s' = s).
Proof.
  intros [Ha Hc]. pose proof (dec_attributes_coerce _ Ha) as Hatt.
  destruct (dec_string_map_total (ss_Tags s)) as [t Htags].
  pose proof (dec_int_enc 0 _ Hc) as Hint.
  set (a' := mkAttributes _ _ _ _ _ _ _) in Hatt.
  exists (mkSecretSnapshot (utf8_coerce (ss_Version s)) (utf8_coerce (ss_Value s)) (utf8_coerce (ss_ContentType s))
    a' t (ss_CreatedAt s)). split.
  - unfold dec_secret_snapshot, json_of_secret_snapshot. rewrite dec_struct_obj. cbn [map]. unfold coerce_member. cbn [fst snd].
    revert Hatt Htags Hint. generalize (json_coerce (json_of_attributes (ss_Attributes s))).
    generalize (json_coerce (enc_string_map (ss_Tags s))). generalize (json_coerce (enc_int (ss_CreatedAt s))).
    intros jc jt ja Hatt Htags Hint. cbn [json_coerce]. unfold struct_step. simpl.
    rewrite Hatt. simpl. rewrite Htags. simpl. by rewrite Hint.
  - intros (Hv & Hva & Hct & [_ Hl] & Ht & _). rewrite dec_string_map_enc in Htags by done. injection Htags as <-.
    subst a'. rewrite !utf8_coerce_valid by done. by destruct s as [? ? ? [] ? ?].
Qed.

Lemma dec_snapshots_total l : Forall snapshot_int64 l →
  ∃ l', dec_elems zero_snapshot dec_secret_snapshot [] (map json_coerce (map json_of_secret_snapshot l)) = Some l' ∧
    length l' = length l ∧ (Forall snapshot_ok l → l' = l).
Proof.
  induction 1 as [|s l Hs _ (l' & Hl & Hlen & Heq)]; [by exists []|].
  destruct (dec_secret_snapshot_total s Hs) as (s' & Hs' & Hseq). exists (s' :: l').
  cbn [map dec_elems hd tail]. rewrite Hs'. cbn [mbind option_bind]. rewrite Hl. cbn [mbind option_bind length].
  split; [done|]. split; [by rewrite Hlen|]. inversion 1; subst. by rewrite Hseq, Heq.
Qed.

Lemma json_of_secret_snapshot_shape s :
  json_integral (json_of_secret_snapshot s) ∧ 0 ≤ json_height (json_of_secret_snapshot s) ≤ 2.
Proof.
  destruct (json_of_attributes_shape (ss_Attributes s)) as [Ha Hha].
  destruct (enc_string_map_shape (ss_Tags s)) as [Ht Hht].
  unfold json_of_secret_snapshot. revert Ha Hha Ht Hht.
  generalize (json_of_attributes (ss_Attributes s)) (enc_string_map (ss_Tags s)).
  intros ja jt Ha Hha Ht Hht. cbn [json_integral json_height foldr snd enc_int].
  repeat split; try done; try lia. by eexists.
Qed.

Lemma json_of_secret_payload_shape l :
  json_integral (json_of_secret_payload l) ∧ json_height (json_of_secret_payload l) ≤ maxNestingDepth.
Proof.
  assert (foldr (λ j P, json_integral j ∧ P) True (map json_of_secret_snapshot l) ∧
    0 ≤ foldr (λ j m, Z.max (json_height j) m) 0 (map json_of_secret_snapshot l) ≤ 2) as [Hi Hh].
  { induction l as [|s l [Hi Hh]]; cbn [map foldr]; [by split|].
    destruct (json_of_secret_snapshot_shape s). split; [done|lia]. }
  unfold json_of_secret_payload, maxNestingDepth. destruct l as [|s l]; [by split|].
  revert Hi Hh. generalize (map json_of_secret_snapshot (s :: l)). intros js Hi Hh.
  cbn [json_integral json_height foldr snd]. split; [done|lia].
Qed.

(** The column of a deleted secret decodes, to as many versions. *)
Lemma secret_payload_total l : Forall snapshot_int64 l →
  ∃ l', unmarshal_secret_payload (marshal (json_of_secret_payload l)) = Ok l' ∧
    length l' = length l ∧ (Forall snapshot_ok l → l' = l).
Proof.
  intros Hl. destruct (dec_snapshots_total l Hl) as (l' & Hdec & Hlen & Heq). exists l'. split; [|done].
  destruct (json_of_secret_payload_shape l) as [Hi Hh]. apply unmarshal_marshal; [done|done|].
  unfold secret_payload_json, json_of_secret_payload. rewrite dec_struct_obj. unfold coerce_member. cbn [map fst snd].
  destruct l as [|s l]; [by destruct l'|].
  assert (l' ≠ []) as Hne by (by destruct l').
  pose proof (dec_slice_fresh _ _ _ _ Hne Hdec) as Hsl. cbn [json_coerce].
  revert Hsl. generalize (map json_coerce (map json_of_secret_snapshot (s :: l))). intros js Hsl.
  cbn [foldl].
  change (struct_step [("versions"%string, dec_slice zero_snapshot dec_secret_snapshot)] (Some (0%nat, []))
    (utf8_coerce "versions", JArr js)) with (dec_slice zero_snapshot dec_secret_snapshot (0%nat, []) (JArr js)).
  rewrite Hsl. cbn. by rewrite firstn_all.
Qed.

(** Decoded snapshots hold 64-bit integers. *)
Lemma unmarshal_secret_payload_int64 s l : unmarshal_secret_payload s = Ok l → Forall snapshot_int64 l.
Proof.
  assert (snapshot_int64 zero_snapshot) as Hz.
  { unfold snapshot_int64, attributes_int64, in_int64, max_int64. cbn. split_and!; try done; lia. }
  intros [j (sl & Hsl & ->)%fmap_Some]%unmarshal_Ok. apply Forall_take. revert Hsl.
  apply (dec_struct_inv (λ sl, Forall snapshot_int64 sl.2)); [|constructor].
  intros name d Hd cur j' v Hcur. apply list_elem_of_In in Hd. destruct Hd as [[= <- <-]|[]].
  apply dec_slice_inv; [done| |done]. clear. intros cur j v [Hc1 Hc2].
  apply (dec_struct_inv snapshot_int64); [|done]. clear. intros name d Hd cur j v [Hc1 Hc2].
  apply list_elem_of_In in Hd. cbn in Hd.
  destruct_or! Hd; try done; injection Hd as <- <-; intros (x & Hx & ->)%fmap_Some; split; cbn; try done;
    first [by eapply dec_attributes_int64|by eapply dec_int64_range].
Qed.
End columns.
