(* ===== verification/SqlFrame.v ===== *)
(** * The SQL store: the kinds do not touch each other's tables

    [spares k p]: no statement of the program [p] writes the tables of the kind
    [k].  Every operation on secrets spares the tables of the keys and the
    certificates, and every one on keys those of the secrets and the
    certificates; what is true of the tables of a kind survives the programs
    that spare it, on any engine. *)

From S2P Require Import Prelude GoStrings GoUtf8 GoBase64 GoJson GoCrypto GoX509 GoSql AesModes Model KeyCrypto CertCrypto StoreCore SecretStore SecretBackup KeyStore CertStore HttpJson SqlSchema SqlCore SqlSecrets SqlKeys SqlCerts.

Section spares.
Context {D : SqlEngine} {T : SqlTables D}.

(** The tables of a kind are as they were. *)
Definition rests (k : kind) (d d' : sdb) : Prop := live k d' = live k d ∧ gone k d' = gone k d.

#[export] Instance rests_preorder k : PreOrder (rests k).
Proof. split; [by intros d|]. intros d1 d2 d3 [] []. split; congruence. Qed.

Fixpoint spares (k : kind) {A} (p : SP A) : Prop :=
  match p with
  | Done _ => True
  | Exec q args g => (∀ d, rests k d (sql_Exec q args d).2) ∧ ∀ o, spares k (g o)
  | Query q args g => ∀ o, spares k (g o)
  end.

Lemma run_spares k {A} (p : SP A) d : spares k p → rests k d (run p d).2.
Proof.
  revert d. induction p as [o|q args g IH|q args g IH]; intros d Hp; cbn [run spares] in *; [done| |].
  - destruct Hp as [Hd Hp]. trans (sql_Exec q args d).2; [apply Hd|by apply IH].
  - by apply IH.
Qed.

(** An invariant of the tables of a kind. *)
Lemma spares_keeps k (I : sdb → Prop) {A} (p : SP A) :
  (∀ d d', rests k d d' → I d → I d') → spares k p → keeps I p.
Proof.
  intros HI. induction p as [o|q args g IH|q args g IH]; cbn [keeps spares]; [done| |].
  - intros [Hd Hg]. split; [intros d Hd'; eapply HI; [apply Hd|done]|]. intros o. by apply IH.
  - intros Hg d _. by apply IH.
Qed.

Lemma spares_bind k {A B} (p : SP A) (g : A → SP B) : spares k p → (∀ a, spares k (g a)) → spares k (p_bind p g).
Proof.
  intros Hp Hg. induction p as [[]|q args h IH|q args h IH]; cbn [p_bind spares] in *; try done; try by apply Hg.
  - split; [apply Hp|]. intros o. apply IH, Hp.
  - intros o. apply IH, Hp.
Qed.
Lemma spares_try k {A} (p : SP A) : spares k p → spares k (p_try p).
Proof.
  intros Hp. induction p as [[]|q args h IH|q args h IH]; cbn [p_try spares] in *; try done.
  - split; [apply Hp|]. intros o. apply IH, Hp.
  - intros o. apply IH, Hp.
Qed.
Lemma spares_iter k {A} (g : A → SP unit) l : (∀ x, spares k (g x)) → spares k (p_iter g l).
Proof. intros Hg. induction l as [|x l IH]; [done|]. cbn [p_iter]. by apply spares_bind. Qed.
Lemma spares_traverse k {A B} (g : A → SP B) l : (∀ x, spares k (g x)) → spares k (p_traverse g l).
Proof.
  intros Hg. induction l as [|x l IH]; [done|]. cbn [p_traverse]. apply spares_bind; [done|]. intros y. by apply spares_bind.
Qed.
Lemma spares_or_missing k {A} err o : spares k (or_missing (A:=A) err o).
Proof. by destruct o as [?|[]|]. Qed.
Lemma spares_QueryRow k {A} q args (scan : row → outcome message A) err : spares k (QueryRow q args scan (or_missing err)).
Proof. intros o. apply spares_or_missing. Qed.
Lemma spares_query_row k {A} q args (scan : row → outcome message A) : spares k (db_QueryRow q args scan).
Proof. by intros o. Qed.
Lemma spares_query_rows k {A} q args (body : row → outcome error A) : spares k (query_rows db_error q args body).
Proof. by intros o. Qed.

(** *** The statements of the other kinds *)

Context (f : DBFlavor) {HL : SqlLaws f T}.

Lemma spares_effect k s args q d :
  sends f q s → (∀ d', effect s args d d' → rests k d d') → rests k d (sql_Exec q args d).2.
Proof.
  intros Hq Hs. destruct (sql_Exec q args d) as [o d'] eqn:He.
  assert (o = Ok () ∨ o ≠ Ok ()) as [->|Hne] by (destruct o as [[]| |]; [by left|by right..]).
  - by apply Hs, (exec_ok q s).
  - by apply (exec_failed q args d o d' He Hne k).
Qed.

Lemma changes_live_rests k k' g d d' : k ≠ k' → changes_live k' g d d' → rests k d d'.
Proof. intros Hk [Hl Hg]. split; [|done]. by rewrite Hl, decide_False. Qed.
Lemma changes_gone_rests k k' g d d' : k ≠ k' → changes_gone k' g d d' → rests k d d'.
Proof. intros Hk [Hg Hl]. split; [done|]. by rewrite Hg, decide_False. Qed.

Context (k k' : kind) (Hk : k ≠ k').

Lemma spares_insert name version vals ts q :
  sends f q (Insert k') → length vals = length (data_columns k') →
  spares k (db_Exec q (VText name :: VText version :: vals ++ [VInt ts])).
Proof.
  intros Hq Hv. split; [|done]. intros d. apply (spares_effect k _ _ _ d Hq). intros d' He.
  destruct (He vals ts eq_refl Hv) as [_ Hc]. by eapply changes_live_rests.
Qed.
Lemma spares_update columns vals name version q :
  sends f q (Update k' columns) → length vals = length columns →
  spares k (db_Exec q (vals ++ [VText name; VText version])).
Proof.
  intros Hq Hv. split; [|done]. intros d. apply (spares_effect k _ _ _ d Hq). intros d' He.
  eapply changes_live_rests; [exact Hk|]. by apply He.
Qed.
Lemma spares_delete name q : sends f q (Delete k') → spares k (db_Exec q [VText name]).
Proof. intros Hq. split; [|done]. intros d. apply (spares_effect k _ _ _ d Hq). intros d' He. by eapply changes_live_rests. Qed.
Lemma spares_insert_deleted name id deleted purge versions q :
  sends f q (InsertDeleted k') → spares k (db_Exec q [VText name; VText id; VInt deleted; VInt purge; VText versions]).
Proof. intros Hq. split; [|done]. intros d. apply (spares_effect k _ _ _ d Hq). intros d' [_ He]. by eapply changes_gone_rests. Qed.
Lemma spares_delete_deleted name q : sends f q (DeleteDeleted k') → spares k (db_Exec q [VText name]).
Proof. intros Hq. split; [|done]. intros d. apply (spares_effect k _ _ _ d Hq). intros d' He. by eapply changes_gone_rests. Qed.
Lemma spares_delete_ignore name q : sends f q (DeleteDeleted k') → spares k (exec_ignore (E:=error) q [VText name]).
Proof.
  intros Hq. split; [|by intros []]. intros d. apply (spares_effect k _ _ _ d Hq). intros d' He. by eapply changes_gone_rests.
Qed.
End spares.

(** ** Operations *)

(** [spare f k' Hk]: a program whose statements are all on the tables of [k'],
    which [Hk] says is another kind. *)
Ltac spare f k' Hk :=
  repeat match goal with
    | |- spares _ (Done _) => exact I
    | |- spares _ (p_ret _) => exact I
    | |- spares _ (p_fail _) => exact I
    | |- spares _ (QueryRow _ _ _ _) => apply spares_QueryRow
    | |- spares _ (db_QueryRow _ _ _) => apply spares_query_row
    | |- spares _ (query_rows _ _ _ _) => apply spares_query_rows
    | |- spares _ (p_try _) => apply spares_try
    | |- spares _ (p_bind _ _) => apply spares_bind
    | |- spares _ (p_traverse _ _) => apply spares_traverse
    | |- spares _ (p_iter _ _) => apply spares_iter
    | |- spares _ (if ?b then _ else _) => destruct b
    | |- spares _ (match ?o with Ok _ => _ | Err _ => _ | Panic _ => _ end) => destruct o
    | |- spares _ (match ?o with Some _ => _ | None => _ end) => destruct o
    | |- spares _ (let '(_, _) := ?p in _) => destruct p
    | |- spares _ (let _ := _ in _) => cbv zeta
    | |- ∀ _, _ => intros ?
    | |- spares _ (checkNotDeleted _ _ _ _) => unfold checkNotDeleted
    | |- spares _ (db_Exec _ [VText _]) => first
        [ apply (spares_delete f _ k' Hk); sent | apply (spares_delete_deleted f _ k' Hk); sent ]
    | |- spares _ (exec_ignore _ [VText _]) => apply (spares_delete_ignore f _ k' Hk); sent
    | |- spares _ (db_Exec _ [VText _; VText _; VInt _; VInt _; VText _]) => apply (spares_insert_deleted f _ k' Hk); sent
    end.

Create HintDb spares discriminated.

Section operations.
Context `{JE : JsonErrors} `{X : CertLib} `{KD : KeyDer} `{L : PublicKeyLib} `{C : BlockCipher}.
Context (f : DBFlavor) {D : SqlEngine} {T : SqlTables D} {HL : SqlLaws f T} (k : kind).

Section secrets.
Hypothesis Hk : k ≠ Secrets.

Lemma spares_insertSecretRow rec ts : spares k (insertSecretRow f rec ts).
Proof. unfold insertSecretRow. spare f Secrets Hk. apply (spares_insert f k Secrets Hk _ _ [_; _; _; _]); [sent|done]. Qed.
Lemma spares_getSecretVersionRow name version : spares k (getSecretVersionRow f name version).
Proof. unfold getSecretVersionRow. spare f Secrets Hk. Qed.
Lemma spares_allSecretVersionSnapshots name : spares k (allSecretVersionSnapshots f name).
Proof. unfold allSecretVersionSnapshots. spare f Secrets Hk. Qed.
Lemma spares_getDeletedSecretRow name : spares k (getDeletedSecretRow f name).
Proof. unfold getDeletedSecretRow. spare f Secrets Hk. Qed.
Hint Resolve spares_insertSecretRow spares_getSecretVersionRow spares_allSecretVersionSnapshots spares_getDeletedSecretRow : spares.
#[local] Tactic Notation "spare_op" reference(g) := unfold g; spare f Secrets Hk; auto 2 with spares nocore; spare f Secrets Hk.

Lemma spares_SetSecret e name req : spares k (SqlSecrets.SetSecret f e name req).
Proof. spare_op SqlSecrets.SetSecret. Qed.
Lemma spares_GetSecret name version : spares k (SqlSecrets.GetSecret f name version).
Proof. spare_op SqlSecrets.GetSecret. Qed.
Lemma spares_ListSecrets m t : spares k (SqlSecrets.ListSecrets f m t).
Proof. spare_op SqlSecrets.ListSecrets. Qed.
Lemma spares_ListSecretVersions name m t : spares k (SqlSecrets.ListSecretVersions f name m t).
Proof. spare_op SqlSecrets.ListSecretVersions. Qed.
Lemma spares_UpdateSecret e name version req : spares k (SqlSecrets.UpdateSecret f e name version req).
Proof.
  spare_op SqlSecrets.UpdateSecret.
  apply (spares_update f k Secrets Hk ["content_type"; "attributes"; "tags"]%string [_; _; _]); [sent|done].
Qed.
Lemma spares_DeleteSecret e name : spares k (SqlSecrets.DeleteSecret f e name).
Proof. spare_op SqlSecrets.DeleteSecret. Qed.
Lemma spares_ListDeletedSecrets m t : spares k (SqlSecrets.ListDeletedSecrets f m t).
Proof. spare_op SqlSecrets.ListDeletedSecrets. Qed.
Lemma spares_GetDeletedSecret name : spares k (SqlSecrets.GetDeletedSecret f name).
Proof. spare_op SqlSecrets.GetDeletedSecret. Qed.
Lemma spares_PurgeDeletedSecret name : spares k (SqlSecrets.PurgeDeletedSecret f name).
Proof. spare_op SqlSecrets.PurgeDeletedSecret. Qed.
Lemma spares_RecoverDeletedSecret name : spares k (SqlSecrets.RecoverDeletedSecret f name).
Proof. spare_op SqlSecrets.RecoverDeletedSecret. Qed.
Lemma spares_BackupSecret name : spares k (SqlSecrets.BackupSecret f name).
Proof. spare_op SqlSecrets.BackupSecret. Qed.
Lemma spares_RestoreSecret token : spares k (SqlSecrets.RestoreSecret f token).
Proof. spare_op SqlSecrets.RestoreSecret. Qed.
End secrets.

Section keys.
Hypothesis Hk : k ≠ Keys.

Lemma spares_insertKeyRow rec m ts : spares k (insertKeyRow f rec m ts).
Proof. unfold insertKeyRow. spare f Keys Hk. apply (spares_insert f k Keys Hk _ _ [_; _; _; _]); [sent|done]. Qed.
Lemma spares_getKeyVersionRow name version : spares k (getKeyVersionRow f name version).
Proof. unfold getKeyVersionRow. spare f Keys Hk. Qed.
Lemma spares_allKeyVersionSnapshots name : spares k (allKeyVersionSnapshots f name).
Proof. unfold allKeyVersionSnapshots. spare f Keys Hk. Qed.
Lemma spares_getDeletedKeyRow name : spares k (getDeletedKeyRow f name).
Proof. unfold getDeletedKeyRow. spare f Keys Hk. Qed.
Hint Resolve spares_insertKeyRow spares_getKeyVersionRow spares_allKeyVersionSnapshots spares_getDeletedKeyRow : spares.
#[local] Tactic Notation "spare_op" reference(g) := unfold g; spare f Keys Hk; auto 2 with spares nocore; spare f Keys Hk.

Lemma spares_CreateKey e name req : spares k (SqlKeys.CreateKey f e name req).
Proof. spare_op SqlKeys.CreateKey. Qed.
Lemma spares_ImportKey e name req : spares k (SqlKeys.ImportKey f e name req).
Proof. spare_op SqlKeys.ImportKey. Qed.
Lemma spares_GetKey name version : spares k (SqlKeys.GetKey f name version).
Proof. spare_op SqlKeys.GetKey. Qed.
Lemma spares_ListKeys m t : spares k (SqlKeys.ListKeys f m t).
Proof. spare_op SqlKeys.ListKeys. Qed.
Lemma spares_ListKeyVersions name m t : spares k (SqlKeys.ListKeyVersions f name m t).
Proof. spare_op SqlKeys.ListKeyVersions. Qed.
Lemma spares_UpdateKey e name version req : spares k (SqlKeys.UpdateKey f e name version req).
Proof.
  spare_op SqlKeys.UpdateKey.
  apply (spares_update f k Keys Hk ["jwk"; "attributes"; "tags"]%string [_; _; _]); [sent|done].
Qed.
Lemma spares_DeleteKey e name : spares k (SqlKeys.DeleteKey f e name).
Proof. spare_op SqlKeys.DeleteKey. Qed.
Lemma spares_ListDeletedKeys m t : spares k (SqlKeys.ListDeletedKeys f m t).
Proof. spare_op SqlKeys.ListDeletedKeys. Qed.
Lemma spares_GetDeletedKey name : spares k (SqlKeys.GetDeletedKey f name).
Proof. spare_op SqlKeys.GetDeletedKey. Qed.
Lemma spares_PurgeDeletedKey name : spares k (SqlKeys.PurgeDeletedKey f name).
Proof. spare_op SqlKeys.PurgeDeletedKey. Qed.
Lemma spares_RecoverDeletedKey name : spares k (SqlKeys.RecoverDeletedKey f name).
Proof. spare_op SqlKeys.RecoverDeletedKey. Qed.
(** The uses of a key read its row. *)
Lemma spares_use {A} name version (body : KeyRecord * KeyMaterial → outcome error A) :
  spares k (let+ rm := getKeyVersionRow f name version in Done (body rm)).
Proof. apply spares_bind; [apply spares_getKeyVersionRow|done]. Qed.
End keys.

Section certificates.
Hypothesis Hk : k ≠ Certificates.

Lemma spares_insertCertRow rec pem ts : spares k (insertCertRow f rec pem ts).
Proof.
  unfold insertCertRow. spare f Certificates Hk.
  apply (spares_insert f k Certificates Hk _ _ [_; _; _; _; _; _; _]); [sent|done].
Qed.
Lemma spares_getCertVersionRow name version : spares k (getCertVersionRow f name version).
Proof. unfold getCertVersionRow. spare f Certificates Hk. Qed.
Lemma spares_allCertVersionSnapshots name : spares k (allCertVersionSnapshots f name).
Proof. unfold allCertVersionSnapshots. spare f Certificates Hk. Qed.
Lemma spares_getDeletedCertRow name : spares k (getDeletedCertRow f name).
Proof. unfold getDeletedCertRow. spare f Certificates Hk. Qed.
Hint Resolve spares_insertCertRow spares_getCertVersionRow spares_allCertVersionSnapshots spares_getDeletedCertRow : spares.
#[local] Tactic Notation "spare_op" reference(g) := unfold g; spare f Certificates Hk; auto 2 with spares nocore; spare f Certificates Hk.

Lemma spares_GetCertificate name version : spares k (SqlCerts.GetCertificate f name version).
Proof. spare_op SqlCerts.GetCertificate. Qed.
Lemma spares_ListCertificates m t : spares k (SqlCerts.ListCertificates f m t).
Proof. spare_op SqlCerts.ListCertificates. Qed.
Lemma spares_ListCertificateVersions name m t : spares k (SqlCerts.ListCertificateVersions f name m t).
Proof. spare_op SqlCerts.ListCertificateVersions. Qed.
Lemma spares_GetCertificatePolicy name : spares k (SqlCerts.GetCertificatePolicy f name).
Proof. spare_op SqlCerts.GetCertificatePolicy. Qed.
Lemma spares_GetPendingCertificateOperation name : spares k (SqlCerts.GetPendingCertificateOperation f name).
Proof. spare_op SqlCerts.GetPendingCertificateOperation. Qed.
Lemma spares_ListDeletedCertificates m t : spares k (SqlCerts.ListDeletedCertificates f m t).
Proof. spare_op SqlCerts.ListDeletedCertificates. Qed.
Lemma spares_GetDeletedCertificate name : spares k (SqlCerts.GetDeletedCertificate f name).
Proof. spare_op SqlCerts.GetDeletedCertificate. Qed.
Lemma spares_UpdateCertificate e name version req : spares k (SqlCerts.UpdateCertificate f e name version req).
Proof.
  spare_op SqlCerts.UpdateCertificate.
  apply (spares_update f k Certificates Hk ["attributes"; "tags"]%string [_; _]); [sent|done].
Qed.
Lemma spares_UpdateCertificatePolicy e name policy : spares k (SqlCerts.UpdateCertificatePolicy f e name policy).
Proof.
  spare_op SqlCerts.UpdateCertificatePolicy.
  apply (spares_update f k Certificates Hk ["policy"; "attributes"]%string [_; _]); [sent|done].
Qed.
Lemma spares_DeleteCertificate e name : spares k (SqlCerts.DeleteCertificate f e name).
Proof. spare_op SqlCerts.DeleteCertificate. Qed.
Lemma spares_PurgeDeletedCertificate name : spares k (SqlCerts.PurgeDeletedCertificate f name).
Proof. spare_op SqlCerts.PurgeDeletedCertificate. Qed.
Lemma spares_RecoverDeletedCertificate name : spares k (SqlCerts.RecoverDeletedCertificate f name).
Proof. spare_op SqlCerts.RecoverDeletedCertificate. Qed.
End certificates.
End operations.

#[export] Hint Resolve spares_insertSecretRow spares_getSecretVersionRow spares_allSecretVersionSnapshots spares_getDeletedSecretRow
  spares_SetSecret spares_GetSecret spares_ListSecrets spares_ListSecretVersions spares_UpdateSecret
  spares_DeleteSecret spares_ListDeletedSecrets spares_GetDeletedSecret spares_PurgeDeletedSecret
  spares_RecoverDeletedSecret spares_BackupSecret spares_RestoreSecret spares_insertKeyRow
  spares_getKeyVersionRow spares_allKeyVersionSnapshots spares_getDeletedKeyRow spares_CreateKey spares_ImportKey
  spares_GetKey spares_ListKeys spares_ListKeyVersions spares_UpdateKey spares_DeleteKey spares_ListDeletedKeys
  spares_GetDeletedKey spares_PurgeDeletedKey spares_RecoverDeletedKey spares_insertCertRow
  spares_getCertVersionRow spares_allCertVersionSnapshots spares_getDeletedCertRow spares_GetCertificate
  spares_ListCertificates spares_ListCertificateVersions spares_GetCertificatePolicy
  spares_GetPendingCertificateOperation spares_ListDeletedCertificates spares_GetDeletedCertificate spares_UpdateCertificate
  spares_UpdateCertificatePolicy spares_DeleteCertificate spares_PurgeDeletedCertificate
  spares_RecoverDeletedCertificate : spares.
#[export] Hint Extern 1 (_ ≠ _) => discriminate : spares.
#[export] Hint Extern 1 (SqlLaws _ _) => typeclasses eauto : spares.
