(* ===== verification/ToySql.v ===== *)
(** * A concrete SQL engine

    An instance of the classes of [GoSql] and [SqlSchema] that satisfies their
    laws and never fails on its own, for the witnesses: it recognises the
    statements by their texts and does what they say. *)

From S2P Require Import Prelude GoStrings GoSql SqlSchema.

Record toy_tables : Type := mkToyTables {
  toy_live : kind → gmap (string * string) (list value * Z);
  toy_gone : kind → gmap string grave;
}.
Definition toy_empty : toy_tables := mkToyTables (λ _, ∅) (λ _, ∅).

Definition at_kind {A} (k : kind) (g : A → A) (m : kind → A) : kind → A :=
  λ k', if decide (k' = k) then g (m k') else m k'.
Definition toy_set_live (k : kind) g (d : toy_tables) : toy_tables := mkToyTables (at_kind k g (toy_live d)) (toy_gone d).
Definition toy_set_gone (k : kind) g (d : toy_tables) : toy_tables := mkToyTables (toy_live d) (at_kind k g (toy_gone d)).

Definition toy_conflict (d : toy_tables) : outcome sql_error unit * toy_tables :=
  (Err (SqlError (Text "UNIQUE constraint failed")), d).

(** The two last arguments and what comes before them. *)
Definition toy_split2 (args : list value) : option (list value * string * string) :=
  match reverse args with
  | VText version :: VText name :: rest => Some (reverse rest, name, version)
  | _ => None
  end.
Definition toy_split1 (args : list value) : option (list value * Z) :=
  match reverse args with VInt ts :: rest => Some (reverse rest, ts) | _ => None end.

Lemma toy_split2_app vals name version :
  toy_split2 (vals ++ [VText name; VText version]) = Some (vals, name, version).
Proof. unfold toy_split2. rewrite reverse_app. simpl. by rewrite reverse_involutive. Qed.
Lemma toy_split1_app vals ts : toy_split1 (vals ++ [VInt ts]) = Some (vals, ts).
Proof. unfold toy_split1. rewrite reverse_app. simpl. by rewrite reverse_involutive. Qed.

Definition toy_columns (k : kind) (columns : list string) (vals old : list value) : list value :=
  zip_with (λ c v, match list_find (λ p : string * value, p.1 = c) (zip columns vals) with
                   | Some (_, p) => p.2 | None => v end) (data_columns k) old.

Definition toy_do (s : statement) (args : list value) (d : toy_tables) : outcome sql_error unit * toy_tables :=
  match s, args with
  | Insert k, VText name :: VText version :: rest =>
      if decide (toy_live d k !! (name, version) = None) then
        match toy_split1 rest with
        | Some (vals, ts) => (Ok (), toy_set_live k <[(name, version) := (vals, ts)]> d)
        | None => (Ok (), d)
        end
      else toy_conflict d
  | InsertDeleted k, [VText name; VText id; VInt deleted; VInt purge; VText versions] =>
      if decide (toy_gone d k !! name = None)
      then (Ok (), toy_set_gone k <[name := mkGrave id deleted purge versions]> d) else toy_conflict d
  | Delete k, [VText name] => (Ok (), toy_set_live k (filter (λ p, p.1.1 ≠ name)) d)
  | DeleteDeleted k, [VText name] => (Ok (), toy_set_gone k (delete name) d)
  | Update k columns, args =>
      match toy_split2 args with
      | Some (vals, name, version) =>
          (Ok (), toy_set_live k (alter (λ r, (toy_columns k columns vals r.1, r.2)) (name, version)) d)
      | None => (Ok (), d)
      end
  | _, _ => (Ok (), d)
  end.

Definition toy_versions (k : kind) (name : string) (d : toy_tables) : list (string * (list value * Z)) :=
  (λ p, (p.1.2, p.2)) <$> filter (λ p : string * string * (list value * Z), p.1.1 = name) (map_to_list (toy_live d k)).
Definition toy_column (k : kind) (r : string * (list value * Z)) (c : string) : string * value :=
  (c, if decide (c = "version"%string) then VText r.1 else
      if decide (c = "created_at"%string) then VInt r.2.2 else
      match list_find (λ p : string * value, p.1 = c) (zip (data_columns k) r.2.1) with
      | Some (_, p) => p.2 | None => VNull end).

#[export] Instance newer_dec : RelDecision newer.
Proof. intros a b. unfold newer. apply _. Defined.
#[export] Instance older_dec : RelDecision older.
Proof. intros a b. unfold older. apply _. Defined.
#[export] Instance newer_total : Total newer.
Proof. intros a b. unfold newer. lia. Qed.
#[export] Instance older_total : Total older.
Proof. intros a b. unfold older. lia. Qed.

Definition toy_answer (q : question) (args : list value) (d : toy_tables) : list (list (string * value)) :=
  match q, args with
  | Count k, [VText name] => [[("COUNT(*)"%string, VInt (Z.of_nat (length (toy_versions k name d))))]]
  | CountDeleted k, [VText name] => [[("COUNT(*)"%string, VInt (if decide (is_Some (toy_gone d k !! name)) then 1 else 0))]]
  | Latest k columns, [VText name] =>
      (λ r, toy_column k r <$> columns) <$> take 1 (merge_sort newer (toy_versions k name d))
  | Version k columns, [VText name; VText version] =>
      match toy_live d k !! (name, version) with Some r => [toy_column k (version, r) <$> columns] | None => [] end
  | Versions k columns newest_first, [VText name] =>
      (λ r, toy_column k r <$> columns) <$>
      (if newest_first then merge_sort newer (toy_versions k name d) else merge_sort older (toy_versions k name d))
  | Names k, [] => (λ n, [("name"%string, VText n)]) <$>
      merge_sort String.le (remove_dups ((λ p : string * string * (list value * Z), p.1.1) <$> map_to_list (toy_live d k)))
  | DeletedNames k, [] => (λ n, [("name"%string, VText n)]) <$> merge_sort String.le (map_to_list (toy_gone d k)).*1
  | Deleted k, [VText name] =>
      match toy_gone d k !! name with
      | Some g => [[("name", VText name); ("recovery_id", VText (g_recovery_id g)); ("deleted_date", VInt (g_deleted g));
          ("scheduled_purge_date", VInt (g_purge g)); ("versions", VText (g_versions g))]%string]
      | None => []
      end
  | _, _ => []
  end.

Section toy.
Context (f : DBFlavor).

Definition toy_engine : SqlEngine := {|
  sdb := toy_tables;
  sql_Exec q args d :=
    match list_find (λ s, exec_text f s = q) statements with Some (_, s) => toy_do s args d | None => (Ok (), d) end;
  sql_Query q args d :=
    match list_find (λ a, query_text f a = q) questions with
    | Some (_, a) => Ok (toy_answer a args d, None)
    | None => Ok ([], None)
    end;
|}.
Definition toy_views : SqlTables toy_engine :=
  Build_SqlTables toy_engine (λ k (d : toy_tables), toy_live d k) (λ k (d : toy_tables), toy_gone d k) String.le.

(** The texts tell the statements apart. *)
Lemma statements_texts : NoDup (exec_text f <$> statements).
Proof. apply (bool_decide_unpack _). destruct f; vm_compute; exact I. Qed.
Lemma questions_texts : NoDup (query_text f <$> questions).
Proof. apply (bool_decide_unpack _). destruct f; vm_compute; exact I. Qed.

Lemma find_text {A} (text : A → string) (l : list A) (x : A) :
  NoDup (text <$> l) → x ∈ l → ∃ i, list_find (λ y, text y = text x) l = Some (i, x).
Proof.
  intros Hnd Hx. destruct (list_find_elem_of (λ y, text y = text x) l x Hx eq_refl) as [[i y] Hy].
  exists i. rewrite Hy. do 2 f_equal. apply list_find_Some in Hy as (Hi & Ht & _).
  apply list_elem_of_lookup in Hx as [j Hj].
  assert (i = j) as ->.
  { eapply NoDup_lookup; [exact Hnd|rewrite list_lookup_fmap, Hi; done|rewrite list_lookup_fmap, Hj; simpl; by rewrite Ht]. }
  congruence.
Qed.

Lemma toy_Exec q s args d : sends f q s → sql_Exec (SqlEngine:=toy_engine) q args d = toy_do s args d.
Proof.
  intros [Hs ->]. cbn [sql_Exec toy_engine]. destruct (find_text (exec_text f) statements s statements_texts Hs) as [i Hi].
  by rewrite Hi.
Qed.
Lemma toy_Query q a args d : asks f q a → sql_Query (SqlEngine:=toy_engine) q args d = Ok (toy_answer a args d, None).
Proof.
  intros [Ha ->]. cbn [sql_Query toy_engine]. destruct (find_text (query_text f) questions a questions_texts Ha) as [i Hi].
  by rewrite Hi.
Qed.

Lemma toy_live_changes k g d : changes_live (T:=toy_views) k g d (toy_set_live k g d).
Proof. split; [|done]. intros k'. cbn. unfold at_kind. by case_decide. Qed.
Lemma toy_gone_changes k g d : changes_gone (T:=toy_views) k g d (toy_set_gone k g d).
Proof. split; [|done]. intros k'. cbn. unfold at_kind. by case_decide. Qed.

Lemma toy_do_failed s args d o d' : toy_do s args d = (o, d') → o ≠ Ok () → d' = d.
Proof.
  unfold toy_do, toy_conflict. intros H Ho. by repeat (case_match; simplify_eq; try done).
Qed.

Lemma toy_do_ok s args d d' : toy_do s args d = (Ok (), d') → effect (T:=toy_views) s args d d'.
Proof.
  intros H. destruct s as [k|k|k|k|k columns]; cbn [effect].
  - destruct args as [|[|name|] [|[|version|] rest]]; try done. intros vals ts -> Hlen. cbn in H.
    rewrite toy_split1_app in H. case_decide; simplify_eq. split; [done|]. apply toy_live_changes.
  - destruct args as [|[|name|] [|[|id|] [|[| |deleted] [|[| |purge] [|[|versions|] [|]]]]]]; try done. cbn in H.
    case_decide; simplify_eq. split; [done|]. apply toy_gone_changes.
  - destruct args as [|[|name|] [|]]; try done. simplify_eq/=. apply toy_live_changes.
  - destruct args as [|[|name|] [|]]; try done. simplify_eq/=. apply toy_gone_changes.
  - intros vals name version -> Hlen. cbn in H. rewrite toy_split2_app in H. simplify_eq. apply toy_live_changes.
Qed.

#[export] Instance toy_sql_laws : SqlLaws f toy_views.
Proof.
  split.
  - intros q s args d d' Hq. rewrite (toy_Exec _ s) by done. apply toy_do_ok.
  - intros q args d o d'. cbn [sql_Exec toy_engine]. destruct (list_find _ statements) as [[i s]|].
    + intros H Ho. by rewrite (toy_do_failed _ _ _ _ _ H Ho).
    + intros [= <- <-]. done.
  - intros q d d' Hq. cbn [sql_Exec toy_engine]. destruct (list_find _ statements) as [[i s]|] eqn:Hs.
    + exfalso. apply list_find_Some in Hs as (Hs & Ht & _). apply list_elem_of_lookup_2 in Hs. subst q.
      revert Hs Hq. clear. intros Hs.
      assert (Forall (λ s, exec_text f s ∉ create_statements f) statements) as Hall
        by (apply (bool_decide_unpack _); destruct f; vm_compute; exact I).
      rewrite Forall_forall in Hall. by apply Hall.
    + intros [= <-]. done.
  - intros q a args d rows err Hq. rewrite (toy_Query _ a) by done. intros [= <- <-].
    exists (toy_answer a args d). split; [|done].
    destruct a as [k|k|k columns|k columns|k columns nf|k|k|k]; cbn [answers].
    + destruct args as [|[|name|] [|]]; try done. by eexists.
    + destruct args as [|[|name|] [|]]; try done. by eexists.
    + destruct args as [|[|name|] [|]]; try done. exists (merge_sort newer (toy_versions k name d)).
      split; [apply merge_sort_Permutation|]. split; [apply Sorted_merge_sort, _|done].
    + destruct args as [|[|name|] [|[|version|] [|]]]; try done.
    + destruct args as [|[|name|] [|]]; try done. destruct nf.
      * exists (merge_sort newer (toy_versions k name d)).
        split; [apply merge_sort_Permutation|]. split; [apply Sorted_merge_sort, _|done].
      * exists (merge_sort older (toy_versions k name d)).
        split; [apply merge_sort_Permutation|]. split; [apply Sorted_merge_sort, _|done].
    + destruct args; [|done]. eexists. split_and!; [| | |done].
      * rewrite merge_sort_Permutation. apply NoDup_remove_dups.
      * intros n. rewrite merge_sort_Permutation, elem_of_remove_dups, list_elem_of_fmap. split.
        { intros ([[n' v] r] & -> & Hin) Hnil. apply (f_equal length) in Hnil. unfold versions_of in Hnil.
          rewrite length_fmap in Hnil. apply nil_length_inv in Hnil.
          assert ((n', v, r) ∈ filter (λ p : string * string * (list value * Z), p.1.1 = n') (map_to_list (toy_live d k))) as H
            by (by apply list_elem_of_filter). 
          change (filter (λ p : string * string * (list value * Z), p.1.1 = n') (map_to_list (toy_live d k)) = []) in Hnil.
          rewrite Hnil in H. by apply elem_of_nil in H. }
        { intros Hne. unfold versions_of in Hne.
          destruct (filter _ _) as [|[[n' v] r] l] eqn:Hf; [done|].
          assert ((n', v, r) ∈ (n', v, r) :: l) as H by set_solver. rewrite <-Hf in H.
          apply list_elem_of_filter in H as [Hn H]. exists (n', v, r). by split. }
      * apply Sorted_merge_sort, _.
    + destruct args; [|done]. eexists. split_and!; [| | |done].
      * rewrite merge_sort_Permutation. apply NoDup_fst_map_to_list.
      * intros n. rewrite merge_sort_Permutation, list_elem_of_fmap. split.
        { intros ([n' g] & -> & Hin). apply elem_of_map_to_list in Hin. by exists g. }
        { intros [g Hg]. exists (n, g). split; [done|]. by apply elem_of_map_to_list. }
      * apply Sorted_merge_sort, _.
    + destruct args as [|[|name|] [|]]; try done.
Qed.

#[export] Instance toy_sql_reliable : SqlReliable f toy_views.
Proof.
  split.
  - intros q s args d Hq Ha. rewrite (toy_Exec _ s) by done. destruct s as [k|k|k|k|k columns]; cbn [applicable] in Ha.
    + destruct Ha as (name & version & vals & ts & -> & _ & Hnone). cbn. rewrite decide_True by done. by rewrite toy_split1_app.
    + destruct Ha as (name & id & deleted & purge & versions & -> & Hnone). cbn. by rewrite decide_True.
    + by destruct Ha as (name & ->).
    + by destruct Ha as (name & ->).
    + destruct Ha as (vals & name & version & -> & _). cbn. by rewrite toy_split2_app.
  - intros q a args d Hq _. rewrite (toy_Query _ a) by done. by eexists.
Qed.
End toy.
