(* ===== verification/SqlRows.v ===== *)
(** * The SQL store: what the live tables hold

    Every name has a timeline: its versions in the order of [created_at], as
    the snapshots that a deletion would write.  [Rows] says how a snapshot is
    a row of the table of its kind; [stored] that the rows of a name are a
    timeline; and each query and statement is stated as what it does to
    timelines, on an engine that does not fail. *)

From S2P Require Import Prelude GoStrings GoUtf8 GoSql Model StoreCore SqlSchema SqlCore SqlSecrets.

(** How the versions of a kind are rows. *)
Class Rows (k : kind) (A : Type) : Type := {
  row_version : A → string;
  row_created : A → Z;
  row_values : A → list value;      (** the data columns *)
  row_ok : A → Prop;                (** it reads back as it was written *)
  row_takes a : Forall2 column_takes (data_columns k) (row_values a);
}.
#[export] Hint Mode Rows - ! : typeclass_instances.

#[export] Instance older_trans : Transitive older.
Proof. unfold older. intros a b c. lia. Qed.
#[export] Instance newer_trans : Transitive newer.
Proof. unfold newer. intros a b c. lia. Qed.

Section timelines.
Context {k : kind} {A : Type} {R : Rows k A}.

(** The live row of a version. *)
Definition row_of (s : A) : string * live_row := (row_version s, (row_values s, row_created s)).

Definition before (a b : A) : Prop := row_created a < row_created b.

Record timeline (l : list A) : Prop := {
  tl_order : StronglySorted before l;
  tl_ok : Forall row_ok l;
  tl_versions : NoDup (row_version <$> l);
}.

Lemma timeline_nil : timeline [].
Proof. by split; constructor. Qed.

(** ** Order *)

Lemma map_fst_row_of l : (row_of <$> l).*1 = row_version <$> l.
Proof. by rewrite <-list_fmap_compose. Qed.

Lemma rows_sorted l : StronglySorted before l → StronglySorted older (row_of <$> l).
Proof. apply StronglySorted_fmap. unfold before, older. simpl. lia. Qed.

(** Two rows of a timeline that are created at the same time are one. *)
Lemma timeline_created_inj l a b :
  StronglySorted before l → a ∈ row_of <$> l → b ∈ row_of <$> l → a.2.2 = b.2.2 → a = b.
Proof.
  intros Hl (x & -> & Hx)%list_elem_of_fmap (y & -> & Hy)%list_elem_of_fmap. simpl. intros Hxy.
  f_equal. induction Hl as [|z l Hl IH Hz]; [set_solver|]. rewrite Forall_forall in Hz.
  rewrite elem_of_cons in Hx, Hy. unfold before in Hz.
  destruct Hx as [->|Hx], Hy as [->|Hy]; [done| | |by apply IH]; [specialize (Hz _ Hy)|specialize (Hz _ Hx)]; lia.
Qed.

(** ORDER BY created_at leaves no choice. *)
Lemma older_unique l rows :
  StronglySorted before l → rows ≡ₚ row_of <$> l → Sorted older rows → rows = row_of <$> l.
Proof.
  intros Hl Hperm Hs. apply (Sorted_unique_strong older); [|done|by apply StronglySorted_Sorted, rows_sorted|done].
  intros a b Ha Hb. rewrite Hperm in Ha. unfold older. intros. apply (timeline_created_inj l); [done..|lia].
Qed.

Lemma StronglySorted_reverse {B} (S S' : relation B) (l : list B) :
  (∀ a b, S a b → S' b a) → StronglySorted S l → StronglySorted S' (reverse l).
Proof.
  intros HRS. induction 1 as [|x l' Hl IH Hx]; [constructor|].
  rewrite reverse_cons. apply StronglySorted_app. split; [|split; [done|by repeat constructor]].
  intros a b Ha ->%list_elem_of_singleton. apply HRS. rewrite elem_of_reverse in Ha. by eapply Forall_forall in Hx.
Qed.
Lemma newer_unique l rows :
  StronglySorted before l → rows ≡ₚ row_of <$> l → Sorted newer rows → rows = reverse (row_of <$> l).
Proof.
  intros Hl Hperm Hs. apply (Sorted_unique_strong newer); [|done| |by rewrite reverse_Permutation].
  - intros a b Ha Hb. rewrite Hperm in Ha. rewrite elem_of_reverse in Hb. unfold newer. intros.
    apply (timeline_created_inj l); [done..|lia].
  - apply StronglySorted_Sorted. eapply (StronglySorted_reverse older); [|by apply rows_sorted]. done.
Qed.

(** ** Timelines under the operations *)

Lemma timeline_snoc l s :
  timeline l → row_ok s → Forall (λ a, before a s) l → row_version s ∉ row_version <$> l → timeline (l ++ [s]).
Proof.
  intros [Ho Hok Hv] Hs Hb Hn. split.
  - apply StronglySorted_app. split; [|split; [done|by repeat constructor]].
    intros a b Ha ->%list_elem_of_singleton. by eapply Forall_forall in Hb.
  - by apply Forall_app_2; [|apply Forall_singleton].
  - rewrite fmap_app. apply NoDup_app. split; [done|]. split; [|apply NoDup_singleton].
    intros x Hx ->%list_elem_of_singleton. done.
Qed.

Lemma StronglySorted_ext_fmap {B C} (S : relation B) (S' : relation C) (f : B → Z) (g : C → Z) l l' :
  (∀ a b, S a b ↔ f a < f b) → (∀ a b, S' a b ↔ g a < g b) → f <$> l = g <$> l' →
  StronglySorted S l → StronglySorted S' l'.
Proof.
  intros HR HS. revert l'. induction l as [|a l IH]; intros [|b l'] Heq Hl; try done; [constructor|].
  injection Heq as Hab Heq.
  apply StronglySorted_cons in Hl as [Ha Hl]. apply StronglySorted_cons. split; [|by apply IH].
  apply Forall_forall. intros y Hy. apply HS. rewrite <-Hab.
  assert (g y ∈ f <$> l) as (x & -> & Hx)%list_elem_of_fmap by (unfold fmap; rewrite Heq; by apply list_elem_of_fmap_2).
  apply HR. by eapply Forall_forall in Ha.
Qed.

Lemma timeline_update l i s s' :
  timeline l → l !! i = Some s → row_version s' = row_version s → row_created s' = row_created s → row_ok s' →
  timeline (<[i := s']> l).
Proof.
  intros [Ho Hok Hv] Hi Hvs Hc Hs. split.
  - revert Ho. apply (StronglySorted_ext_fmap _ _ row_created row_created); [done..|].
    rewrite list_fmap_insert, Hc, list_insert_id; [done|]. by rewrite list_lookup_fmap, Hi.
  - by apply Forall_insert.
  - rewrite list_fmap_insert, Hvs, list_insert_id; [done|]. by rewrite list_lookup_fmap, Hi.
Qed.

(** A recovery gives the versions new times, one apart. *)
Lemma timeline_restamp (g : nat * A → A) l :
  timeline l → Forall (λ s, in_int64 (row_created s) ∧ row_created s + Z.of_nat (length l) ≤ max_int64) l →
  (∀ p, row_ok p.2 → row_ok (g p)) →
  (∀ p, row_version (g p) = row_version p.2 ∧ row_created (g p) = wrap64 (row_created p.2 + Z.of_nat p.1)) →
  timeline (g <$> imap pair l).
Proof.
  intros Hl Hmax Hok Hg.
  assert (∀ i s, l !! i = Some s → wrap64 (row_created s + Z.of_nat i) = row_created s + Z.of_nat i) as Hw.
  { intros i s Hi. apply wrap64_id. destruct (Forall_lookup_1 _ _ _ _ Hmax Hi) as [Hc Hm].
    apply lookup_lt_Some in Hi. unfold in_int64 in *. lia. }
  split.
  - apply StronglySorted_lookup_2. intros i j a b Hij. rewrite !list_lookup_fmap, !list_lookup_imap.
    intros (pa & (sa & Ha & ->)%fmap_Some & ->)%fmap_Some (pb & (sb & Hb & ->)%fmap_Some & ->)%fmap_Some.
    unfold before. destruct (Hg (i, sa)) as [_ ->], (Hg (j, sb)) as [_ ->]. cbn. rewrite (Hw _ _ Ha), (Hw _ _ Hb).
    pose proof (StronglySorted_lookup_1 _ _ _ _ _ _ (tl_order _ Hl) Hij Ha Hb) as Hab. unfold before in Hab. lia.
  - apply Forall_fmap. apply (Forall_impl _ _ _ (Forall_imap_pair _ _ (tl_ok _ Hl))). intros p. apply Hok.
  - rewrite <-list_fmap_compose. pose proof (tl_versions _ Hl) as Hv. rewrite <-(imap_pair_snd l), <-list_fmap_compose in Hv.
    erewrite list_fmap_ext; [exact Hv|]. intros i p _. apply Hg.
Qed.

(** The version a request means: the latest one when it names none. *)
Definition find_snapshot (l : list A) (version : string) : option (nat * A) :=
  if decide (version = ""%string) then last_ptr l else list_find (λ s, row_version s = version) l.

Lemma find_snapshot_nil version : find_snapshot [] version = None.
Proof. unfold find_snapshot. by case_decide. Qed.
Lemma find_snapshot_Some l version i s : find_snapshot l version = Some (i, s) → l !! i = Some s.
Proof.
  unfold find_snapshot. case_decide; [by intros (H' & _)%last_ptr_Some|by intros (H' & _)%list_find_Some].
Qed.
End timelines.


(** ** Rows *)

Section stored.
Context {D : SqlEngine} {T : SqlTables D}.

Lemma elem_of_versions_of k name d v r : (v, r) ∈ versions_of k name d ↔ live k d !! (name, v) = Some r.
Proof.
  unfold versions_of. rewrite list_elem_of_fmap. split.
  - intros ([[n v'] r'] & [= -> ->] & H). apply list_elem_of_filter in H as [Hn H]. simpl in Hn. subst.
    by apply elem_of_map_to_list.
  - intros H. exists (name, v, r). split; [done|]. apply list_elem_of_filter. split; [done|]. by apply elem_of_map_to_list.
Qed.
Lemma NoDup_versions_of k name d : NoDup (versions_of k name d).
Proof.
  unfold versions_of. apply NoDup_fmap_2_strong; [|apply NoDup_filter, NoDup_map_to_list].
  intros [[n v] r] [[n' v'] r'] [Hn _]%list_elem_of_filter [Hn' _]%list_elem_of_filter. simpl in *. by intros [= -> ->]; subst.
Qed.

Context {k : kind} {A : Type} {R : Rows k A}.

(** The rows of a name are the timeline. *)
Definition stored (name : string) (d : sdb) (l : list A) : Prop :=
  ∀ v r, live k d !! (name, v) = Some r ↔ (v, r) ∈ row_of <$> l.

Lemma stored_perm name d l : timeline l → stored name d l → versions_of k name d ≡ₚ row_of <$> l.
Proof.
  intros Hl Hs. apply NoDup_Permutation; [apply NoDup_versions_of| |].
  - apply (NoDup_fmap_1 fst). rewrite map_fst_row_of. apply Hl.
  - intros [v r]. rewrite elem_of_versions_of. apply Hs.
Qed.

Lemma stored_nil_iff name d l : timeline l → stored name d l → l ≠ [] ↔ versions_of k name d ≠ [].
Proof.
  intros Hl Hs. pose proof (stored_perm name d l Hl Hs) as Hp. split; intros Hne E; apply Hne.
  - rewrite E in Hp. apply Permutation_nil_l in Hp. by destruct l.
  - subst l. by apply Permutation_nil_r in Hp.
Qed.

Lemma stored_empty name d : live k d = ∅ → stored name d [].
Proof. intros Hd v r. rewrite Hd. split; [done|set_solver]. Qed.

(** A statement on one name leaves the timelines of the others. *)
Lemma stored_ext name d d' l :
  (∀ v, live k d' !! (name, v) = live k d !! (name, v)) → stored name d l → stored name d' l.
Proof. intros Hd Hs v r. by rewrite Hd. Qed.

Lemma stored_insert name d d' l s :
  stored name d l → live k d !! (name, row_version s) = None →
  live k d' = <[(name, row_version s) := (row_of s).2]> (live k d) →
  stored name d' (l ++ [s]).
Proof.
  intros Hs Hnew Hd' v r. rewrite Hd', fmap_app, elem_of_app, <-(Hs v r). simpl. rewrite list_elem_of_singleton.
  rewrite lookup_insert_Some. unfold row_of. split.
  - intros [[[= <-] <-]|[Hne Hr]]; [by right|by left].
  - intros [Hr|[= -> ->]]; [right|by left]. split; [|done]. intros [= <-]. congruence.
Qed.

Lemma stored_delete name d d' :
  live k d' = filter (λ p, p.1.1 ≠ name) (live k d) → stored name d' [].
Proof.
  intros Hd' v r. rewrite Hd', map_lookup_filter_Some. simpl. split; [by intros [_ []]|]. set_solver.
Qed.

(** Replacing a version in place. *)
Lemma stored_update name d d' l i s s' :
  timeline l → stored name d l → l !! i = Some s → row_version s' = row_version s →
  live k d' = <[(name, row_version s) := (row_of s').2]> (live k d) →
  stored name d' (<[i := s']> l).
Proof.
  intros Hl Hs Hi Hv Hd' v r. rewrite Hd', lookup_insert_Some, (Hs v r), !list_elem_of_fmap. split.
  - intros [[[= <-] <-]|[Hne (x & Hx & Hin)]].
    + exists s'. split; [unfold row_of; by rewrite Hv|]. eapply list_elem_of_lookup_2, list_lookup_insert_eq, lookup_lt_Some, Hi.
    + exists x. split; [done|]. apply list_elem_of_lookup in Hin as [j Hj]. apply (list_elem_of_lookup_2 _ j).
      rewrite list_lookup_insert_ne; [done|]. intros ->. simplify_eq. by injection Hx as -> _.
  - intros (x & Hx & [j Hj]%list_elem_of_lookup). destruct (decide (i = j)) as [<-|Hij].
    + rewrite list_lookup_insert_eq in Hj by (by eapply lookup_lt_Some). injection Hj as <-.
      left. injection Hx as -> ->. by rewrite Hv.
    + rewrite list_lookup_insert_ne in Hj by done. right. split.
      * intros [= Hvs]. apply Hij. eapply (NoDup_lookup _ i j); [apply (tl_versions _ Hl)|..];
          rewrite list_lookup_fmap; [by rewrite Hi|rewrite Hj; simpl]. injection Hx as -> _. by rewrite Hvs.
      * exists x. split; [done|]. by eapply list_elem_of_lookup_2.
Qed.
End stored.

(** The other names keep their rows. *)
Definition elsewhere {D : SqlEngine} {T : SqlTables D} (k : kind) (name : string) (d d' : sdb) : Prop :=
  ∀ n v, n ≠ name → live k d' !! (n, v) = live k d !! (n, v).

(** ** Queries and statements on an engine that does not fail *)

Section answers.
Context (f : DBFlavor) {D : SqlEngine} {T : SqlTables D} {HL : SqlLaws f T} {HR : SqlReliable f T}.

Lemma query_answers q a args d : asks f q a → askable a args → ∃ rows, sql_Query q args d = Ok (rows, None) ∧ answers a args d rows.
Proof.
  intros Hq Hargs. destruct (query_reliable (f:=f) q a args d Hq Hargs) as [rows Hrows]. exists rows. split; [done|].
  destruct (query_ok q a args d rows None Hq Hrows) as (full & Hfull & _ & Heq). by rewrite (Heq eq_refl).
Qed.

Lemma statement_done q s args d : sends f q s → applicable s args d →
  ∃ d', (∀ A (k : outcome sql_error unit → SP A), run (Exec q args k) d = run (k (Ok ())) d') ∧ effect s args d d'.
Proof.
  intros Hq Ha. pose proof (exec_reliable (f:=f) q s args d Hq Ha) as Hok. exists (sql_Exec q args d).2. split.
  - intros A k. cbn [run]. by rewrite Hok.
  - apply (exec_ok (f:=f) q s args d); [done|]. by rewrite <-Hok, <-surjective_pairing.
Qed.

Lemma run_Exec q s args d : sends f q s → applicable s args d →
  ∃ d', run (db_Exec q args) d = (Ok (), d') ∧ effect s args d d'.
Proof. intros Hq Ha. destruct (statement_done q s args d Hq Ha) as (d' & Hrun & He). exists d'. split; [apply Hrun|done]. Qed.
Lemma run_Exec_ignore q s args d : sends f q s → applicable s args d →
  ∃ d', run (exec_ignore (E:=error) q args) d = (Ok (), d') ∧ effect s args d d'.
Proof. intros Hq Ha. destruct (statement_done q s args d Hq Ha) as (d' & Hrun & He). exists d'. split; [apply Hrun|done]. Qed.

Lemma run_count q k name d : asks f q (Count k) →
  run (db_QueryRow q [VText name] scan_count) d = (Ok (Z.of_nat (length (versions_of k name d))), d).
Proof.
  intros Hq. destruct (query_answers q _ [VText name] d Hq ltac:(cbn; eauto)) as (rows & Hrows & c & ->).
  unfold db_QueryRow, query_row, QueryRow. cbn [run]. by rewrite Hrows.
Qed.
Lemma run_count_deleted q k name d : asks f q (CountDeleted k) →
  run (db_QueryRow q [VText name] scan_count) d = (Ok (if decide (is_Some (gone k d !! name)) then 1 else 0), d).
Proof.
  intros Hq. destruct (query_answers q _ [VText name] d Hq ltac:(cbn; eauto)) as (rows & Hrows & c & ->).
  unfold db_QueryRow, query_row, QueryRow. cbn [run]. by rewrite Hrows.
Qed.

Lemma run_query_rows_Ok {A} q args d rows (l : list A) (body : row → outcome error A) :
  sql_Query q args d = Ok (rows, None) → o_traverse body rows = Ok l →
  run (query_rows db_error q args body) d = (Ok l, d).
Proof. intros Hq Hl. unfold query_rows. cbn [run]. rewrite Hq. cbn [o_maperr o_bind fst snd]. by rewrite Hl. Qed.

Lemma run_query_rows {A B} q args d (g : B → row) (h : B → A) (l : list B) (body : row → outcome error A) :
  sql_Query q args d = Ok (g <$> l, None) → (∀ x, x ∈ l → body (g x) = Ok (h x)) →
  run (query_rows db_error q args body) d = (Ok (h <$> l), d).
Proof. intros Hq Hg. eapply run_query_rows_Ok; [exact Hq|by apply o_traverse_fmap]. Qed.

Lemma run_names q k d : asks f q (Names k) → name_le = String.le →
  ∃ l, run (query_rows db_error q [] scan_name) d = (Ok l, d) ∧ NoDup l ∧ StronglySorted String.le l ∧
    ∀ n, n ∈ l ↔ versions_of k n d ≠ [].
Proof.
  intros Hq Hle. destruct (query_answers q _ [] d Hq ltac:(cbn; eauto)) as (rows & Hrows & l & Hnd & Hin & Hs & ->).
  rewrite Hle in Hs. exists l. split; [|split; [done|split; [by apply Sorted_StronglySorted; [apply _|]|done]]].
  rewrite (run_query_rows _ _ _ name_row id l); [by rewrite list_fmap_id|done|done].
Qed.
Lemma run_deleted_names q k d : asks f q (DeletedNames k) → name_le = String.le →
  run (query_rows db_error q [] scan_name) d = (Ok (sorted_keys (gone k d)), d).
Proof.
  intros Hq Hle. destruct (query_answers q _ [] d Hq ltac:(cbn; eauto)) as (rows & Hrows & l & Hnd & Hin & Hs & ->).
  rewrite (run_query_rows _ _ _ name_row id l), list_fmap_id by done. do 2 f_equal.
  apply (sorted_keys_unique (gone k d)); [done|rewrite <-Hle; by apply Sorted_StronglySorted; [rewrite Hle; apply _|]|done].
Qed.

(** [checkNotDeleted], on each of the three tables. *)
Lemma run_checkNotDeleted_of k name what d :
  run (checkNotDeleted f (deleted_table k) name what) d =
    (if decide (is_Some (gone k d !! name))
     then Err (newError StatusConflict "InvalidOperation"
       (what ++ " " ++ name ++ " is currently deleted and cannot be reused until recovered or purged.")%string)
     else Ok (), d).
Proof.
  unfold checkNotDeleted. rewrite run_bind. unfold m_bind.
  rewrite (run_count_deleted _ k) by (destruct k; sent). by destruct (decide (is_Some (gone k d !! name))).
Qed.

(** The entry of a deleted object. *)
Lemma run_deleted_row q k missing name d : asks f q (Deleted k) →
  run (QueryRow q [VText name] scan_deletedRow (or_missing missing)) d =
    (match gone k d !! name with
     | Some g => Ok (mkDeletedRow name (g_recovery_id g) (g_deleted g) (g_purge g) (g_versions g))
     | None => Err missing
     end, d).
Proof.
  intros Hq. unfold QueryRow. cbn [run].
  destruct (query_answers _ (Deleted k) [VText name] d Hq ltac:(cbn; eauto)) as (rows & Hrows & ->).
  etrans; [apply (f_equal (λ x, run (or_missing missing (let! r := first_row x in o_maperr SqlError (scan_deletedRow r))) d) Hrows)|].
  by destruct (gone k d !! name).
Qed.

(** *** Reading the versions of a name *)

Context {k : kind} {A : Type} {R : Rows k A}.

(** The latest version or the one that is named, decoded. *)
Lemma run_read_version {C X} ql qv missing (scan : row → outcome message C) (decode : C → SP X) (h : A → X) name version d l :
  asks f ql (Latest k (version_columns k)) → asks f qv (Version k (version_columns k)) →
  (∀ s, row_ok s → ∃ c, scan (project k (version_columns k) (row_of s)) = Ok c ∧ decode c = Done (Ok (h s))) →
  timeline l → stored name d l →
  run (let+ c := if decide (version = ""%string) then QueryRow ql [VText name] scan (or_missing missing)
       else QueryRow qv [VText name; VText version] scan (or_missing missing) in decode c) d =
    (match find_snapshot l version with Some (_, s) => Ok (h s) | None => Err missing end, d).
Proof.
  intros Hql Hqv Hread Hl Hs. unfold find_snapshot. rewrite run_bind. unfold m_bind.
  assert (∀ q args (o : option A),
    sql_Query q args d = Ok (match o with Some s => [project k (version_columns k) (row_of s)] | None => [] end, None) →
    (∀ s, o = Some s → row_ok s) →
    match run (QueryRow q args scan (or_missing missing)) d with
    | (Ok c, d') => run (decode c) d' | (Err e, d') => (Err e, d') | (Panic p, d') => (Panic p, d') end =
    (match o with Some s => Ok (h s) | None => Err missing end, d)) as Hrow.
  { intros q args o Hq Ho. unfold QueryRow. cbn [run]. rewrite Hq. destruct o as [s|]; [|done].
    cbn [first_row o_bind]. destruct (Hread s (Ho s eq_refl)) as (c & -> & Hc). cbn [o_maperr or_missing run].
    by rewrite Hc. }
  case_decide as Hv.
  - destruct (query_answers ql _ [VText name] d Hql ltac:(cbn; eauto)) as (rows & Hrows & l' & Hperm & Hsort & ->).
    rewrite (stored_perm name d l Hl Hs) in Hperm. apply newer_unique in Hperm; [|apply Hl|done]. subst l'.
    rewrite (Hrow _ _ (last l)).
    + unfold last_ptr. by destruct (last l).
    + etrans; [exact Hrows|]. do 2 f_equal. destruct l as [|x l _] using rev_ind; [done|].
      by rewrite last_snoc, fmap_app, reverse_app.
    + intros s [l0 Hk]%last_Some. subst l. eapply Forall_forall; [apply Hl|]. set_solver.
  - destruct (query_answers qv _ [VText name; VText version] d Hqv ltac:(cbn; eauto)) as (rows & Hrows & ->).
    rewrite (Hrow _ _ (snd <$> list_find (λ s, row_version s = version) l)).
    + by destruct (list_find _ l) as [[i s]|].
    + etrans; [exact Hrows|]. do 2 f_equal. destruct (list_find _ l) as [[i s]|] eqn:Hf.
      * apply list_find_Some in Hf as (Hi & <- & _). cbn [fmap option_fmap option_map snd].
        assert (live k d !! (name, row_version s) = Some (row_of s).2) as ->; [|done].
        apply Hs. apply list_elem_of_lookup_2 in Hi. by apply (list_elem_of_fmap_2 row_of).
      * destruct (live k d !! (name, version)) as [r|] eqn:Hr; [|done]. exfalso.
        apply Hs in Hr as (s & Hr & Hin)%list_elem_of_fmap. apply list_find_None in Hf. rewrite Forall_forall in Hf.
        apply (Hf _ Hin). by injection Hr as -> _.
    + intros s ([i s'] & (Hi & _)%list_find_Some & ->)%fmap_Some. eapply Forall_lookup_1; [apply Hl|done].
Qed.

(** All versions, newest first. *)
Lemma run_newest_first {X} q (body : row → outcome error X) columns (h : A → X) name d l :
  asks f q (Versions k columns true) → (∀ s, row_ok s → body (project k columns (row_of s)) = Ok (h s)) →
  timeline l → stored name d l →
  run (query_rows db_error q [VText name] body) d = (Ok (h <$> reverse l), d).
Proof.
  intros Hq Hread Hl Hs. destruct (query_answers q _ [VText name] d Hq ltac:(cbn; eauto)) as (rows & Hrows & l' & Hperm & Hsort & ->).
  rewrite (stored_perm name d l Hl Hs) in Hperm. apply newer_unique in Hperm; [|apply Hl|done]. subst l'.
  rewrite <-fmap_reverse, <-list_fmap_compose in Hrows.
  erewrite (run_query_rows _ _ _ _ h (reverse l)); [done|exact Hrows|].
  intros s Hin. apply Hread. rewrite elem_of_reverse in Hin. by eapply Forall_forall; [apply Hl|].
Qed.

(** All versions, oldest first. *)
Lemma traverse_oldest_first (body : row → outcome error A) columns name d (l : list A) rows :
  (∀ s, row_ok s → body (project k columns (row_of s)) = Ok s) → timeline l → stored name d l →
  answers (Versions k columns false) [VText name] d rows → o_traverse body rows = Ok l.
Proof.
  intros Hread Hl Hs (l' & Hperm & Hsort & ->).
  rewrite (stored_perm name d l Hl Hs) in Hperm. apply older_unique in Hperm; [|apply Hl|done]. subst l'.
  rewrite <-list_fmap_compose, (o_traverse_fmap body _ id l); [by rewrite list_fmap_id|].
  intros s Hin. apply Hread. by eapply Forall_forall; [apply Hl|].
Qed.
Lemma run_oldest_first q (body : row → outcome error A) columns name d l :
  asks f q (Versions k columns false) → (∀ s, row_ok s → body (project k columns (row_of s)) = Ok s) →
  timeline l → stored name d l → run (query_rows db_error q [VText name] body) d = (Ok l, d).
Proof.
  intros Hq Hread Hl Hs. destruct (query_answers q _ [VText name] d Hq ltac:(cbn; eauto)) as (rows & Hrows & Hans).
  apply (run_query_rows_Ok _ _ _ rows); [exact Hrows|by eapply traverse_oldest_first].
Qed.

Lemma run_versions_count q name d (l : list A) : asks f q (Count k) → timeline l → stored name d l →
  run (db_QueryRow q [VText name] scan_count) d = (Ok (Z.of_nat (length l)), d).
Proof. intros Hq Hl Hs. rewrite (run_count _ k) by done. by rewrite (stored_perm name d l Hl Hs), length_fmap. Qed.

(** *** Statements *)

Lemma stored_fresh name d (l : list A) (s : A) : stored name d l → row_version s ∉ row_version <$> l → live k d !! (name, row_version s) = None.
Proof.
  intros Hs Hnew. destruct (live k d !! _) as [r|] eqn:Hr; [|done]. exfalso.
  apply Hs in Hr as (s' & Hr & Hin)%list_elem_of_fmap. apply Hnew. injection Hr as -> _. by apply list_elem_of_fmap_2.
Qed.

Lemma run_insert_row q name (s : A) d (l : list A) : sends f q (Insert k) →
  stored name d l → row_version s ∉ row_version <$> l →
  ∃ d', run (db_Exec q (VText name :: VText (row_version s) :: row_values s ++ [VInt (row_created s)])) d = (Ok (), d') ∧
    stored name d' (l ++ [s]) ∧ elsewhere k name d d' ∧ gone k d' = gone k d.
Proof.
  intros Hq Hs Hnew. pose proof (stored_fresh name d l s Hs Hnew) as Hnone.
  destruct (run_Exec q (Insert k) (VText name :: VText (row_version s) :: row_values s ++ [VInt (row_created s)]) d Hq)
    as (d' & Hrun & He).
  { do 4 eexists. split; [done|]. split; [apply row_takes|done]. }
  exists d'. split; [exact Hrun|].
  destruct (He (row_values s) (row_created s) eq_refl (eq_sym (Forall2_length _ _ _ (row_takes s)))) as (_ & Hlive & Hgone). specialize (Hlive k).
  rewrite decide_True in Hlive by done. split; [|split; [|done]].
  - by apply (stored_insert _ d).
  - intros n v Hn. rewrite Hlive. apply lookup_insert_ne. congruence.
Qed.

(** A loop of insertions. *)
Lemma run_insert_rows {X} name (ins : X → SP unit) (snap : X → A) (xs : list X) :
  (∀ x d l, x ∈ xs → stored name d l → row_version (snap x) ∉ row_version <$> l →
    ∃ d', run (ins x) d = (Ok (), d') ∧ stored name d' (l ++ [snap x]) ∧ elsewhere k name d d' ∧ gone k d' = gone k d) →
  ∀ d l, stored name d l → NoDup (row_version <$> l ++ (snap <$> xs)) →
  ∃ d', run (p_iter ins xs) d = (Ok (), d') ∧ stored name d' (l ++ (snap <$> xs)) ∧ elsewhere k name d d' ∧ gone k d' = gone k d.
Proof.
  induction xs as [|x xs IH]; intros Hins d l Hs Hnd.
  { exists d. rewrite app_nil_r. by split_and!. }
  rewrite fmap_cons in Hnd |- *. rewrite cons_middle, (assoc_L (++)) in Hnd |- *.
  destruct (Hins x d l) as (d1 & Hrun & Hs1 & Hel & Hg); [by left|done| |].
  { rewrite !fmap_app in Hnd. apply NoDup_app in Hnd as [Hnd _]. apply NoDup_app in Hnd as (_ & Hnd & _).
    intros Hin. apply (Hnd _ Hin). by left. }
  destruct (IH ltac:(intros; apply Hins; [by right|done..]) d1 (l ++ [snap x]) Hs1 Hnd) as (d2 & Hrun2 & Hs2 & Hel2 & Hg2).
  exists d2. cbn [p_iter]. rewrite (run_bind_Ok _ _ _ _ _ Hrun). split_and!; [done|done| |congruence].
  intros n v Hn. by rewrite Hel2, Hel.
Qed.

Lemma run_delete_rows q name d : sends f q (Delete k) →
  ∃ d', run (db_Exec q [VText name]) d = (Ok (), d') ∧ stored name d' ([] : list A) ∧ elsewhere k name d d' ∧ gone k d' = gone k d.
Proof.
  intros Hq. destruct (run_Exec q (Delete k) [VText name] d Hq ltac:(by eexists)) as (d' & Hrun & Hlive & Hgone).
  specialize (Hlive k). rewrite decide_True in Hlive by done.
  exists d'. split_and!; [done|by apply (stored_delete name d)| |done].
  intros n v Hn. rewrite Hlive, map_lookup_filter. destruct (live k d !! (n, v)); [|done].
  cbn. by rewrite option_guard_True.
Qed.

Lemma run_update_row q columns vals name d (l : list A) i (s s' : A) :
  sends f q (Update k columns) → Forall2 column_takes columns vals →
  timeline l → stored name d l → l !! i = Some s → row_version s' = row_version s → row_created s' = row_created s →
  set_columns k columns vals (row_values s) = row_values s' →
  ∃ d', run (db_Exec q (vals ++ [VText name; VText (row_version s)])) d = (Ok (), d') ∧
    stored name d' (<[i := s']> l) ∧ elsewhere k name d d' ∧ gone k d' = gone k d.
Proof.
  intros Hq Hlen Hl Hs Hi Hv Hc Hset.
  destruct (run_Exec q (Update k columns) (vals ++ [VText name; VText (row_version s)]) d Hq ltac:(by do 3 eexists)) as (d' & Hrun & He).
  destruct (He vals name (row_version s) eq_refl (eq_sym (Forall2_length _ _ _ Hlen))) as [Hlive Hgone]. specialize (Hlive k).
  rewrite decide_True in Hlive by done. exists d'. split; [exact Hrun|].
  assert (live k d !! (name, row_version s) = Some (row_of s).2) as Hrow.
  { apply Hs. by eapply (list_elem_of_fmap_2 row_of), list_elem_of_lookup_2. }
  split_and!; [| |done].
  - apply (stored_update _ d _ l i s); [done..|]. rewrite Hlive. apply map_eq. intros x.
    destruct (decide (x = (name, row_version s))) as [->|Hk].
    + rewrite lookup_alter_eq, lookup_insert_eq, Hrow. cbn. by rewrite Hset, Hc.
    + by rewrite lookup_alter_ne, lookup_insert_ne by done.
  - intros n v Hn. rewrite Hlive. apply lookup_alter_ne. congruence.
Qed.
End answers.

(** *** The entries of the deleted *)

Section deleted.
Context (f : DBFlavor) {D : SqlEngine} {T : SqlTables D} {HL : SqlLaws f T} {HR : SqlReliable f T}.

Lemma run_insert_deleted q k name id deleted purge versions d : sends f q (InsertDeleted k) → gone k d !! name = None →
  ∃ d', run (db_Exec q [VText name; VText id; VInt deleted; VInt purge; VText versions]) d = (Ok (), d') ∧
    live k d' = live k d ∧ gone k d' = <[name := mkGrave id deleted purge versions]> (gone k d).
Proof.
  intros Hq Hnone. destruct (run_Exec f q (InsertDeleted k) [VText name; VText id; VInt deleted; VInt purge; VText versions] d Hq ltac:(by do 5 eexists))
    as (d' & Hrun & _ & Hgone & Hlive).
  exists d'. split_and!; [done|done|]. by rewrite Hgone, decide_True.
Qed.

Lemma run_delete_deleted q k name d : sends f q (DeleteDeleted k) →
  ∃ d', run (db_Exec q [VText name]) d = (Ok (), d') ∧ run (exec_ignore (E:=error) q [VText name]) d = (Ok (), d') ∧
    live k d' = live k d ∧ gone k d' = delete name (gone k d).
Proof.
  intros Hq. destruct (statement_done f q (DeleteDeleted k) [VText name] d Hq ltac:(by eexists)) as (d' & Hrun & Hgone & Hlive).
  exists d'. split_and!; [apply Hrun|apply Hrun|done|]. by rewrite Hgone, decide_True.
Qed.
End deleted.
