(* ===== verification/SqlKeep.v ===== *)
(** * The SQL store: invariants of the rows

    [rows_hold k P Q]: every row of the live table of the kind [k] has [P], and
    every row of its table of deleted objects [Q].  Here is which statement keeps
    it, what a query of such a database gives, and the tactic [keep] for
    programs put together of those.  [GoSql.keeps] is statement by statement, so
    what keeps the invariant keeps it under every schedule. *)

From S2P Require Import Prelude GoStrings GoJson GoSql Model StoreCore SqlSchema SqlCore SqlFrame SqlRows.

Section invariant.
Context (f : DBFlavor) {D : SqlEngine} {T : SqlTables D} {HL : SqlLaws f T}.
Context (k : kind) (P : live_row → Prop) (Q : grave → Prop).

Definition rows_hold (d : sdb) : Prop :=
  map_Forall (λ _ r, P r) (live k d) ∧ map_Forall (λ _ g, Q g) (gone k d).

Lemma rows_hold_rests d d' : rests k d d' → rows_hold d → rows_hold d'.
Proof. intros [El Eg] [Hl Hg]. by split; rewrite ?El, ?Eg. Qed.
Lemma rows_hold_empty d : live k d = ∅ → gone k d = ∅ → rows_hold d.
Proof. intros El Eg. split; [rewrite El|rewrite Eg]; apply map_Forall_empty. Qed.

(** What leaves the tables of the kind alone. *)
Lemma keeps_spared {A} (p : SP A) : spares k p → keeps rows_hold p.
Proof. apply spares_keeps, rows_hold_rests. Qed.

(** ** Queries and loops *)

Lemma keeps_or_missing {A} err o : keeps rows_hold (or_missing (A:=A) err o).
Proof. by destruct o as [?|[]|]. Qed.
Lemma keeps_QueryRow {A} q args (scan : row → outcome message A) err :
  keeps rows_hold (QueryRow q args scan (or_missing err)).
Proof. intros d _. apply keeps_or_missing. Qed.
Lemma keeps_query_row {A} q args (scan : row → outcome message A) : keeps rows_hold (db_QueryRow q args scan).
Proof. by intros d _. Qed.
Lemma keeps_query_rows {A} q args (body : row → outcome error A) : keeps rows_hold (query_rows db_error q args body).
Proof. by intros d _. Qed.
Lemma keeps_iter {A} (g : A → SP unit) l : Forall (λ x, keeps rows_hold (g x)) l → keeps rows_hold (p_iter g l).
Proof. induction 1; [done|]. cbn [p_iter]. by apply keeps_then. Qed.
Lemma keeps_traverse {A B} (g : A → SP B) l : (∀ x, keeps rows_hold (g x)) → keeps rows_hold (p_traverse g l).
Proof.
  intros Hg. induction l as [|x l IH]; [done|]. cbn [p_traverse]. apply keeps_then; [done|]. intros y.
  by apply keeps_then.
Qed.

(** ** Statements *)

Lemma keeps_effect s args q d :
  sends f q s → (∀ d', effect s args d d' → rows_hold d → rows_hold d') → rows_hold d → rows_hold (sql_Exec q args d).2.
Proof.
  intros Hq Hs Hd. destruct (sql_Exec q args d) as [o d'] eqn:He. cbn [snd].
  assert (o = Ok () ∨ o ≠ Ok ()) as [->|Hne] by (destruct o as [[]| |]; [by left|by right..]).
  - apply Hs; [by apply (exec_ok q s)|done].
  - eapply rows_hold_rests; [|exact Hd]. apply (exec_failed q args d o d' He Hne k).
Qed.
Lemma keeps_exec s args q :
  sends f q s → (∀ d d', effect s args d d' → rows_hold d → rows_hold d') → keeps rows_hold (db_Exec q args).
Proof. intros Hq Hs. split; [|done]. intros d. apply (keeps_effect s _ _ _ Hq), Hs. Qed.
Lemma keeps_exec_ignore s args q :
  sends f q s → (∀ d d', effect s args d d' → rows_hold d → rows_hold d') → keeps rows_hold (exec_ignore (E:=error) q args).
Proof. intros Hq Hs. split; [|by intros []]. intros d. apply (keeps_effect s _ _ _ Hq), Hs. Qed.

Lemma keeps_insert name version vals ts q :
  sends f q (Insert k) → length vals = length (data_columns k) → P (vals, ts) →
  keeps rows_hold (db_Exec q (VText name :: VText version :: vals ++ [VInt ts])).
Proof.
  intros Hq Hv Hp. apply (keeps_exec (Insert k)); [done|]. intros d d' He [Hl Hg].
  destruct (He vals ts eq_refl Hv) as (_ & Hlive & Hgone). split; [|by rewrite Hgone].
  rewrite Hlive, decide_True by done. by apply map_Forall_insert_2.
Qed.
Lemma keeps_update columns vals name version q :
  sends f q (Update k columns) → length vals = length columns →
  (∀ r, P r → P (set_columns k columns vals r.1, r.2)) →
  keeps rows_hold (db_Exec q (vals ++ [VText name; VText version])).
Proof.
  intros Hq Hv Hp. apply (keeps_exec (Update k columns)); [done|]. intros d d' He [Hl Hg].
  destruct (He vals name version eq_refl Hv) as [Hlive Hgone]. split; [|by rewrite Hgone].
  rewrite Hlive, decide_True by done.
  intros i r. rewrite lookup_alter_Some. intros [(<- & r0 & Hr0 & ->)|[_ Hr]]; [|by apply (Hl i)].
  by apply Hp, (Hl _ _ Hr0).
Qed.
Lemma keeps_delete name q : sends f q (Delete k) → keeps rows_hold (db_Exec q [VText name]).
Proof.
  intros Hq. apply (keeps_exec (Delete k)); [done|]. intros d d' [Hlive Hgone] [Hl Hg].
  split; [|by rewrite Hgone]. rewrite Hlive, decide_True by done. intros i r [Hr _]%map_lookup_filter_Some. by apply (Hl i).
Qed.
Lemma keeps_insert_deleted name id deleted purge versions q :
  sends f q (InsertDeleted k) → Q (mkGrave id deleted purge versions) →
  keeps rows_hold (db_Exec q [VText name; VText id; VInt deleted; VInt purge; VText versions]).
Proof.
  intros Hq Hgr. apply (keeps_exec (InsertDeleted k)); [done|]. intros d d' (_ & Hgone & Hlive) [Hl Hg].
  split; [by rewrite Hlive|]. rewrite Hgone, decide_True by done. by apply map_Forall_insert_2.
Qed.
Lemma effect_delete_deleted name d d' :
  effect (DeleteDeleted k) [VText name] d d' → rows_hold d → rows_hold d'.
Proof.
  intros [Hgone Hlive] [Hl Hg]. split; [by rewrite Hlive|]. rewrite Hgone, decide_True by done.
  by apply map_Forall_delete.
Qed.
Lemma keeps_delete_deleted name q : sends f q (DeleteDeleted k) → keeps rows_hold (db_Exec q [VText name]).
Proof. intros Hq. apply (keeps_exec (DeleteDeleted k)); [done|]. intros d d'. apply effect_delete_deleted. Qed.
Lemma keeps_delete_ignore name q :
  sends f q (DeleteDeleted k) → keeps rows_hold (exec_ignore (E:=error) q [VText name]).
Proof. intros Hq. apply (keeps_exec_ignore (DeleteDeleted k)); [done|]. intros d d'. apply effect_delete_deleted. Qed.

(** ** What programs return *)

Lemma returns_Done_intro {A} (o : outcome error A) (R : A → Prop) :
  (∀ a, o = Ok a → R a) → returns rows_hold (Done o) R.
Proof. destruct o; simpl; auto. Qed.
Lemma returns_traverse {A B} (g : A → SP B) l (R : B → Prop) :
  (∀ x, returns rows_hold (g x) R) → returns rows_hold (p_traverse g l) (Forall R).
Proof.
  intros Hg. induction l as [|x l IH]; [constructor|]. cbn [p_traverse]. eapply returns_bind; [apply Hg|]. intros y Hy.
  eapply returns_bind; [exact IH|]. intros ys Hys. by constructor.
Qed.
Lemma returns_query_rows {A} q args (body : row → outcome error A) (R : A → Prop) :
  (∀ d rows err r a, rows_hold d → sql_Query q args d = Ok (rows, err) → r ∈ rows → body r = Ok a → R a) →
  returns rows_hold (query_rows db_error q args body) (Forall R).
Proof.
  intros HR d Hd. apply returns_Done_intro. intros l (rs & Hrs & (l' & Hl & H)%o_bind_Ok)%o_bind_Ok.
  destruct rs as [rows err]. cbn [fst snd] in *. destruct err; [done|]. injection H as <-.
  destruct (sql_Query q args d) as [[rows' err']| |] eqn:Hq; simplify_eq/=.
  eapply o_traverse_Forall; [done|]. intros r a Hr Ha. by eapply HR.
Qed.
Lemma returns_QueryRow {A} q args (scan : row → outcome message A) err (R : A → Prop) :
  (∀ d rows err r a, rows_hold d → sql_Query q args d = Ok (rows, err) → r ∈ rows → scan r = Ok a → R a) →
  returns rows_hold (QueryRow q args scan (or_missing err)) R.
Proof.
  intros HR d Hd. unfold first_row. destruct (sql_Query q args d) as [[[|r rows] [err'|]]|[]|] eqn:Hq; cbn; try done;
    try (by destruct err').
  all: destruct (scan r) as [a| |] eqn:Ha; cbn; try done; (eapply HR; [exact Hd|exact Hq|by left|done]).
Qed.

(** ** The rows of the queries *)

Lemma row_of_query a q args d rows err r :
  asks f q a → sql_Query q args d = Ok (rows, err) → r ∈ rows → ∃ full, answers a args d full ∧ r ∈ full.
Proof.
  intros Ha Hq Hr. destruct (query_ok _ _ _ _ _ _ Ha Hq) as (full & Hfull & [rest Hpre] & _).
  exists full. split; [done|]. rewrite Hpre. set_solver.
Qed.
(** A version that is read is a row of the live table. *)
Definition a_version (columns : list string) (r : row) : Prop := ∃ v x, r = project k columns (v, x) ∧ P x.
Lemma version_of_table name columns (l : list (string * live_row)) d r :
  rows_hold d → (∀ p, p ∈ l → p ∈ versions_of k name d) → r ∈ project k columns <$> l → a_version columns r.
Proof.
  intros [Hl _] Hsub ([v x] & -> & Hin)%list_elem_of_fmap. exists v, x. split; [done|].
  apply Hsub, elem_of_versions_of in Hin. by apply (Hl _ _ Hin).
Qed.
Lemma read_latest columns q name d rows err r :
  asks f q (Latest k columns) → rows_hold d → sql_Query q [VText name] d = Ok (rows, err) → r ∈ rows → a_version columns r.
Proof.
  intros Ha Hd Hq Hr. destruct (row_of_query _ _ _ _ _ _ _ Ha Hq Hr) as (full & (l & Hl & _ & ->) & Hin).
  eapply version_of_table; [done| |exact Hin]. intros p Hp%elem_of_take. rewrite <-Hl. destruct Hp as (i & Hi & _).
  by eapply list_elem_of_lookup_2.
Qed.
Lemma read_version columns q name version d rows err r :
  asks f q (Version k columns) → rows_hold d → sql_Query q [VText name; VText version] d = Ok (rows, err) → r ∈ rows →
  a_version columns r.
Proof.
  intros Ha [Hd _] Hq Hr. destruct (row_of_query _ _ _ _ _ _ _ Ha Hq Hr) as (full & -> & Hin).
  destruct (live k d !! (name, version)) as [x|] eqn:Hx; [|by apply not_elem_of_nil in Hin].
  apply list_elem_of_singleton in Hin as ->. exists version, x. split; [done|]. by apply (Hd _ _ Hx).
Qed.
Lemma read_versions columns newest q name d rows err r :
  asks f q (Versions k columns newest) → rows_hold d → sql_Query q [VText name] d = Ok (rows, err) → r ∈ rows →
  a_version columns r.
Proof.
  intros Ha Hd Hq Hr. destruct (row_of_query _ _ _ _ _ _ _ Ha Hq Hr) as (full & (l & Hl & _ & ->) & Hin).
  eapply version_of_table; [done| |exact Hin]. intros p. by rewrite <-Hl.
Qed.
Lemma read_deleted q name d rows err r :
  asks f q (Deleted k) → rows_hold d → sql_Query q [VText name] d = Ok (rows, err) → r ∈ rows →
  ∃ g, r = grave_row name g ∧ Q g.
Proof.
  intros Ha [_ Hd] Hq Hr. destruct (row_of_query _ _ _ _ _ _ _ Ha Hq Hr) as (full & -> & Hin).
  destruct (gone k d !! name) as [g|] eqn:Hg; [|by apply not_elem_of_nil in Hin].
  apply list_elem_of_singleton in Hin as ->. exists g. split; [done|]. by apply (Hd _ _ Hg).
Qed.
End invariant.

(** ** Programs

    Queries keep the invariant; so does everything that is put together of
    programs that keep it. *)
Ltac keep :=
  repeat match goal with
    | |- keeps _ (Done _) => exact I
    | |- keeps _ (p_ret _) => exact I
    | |- keeps _ (p_fail _) => exact I
    | |- keeps _ (QueryRow _ _ _ _) => apply keeps_QueryRow
    | |- keeps _ (db_QueryRow _ _ _) => apply keeps_query_row
    | |- keeps _ (query_rows _ _ _ _) => apply keeps_query_rows
    | |- keeps _ (p_try _) => apply keeps_try
    | |- keeps _ (p_bind _ _) => apply keeps_then
    | |- keeps _ (p_traverse _ _) => apply keeps_traverse
    | |- keeps _ (if ?b then _ else _) => destruct b
    | |- keeps _ (let '(_, _) := ?p in _) => destruct p
    | |- keeps _ (let _ := _ in _) => cbv zeta
    | |- keeps _ (checkNotDeleted _ _ _ _) => unfold checkNotDeleted
    | |- ∀ _, _ => intros ?
    end.
