(* ===== verification/SqlMirror.v ===== *)
(** * The two stores side by side

    The in-memory store keeps, for each kind, a map of live entries and a map
    of deleted ones; the SQL store keeps two tables.  [mirror] says how a
    timeline of rows is an entry, [mirrors] that the maps and the tables hold
    the same names, and the lemmas what a call on one name keeps of that. *)

From S2P Require Import Prelude GoStrings GoSql Model StoreCore SqlSchema SqlRows.

Record mirror (k : kind) (A E G : Type) {R : Rows k A} : Type := Mirror {
  mir_entry : string → list A → E;               (** the entry of a timeline *)
  mir_grave : E → string → Z → Z → G;            (** the entry of a deleted name *)
  mir_payload : list A → string;                 (** what its row keeps of the versions *)
}.
Arguments Mirror {k A E G R}.
Arguments mir_entry {k A E G R}.
Arguments mir_grave {k A E G R}.
Arguments mir_payload {k A E G R}.

Section mirror.
Context {k : kind} {A E G : Type} {R : Rows k A} (M : mirror k A E G).

(** A name with no row has no entry. *)
Definition entry_at (name : string) (l : list A) : option E :=
  match l with [] => None | _ => Some (mir_entry M name l) end.

Lemma entry_at_Some name l : l ≠ [] → entry_at name l = Some (mir_entry M name l).
Proof. by destruct l. Qed.

Context {D : SqlEngine} {T : SqlTables D}.

(** The same versions, live. *)
Definition same_live (name : string) (m : gmap string E) (d : sdb) : Prop :=
  ∃ l, timeline l ∧ stored name d l ∧ m !! name = entry_at name l.

(** The same deleted name. *)
Definition same_entry (name : string) (e : G) (g : grave) : Prop :=
  ∃ l, l ≠ [] ∧ timeline l ∧ g_versions g = mir_payload M l ∧
    e = mir_grave M (mir_entry M name l) (g_recovery_id g) (g_deleted g) (g_purge g).
Definition same_gone (name : string) (m : gmap string G) (d : sdb) : Prop :=
  match gone k d !! name with
  | None => m !! name = None
  | Some g => ∃ e, m !! name = Some e ∧ same_entry name e g
  end.

Record mirrors (m : gmap string E) (mg : gmap string G) (d : sdb) : Prop := {
  mir_live name : same_live name m d;
  mir_gone name : same_gone name mg d;
}.

Lemma same_live_ext name m d m' d' :
  m' !! name = m !! name → (∀ v, live k d' !! (name, v) = live k d !! (name, v)) →
  same_live name m d → same_live name m' d'.
Proof. intros Hm Hd (l & Hl & Hst & He). exists l. rewrite Hm. split; [done|]. split; [|done]. by eapply stored_ext. Qed.

Lemma same_gone_ext name m d m' d' :
  m' !! name = m !! name → gone k d' !! name = gone k d !! name → same_gone name m d → same_gone name m' d'.
Proof. unfold same_gone. by intros -> ->. Qed.

(** A call of another kind. *)
Lemma mirrors_ext m mg d d' : live k d' = live k d → gone k d' = gone k d → mirrors m mg d → mirrors m mg d'.
Proof.
  intros Hl Hg [Hlive Hgone]. split; intros n.
  - eapply same_live_ext; [done| |apply Hlive]. intros v. by rewrite Hl.
  - eapply same_gone_ext; [done| |apply Hgone]. by rewrite Hg.
Qed.

(** A call on one name. *)
Lemma mirrors_at name m mg d m' mg' d' :
  mirrors m mg d → (∀ n, n ≠ name → m' !! n = m !! n) → (∀ n, n ≠ name → mg' !! n = mg !! n) →
  elsewhere k name d d' → (∀ n, n ≠ name → gone k d' !! n = gone k d !! n) →
  same_live name m' d' → same_gone name mg' d' → mirrors m' mg' d'.
Proof.
  intros [Hlive Hgone] Hm Hmg Hel Hg Hl' Hg'. split; intros n; (destruct (decide (n = name)) as [->|Hn]; [done|]).
  - eapply same_live_ext; [by apply Hm| |apply Hlive]. intros v. by apply Hel.
  - eapply same_gone_ext; [by apply Hmg|by apply Hg|apply Hgone].
Qed.

(** One that gives a name its versions. *)
Lemma mirrors_put name l m mg d d' :
  mirrors m mg d → timeline l → l ≠ [] → stored name d' l → elsewhere k name d d' → gone k d' = gone k d →
  mirrors (<[name := mir_entry M name l]> m) mg d'.
Proof.
  intros Hr Hl Hne Hs Hel Hg. apply (mirrors_at name m mg d); [done| |done|done| | |].
  - intros n Hn. by apply lookup_insert_ne.
  - intros n _. by rewrite Hg.
  - exists l. split; [done|]. split; [done|]. by rewrite lookup_insert_eq, entry_at_Some.
  - eapply same_gone_ext; [done|by rewrite Hg|apply Hr].
Qed.

(** One that deletes a name. *)
Lemma mirrors_delete name l id deleted purge m mg d d' :
  mirrors m mg d → timeline l → l ≠ [] → stored name d' ([] : list A) → elsewhere k name d d' →
  gone k d' = <[name := mkGrave id deleted purge (mir_payload M l)]> (gone k d) →
  mirrors (delete name m) (<[name := mir_grave M (mir_entry M name l) id deleted purge]> mg) d'.
Proof.
  intros Hr Hl Hne Hs Hel Hg. apply (mirrors_at name m mg d); [done| | |done| | |].
  - intros n Hn. by apply lookup_delete_ne.
  - intros n Hn. by apply lookup_insert_ne.
  - intros n Hn. rewrite Hg. by apply lookup_insert_ne.
  - exists []. split; [apply timeline_nil|]. split; [done|]. apply lookup_delete_eq.
  - unfold same_gone. rewrite Hg, lookup_insert_eq. eexists. split; [apply lookup_insert_eq|]. by exists l.
Qed.

(** One that purges a deleted name. *)
Lemma mirrors_purge name m mg d d' :
  mirrors m mg d → live k d' = live k d → gone k d' = delete name (gone k d) → mirrors m (delete name mg) d'.
Proof.
  intros Hr Hl Hg. apply (mirrors_at name m mg d); [done|done| | | | |].
  - intros n Hn. by apply lookup_delete_ne.
  - intros n v _. by rewrite Hl.
  - intros n Hn. rewrite Hg. by apply lookup_delete_ne.
  - eapply same_live_ext; [done| |apply Hr]. intros v. by rewrite Hl.
  - unfold same_gone. rewrite Hg, lookup_delete_eq. apply lookup_delete_eq.
Qed.

(** One that brings a deleted name back, or puts a backup in its place. *)
Lemma mirrors_recover name l m mg d d' :
  mirrors m mg d → timeline l → l ≠ [] → stored name d' l → elsewhere k name d d' →
  gone k d' = delete name (gone k d) →
  mirrors (<[name := mir_entry M name l]> m) (delete name mg) d'.
Proof.
  intros Hr Hl Hne Hs Hel Hg. apply (mirrors_at name m mg d); [done| | |done| | |].
  - intros n Hn. by apply lookup_insert_ne.
  - intros n Hn. by apply lookup_delete_ne.
  - intros n Hn. rewrite Hg. by apply lookup_delete_ne.
  - exists l. split; [done|]. split; [done|]. by rewrite lookup_insert_eq, entry_at_Some.
  - unfold same_gone. rewrite Hg, lookup_delete_eq. apply lookup_delete_eq.
Qed.

(** The names. *)
Lemma mirrors_live_names m mg d names :
  mirrors m mg d → NoDup names → StronglySorted String.le names →
  (∀ n, n ∈ names ↔ versions_of k n d ≠ []) → names = sorted_keys m.
Proof.
  intros Hr Hnd Hsort Hin. apply sorted_keys_unique; [done|done|]. intros n. rewrite Hin.
  destruct (mir_live m mg d Hr n) as (l & Hl & Hs & ->). rewrite <-(stored_nil_iff n d l) by done.
  destruct l as [|x l]; [split; [done|by intros []]|split; [by eexists|done]].
Qed.
Lemma mirrors_gone_names m mg d : mirrors m mg d → sorted_keys (gone k d) = sorted_keys mg.
Proof.
  intros Hr. apply sorted_keys_unique; [apply NoDup_sorted_keys|apply sort_Strings_sorted|]. intros n.
  rewrite elem_of_sorted_keys. pose proof (mir_gone m mg d Hr n) as Hg. unfold same_gone in Hg.
  destruct (gone k d !! n); [destruct Hg as (e & -> & _)|rewrite Hg]; by split; intros [].
Qed.

(** An empty database. *)
Lemma mirrors_empty d : live k d = ∅ → gone k d = ∅ → mirrors ∅ ∅ d.
Proof.
  intros Hl Hg. split; intros n.
  - exists []. split; [apply timeline_nil|]. split; [|by rewrite lookup_empty]. intros v r. rewrite Hl. split; [done|set_solver].
  - unfold same_gone. by rewrite Hg.
Qed.
End mirror.

(** ** Pages

    A page reads its names one by one, where the in-memory store looks them up. *)

Section pages.
Context {D : SqlEngine} {B : Type}.

Lemma run_page (g : string → SP B) (look : string → option B) page d :
  (∀ n, n ∈ page → ∃ x, look n = Some x ∧ run (g n) d = (Ok x, d)) →
  run (p_traverse g page) d = (Ok (omap look page), d).
Proof.
  induction page as [|n page IH]; intros Hpage; [done|]. destruct (Hpage n) as (x & Hx & Hrun); [by left|].
  cbn [p_traverse omap list_omap]. rewrite (run_bind_Ok _ _ _ _ _ Hrun), Hx.
  rewrite (run_bind_Ok _ _ _ _ _ (IH ltac:(intros; apply Hpage; by right))). done.
Qed.

Lemma run_page_traverse (g : string → SP B) (look : string → outcome error B) page d :
  (∀ n, n ∈ page → ∃ x, look n = Ok x ∧ run (g n) d = (Ok x, d)) →
  ∃ xs, o_traverse look page = Ok xs ∧ run (p_traverse g page) d = (Ok xs, d).
Proof.
  induction page as [|n page IH]; intros Hpage; [by exists []|]. destruct (Hpage n) as (x & Hx & Hrun); [by left|].
  destruct IH as (xs & Hxs & Hruns); [intros; apply Hpage; by right|]. exists (x :: xs).
  cbn [p_traverse o_traverse]. by rewrite Hx, Hxs, (run_bind_Ok _ _ _ _ _ Hrun), (run_bind_Ok _ _ _ _ _ Hruns).
Qed.
End pages.
