(* ===== verification/SqlTimeline.v ===== *)
(** * The SQL store: the timelines of secrets

    The rows of [kv_secrets] as an instance of [Rows], and what the queries and
    statements of the secrets do to them, on an engine that does not fail. *)

From S2P Require Import Prelude GoStrings GoUtf8 GoJson GoSql Model StoreCore SecretStore SecretBackup SqlSchema SqlCore SqlSecrets SqlFacts SqlRows.

Notation snapshot := secretVersionSnapshot.

#[export] Instance secret_rows : Rows Secrets snapshot :=
  Build_Rows Secrets snapshot ss_Version ss_CreatedAt
    (λ s, [VText (ss_Value s); VText (ss_ContentType s); VText (marshal (json_of_attributes (ss_Attributes s)));
       VText (marshal (enc_string_map (ss_Tags s)))])
    snapshot_ok (λ _, ltac:(by repeat constructor)).

Section answers.
Context `{JE : JsonErrors} (f : DBFlavor) {D : SqlEngine} {T : SqlTables D} {HL : SqlLaws f T} {HR : SqlReliable f T}.

Lemma run_checkNotDeleted name d :
  run (checkNotDeleted f "kv_deleted_secrets" name "Secret") d =
    (if decide (is_Some (gone Secrets d !! name))
     then Err (newError StatusConflict "InvalidOperation"
       ("Secret " ++ name ++ " is currently deleted and cannot be reused until recovered or purged.")%string)
     else Ok (), d).
Proof. apply (run_checkNotDeleted_of f Secrets name "Secret"). Qed.

Lemma decoded_columns s :
  snapshot_ok s →
  unmarshalAttrs (marshal (json_of_attributes (ss_Attributes s))) = Ok (ss_Attributes s) ∧
  unmarshalTags (marshal (enc_string_map (ss_Tags s))) = Ok (ss_Tags s).
Proof.
  intros (_ & _ & _ & Ha & Ht & _). split.
  - destruct (unmarshalAttrs_total _ (proj1 Ha)) as (a & -> & Heq). by rewrite Heq.
  - destruct (unmarshalTags_total (ss_Tags s)) as (t & -> & Heq). by rewrite Heq.
Qed.

Lemma read_row name s : snapshot_ok s →
  ∃ c, scan_five_texts (project Secrets (version_columns Secrets) (row_of s)) = Ok c ∧
    secret_of_columns name c = Ok (snapshot_record name s).
Proof.
  intros Hs. eexists. split; [reflexivity|]. unfold secret_of_columns, snapshot_record.
  destruct (decoded_columns s Hs) as [-> ->]. cbn [o_bind]. unfold SqlCore.cloneTags. by rewrite cloneTags_id.
Qed.

Lemma run_getSecretVersionRow name version d l :
  timeline l → stored name d l →
  run (getSecretVersionRow f name version) d =
    (match find_snapshot l version with Some (_, s) => Ok (snapshot_record name s) | None => Err (secret_missing name) end, d).
Proof.
  intros Hl Hs. apply (run_read_version f (R:=secret_rows)); [sent|sent| |done..].
  intros s Hok. destruct (read_row name s Hok) as (c & Hc & Hr). exists c. split; [exact Hc|]. by rewrite Hr.
Qed.

Lemma scan_snapshot_row s : snapshot_ok s →
  scan_secret_snapshot (project Secrets (version_columns Secrets ++ ["created_at"%string]) (row_of s)) = Ok s.
Proof.
  intros Hok. destruct (decoded_columns s Hok) as [Ha Ht].
  trans (let! attrs := unmarshalAttrs (marshal (json_of_attributes (ss_Attributes s))) in
    let! tags := unmarshalTags (marshal (enc_string_map (ss_Tags s))) in
    Ok (mkSecretSnapshot (ss_Version s) (ss_Value s) (ss_ContentType s) attrs tags (ss_CreatedAt s)) : outcome error snapshot);
    [reflexivity|].
  rewrite Ha. cbn [o_bind]. rewrite Ht. by destruct s.
Qed.

(** What the list of versions shows of one. *)
Definition listed_record (name : string) (s : snapshot) : SecretRecord := blank_value (snapshot_record name s).

Lemma scan_listed_row name s : snapshot_ok s →
  scan_listed_secret name (project Secrets (listed_columns Secrets) (row_of s)) = Ok (listed_record name s).
Proof.
  intros Hok. destruct (decoded_columns s Hok) as [Ha Ht].
  trans (let! attrs := unmarshalAttrs (marshal (json_of_attributes (ss_Attributes s))) in
    let! tags := unmarshalTags (marshal (enc_string_map (ss_Tags s))) in
    Ok (mkSecretRecord name (ss_Version s) "" (ss_ContentType s) attrs tags) : outcome error SecretRecord);
    [reflexivity|].
  rewrite Ha. cbn [o_bind]. rewrite Ht. unfold listed_record, blank_value, snapshot_record, SqlCore.cloneTags.
  cbn. by rewrite cloneTags_id.
Qed.

(** The rows of ORDER BY created_at ASC, scanned. *)
Lemma scan_snapshots name d l rows :
  timeline l → stored name d l →
  answers (Versions Secrets (version_columns Secrets ++ ["created_at"%string]) false) [VText name] d rows →
  o_traverse scan_secret_snapshot rows = Ok l.
Proof. intros Hl Hs. apply (traverse_oldest_first (R:=secret_rows)); [apply scan_snapshot_row|done..]. Qed.

Lemma run_allSecretVersionSnapshots name d l :
  timeline l → stored name d l → run (allSecretVersionSnapshots f name) d = (Ok l, d).
Proof. intros Hl Hs. eapply (run_oldest_first f (R:=secret_rows)); [|apply scan_snapshot_row|done..]. sent. Qed.

Lemma run_listed_versions q name d l :
  asks f q (Versions Secrets (listed_columns Secrets) true) → timeline l → stored name d l →
  run (query_rows db_error q [VText name] (scan_listed_secret name)) d = (Ok (listed_record name <$> reverse l), d).
Proof. intros Hq Hl Hs. eapply (run_newest_first f (R:=secret_rows)); [exact Hq|apply scan_listed_row|done..]. Qed.

(** ** Statements *)

Definition snapshot_of (rec : SecretRecord) (ts : Z) : snapshot :=
  mkSecretSnapshot (sr_Version rec) (sr_Value rec) (sr_ContentType rec) (sr_Attributes rec) (sr_Tags rec) ts.

Lemma run_insertSecretRow rec ts d l :
  stored (sr_Name rec) d l → sr_Version rec ∉ ss_Version <$> l →
  ∃ d', run (insertSecretRow f rec ts) d = (Ok (), d') ∧ stored (sr_Name rec) d' (l ++ [snapshot_of rec ts]) ∧
    elsewhere Secrets (sr_Name rec) d d' ∧ gone Secrets d' = gone Secrets d.
Proof.
  intros Hs Hnew. unfold insertSecretRow. cbn [p_bind marshalAttrs marshalTags].
  lazymatch goal with |- context [db_Exec ?q _] =>
    apply (run_insert_row f (R:=secret_rows) q (sr_Name rec) (snapshot_of rec ts) d l); [sent|done..] end.
Qed.

Lemma run_insertSecretRows {A} name (rec : A → SecretRecord) (ts : A → Z) (xs : list A) d l :
  (∀ x, sr_Name (rec x) = name) → stored name d l →
  NoDup (ss_Version <$> l ++ ((λ x, snapshot_of (rec x) (ts x)) <$> xs)) →
  ∃ d', run (p_iter (λ x, insertSecretRow f (rec x) (ts x)) xs) d = (Ok (), d') ∧
    stored name d' (l ++ ((λ x, snapshot_of (rec x) (ts x)) <$> xs)) ∧ elsewhere Secrets name d d' ∧
    gone Secrets d' = gone Secrets d.
Proof.
  intros Hname. apply (run_insert_rows (R:=secret_rows) name). intros x d1 l1 _ Hs Hn. pose proof (run_insertSecretRow (rec x) (ts x) d1 l1) as H.
  rewrite Hname in H. by apply H.
Qed.

Lemma run_update_secret q rec d l i s :
  sends f q (Update Secrets ["content_type"; "attributes"; "tags"]%string) →
  timeline l → stored (sr_Name rec) d l → l !! i = Some s → sr_Version rec = ss_Version s → sr_Value rec = ss_Value s →
  ∃ d', run (db_Exec q [VText (sr_ContentType rec); VText (marshal (json_of_attributes (sr_Attributes rec)));
      VText (marshal (enc_string_map (sr_Tags rec))); VText (sr_Name rec); VText (sr_Version rec)]) d = (Ok (), d') ∧
    stored (sr_Name rec) d' (<[i := snapshot_of rec (ss_CreatedAt s)]> l) ∧ elsewhere Secrets (sr_Name rec) d d' ∧
    gone Secrets d' = gone Secrets d.
Proof.
  intros Hq Hl Hs Hi Hv Hval. rewrite Hv.
  apply (run_update_row f (R:=secret_rows) q _ [VText (sr_ContentType rec); VText (marshal (json_of_attributes (sr_Attributes rec)));
      VText (marshal (enc_string_map (sr_Tags rec)))] (sr_Name rec) d l i s (snapshot_of rec (ss_CreatedAt s)) Hq); try done; [by repeat constructor|].
  cbn. by rewrite Hval.
Qed.

Lemma run_getDeletedSecretRow name d :
  run (getDeletedSecretRow f name) d =
    (match gone Secrets d !! name with
     | Some g => Ok (mkDeletedRow name (g_recovery_id g) (g_deleted g) (g_purge g) (g_versions g))
     | None => Err (deleted_secret_missing name)
     end, d).
Proof. apply (run_deleted_row f _ Secrets). sent. Qed.
End answers.
