(* ===== verification/SqlKeyFacts.v ===== *)
(** * The SQL store: a key comes back from its row

    JSON web keys and key material are columns of text; what a created key
    wrote there is read back, so that the key that is used is the key that was
    made. *)

From S2P Require Import Prelude GoStrings GoUtf8 GoBase64 GoJson JsonFacts GoCrypto GoX509 GoSql Model KeyCrypto StoreCore SecretBackup KeyStore HttpJson SqlSchema SqlCore SqlSecrets SqlKeys SqlFacts SqlRows SqlTimeline Toy ToyX509 ToySql.

(** ** JSON web keys *)

Definition jwk_fields (k : JSONWebKey) : list (string * string) :=
  [("n", jwk_N k); ("e", jwk_E k); ("d", jwk_D k); ("p", jwk_P k); ("q", jwk_Q k); ("dp", jwk_DP k); ("dq", jwk_DQ k);
   ("qi", jwk_QI k); ("crv", jwk_Crv k); ("x", jwk_X k); ("y", jwk_Y k); ("k", jwk_K k)]%string.
Definition jwk_head (k : JSONWebKey) : list (string * string) := [("kid", jwk_Kid k); ("kty", jwk_Kty k)]%string.

Definition jwk_text (k : JSONWebKey) : Prop :=
  Forall (λ p, utf8_valid p.2 = true) (jwk_head k ++ jwk_fields k) ∧ Forall (λ s, utf8_valid s = true) (jwk_KeyOps k).

Definition jwk_decoders : fields raw_jwk :=
  field "key_ops" snd (λ v r, (r.1, v)) dec_strings ::
  map (λ n, field n (λ r : raw_jwk, default ""%string (r.1 !! n)) (λ v r, (<[n := v]> r.1, r.2)) dec_string)
    jwk_string_fields.

Definition str_fields (l : list (string * string)) : list (string * json) := concat (map (λ p, str_field p.1 p.2) l).

Lemma json_of_JSONWebKey_fields k :
  json_of_JSONWebKey k = JObj (str_fields (jwk_head k) ++ strings_field "key_ops" (jwk_KeyOps k) ++ str_fields (jwk_fields k)).
Proof. unfold json_of_JSONWebKey, str_fields, jwk_head, jwk_fields. cbn [map concat fst snd]. by rewrite <-!(assoc_L (++)), !app_nil_r. Qed.

Lemma find_jwk_field n : n ∈ jwk_string_fields →
  utf8_coerce n = n ∧ find_field jwk_decoders n =
    Some (field n (λ r : raw_jwk, default ""%string (r.1 !! n)) (λ v r, (<[n := v]> r.1, r.2)) dec_string).2.
Proof.
  intros Hn. apply list_elem_of_In in Hn. cbn in Hn. destruct_or! Hn; try done; subst n; split; reflexivity.
Qed.

(** The string fields of an object, decoded in the order they were written. *)
Lemma fold_str_fields l ops : ∀ m : gmap string string,
  Forall (λ p, p.1 ∈ jwk_string_fields ∧ utf8_valid p.2 = true) l → NoDup l.*1 → Forall (λ p, m !! p.1 = None) l →
  ∃ m', foldl (struct_step jwk_decoders) (Some (m, ops)) (map coerce_member (str_fields l)) = Some (m', ops) ∧
    (∀ n, n ∉ l.*1 → m' !! n = m !! n) ∧ Forall (λ p, default ""%string (m' !! p.1) = p.2) l.
Proof.
  induction l as [|[n v] l IH]; intros m Hl Hnd Hm; [by exists m|].
  apply Forall_cons in Hl as [[Hn Hv] Hl]. apply Forall_cons in Hm as [Hmn Hm].
  apply NoDup_cons in Hnd as [Hni Hnd]. cbn [fst snd] in *.
  set (m1 := if bool_decide (v = ""%string) then m else <[n := v]> m).
  assert (foldl (struct_step jwk_decoders) (Some (m, ops)) (map coerce_member (str_field n v)) = Some (m1, ops)) as Hstep.
  { destruct (find_jwk_field n Hn) as [Hc Hf]. unfold str_field, m1. eapply step_omitempty; [done|exact Hf| |].
    - by intros ->.
    - intros ->. cbn. by rewrite utf8_coerce_valid. }
  assert (m1 !! n = if bool_decide (v = ""%string) then None else Some v) as Hm1.
  { unfold m1. case_bool_decide; [done|apply lookup_insert_eq]. }
  assert (∀ n', n' ≠ n → m1 !! n' = m !! n') as Hother.
  { intros n' Hne. unfold m1. case_bool_decide; [done|]. by apply lookup_insert_ne. }
  destruct (IH m1 Hl Hnd) as (m' & Hfold & Hout & Hin).
  { rewrite Forall_forall in Hm |- *. intros [n' v'] Hp. cbn. rewrite Hother; [by apply (Hm _ Hp)|].
    intros ->. apply Hni. apply list_elem_of_fmap. by exists (n, v'). }
  exists m'. split; [|split].
  - unfold str_fields. cbn [map concat]. rewrite map_app, foldl_app. cbn [fst snd]. rewrite Hstep. exact Hfold.
  - intros n'. cbn. rewrite not_elem_of_cons. intros [Hne Hnot]. rewrite Hout by done. by apply Hother.
  - constructor; [|done]. cbn. rewrite Hout, Hm1 by done. by case_bool_decide.
Qed.

Lemma dec_strings_ops l :
  Forall (λ s, utf8_valid s = true) l →
  foldl (struct_step jwk_decoders) (Some (∅, None)) [] = Some (∅ : gmap string string, None) ∧
  ∀ m : gmap string string, ∃ ops,
    foldl (struct_step jwk_decoders) (Some (m, None)) (map coerce_member (strings_field "key_ops" l)) = Some (m, ops) ∧
    strings_of ops = l.
Proof.
  intros Hl. split; [done|]. intros m. unfold strings_field. destruct l as [|s l]; [by exists None|].
  rewrite bool_decide_false by done. exists (Some (length (s :: l), s :: l)). split; [|by cbn; rewrite firstn_all].
  cbn [omitempty map foldl]. unfold coerce_member. cbn [fst snd json_coerce].
  assert (dec_elems ""%string dec_string [] (map json_coerce (map JStr (s :: l))) = Some (s :: l)) as Hel.
  { generalize (s :: l) Hl. intros l' Hl'. induction Hl' as [|x l' Hx _ IH]; [done|].
    cbn [map dec_elems json_coerce dec_string hd tail]. rewrite IH. cbn. by rewrite utf8_coerce_valid. }
  pose proof (dec_slice_fresh ""%string dec_string _ (s :: l) ltac:(done) Hel) as Hsl.
  cbn [map] in Hsl |- *. revert Hsl. generalize (json_coerce (JStr s) :: map json_coerce (map JStr l)). intros js Hsl.
  change (struct_step jwk_decoders (Some (m, None)) (utf8_coerce "key_ops", JArr js)) with
    ((λ v, (m, v)) <$> (Some <$> dec_slice ""%string dec_string (0%nat, []) (JArr js))). by rewrite Hsl.
Qed.

Lemma json_fields_shape l :
  foldr (λ m P, json_integral m.2 ∧ P) True (str_fields l) ∧ foldr (λ m h, Z.max (json_height m.2) h) 0 (str_fields l) = 0.
Proof.
  induction l as [|[n v] l [Hi Hh]]; [done|]. unfold str_fields in *. cbn [map concat fst snd]. unfold str_field at 1 3.
  destruct (bool_decide (v = ""%string)); cbn [omitempty app foldr]; [done|]. cbn. split; [done|]. by rewrite Hh.
Qed.

Lemma json_strings_shape name l :
  foldr (λ m P, json_integral m.2 ∧ P) True (strings_field name l) ∧
  0 ≤ foldr (λ m h, Z.max (json_height m.2) h) 0 (strings_field name l) ≤ 1.
Proof.
  unfold strings_field. destruct (bool_decide (l = [])); cbn [omitempty foldr snd]; [done|].
  assert (json_integral (JArr (map JStr l)) ∧ json_height (JArr (map JStr l)) = 1) as [Hi Hh].
  { cbn [json_integral json_height]. induction l as [|s l [Hi Hh]]; [done|]. cbn [map foldr json_integral json_height].
    split; [done|lia]. }
  split; [done|lia].
Qed.

Lemma json_of_JSONWebKey_shape k :
  json_integral (json_of_JSONWebKey k) ∧ 1 ≤ json_height (json_of_JSONWebKey k) ≤ 2.
Proof.
  rewrite json_of_JSONWebKey_fields. cbn [json_integral json_height].
  destruct (json_fields_shape (jwk_head k)) as [H1 H2], (json_fields_shape (jwk_fields k)) as [H3 H4],
    (json_strings_shape "key_ops" (jwk_KeyOps k)) as [H5 H6].
  assert (∀ a b : list (string * json),
    foldr (λ m P, json_integral m.2 ∧ P) True a → foldr (λ m P, json_integral m.2 ∧ P) True b →
    foldr (λ m P, json_integral m.2 ∧ P) True (a ++ b)) as Happ.
  { intros a b Ha Hb. induction a as [|x a IH]; [done|]. destruct Ha. split; [done|]. by apply IH. }
  assert (∀ a b : list (string * json), 0 ≤ foldr (λ m h, Z.max (json_height m.2) h) 0 b →
    foldr (λ m h, Z.max (json_height m.2) h) 0 (a ++ b) =
    Z.max (foldr (λ m h, Z.max (json_height m.2) h) 0 a) (foldr (λ m h, Z.max (json_height m.2) h) 0 b)) as Hmax.
  { intros a b Hb. induction a as [|x a IH]; cbn [foldr app]; [lia|]. rewrite IH. lia. }
  split; [apply Happ; [done|by apply Happ]|]. rewrite Hmax; rewrite Hmax; lia.
Qed.

(** A JSON web key decodes to itself. *)
Lemma dec_raw_jwk_coerce k : jwk_text k →
  ∃ r, dec_raw_jwk (∅, None) (json_coerce (json_of_JSONWebKey k)) = Some r ∧ jwk_of_raw r = k.
Proof.
  intros [Hf Ho].
  apply Forall_app in Hf as [Hhead Hfields].
  destruct (fold_str_fields (jwk_head k) None ∅) as (m1 & Hm1 & Hout1 & Hin1).
  { rewrite Forall_forall in Hhead |- *. intros p Hp. split; [|by apply Hhead].
    apply list_elem_of_In in Hp. destruct Hp as [<-|[<-|[]]]; apply list_elem_of_In; cbn; tauto. }
  { apply (bool_decide_unpack _). vm_compute. exact I. }
  { apply Forall_forall. intros p _. apply lookup_empty. }
  destruct (dec_strings_ops (jwk_KeyOps k) Ho) as [_ Hops]. destruct (Hops m1) as (ops & Hfold & Hstr).
  destruct (fold_str_fields (jwk_fields k) ops m1) as (m2 & Hm2 & Hout2 & Hin2).
  { rewrite Forall_forall in Hfields |- *. intros p Hp. split; [|by apply Hfields].
    apply list_elem_of_In in Hp. cbn in Hp. apply list_elem_of_In. destruct_or! Hp; try done; subst p; cbn; tauto. }
  { apply (bool_decide_unpack _). vm_compute. exact I. }
  { apply Forall_forall. intros p Hp. rewrite Hout1; [apply lookup_empty|].
    apply list_elem_of_In in Hp. cbn in Hp. cbn. rewrite !not_elem_of_cons.
    destruct_or! Hp; try done; subst p; cbn; split_and!; try done; apply not_elem_of_nil. }
  exists (m2, ops). split.
  { rewrite json_of_JSONWebKey_fields. change dec_raw_jwk with (dec_struct jwk_decoders). rewrite dec_struct_obj, !map_app, !foldl_app.
    etrans; [exact (f_equal (λ r, foldl (struct_step jwk_decoders) (foldl (struct_step jwk_decoders) r
      (map coerce_member (strings_field "key_ops" (jwk_KeyOps k)))) (map coerce_member (str_fields (jwk_fields k)))) Hm1)|].
    etrans; [exact (f_equal (λ r, foldl (struct_step jwk_decoders) r (map coerce_member (str_fields (jwk_fields k)))) Hfold)|].
    exact Hm2. }
  unfold jwk_of_raw. cbn [fst snd]. rewrite Hstr.
  assert (∀ n v, (n, v) ∈ jwk_fields k → default ""%string (m2 !! n) = v) as Hget.
  { intros n v Hin. by apply (proj1 (Forall_forall _ _) Hin2 (n, v)). }
  assert (∀ n v, (n, v) ∈ jwk_head k → default ""%string (m2 !! n) = v) as Hget1.
  { intros n v Hin. rewrite Hout2; [by apply (proj1 (Forall_forall _ _) Hin1 (n, v))|].
    apply list_elem_of_In in Hin. cbn in Hin. destruct_or! Hin; try done; injection Hin as <- <-;
      apply (bool_decide_unpack _); vm_compute; exact I. }
  destruct k as [kid kty kops n e d p q dp dq qi crv x y kk]. cbn in Hget, Hget1.
  f_equal; try done; first [apply Hget1; apply list_elem_of_In; cbn; solve [tauto]
    |apply Hget; apply list_elem_of_In; cbn; solve [tauto]].
Qed.

(** The row's JSON web key is the one that was written. *)
Lemma unmarshalJWK_marshal `{JE : JsonErrors} k : jwk_text k → unmarshalJWK (marshal (json_of_JSONWebKey k)) = Ok k.
Proof.
  intros Hk. destruct (json_of_JSONWebKey_shape k) as [Hi Hh]. destruct (dec_raw_jwk_coerce k Hk) as (r & Hr & Hjwk).
  apply unmarshal_marshal; [done|unfold maxNestingDepth; lia|]. unfold jwk_json. rewrite Hr. cbn. by rewrite Hjwk.
Qed.

(** ** The text of an object of ASCII texts *)

Notation is_ascii := (Forall (λ b : byte, bval b < 128)).

Lemma json_escape_ascii b : bval b < 128 → is_ascii (json_escape b).
Proof.
  intros Hb. pose proof (bval_range b). unfold json_escape. repeat case_decide;
    lazymatch goal with
    | |- is_ascii [b] => by repeat constructor
    | |- is_ascii [_; b] => constructor; [by vm_compute|by repeat constructor]
    | |- is_ascii (_ ++ _) => do 4 (constructor; [by vm_compute|]); repeat constructor; apply hex_digit_ascii
    | _ => apply (bool_decide_unpack _); vm_compute; exact I
    end.
  - split; [apply Z.div_pos; lia|apply Z.div_lt_upper_bound; lia].
  - apply Z.mod_pos_bound. lia.
Qed.
Lemma json_string_ascii n l : is_ascii l → is_ascii (json_string_go n l).
Proof.
  revert l. induction n as [|n IH]; intros l Hl; [constructor|]. destruct Hl as [|b l Hb Hl]; [constructor|].
  cbn [json_string_go]. rewrite decide_True by done. apply Forall_app. split; [by apply json_escape_ascii|by apply IH].
Qed.
Lemma json_print_string_ascii s : is_ascii (to_bytes s) → is_ascii (json_print_string s).
Proof.
  intros Hs. unfold json_print_string. apply Forall_app. split; [by repeat constructor|].
  apply Forall_app. split; [by apply json_string_ascii|by repeat constructor].
Qed.
Lemma json_join_ascii c ps : bval c < 128 → Forall is_ascii ps → is_ascii (json_join c ps).
Proof.
  intros Hc. induction 1 as [|p ps Hp Hps IH]; [by repeat constructor|]. cbn [json_join].
  destruct ps as [|p2 ps]; [by apply Forall_app; split; [|repeat constructor]|].
  apply Forall_app. split; [done|]. constructor; [by vm_compute|exact IH].
Qed.
Lemma str_fields_ascii l : Forall (λ p, is_ascii (to_bytes p.1) ∧ is_ascii (to_bytes p.2)) l →
  utf8_valid (marshal (JObj (str_fields l))) = true.
Proof.
  intros Hl. apply utf8_valid_ascii. unfold marshal. rewrite to_of_bytes. cbn [json_print].
  constructor; [by vm_compute|]. apply json_join_ascii; [by vm_compute|].
  induction Hl as [|[n v] l [Hn Hv] _ IH]; [constructor|]. unfold str_fields in *. cbn [map concat fst snd] in *.
  rewrite map_app. apply Forall_app. split; [|exact IH]. unfold str_field. destruct (bool_decide _); [constructor|].
  constructor; [|constructor]. cbn [fst snd json_print]. apply Forall_app. split; [by apply json_print_string_ascii|].
  constructor; [by vm_compute|by apply json_print_string_ascii].
Qed.

(** ** Key material *)

Lemma json_fields_ok l : json_integral (JObj (str_fields l)) ∧ json_height (JObj (str_fields l)) ≤ maxNestingDepth.
Proof. destruct (json_fields_shape l) as [Hi Hh]. cbn [json_integral json_height]. rewrite Hh. by unfold maxNestingDepth. Qed.

Definition serialized_fields (s : serializedKeyMaterial) : list (string * string) :=
  [("rsa_priv", skm_RSAPriv s); ("rsa_pub", skm_RSAPub s); ("ec_priv", skm_ECPriv s); ("ec_pub", skm_ECPub s);
   ("aes", skm_AES s)]%string.

(** The next member of an object whose empty texts are left out. *)
Ltac step_text name v r :=
  erewrite (step_omitempty _ _ _ name (JStr v) _ r);
  [|done|reflexivity|by intros ->%bool_decide_eq_true|by intros _; cbn; rewrite utf8_coerce_valid].

Lemma json_of_serialized_fields s : json_of_serialized s = JObj (str_fields (serialized_fields s)).
Proof. unfold json_of_serialized, str_fields. cbn [serialized_fields map concat fst snd]. by rewrite !app_nil_r. Qed.

Lemma unmarshal_serialized `{JE : JsonErrors} s : Forall (λ p, utf8_valid p.2 = true) (serialized_fields s) →
  unmarshal "sqlstore.serializedKeyMaterial" (dec_serialized zero_serialized) (marshal (json_of_serialized s)) = Ok s.
Proof.
  intros Hs. pose proof (json_of_serialized_fields s) as Hj.
  destruct (json_fields_ok (serialized_fields s)) as [Hi Hh].
  rewrite Hj. apply unmarshal_marshal; [done|done|]. rewrite <-Hj.
  destruct s as [a b c d e]. repeat setoid_rewrite Forall_cons in Hs. destruct Hs as (Ha & Hb & Hc & Hd & He & _).
  cbn [snd] in *. unfold dec_serialized, json_of_serialized. cbn [skm_RSAPriv skm_RSAPub skm_ECPriv skm_ECPub skm_AES].
  rewrite dec_struct_obj, !map_app, !foldl_app. unfold str_field.
  step_text "rsa_priv"%string a (mkSerialized a "" "" "" ""). step_text "rsa_pub"%string b (mkSerialized a b "" "" "").
  step_text "ec_priv"%string c (mkSerialized a b c "" ""). step_text "ec_pub"%string d (mkSerialized a b c d "").
  by step_text "aes"%string e (mkSerialized a b c d e).
Qed.

Section material.
Context `{JE : JsonErrors} `{X : CertLib} `{KD : KeyDer} `{L : PublicKeyLib}.
Context {XL : CertLaws L X} {KL : KeyDerLaws L KD}.

Lemma base64_text_utf8 der : utf8_valid (base64_text der) = true.
Proof. apply utf8_valid_ascii, b64_text_ascii. by left. Qed.
Lemma base64_data_text der : base64_data (base64_text der) = Ok der.
Proof. unfold base64_data, base64_text. by rewrite (b64_round_trip StdEncoding). Qed.
Lemma base64_text_nonempty der : der ≠ [] → base64_text der ≠ ""%string.
Proof. apply b64_EncodeToString_nonempty. Qed.

(** Material that its row keeps: each part that is there parses back. *)
Definition material_kept (m : KeyMaterial) : Prop :=
  ∃ s, serializeKeyMaterial m = Ok s ∧ deserializeKeyMaterial s = Ok m.

Lemma rsa_material_kept e n k : rsa_GenerateKey e n = Ok k →
  material_kept (mkKeyMaterial (Some k) None None (Some (rsa_Public k)) None).
Proof.
  intros Hk. eexists. split; [reflexivity|]. cbn [km_RSA km_RSAPub km_ECDSA km_ECDSAPub km_AES fst snd].
  unfold deserializeKeyMaterial. rewrite unmarshal_serialized by (repeat constructor; try done; apply base64_text_utf8).
  pose proof (x509_PKCS1_round_trip e n k Hk) as Hpk. cbn [o_bind skm_RSAPriv].
  rewrite decide_True, base64_data_text; [cbn [o_bind]; by rewrite Hpk|].
  apply base64_text_nonempty. intros Hnil. rewrite Hnil in Hpk. by apply x509_PKCS1_empty in Hpk.
Qed.

Lemma ec_material_kept c e k : ecdsa_GenerateKey c e = Ok k →
  material_kept (mkKeyMaterial None (Some k) None None (Some (ec_Public k))).
Proof.
  intros Hk. destruct (x509_EC_generated c e k Hk) as (der & Hder & Hpk).
  destruct (x509_PKIX_generated c e k Hk) as (der2 & Hder2 & _).
  eexists. split; [unfold serializeKeyMaterial; cbn [km_ECDSA]; rewrite Hder; cbn [returned o_maperr o_bind]; rewrite Hder2; reflexivity|].
  cbn [km_RSA km_RSAPub km_ECDSAPub km_AES fst snd].
  unfold deserializeKeyMaterial. rewrite unmarshal_serialized by (repeat constructor; try done; apply base64_text_utf8).
  cbn [o_bind skm_RSAPriv skm_RSAPub skm_ECPriv]. rewrite !(decide_False (P := ""%string ≠ ""%string)) by (by intros []).
  cbn [o_bind]. rewrite decide_True, base64_data_text; [cbn [o_bind]; by rewrite Hpk|].
  apply base64_text_nonempty. intros ->. by apply x509_EC_empty in Hpk.
Qed.

Lemma aes_material_kept key : key ≠ [] → material_kept (mkKeyMaterial None None (Some key) None None).
Proof.
  intros Hne. eexists. split; [reflexivity|]. cbn [km_RSA km_RSAPub km_ECDSA km_ECDSAPub km_AES fst snd].
  unfold deserializeKeyMaterial. rewrite unmarshal_serialized by (repeat constructor; try done; apply base64_text_utf8).
  cbn [o_bind skm_RSAPriv skm_RSAPub skm_ECPriv skm_ECPub skm_AES].
  rewrite !(decide_False (P := ""%string ≠ ""%string)) by (by intros []). cbn [o_bind].
  rewrite decide_True, base64_data_text; [done|by apply base64_text_nonempty].
Qed.

Lemma RSAToJWK_text kty ops pub : utf8_valid kty = true → Forall (λ s, utf8_valid s = true) ops → jwk_text (RSAToJWK "" kty ops pub).
Proof. intros Hk Ho. split; [|done]. repeat constructor; try done; apply utf8_valid_ascii, b64_text_ascii; by right; left. Qed.
Lemma ECDSAToJWK_text kty ops crv pub : utf8_valid kty = true → utf8_valid crv = true →
  Forall (λ s, utf8_valid s = true) ops → jwk_text (ECDSAToJWK "" kty ops crv pub).
Proof. intros Hk Hc Ho. split; [|done]. repeat constructor; try done; apply utf8_valid_ascii, b64_text_ascii; by right; left. Qed.

Lemma serialized_utf8 m s : serializeKeyMaterial m = Ok s → utf8_valid s = true.
Proof.
  assert (∀ der, is_ascii (to_bytes (base64_text der))) as Ht by (intros der; apply b64_text_ascii; by left).
  unfold serializeKeyMaterial. intros Hs.
  set (rsa := match km_RSA m, km_RSAPub m with Some _, _ => _ | _, _ => _ end) in Hs.
  assert (is_ascii (to_bytes rsa.1) ∧ is_ascii (to_bytes rsa.2)) as [H1 H2]
    by (unfold rsa; destruct (km_RSA m), (km_RSAPub m); cbn [fst snd]; split; first [apply Ht|constructor]).
  set (aes := match km_AES m with Some _ => _ | None => _ end) in Hs.
  assert (is_ascii (to_bytes aes)) as H3 by (unfold aes; destruct (km_AES m); [apply Ht|constructor]).
  apply o_bind_Ok in Hs as (ec & Hec & [= <-]).
  assert (is_ascii (to_bytes ec.1) ∧ is_ascii (to_bytes ec.2)) as [H4 H5].
  { destruct (km_ECDSA m), (km_ECDSAPub m); repeat (apply o_bind_Ok in Hec as (? & _ & Hec)); injection Hec as <-;
      cbn [fst snd]; split; first [apply Ht|constructor]. }
  rewrite json_of_serialized_fields. apply str_fields_ascii.
  repeat constructor; cbn [fst snd skm_RSAPriv skm_RSAPub skm_ECPriv skm_ECPub skm_AES];
    first [done|apply (bool_decide_unpack _); vm_compute; exact I].
Qed.

(** A generated key can be written and read. *)
Lemma generated_kept e i kty keySize crv ops m k :
  GenerateKey e i kty keySize crv "" ops = Ok (m, k) → Forall (λ s, utf8_valid s = true) ops →
  material_kept m ∧ jwk_text k.
Proof.
  intros Hg Hops. unfold GenerateKey in Hg.
  assert (∀ l, kty ∈ l → Forall (λ s, utf8_valid s = true) l → utf8_valid kty = true) as Hkty
    by (intros l Hin Hl; by eapply Forall_forall in Hl).
  case_decide as Hr; [|case_decide as He; [|case_decide as Ho; [|done]]].
  - apply o_bind_Ok in Hg as (priv & Hp & [= <- <-]). split; [by eapply rsa_material_kept|].
    apply RSAToJWK_text; [by eapply Hkty; [exact Hr|repeat constructor]|done].
  - apply o_bind_Ok in Hg as ([c rc] & Hc & Hg). apply o_bind_Ok in Hg as (priv & Hp & [= <- <-]).
    split; [by eapply ec_material_kept|].
    apply ECDSAToJWK_text; [by eapply Hkty; [exact He|repeat constructor]| |done].
    unfold resolveCurve in Hc. repeat case_decide; try done; by injection Hc as <- <-.
  - case_decide as Hm; [done|]. apply o_bind_Ok in Hg as (n & Hn & Hg). apply o_bind_Ok in Hg as (buf & Hb & [= <- <-]).
    apply length_rand_Read in Hb. split.
    + apply aes_material_kept. intros ->. cbn in Hb. subst n. unfold make_len in Hn. case_decide as Hl; [|done].
      injection Hn as Hn. revert Hm Hl Hn. set (size := if decide (keySize = 0) then 256 else keySize).
      assert (size ≠ 0) by (unfold size; case_decide; lia). intros Hm Hl Hn.
      pose proof (Z.quot_rem' size 8). lia.
    + split; [|done]. repeat constructor; try done. cbn. by eapply Hkty; [exact Ho|repeat constructor].
Qed.
End material.

(** ** The row of a created key *)

Section row.
Context `{JE : JsonErrors} `{X : CertLib} `{KD : KeyDer} `{C : BlockCipher} `{L : PublicKeyLib}.
Context {XL : CertLaws L X} {KL : KeyDerLaws L KD}.
Context (f : DBFlavor) {D : SqlEngine} {T : SqlTables D} {HL : SqlLaws f T}.

Lemma run_exec_effect q s args d d' : sends f q s → run (db_Exec q args) d = (Ok (), d') → effect s args d d'.
Proof.
  intros Hq. cbn [db_Exec exec run]. destruct (sql_Exec q args d) as [o d1] eqn:Ho. cbn [fst snd].
  destruct o as [[]| |]; cbn [o_maperr]; try done. intros [= <-]. by apply (exec_ok (f:=f) q).
Qed.

Definition key_columns (rec : KeyRecord) (mat : string) : list value :=
  [VText (marshal (json_of_JSONWebKey (kr_Key rec))); VText mat; VText (marshal (json_of_attributes (kr_Attributes rec)));
   VText (marshal (enc_string_map (kr_Tags rec)))].

Lemma insertKeyRow_row rec m ts d d' :
  run (insertKeyRow f rec m ts) d = (Ok (), d') →
  ∃ mat, serializeKeyMaterial m = Ok mat ∧
    live Keys d' = <[(kr_Name rec, kr_Version rec) := (key_columns rec mat, ts)]> (live Keys d).
Proof.
  unfold insertKeyRow. cbn [marshalJWK p_bind].
  destruct (serializeKeyMaterial m) as [mat| |] eqn:Hm; [|done..]. cbn [p_bind marshalAttrs marshalTags]. intros Hrun.
  exists mat. split; [done|].
  assert (effect (Insert Keys) (VText (kr_Name rec) :: VText (kr_Version rec) :: key_columns rec mat ++ [VInt ts]) d d') as He
    by (eapply run_exec_effect; [|exact Hrun]; sent).
  destruct (He (key_columns rec mat) ts eq_refl eq_refl) as (_ & Hlive & _). specialize (Hlive Keys).
  by rewrite decide_True in Hlive.
Qed.

Context {HR : SqlReliable f T}.

(** What its columns decode to. *)
Lemma read_key_columns rec m mat ts :
  material_kept m → serializeKeyMaterial m = Ok mat → jwk_text (kr_Key rec) → attributes_ok (kr_Attributes rec) →
  tags_ok (kr_Tags rec) → ∀ q args d, sql_Query q args d =
      Ok ([project Keys (version_columns Keys) (kr_Version rec, (key_columns rec mat, ts))], None) →
  run (let+ c := QueryRow q args scan_five_texts (or_missing (key_missing (kr_Name rec))) in
    let '(ver, jwkJSON, matJSON, attrsJSON, tagsJSON) := c in
    Done (
      let! jwk := unmarshalJWK jwkJSON in
      let! material := deserializeKeyMaterial matJSON in
      let! attrs := unmarshalAttrs attrsJSON in
      let! tags := unmarshalTags tagsJSON in
      Ok (mkKeyRecord (kr_Name rec) ver jwk attrs tags, material))) d = (Ok (rec, m), d).
Proof.
  intros (s & Hs & Hd) Hm Hk Ha Ht q args d Hq. assert (s = mat) as -> by congruence.
  destruct (unmarshalAttrs_total _ (proj1 Ha)) as (a & Hua & Hae), (unmarshalTags_total (kr_Tags rec)) as (t & Hut & Hte).
  unfold QueryRow. cbn [p_bind run]. rewrite Hq. cbn [first_row o_bind].
  change (scan_five_texts (project Keys (version_columns Keys) (kr_Version rec, (key_columns rec mat, ts)))) with
    (Ok (kr_Version rec, marshal (json_of_JSONWebKey (kr_Key rec)), mat, marshal (json_of_attributes (kr_Attributes rec)),
      marshal (enc_string_map (kr_Tags rec))) : outcome message (string * string * string * string * string)).
  cbn [o_maperr or_missing p_bind run]. rewrite unmarshalJWK_marshal by done. cbn [o_bind].
  rewrite Hd. cbn [o_bind]. rewrite Hua. cbn [o_bind]. rewrite Hut. cbn [o_bind].
  rewrite (Hae Ha), (Hte Ht). by destruct rec.
Qed.

Lemma read_inserted_key rec m ts d d' version :
  run (insertKeyRow f rec m ts) d = (Ok (), d') →
  material_kept m → jwk_text (kr_Key rec) → attributes_ok (kr_Attributes rec) → tags_ok (kr_Tags rec) →
  kr_Version rec ≠ ""%string →
  version = kr_Version rec ∨ version = ""%string ∧ (∀ v r, live Keys d !! (kr_Name rec, v) = Some r → r.2 < ts) →
  run (getKeyVersionRow f (kr_Name rec) version) d' = (Ok (rec, m), d').
Proof.
  intros Hrun Hm Hk Ha Ht Hv Hver. destruct (insertKeyRow_row _ _ _ _ _ Hrun) as (mat & Hmat & Hlive).
  unfold getKeyVersionRow. destruct Hver as [->|[-> Hold]].
  - rewrite decide_False by done. eapply read_key_columns; [done..|].
    lazymatch goal with |- sql_Query ?q ?args _ = _ => destruct (query_answers f q
      (Version Keys (version_columns Keys)) args d' ltac:(sent) ltac:(by do 2 eexists)) as (rows & Hrows & Hans) end.
    etrans; [exact Hrows|]. cbn [answers] in Hans. by rewrite Hans, Hlive, lookup_insert_eq.
  - rewrite decide_True by done. eapply read_key_columns; [done..|].
    lazymatch goal with |- sql_Query ?q ?args _ = _ => destruct (query_answers f q
      (Latest Keys (version_columns Keys)) args d' ltac:(sent) ltac:(by eexists)) as (rows & Hrows & l & Hperm & Hsort & Hans) end.
    etrans; [exact Hrows|]. rewrite Hans. do 2 f_equal.
    assert ((kr_Version rec, (key_columns rec mat, ts)) ∈ l) as Hin.
    { rewrite Hperm. apply elem_of_versions_of. by rewrite Hlive, lookup_insert_eq. }
    destruct l as [|[v r] l]; [by apply not_elem_of_nil in Hin|]. cbn [take fmap list_fmap]. do 2 f_equal.
    apply elem_of_cons in Hin as [<-|Hin]; [done|].
    apply (Sorted_StronglySorted newer) in Hsort.
    apply StronglySorted_cons in Hsort as [Hall _]. rewrite Forall_forall in Hall. specialize (Hall _ Hin).
    unfold newer in Hall. cbn in Hall.
    assert ((v, r) ∈ versions_of Keys (kr_Name rec) d') as Hvr by (rewrite <-Hperm; by left).
    apply elem_of_versions_of in Hvr. rewrite Hlive in Hvr.
    apply lookup_insert_Some in Hvr as [[[= <-] <-]|[_ Hvr]]; [done|]. specialize (Hold _ _ Hvr). lia.
Qed.
(** [checkNotDeleted] only reads. *)
Lemma checkNotDeleted_keys_reads name d d' :
  run (checkNotDeleted f "kv_deleted_keys" name "Key") d = (Ok (), d') → d' = d.
Proof.
  unfold checkNotDeleted. intros (c & d1 & Hc & Hrun)%run_bind_inv.
  rewrite (run_count_deleted f _ Keys) in Hc by sent. injection Hc as <- <-.
  revert Hrun. case_decide as Hg; cbn [p_fail p_ret run]; congruence.
Qed.

(** A key the SQL store created comes back from its row: read by the
    version [CreateKey] answered, or as the latest version when the clock
    moved on since the others, it is the record that was answered with the key
    material that was generated for it, on whichever database, the JSON web
    key, the DER of the private key, the attributes and the tags having gone
    through their columns. *)
Theorem created_key_comes_back e name req d rec d' version :
  run (CreateKey f e name req) d = (Ok rec, d') →
  Forall (λ s, utf8_valid s = true) (ckr_KeyOps req) → tags_ok (ckr_Tags req) → request_int64 (ckr_Attributes req) →
  version = kr_Version rec ∨
  version = ""%string ∧ (∀ v r, live Keys d !! (name, v) = Some r → r.2 < tsNano e 1) →
  ∃ m,
    GenerateKey e 1 (ckr_Kty req) (ckr_KeySize req) (ckr_Crv req) "" (defaultKeyOps (ckr_Kty req) (ckr_KeyOps req)) =
      Ok (m, kr_Key rec) ∧
    run (getKeyVersionRow f name version) d' = (Ok (rec, m), d').
Proof.
  intros Hrun Hops Ht Ha Hver. unfold CreateKey in Hrun. case_decide; [done|]. case_decide; [done|].
  apply run_bind_inv in Hrun as ([] & d1 & ->%checkNotDeleted_keys_reads & Hrun).
  unfold SqlCore.newVersion in Hrun. cbv zeta in Hrun.
  destruct (newVersion_cases e) as [Hn|Hn]; rewrite Hn in Hrun; [|done]. cbn [p_bind] in Hrun.
  unfold SqlCore.defaultKeyOps in Hrun. destruct (GenerateKey _ _ _ _ _ _ _) as [[m k]| |] eqn:Hg; [|done..].
  cbn [o_maperr p_bind] in Hrun. apply run_bind_inv in Hrun as ([] & d2 & Hins & Hret).
  cbn [p_ret run] in Hret. injection Hret as <- <-. exists m. split; [done|].
  destruct (generated_kept e _ _ _ _ _ _ _ Hg) as [Hm Hk].
  { revert Hops. unfold KeyStore.defaultKeyOps. destruct (ckr_KeyOps req); [|done]. intros _. repeat case_match; repeat constructor. }
  apply (read_inserted_key _ _ _ _ _ _ Hins); try done.
  - split; [apply buildAttributes_int64; [done|apply wrap64_range..]|by destruct (ckr_Attributes req)].
  - cbn. unfold SqlCore.cloneTags. by rewrite cloneTags_id.
Qed.
End row.

(** ** A concrete key *)

Definition signing_key : CreateKeyRequest := mkCreateKeyRequest "EC" 0 [] None (Some {["use" := "sign"]}%string) "" "".

Lemma created_key_comes_back_witness :
  ∃ rec (d' : sdb (SqlEngine:=toy_engine FlavorSQLite)) m,
    run (CreateKey FlavorSQLite toy_env "signing" signing_key) (toy_empty : sdb (SqlEngine:=toy_engine FlavorSQLite)) = (Ok rec, d') ∧
    run (getKeyVersionRow FlavorSQLite "signing" "") d' = (Ok (rec, m), d') ∧ is_Some (km_ECDSA m).
Proof.
  set (o := run (CreateKey FlavorSQLite toy_env "signing" signing_key) (toy_empty : sdb (SqlEngine:=toy_engine FlavorSQLite))).
  assert (match o.1 with Ok _ => true | _ => false end = true) as Hok by (vm_compute; reflexivity).
  destruct o as [[rec| |] d'] eqn:Hrun; [|discriminate Hok..]. subst o.
  destruct (created_key_comes_back FlavorSQLite (HL:=toy_sql_laws FlavorSQLite) (HR:=toy_sql_reliable FlavorSQLite)
    toy_env "signing" signing_key toy_empty rec d' "") as (m & Hg & Hget).
  - exact Hrun.
  - constructor.
  - apply map_Forall_singleton. split; reflexivity.
  - exact I.
  - right. split; [reflexivity|]. intros v r Hr. cbn in Hr. rewrite lookup_empty in Hr. discriminate Hr.
  - exists rec, d', m. split; [reflexivity|]. split; [exact Hget|].
    vm_compute in Hg. injection Hg as <- _. by eexists.
Defined.
