(* ===== verification/SqlKeyTimeline.v ===== *)
(** * The SQL store: the timelines of keys

    What a deletion writes of the versions of a key reads back; the rows of
    [kv_keys] as an instance of [Rows]; and what the queries and statements of
    the keys do to them, on an engine that does not fail. *)

From S2P Require Import Prelude GoStrings GoUtf8 GoJson JsonFacts GoCrypto GoX509 GoSql Model KeyCrypto StoreCore SecretBackup KeyStore HttpJson SqlSchema SqlCore SqlSecrets SqlKeys SqlFacts SqlRows SqlKeyFacts.

Notation key_snapshot := keyVersionSnapshot.

(** ** Snapshots *)

Section snapshots.
Context `{JE : JsonErrors} `{X : CertLib} `{KD : KeyDer}.

(** The material of a version is a text its deserialisation comes from. *)
Definition material_text (m : KeyMaterial) (t : string) : Prop :=
  serializeKeyMaterial m = Ok t ∧ deserializeKeyMaterial t = Ok m.

Definition key_snapshot_ok (s : key_snapshot) : Prop :=
  utf8_valid (ks_Version s) = true ∧ jwk_text (ks_Key s) ∧ (∃ m, material_text m (ks_Material s)) ∧
  attributes_ok (ks_Attributes s) ∧ tags_ok (ks_Tags s) ∧ in_int64 (ks_CreatedAt s).

Lemma dec_key_snapshot s : key_snapshot_ok s →
  ∃ r, dec_raw_key_snapshot zero_raw_key_snapshot (json_coerce (json_of_key_snapshot s)) = Some r ∧ key_snapshot_of_raw r = s.
Proof.
  intros (Hv & Hk & (m & Hm & _) & [Ha Hl] & Ht & Hc). pose proof (serialized_utf8 _ _ Hm) as Hmat.
  destruct (dec_raw_jwk_coerce _ Hk) as (rj & Hjwk & Hof). pose proof (dec_attributes_coerce _ Ha) as Hatt.
  pose proof (dec_string_map_enc _ Ht) as Htags. pose proof (dec_int_enc 0 _ Hc) as Hint.
  set (a' := mkAttributes _ _ _ _ _ _ _) in Hatt.
  exists (mkRawKeySnapshot (ks_Version s) rj (ks_Material s) a' (ks_Tags s) (ks_CreatedAt s)). split.
  - unfold dec_raw_key_snapshot, json_of_key_snapshot. rewrite dec_struct_obj. cbn [map]. unfold coerce_member. cbn [fst snd].
    revert Hjwk Hatt Htags Hint. generalize (json_coerce (json_of_JSONWebKey (ks_Key s))).
    generalize (json_coerce (json_of_attributes (ks_Attributes s))).
    generalize (json_coerce (enc_string_map (ks_Tags s))). generalize (json_coerce (enc_int (ks_CreatedAt s))).
    intros jc jt ja jk Hjwk Hatt Htags Hint. cbn [json_coerce]. rewrite !utf8_coerce_valid by first [done|reflexivity].
    unfold struct_step. simpl. rewrite Hjwk. simpl. rewrite Hatt. simpl. rewrite Htags. simpl. by rewrite Hint.
  - unfold key_snapshot_of_raw. cbn. rewrite Hof. subst a'. rewrite utf8_coerce_valid by done.
    by destruct s as [? ? ? [] ? ?].
Qed.

Lemma dec_key_snapshots l : Forall key_snapshot_ok l →
  ∃ rs, dec_elems zero_raw_key_snapshot dec_raw_key_snapshot [] (map json_coerce (map json_of_key_snapshot l)) = Some rs ∧
    key_snapshot_of_raw <$> rs = l.
Proof.
  induction 1 as [|s l Hs _ (rs & Hl & Heq)]; [by exists []|].
  destruct (dec_key_snapshot s Hs) as (r & Hr & Hof). exists (r :: rs).
  cbn [map dec_elems hd tail]. rewrite Hr. cbn [mbind option_bind]. rewrite Hl. cbn [mbind option_bind].
  split; [done|]. by rewrite fmap_cons, Hof, Heq.
Qed.

Lemma json_of_key_snapshot_shape s : json_integral (json_of_key_snapshot s) ∧ 0 ≤ json_height (json_of_key_snapshot s) ≤ 3.
Proof.
  destruct (json_of_attributes_shape (ks_Attributes s)) as [Ha Hha].
  destruct (enc_string_map_shape (ks_Tags s)) as [Ht Hht]. destruct (json_of_JSONWebKey_shape (ks_Key s)) as [Hk Hhk].
  unfold json_of_key_snapshot. revert Ha Hha Ht Hht Hk Hhk.
  generalize (json_of_attributes (ks_Attributes s)) (enc_string_map (ks_Tags s)) (json_of_JSONWebKey (ks_Key s)).
  intros ja jt jk Ha Hha Ht Hht Hk Hhk. cbn [json_integral json_height foldr snd enc_int].
  repeat split; try done; try lia. by eexists.
Qed.

Lemma json_of_key_payload_shape l :
  json_integral (json_of_key_payload l) ∧ json_height (json_of_key_payload l) ≤ maxNestingDepth.
Proof.
  assert (foldr (λ j P, json_integral j ∧ P) True (map json_of_key_snapshot l) ∧
    0 ≤ foldr (λ j m, Z.max (json_height j) m) 0 (map json_of_key_snapshot l) ≤ 3) as [Hi Hh].
  { induction l as [|s l [Hi Hh]]; cbn [map foldr]; [by split|].
    destruct (json_of_key_snapshot_shape s). split; [done|lia]. }
  unfold json_of_key_payload, maxNestingDepth. destruct l as [|s l]; [by split|].
  revert Hi Hh. generalize (map json_of_key_snapshot (s :: l)). intros js Hi Hh.
  cbn [json_integral json_height foldr snd]. split; [done|lia].
Qed.

(** The column of a deleted key gives its versions back. *)
Lemma key_payload_round_trip l : Forall key_snapshot_ok l →
  unmarshal_key_payload (marshal (json_of_key_payload l)) = Ok l.
Proof.
  intros Hl. destruct (dec_key_snapshots l Hl) as (rs & Hdec & Heq). destruct (json_of_key_payload_shape l) as [Hi Hh].
  apply unmarshal_marshal; [done|done|].
  unfold key_payload_json, json_of_key_payload. rewrite dec_struct_obj. unfold coerce_member. cbn [map fst snd].
  destruct l as [|s l]; [by destruct rs|].
  assert (rs ≠ []) as Hne by (by destruct rs).
  pose proof (dec_slice_fresh _ _ _ _ Hne Hdec) as Hsl. cbn [json_coerce].
  revert Hsl. generalize (map json_coerce (map json_of_key_snapshot (s :: l))). intros js Hsl. cbn [foldl].
  change (struct_step [("versions"%string, dec_slice zero_raw_key_snapshot dec_raw_key_snapshot)] (Some (0%nat, []))
    (utf8_coerce "versions", JArr js)) with (dec_slice zero_raw_key_snapshot dec_raw_key_snapshot (0%nat, []) (JArr js)).
  rewrite Hsl. cbn. by rewrite firstn_all, Heq.
Qed.
End snapshots.

(** ** Rows *)

Section answers.
Context `{JE : JsonErrors} `{X : CertLib} `{KD : KeyDer} (f : DBFlavor).
Context {D : SqlEngine} {T : SqlTables D} {HL : SqlLaws f T} {HR : SqlReliable f T}.

#[local] Instance key_rows : Rows Keys key_snapshot :=
  Build_Rows Keys key_snapshot ks_Version ks_CreatedAt
    (λ s, [VText (marshal (json_of_JSONWebKey (ks_Key s))); VText (ks_Material s);
       VText (marshal (json_of_attributes (ks_Attributes s))); VText (marshal (enc_string_map (ks_Tags s)))])
    key_snapshot_ok (λ _, ltac:(by repeat constructor)).

(** The material of a version. *)
Definition material_of (s : key_snapshot) : KeyMaterial :=
  match deserializeKeyMaterial (ks_Material s) with Ok m => m | _ => zero_material end.

Lemma decoded_key_columns s : key_snapshot_ok s →
  unmarshalJWK (marshal (json_of_JSONWebKey (ks_Key s))) = Ok (ks_Key s) ∧
  deserializeKeyMaterial (ks_Material s) = Ok (material_of s) ∧
  serializeKeyMaterial (material_of s) = Ok (ks_Material s) ∧
  unmarshalAttrs (marshal (json_of_attributes (ks_Attributes s))) = Ok (ks_Attributes s) ∧
  unmarshalTags (marshal (enc_string_map (ks_Tags s))) = Ok (ks_Tags s).
Proof.
  intros (_ & Hk & (m & Hm & Hd) & Ha & Ht & _). unfold material_of. rewrite Hd. split_and!; [|done|done| |].
  - by apply unmarshalJWK_marshal.
  - destruct (unmarshalAttrs_total _ (proj1 Ha)) as (a & -> & Heq). by rewrite Heq.
  - destruct (unmarshalTags_total (ks_Tags s)) as (t & -> & Heq). by rewrite Heq.
Qed.

Lemma key_snapshot_record_eq name s :
  key_snapshot_record name s = mkKeyRecord name (ks_Version s) (ks_Key s) (ks_Attributes s) (ks_Tags s).
Proof. unfold key_snapshot_record, SqlCore.cloneTags. by rewrite cloneTags_id. Qed.

Lemma run_getKeyVersionRow name version d l :
  timeline l → stored name d l →
  run (getKeyVersionRow f name version) d =
    (match find_snapshot l version with
     | Some (_, s) => Ok (key_snapshot_record name s, material_of s) | None => Err (key_missing name) end, d).
Proof.
  intros Hl Hs. apply (run_read_version f (R:=key_rows) _ _ _ _ _ (λ s, (key_snapshot_record name s, material_of s))); [sent|sent| |done..].
  intros s Hok. eexists. split; [reflexivity|]. destruct (decoded_key_columns s Hok) as (Hk & Hm & _ & Ha & Ht).
  cbv beta iota. rewrite Hk. cbn [o_bind]. rewrite Hm. cbn [o_bind]. rewrite Ha. cbn [o_bind]. rewrite Ht. cbn [o_bind].
  by rewrite key_snapshot_record_eq.
Qed.

Lemma run_allKeyVersionSnapshots name d l :
  timeline l → stored name d l → run (allKeyVersionSnapshots f name) d = (Ok l, d).
Proof.
  intros Hl Hs. apply (run_oldest_first f (R:=key_rows) _ _ (version_columns Keys ++ ["created_at"%string]) name d l); [sent| |done..].
  intros s Hok. destruct (decoded_key_columns s Hok) as (Hk & _ & _ & Ha & Ht).
  trans (let! jwk := unmarshalJWK (marshal (json_of_JSONWebKey (ks_Key s))) in
    let! attrs := unmarshalAttrs (marshal (json_of_attributes (ks_Attributes s))) in
    let! tags := unmarshalTags (marshal (enc_string_map (ks_Tags s))) in
    Ok (mkKeySnapshot (ks_Version s) jwk (ks_Material s) attrs tags (ks_CreatedAt s)) : outcome error key_snapshot); [reflexivity|].
  rewrite Hk. cbn [o_bind]. rewrite Ha. cbn [o_bind]. rewrite Ht. by destruct s.
Qed.

Lemma scan_listed_key name s : key_snapshot_ok s →
  (let! jwk := unmarshalJWK (marshal (json_of_JSONWebKey (ks_Key s))) in
    let! attrs := unmarshalAttrs (marshal (json_of_attributes (ks_Attributes s))) in
    let! tags := unmarshalTags (marshal (enc_string_map (ks_Tags s))) in
    Ok (mkKeyRecord name (ks_Version s) jwk attrs tags) : outcome error KeyRecord) = Ok (key_snapshot_record name s).
Proof.
  intros Hok. destruct (decoded_key_columns s Hok) as (Hk & _ & _ & Ha & Ht).
  rewrite Hk. cbn [o_bind]. rewrite Ha. cbn [o_bind]. rewrite Ht. by rewrite key_snapshot_record_eq.
Qed.

Lemma run_key_checkNotDeleted name d :
  run (checkNotDeleted f "kv_deleted_keys" name "Key") d =
    (if decide (is_Some (gone Keys d !! name))
     then Err (newError StatusConflict "InvalidOperation"
       ("Key " ++ name ++ " is currently deleted and cannot be reused until recovered or purged.")%string)
     else Ok (), d).
Proof. apply (run_checkNotDeleted_of f Keys name "Key"). Qed.

Lemma run_keys_count name d (l : list key_snapshot) : timeline l → stored name d l →
  run (db_QueryRow ("SELECT COUNT(*) FROM kv_keys WHERE name = " ++ ph f 1)%string [VText name] scan_count) d =
    (Ok (Z.of_nat (length l)), d).
Proof. intros Hl Hs. apply (run_versions_count f); [sent|done..]. Qed.

Lemma run_getDeletedKeyRow name d :
  run (getDeletedKeyRow f name) d =
    (match gone Keys d !! name with
     | Some g => Ok (mkDeletedRow name (g_recovery_id g) (g_deleted g) (g_purge g) (g_versions g))
     | None => Err (deleted_key_missing name)
     end, d).
Proof. apply (run_deleted_row f _ Keys). sent. Qed.

(** ** Statements *)

Definition key_snapshot_of (rec : KeyRecord) (mat : string) (ts : Z) : key_snapshot :=
  mkKeySnapshot (kr_Version rec) (kr_Key rec) mat (kr_Attributes rec) (kr_Tags rec) ts.

Lemma run_insertKeyRow rec m mat ts d l :
  serializeKeyMaterial m = Ok mat → stored (kr_Name rec) d l → kr_Version rec ∉ ks_Version <$> l →
  ∃ d', run (insertKeyRow f rec m ts) d = (Ok (), d') ∧ stored (kr_Name rec) d' (l ++ [key_snapshot_of rec mat ts]) ∧
    elsewhere Keys (kr_Name rec) d d' ∧ gone Keys d' = gone Keys d.
Proof.
  intros Hm Hs Hnew. unfold insertKeyRow. cbn [p_bind marshalJWK]. rewrite Hm. cbn [p_bind marshalAttrs marshalTags].
  lazymatch goal with |- context [db_Exec ?q _] =>
    apply (run_insert_row f (R:=key_rows) q (kr_Name rec) (key_snapshot_of rec mat ts) d l); [sent|done..] end.
Qed.

Lemma run_update_key q rec d l i s :
  sends f q (Update Keys ["jwk"; "attributes"; "tags"]%string) →
  timeline l → stored (kr_Name rec) d l → l !! i = Some s → kr_Version rec = ks_Version s →
  ∃ d', run (db_Exec q [VText (marshal (json_of_JSONWebKey (kr_Key rec))); VText (marshal (json_of_attributes (kr_Attributes rec)));
      VText (marshal (enc_string_map (kr_Tags rec))); VText (kr_Name rec); VText (kr_Version rec)]) d = (Ok (), d') ∧
    stored (kr_Name rec) d' (<[i := key_snapshot_of rec (ks_Material s) (ks_CreatedAt s)]> l) ∧
    elsewhere Keys (kr_Name rec) d d' ∧ gone Keys d' = gone Keys d.
Proof.
  intros Hq Hl Hs Hi Hv. rewrite Hv.
  apply (run_update_row f (R:=key_rows) q _ [VText (marshal (json_of_JSONWebKey (kr_Key rec)));
      VText (marshal (json_of_attributes (kr_Attributes rec))); VText (marshal (enc_string_map (kr_Tags rec)))]
      (kr_Name rec) d l i s (key_snapshot_of rec (ks_Material s) (ks_CreatedAt s)) Hq); try done; repeat constructor.
Qed.
End answers.
#[export] Existing Instance key_rows.
