(* ===== verification/SqlKeyMemory.v ===== *)
(** * The SQL store and the in-memory store give the same answers: keys

    [key_call] is the part of store.Storer that is about keys, the six uses of
    a key included, by the type of its answers.  Every call keeps the two
    stores in step and answers the same from both, on an engine that does not
    fail. *)

From S2P Require Import Prelude GoStrings GoUtf8 GoJson GoCrypto GoX509 GoSql AesModes Model KeyCrypto StoreCore SecretBackup KeyStore HttpJson SqlSchema SqlCore SqlSecrets SqlKeys SqlFacts SqlRows SqlMirror SqlKeyFacts SqlKeyTimeline.

Inductive key_call : Type → Type :=
| CreateKey_ (e : Env) (name : string) (req : CreateKeyRequest) : key_call KeyRecord
| ImportKey_ (e : Env) (name : string) (req : ImportKeyRequest) : key_call KeyRecord
| GetKey_ (name version : string) : key_call KeyRecord
| ListKeys_ (maxResults : Z) (skipToken : string) : key_call (list KeyRecord * option string)
| ListKeyVersions_ (name : string) (maxResults : Z) (skipToken : string) : key_call (list KeyRecord * option string)
| UpdateKey_ (e : Env) (name version : string) (req : UpdateKeyRequest) : key_call KeyRecord
| DeleteKey_ (e : Env) (name : string) : key_call DeletedKeyRecord
| ListDeletedKeys_ (maxResults : Z) (skipToken : string) : key_call (list DeletedKeyRecord * option string)
| GetDeletedKey_ (name : string) : key_call DeletedKeyRecord
| PurgeDeletedKey_ (name : string) : key_call unit
| RecoverDeletedKey_ (name : string) : key_call KeyRecord
| Encrypt_ (e : Env) (name version : string) (req : EncryptRequest) : key_call (string * string)
| Decrypt_ (name version : string) (req : EncryptRequest) : key_call (string * string)
| Sign_ (e : Env) (name version : string) (req : SignRequest) : key_call string
| Verify_ (name version : string) (req : VerifyRequest) : key_call bool
| WrapKey_ (e : Env) (name version : string) (req : EncryptRequest) : key_call string
| UnwrapKey_ (name version : string) (req : EncryptRequest) : key_call string.

Definition keys_in_memory `{C : BlockCipher} `{L : PublicKeyLib} {A} (c : key_call A) : SM A :=
  match c with
  | CreateKey_ e name req => KeyStore.CreateKey e name req
  | ImportKey_ e name req => KeyStore.ImportKey e name req
  | GetKey_ name version => KeyStore.GetKey name version
  | ListKeys_ m t => KeyStore.ListKeys m t
  | ListKeyVersions_ name m t => KeyStore.ListKeyVersions name m t
  | UpdateKey_ e name version req => KeyStore.UpdateKey e name version req
  | DeleteKey_ e name => KeyStore.DeleteKey e name
  | ListDeletedKeys_ m t => KeyStore.ListDeletedKeys m t
  | GetDeletedKey_ name => KeyStore.GetDeletedKey name
  | PurgeDeletedKey_ name => KeyStore.PurgeDeletedKey name
  | RecoverDeletedKey_ name => KeyStore.RecoverDeletedKey name
  | Encrypt_ e name version req => KeyStore.Encrypt e name version req
  | Decrypt_ name version req => KeyStore.Decrypt name version req
  | Sign_ e name version req => KeyStore.Sign e name version req
  | Verify_ name version req => KeyStore.Verify name version req
  | WrapKey_ e name version req => KeyStore.WrapKey e name version req
  | UnwrapKey_ name version req => KeyStore.UnwrapKey name version req
  end.

Section calls.
Context `{JE : JsonErrors} `{X : CertLib} `{KD : KeyDer} `{C : BlockCipher} `{L : PublicKeyLib}.

Definition keys_in_sql (f : DBFlavor) {A} (c : key_call A) : SP A :=
  match c with
  | CreateKey_ e name req => SqlKeys.CreateKey f e name req
  | ImportKey_ e name req => SqlKeys.ImportKey f e name req
  | GetKey_ name version => SqlKeys.GetKey f name version
  | ListKeys_ m t => SqlKeys.ListKeys f m t
  | ListKeyVersions_ name m t => SqlKeys.ListKeyVersions f name m t
  | UpdateKey_ e name version req => SqlKeys.UpdateKey f e name version req
  | DeleteKey_ e name => SqlKeys.DeleteKey f e name
  | ListDeletedKeys_ m t => SqlKeys.ListDeletedKeys f m t
  | GetDeletedKey_ name => SqlKeys.GetDeletedKey f name
  | PurgeDeletedKey_ name => SqlKeys.PurgeDeletedKey f name
  | RecoverDeletedKey_ name => SqlKeys.RecoverDeletedKey f name
  | Encrypt_ e name version req => SqlKeys.Encrypt f e name version req
  | Decrypt_ name version req => SqlKeys.Decrypt f name version req
  | Sign_ e name version req => SqlKeys.Sign f e name version req
  | Verify_ name version req => SqlKeys.Verify f name version req
  | WrapKey_ e name version req => SqlKeys.WrapKey f e name version req
  | UnwrapKey_ name version req => SqlKeys.UnwrapKey f name version req
  end.

(** ** What the two stores hold *)

Definition key_version_of (name : string) (s : key_snapshot) : keyVersion :=
  mkKeyVersion (key_snapshot_record name s) (material_of s).
Definition key_entry_of (name : string) (l : list key_snapshot) : keyEntry := mkKeyEntry (key_version_of name <$> l).

Definition key_mirror : mirror Keys key_snapshot keyEntry deletedKeyEntry :=
  Mirror key_entry_of mkDeletedKeyEntry (λ l, marshal (json_of_key_payload l)).

Context {D : SqlEngine} {T : SqlTables D}.

(** The same keys, live and deleted. *)
Definition related_keys (s : Store) (d : sdb) : Prop := mirrors key_mirror (keys s) (deletedKeys s) d.

(** ** What the stores need of a call *)

(** The identifier is new, and the clock is past the rows of the name. *)
Definition fresh_key (e : Env) (name : string) (d : sdb) : Prop :=
  ∀ v r, live Keys d !! (name, v) = Some r → v ≠ version_id e ∧ r.2 < tsNano e 1.

(** A key whose import is one that x509 writes and reads. *)
Definition importable (jwk : JSONWebKey) : Prop := ∀ m k, KeyCrypto.ImportKey jwk "" = Ok (m, k) → material_kept m.

Definition key_ready {A} (c : key_call A) (d : sdb) : Prop :=
  match c with
  | CreateKey_ e name req =>
      (** the request is text and 64-bit integers *)
      Forall (λ s, utf8_valid s = true) (ckr_KeyOps req) ∧ tags_ok (ckr_Tags req) ∧ request_int64 (ckr_Attributes req) ∧
      fresh_key e name d
  | ImportKey_ e name req =>
      Forall (λ s, utf8_valid s = true) (jwk_KeyOps (ikr_Key req)) ∧ tags_ok (ikr_Tags req) ∧
      request_int64 (ikr_Attributes req) ∧ fresh_key e name d ∧ importable (ikr_Key req)
  | UpdateKey_ e _ _ req =>
      (∀ ops, ukr_KeyOps req = Some ops → Forall (λ s, utf8_valid s = true) ops) ∧ tags_ok (ukr_Tags req) ∧
      request_int64 (ukr_Attributes req)
  | DeleteKey_ e _ => rand_ok e 0 = true
  | RecoverDeletedKey_ name =>
      (** the new times do not overflow *)
      ∀ g l, gone Keys d !! name = Some g → unmarshal_key_payload (g_versions g) = Ok l →
        Forall (λ s, ks_CreatedAt s + Z.of_nat (length l) ≤ max_int64) l
  | _ => True
  end.

(** The two stores answer the same and stay in step. *)
Definition keys_agree (f : DBFlavor) {A} (c : key_call A) : Prop := ∀ s d,
  related_keys s d → key_ready c d →
  (run (keys_in_sql f c) d).1 = (keys_in_memory c s).1 ∧
  related_keys (keys_in_memory c s).2 (run (keys_in_sql f c) d).2.

(** ** Versions *)

Lemma findKeyVersion_entry name l version :
  findKeyVersion (key_entry_of name l) version = prod_map id (key_version_of name) <$> find_snapshot l version.
Proof.
  unfold findKeyVersion, find_snapshot, key_entry_of. cbn [latestKey ke_versions]. case_decide.
  - unfold last_ptr. rewrite fmap_last, length_fmap. by destruct (last l).
  - rewrite list_find_fmap. f_equal.
Qed.

Lemma material_of_text m mat rec ts : material_text m mat → material_of (key_snapshot_of rec mat ts) = m.
Proof. intros [_ Hd]. unfold material_of. cbn. by rewrite Hd. Qed.

Lemma key_version_of_snapshot rec m mat ts :
  material_text m mat → key_version_of (kr_Name rec) (key_snapshot_of rec mat ts) = mkKeyVersion rec m.
Proof.
  intros Hm. unfold key_version_of. rewrite (material_of_text m), key_snapshot_record_eq by done. by destruct rec.
Qed.
End calls.

(** ** Each call agrees *)

(** A step of the in-memory store. *)
Lemma m_get_bind {A} (k : Store → SM A) s : m_bind m_get k s = k s s.
Proof. done. Qed.
Lemma m_lift_Ok_bind {A B} (a : A) (k : A → SM B) s : m_bind (m_lift (Ok a)) k s = k a s.
Proof. done. Qed.

Section simulation.
Context `{JE : JsonErrors} `{X : CertLib} `{KD : KeyDer} `{C : BlockCipher} `{L : PublicKeyLib}.
Context {XL : CertLaws L X} {KL : KeyDerLaws L KD}.
Context (f : DBFlavor) {D : SqlEngine} {T : SqlTables D} {HL : SqlLaws f T} {HR : SqlReliable f T}.

(** What a version is used for: the six cryptographic operations, and GetKey. *)
Lemma agrees_use {A} name version (body : KeyRecord * KeyMaterial → outcome error A) s d :
  related_keys s d →
  run (let+ rm := getKeyVersionRow f name version in Done (body rm)) d =
    (((let* ver := keyMaterial name version in m_lift (body (kv_record ver, kv_material ver))) s).1, d) ∧
  ((let* ver := keyMaterial name version in m_lift (body (kv_record ver, kv_material ver))) s).2 = s.
Proof.
  intros Hr. destruct (mir_live _ _ _ d Hr name) as (l & Hl & Hs & He).
  pose proof (run_getKeyVersionRow f name version d l Hl Hs) as Hrow. unfold keyMaterial. monad_unfold. rewrite He.
  destruct (find_snapshot l version) as [[i x]|] eqn:Hf.
  - rewrite (run_bind_Ok _ _ _ _ _ Hrow). rewrite entry_at_Some by (intros ->; by rewrite find_snapshot_nil in Hf).
    cbn [mir_entry key_mirror]. by rewrite findKeyVersion_entry, Hf.
  - rewrite (run_bind_Err _ _ _ _ _ Hrow). destruct l as [|s0 l]; [done|].
    unfold entry_at. cbn [mir_entry key_mirror]. by rewrite findKeyVersion_entry, Hf.
Qed.

Lemma agrees_body {A} name version (body : KeyRecord * KeyMaterial → outcome error A) s d :
  related_keys s d →
  (run (let+ rm := getKeyVersionRow f name version in Done (body rm)) d).1 =
    ((let* ver := keyMaterial name version in m_lift (body (kv_record ver, kv_material ver))) s).1 ∧
  related_keys ((let* ver := keyMaterial name version in m_lift (body (kv_record ver, kv_material ver))) s).2
    (run (let+ rm := getKeyVersionRow f name version in Done (body rm)) d).2.
Proof. intros Hr. destruct (agrees_use name version body s d Hr) as [-> ->]. done. Qed.

Lemma agrees_Encrypt e name version req : keys_agree f (Encrypt_ e name version req).
Proof. intros s d Hr _. cbn [keys_in_sql keys_in_memory]. by apply agrees_body. Qed.
Lemma agrees_Decrypt name version req : keys_agree f (Decrypt_ name version req).
Proof. intros s d Hr _. cbn [keys_in_sql keys_in_memory]. by apply agrees_body. Qed.
Lemma agrees_Sign e name version req : keys_agree f (Sign_ e name version req).
Proof. intros s d Hr _. cbn [keys_in_sql keys_in_memory]. by apply agrees_body. Qed.
Lemma agrees_Verify name version req : keys_agree f (Verify_ name version req).
Proof. intros s d Hr _. cbn [keys_in_sql keys_in_memory]. by apply agrees_body. Qed.
Lemma agrees_WrapKey e name version req : keys_agree f (WrapKey_ e name version req).
Proof. intros s d Hr _. cbn [keys_in_sql keys_in_memory]. by apply agrees_body. Qed.
Lemma agrees_UnwrapKey name version req : keys_agree f (UnwrapKey_ name version req).
Proof. intros s d Hr _. cbn [keys_in_sql keys_in_memory]. by apply agrees_body. Qed.

Lemma agrees_GetKey name version : keys_agree f (GetKey_ name version).
Proof.
  intros s d Hr _. pose proof (agrees_body name version (λ rm, Ok rm.1) s d Hr) as Hb.
  assert (KeyStore.GetKey name version s =
    (let* ver := keyMaterial name version in m_lift (Ok (kv_record ver))) s) as Heq.
  { unfold KeyStore.GetKey, keyMaterial. monad_unfold. destruct (keys s !! name); [|done].
    destruct (findKeyVersion _ version) as [[]|]; [|done]. by rewrite cloneKeyRecord_id. }
  cbn [keys_in_sql keys_in_memory]. rewrite Heq. exact Hb.
Qed.

Lemma agrees_ListKeyVersions name m t : keys_agree f (ListKeyVersions_ name m t).
Proof.
  intros s d Hr _. destruct (mir_live _ _ _ d Hr name) as (l & Hl & Hs & He).
  cbn [keys_in_sql keys_in_memory]. unfold SqlKeys.ListKeyVersions, KeyStore.ListKeyVersions. monad_unfold.
  rewrite (run_bind_Ok _ _ _ _ _ (run_keys_count f name d l Hl Hs)), He.
  destruct l as [|s0 l0]; [done|]. rewrite decide_False by done. set (l := s0 :: l0) in *.
  change (entry_at key_mirror name l) with (Some (key_entry_of name l)).
  lazymatch goal with |- context [query_rows db_error ?q ?args ?body] =>
    assert (run (query_rows db_error q args body) d = (Ok (key_snapshot_record name <$> reverse l), d)) as Hrun
      by (apply (run_newest_first f (R:=key_rows) q body (listed_columns Keys)); [sent| |done..]; apply scan_listed_key) end.
  rewrite (run_bind_Ok _ _ _ _ _ Hrun). cbn [run fst snd]. split; [|done]. unfold SqlCore.paginateNames. f_equal.
  unfold key_entry_of. cbn [ke_versions]. rewrite <-fmap_reverse, <-list_fmap_compose. apply list_fmap_ext.
  intros i x _. cbn. by rewrite cloneKeyRecord_id.
Qed.

Lemma run_deletedKeyFromRow name g e d :
  same_entry key_mirror name e g →
  run (Done (deletedKeyFromRow (mkDeletedRow name (g_recovery_id g) (g_deleted g) (g_purge g) (g_versions g)))) d =
    (deleted_key_record e, d).
Proof.
  intros (l & Hne & Hl & Hg & ->). cbn [run]. f_equal. unfold deletedKeyFromRow, deleted_key_record. cbn.
  cbn [mir_payload key_mirror] in Hg. rewrite Hg, key_payload_round_trip by apply Hl.
  cbn [o_bind]. unfold last_ptr. rewrite fmap_last. apply last_Some_ne in Hne as [s ->].
  cbn. by rewrite cloneKeyRecord_id.
Qed.

Lemma same_key_entry_Ok name e g : same_entry key_mirror name e g → ∃ x, deleted_key_record e = Ok x.
Proof.
  intros (l & [x Hx]%last_Some_ne & _ & _ & ->). unfold deleted_key_record. cbn. unfold last_ptr.
  rewrite fmap_last, Hx. by eexists.
Qed.

Lemma agrees_GetDeletedKey name : keys_agree f (GetDeletedKey_ name).
Proof.
  intros s d Hr _. pose proof (mir_gone _ _ _ d Hr name) as Hg. unfold same_gone in Hg.
  cbn [keys_in_sql keys_in_memory]. unfold SqlKeys.GetDeletedKey. rewrite run_bind. unfold m_bind.
  rewrite (run_getDeletedKeyRow f). unfold KeyStore.GetDeletedKey, m_bind, m_get.
  destruct (gone Keys d !! name) as [g|]; [|by rewrite Hg]. destruct Hg as (e & -> & He).
  by rewrite (run_deletedKeyFromRow name g e d He).
Qed.

Lemma agrees_PurgeDeletedKey name : keys_agree f (PurgeDeletedKey_ name).
Proof.
  intros s d Hr _. pose proof (mir_gone _ _ _ d Hr name) as Hg. unfold same_gone in Hg.
  cbn [keys_in_sql keys_in_memory]. unfold SqlKeys.PurgeDeletedKey. rewrite run_bind. unfold m_bind.
  rewrite (run_getDeletedKeyRow f). unfold KeyStore.PurgeDeletedKey, m_bind, m_get.
  destruct (gone Keys d !! name) as [g|] eqn:Eg; [|by rewrite Hg]. destruct Hg as (e & Hs & He).
  rewrite decide_True by by rewrite Hs.
  destruct (run_delete_deleted f ("DELETE FROM kv_deleted_keys WHERE name = " ++ ph f 1)%string Keys name d ltac:(sent))
    as (d' & -> & _ & Hlive & Hgone).
  split; [done|]. by apply (mirrors_purge _ name _ _ d).
Qed.

(** *** Writing a version *)

Lemma key_snapshot_of_ok rec m mat ts :
  utf8_valid (kr_Version rec) = true → jwk_text (kr_Key rec) → material_text m mat → attributes_ok (kr_Attributes rec) →
  tags_ok (kr_Tags rec) → in_int64 ts → key_snapshot_ok (key_snapshot_of rec mat ts).
Proof. intros. split_and!; try done. by exists m. Qed.

(** A new version, for CreateKey and ImportKey. *)
Lemma agrees_append e name rec m s d :
  related_keys s d → fresh_key e name d → kr_Name rec = name → kr_Version rec = version_id e → material_kept m →
  jwk_text (kr_Key rec) → attributes_ok (kr_Attributes rec) → tags_ok (kr_Tags rec) →
  (run (let+ _ := insertKeyRow f rec m (tsNano e 1) in p_ret rec) d).1 =
    ((let* _ := append_key name (mkKeyVersion rec m) in m_ret (cloneKeyRecord rec)) s).1 ∧
  related_keys ((let* _ := append_key name (mkKeyVersion rec m) in m_ret (cloneKeyRecord rec)) s).2
    (run (let+ _ := insertKeyRow f rec m (tsNano e 1) in p_ret rec) d).2.
Proof.
  intros Hr Hnew <- Hv (mat & Hm & Hd) Hk Ha Ht. destruct (mir_live _ _ _ d Hr (kr_Name rec)) as (l & Hl & Hs & He).
  assert (material_text m mat) as Hmat by by split.
  assert (key_snapshot_ok (key_snapshot_of rec mat (tsNano e 1))) as Hok.
  { apply (key_snapshot_of_ok rec m); try done; [rewrite Hv; apply version_id_utf8|apply wrap64_range]. }
  assert (∀ x, x ∈ l → ks_Version x ≠ version_id e ∧ ks_CreatedAt x < tsNano e 1) as Hold.
  { intros x Hin. apply (Hnew (ks_Version x) (row_of (R:=key_rows) x).2). apply Hs. exact (list_elem_of_fmap_2 row_of l x Hin). }
  assert (kr_Version rec ∉ ks_Version <$> l) as Hfresh.
  { rewrite Hv. intros (x & Hx & Hin)%list_elem_of_fmap. by destruct (Hold x Hin) as [Hne _]. }
  destruct (run_insertKeyRow f rec m mat (tsNano e 1) d l Hm Hs Hfresh) as (d' & Hrun & Hs' & Hel & Hgd).
  rewrite (run_bind_Ok _ _ _ _ _ Hrun). cbn [run p_ret fst snd]. split; [by cbn; rewrite cloneKeyRecord_id|].
  assert (mir_entry key_mirror (kr_Name rec) (l ++ [key_snapshot_of rec mat (tsNano e 1)]) =
    mkKeyEntry (ke_versions (default (mkKeyEntry []) (keys s !! kr_Name rec)) ++ [mkKeyVersion rec m])) as Hent.
  { rewrite He. cbn [mir_entry key_mirror]. unfold key_entry_of. rewrite fmap_app. cbn [fmap list_fmap].
    rewrite (key_version_of_snapshot rec m) by done. by destruct l. }
  unfold related_keys. cbn. rewrite <-Hent. apply (mirrors_put _ (kr_Name rec) _ _ _ d); [done| |by destruct l|done..].
  apply timeline_snoc; [done|done| |done]. apply Forall_forall. intros x Hin. by apply Hold.
Qed.

Lemma run_key_gate name s d :
  related_keys s d →
  run (checkNotDeleted f "kv_deleted_keys" name "Key") d =
    (if decide (is_Some (deletedKeys s !! name))
     then Err (newError StatusConflict "InvalidOperation"
       ("Key " ++ name ++ " is currently deleted and cannot be reused until recovered or purged.")%string)
     else Ok (), d).
Proof.
  intros Hr. rewrite (run_key_checkNotDeleted f name d). pose proof (mir_gone _ _ _ d Hr name) as Hg. unfold same_gone in Hg.
  destruct (gone Keys d !! name); [destruct Hg as (e & -> & _)|rewrite Hg]; [by rewrite !decide_True by done|].
  by rewrite !decide_False by by intros [].
Qed.

Lemma agrees_CreateKey e name req : keys_agree f (CreateKey_ e name req).
Proof.
  intros s d Hr (Hops & Htags & Hatt & Hnew). pose proof (run_key_gate name s d Hr) as Hgate.
  cbn [keys_in_sql keys_in_memory]. unfold SqlKeys.CreateKey, KeyStore.CreateKey.
  destruct (decide (name = ""%string)); [done|]. destruct (decide (ckr_Kty req = ""%string)); [done|].
  rewrite m_get_bind. revert Hgate. destruct (decide (is_Some (deletedKeys s !! name))); intros Hgate.
  { by rewrite (run_bind_Err _ _ _ _ _ Hgate). }
  rewrite (run_bind_Ok _ _ _ _ _ Hgate). unfold SqlCore.newVersion. cbv zeta.
  destruct (newVersion_cases e) as [->| ->]; [|done]. cbn [p_bind m_lift]. rewrite m_lift_Ok_bind.
  unfold SqlCore.defaultKeyOps.
  destruct (GenerateKey e 1 (ckr_Kty req) (ckr_KeySize req) (ckr_Crv req) "" _) as [[m k]| |] eqn:Hg; [|done..].
  cbn [o_maperr p_bind]. rewrite m_lift_Ok_bind.
  destruct (generated_kept e _ _ _ _ _ _ _ Hg) as [Hm Hk].
  { revert Hops. unfold KeyStore.defaultKeyOps. destruct (ckr_KeyOps req); [|done]. intros _. repeat case_match; repeat constructor. }
  apply (agrees_append e name); try done.
  - split; [apply buildAttributes_int64; [done|apply wrap64_range..]|by destruct (ckr_Attributes req)].
  - cbn. unfold SqlCore.cloneTags. by rewrite cloneTags_id.
Qed.

Lemma imported_text jwk m k :
  KeyCrypto.ImportKey jwk "" = Ok (m, k) → Forall (λ s, utf8_valid s = true) (jwk_KeyOps jwk) →
  jwk_text (with_KeyOps (KeyStore.defaultKeyOps (jwk_Kty jwk) (jwk_KeyOps jwk)) k).
Proof.
  intros Hi Hops.
  assert (Forall (λ s, utf8_valid s = true) (KeyStore.defaultKeyOps (jwk_Kty jwk) (jwk_KeyOps jwk))) as Hops'.
  { revert Hops. unfold KeyStore.defaultKeyOps. destruct (jwk_KeyOps jwk); [|done]. intros _. repeat case_match; repeat constructor. }
  enough (jwk_text (with_KeyOps [] k)) as [Hk _] by by split.
  assert (∀ l, jwk_Kty jwk ∈ l → Forall (λ s, utf8_valid s = true) l → utf8_valid (jwk_Kty jwk) = true) as Hkty
    by (intros l Hin Hl; by eapply Forall_forall in Hl).
  unfold KeyCrypto.ImportKey in Hi. case_decide as Ho; [|case_decide as Hr; [|case_decide as He; [|done]]].
  - case_decide; [done|]. apply o_bind_Ok in Hi as (key & _ & [= _ <-]). split; [|done].
    repeat constructor; try done. cbn. by eapply Hkty; [exact Ho|repeat constructor].
  - case_decide; [done|]. apply o_bind_Ok in Hi as (n & _ & Hi). apply o_bind_Ok in Hi as (eb & _ & Hi).
    do 2 (case_decide; [done|]). apply o_bind_Ok in Hi as (priv & _ & [= _ <-]).
    apply RSAToJWK_text; [by eapply Hkty; [exact Hr|repeat constructor]|done].
  - apply o_bind_Ok in Hi as ([c rc] & Hc & Hi). case_decide; [done|]. apply o_bind_Ok in Hi as (x & _ & Hi).
    apply o_bind_Ok in Hi as (y & _ & Hi). apply o_bind_Ok in Hi as (priv & _ & [= _ <-]).
    apply ECDSAToJWK_text; [by eapply Hkty; [exact He|repeat constructor]| |done].
    unfold resolveCurve in Hc. repeat case_decide; try done; by injection Hc as <- <-.
Qed.

Lemma agrees_ImportKey e name req : keys_agree f (ImportKey_ e name req).
Proof.
  intros s d Hr (Hops & Htags & Hatt & Hnew & Himp). pose proof (run_key_gate name s d Hr) as Hgate.
  cbn [keys_in_sql keys_in_memory]. unfold SqlKeys.ImportKey, KeyStore.ImportKey.
  destruct (decide (name = ""%string)); [done|]. destruct (decide (jwk_Kty (ikr_Key req) = ""%string)); [done|].
  rewrite m_get_bind. revert Hgate. destruct (decide (is_Some (deletedKeys s !! name))); intros Hgate.
  { by rewrite (run_bind_Err _ _ _ _ _ Hgate). }
  rewrite (run_bind_Ok _ _ _ _ _ Hgate).
  destruct (KeyCrypto.ImportKey (ikr_Key req) "") as [[m k]| |] eqn:Hg; [|done..].
  cbn [o_maperr p_bind]. rewrite m_lift_Ok_bind. pose proof (Himp m k Hg) as Hm.
  pose proof (imported_text _ _ _ Hg Hops) as Hk.
  unfold SqlCore.newVersion. cbv zeta. destruct (newVersion_cases e) as [->| ->]; [|done].
  cbn [p_bind]. rewrite m_lift_Ok_bind. apply (agrees_append e name); try done.
  - split; [apply buildAttributes_int64; [done|apply wrap64_range..]|by destruct (ikr_Attributes req)].
  - cbn. unfold SqlCore.cloneTags. by rewrite cloneTags_id.
Qed.

Lemma update_key_ok e req x ts name m :
  key_snapshot_ok x → material_text m (ks_Material x) →
  (∀ ops, ukr_KeyOps req = Some ops → Forall (λ s, utf8_valid s = true) ops) → tags_ok (ukr_Tags req) →
  request_int64 (ukr_Attributes req) → in_int64 ts →
  key_snapshot_ok (key_snapshot_of (update_key_record e req (key_snapshot_record name x)) (ks_Material x) ts).
Proof.
  intros (Hv & [Hk Hkops] & _ & [Ha Hlev] & Ht & Hc) Hm Hops Hrt Hra Hts.
  apply (key_snapshot_of_ok _ m); try done; unfold update_key_record; cbn.
  - destruct (ukr_KeyOps req) as [ops|]; [|by split]. split; [exact Hk|by apply Hops].
  - split; [by apply mergeAttributes_int64|done].
  - unfold SqlCore.cloneTags. destruct (ukr_Tags req) eqn:E; by rewrite !cloneTags_id.
Qed.

Lemma agrees_UpdateKey e name version req : keys_agree f (UpdateKey_ e name version req).
Proof.
  intros s d Hr (Hops & Htags & Hatt). destruct (mir_live _ _ _ d Hr name) as (l & Hl & Hs & He).
  cbn [keys_in_sql keys_in_memory]. unfold SqlKeys.UpdateKey, KeyStore.UpdateKey. monad_unfold. rewrite He.
  pose proof (run_getKeyVersionRow f name version d l Hl Hs) as Hrow.
  destruct (find_snapshot l version) as [[i x]|] eqn:Hf; cycle 1.
  { rewrite (run_bind_Err _ _ _ _ _ Hrow). destruct l as [|s0 l0]; [done|].
    change (entry_at key_mirror name (s0 :: l0)) with (Some (key_entry_of name (s0 :: l0))). cbv beta iota zeta.
    by rewrite findKeyVersion_entry, Hf. }
  rewrite (run_bind_Ok _ _ _ _ _ Hrow). pose proof (find_snapshot_Some _ _ _ _ Hf) as Hi.
  rewrite entry_at_Some by (by destruct l). cbn [mir_entry key_mirror]. rewrite findKeyVersion_entry, Hf.
  cbn [fmap option_fmap option_map prod_map id kv_record kv_material key_version_of fst snd].
  cbv zeta. set (rec := update_key_record e req (key_snapshot_record name x)).
  pose proof (proj1 (Forall_lookup _ _) (tl_ok _ Hl) _ _ Hi) as Hx.
  destruct (decoded_key_columns x Hx) as (_ & Hd & Hm & _).
  destruct (run_update_key f ("UPDATE kv_keys SET jwk = " ++ ph f 1 ++ ", attributes = " ++ ph f 2 ++ ", tags = " ++ ph f 3 ++
      " WHERE name = " ++ ph f 4 ++ " AND version = " ++ ph f 5)%string rec d l i x ltac:(sent) Hl Hs Hi eq_refl)
    as (d' & Hrun & Hs' & Hel & Hg).
  cbn [marshalJWK marshalAttrs marshalTags p_bind]. rewrite (run_bind_Ok _ _ _ _ _ Hrun).
  split; [by cbn; rewrite cloneKeyRecord_id|].
  assert (mir_entry key_mirror name (<[i := key_snapshot_of rec (ks_Material x) (ks_CreatedAt x)]> l) =
    mkKeyEntry (<[i := mkKeyVersion rec (material_of x)]> (key_version_of name <$> l))) as Hent.
  { cbn [mir_entry key_mirror]. unfold key_entry_of. by rewrite list_fmap_insert, (key_version_of_snapshot rec (material_of x)). }
  enough (mirrors key_mirror (<[name := mir_entry key_mirror name (<[i := key_snapshot_of rec (ks_Material x) (ks_CreatedAt x)]> l)]> (keys s))
    (deletedKeys s) d') as Hput by by rewrite Hent in Hput.
  apply (mirrors_put _ name _ _ _ d); [done| |by destruct l, i|done..].
  apply (timeline_update l i x); [done..|]. apply (update_key_ok e req x _ name (material_of x)); [done|by split|done..|]. apply Hx.
Qed.

Lemma agrees_DeleteKey e name : keys_agree f (DeleteKey_ e name).
Proof.
  intros s d Hr Hrand. cbn [key_ready] in Hrand. destruct (mir_live _ _ _ d Hr name) as (l & Hl & Hs & He).
  pose proof (mir_gone _ _ _ d Hr name) as Hg. unfold same_gone in Hg.
  cbn [keys_in_sql keys_in_memory]. unfold SqlKeys.DeleteKey, KeyStore.DeleteKey. monad_unfold. rewrite He.
  pose proof (run_getKeyVersionRow f name "" d l Hl Hs) as Hrow.
  destruct (decide (l = [])) as [->|Hne].
  { rewrite find_snapshot_nil in Hrow. by rewrite (run_bind_Err _ _ _ _ _ Hrow). }
  destruct (last l) as [x|] eqn:Hlast; [|by apply last_None in Hlast].
  assert (find_snapshot l "" = Some ((length l - 1)%nat, x)) as Hf.
  { unfold find_snapshot. rewrite decide_True by done. unfold last_ptr. by rewrite Hlast. }
  rewrite Hf in Hrow. rewrite (run_bind_Ok _ _ _ _ _ Hrow).
  pose proof (run_count_deleted f ("SELECT COUNT(*) FROM kv_deleted_keys WHERE name = " ++ ph f 1)%string Keys name d ltac:(sent)) as Hc.
  rewrite entry_at_Some by done.
  destruct (gone Keys d !! name) as [g|] eqn:Eg.
  { destruct Hg as (e0 & -> & _). rewrite decide_True in Hc by done. by rewrite (run_bind_Ok _ _ _ _ _ Hc), !decide_True. }
  rewrite decide_False in Hc by (by intros []). rewrite (run_bind_Ok _ _ _ _ _ Hc), Hg.
  rewrite !decide_False by first [by intros []|lia].
  rewrite (run_bind_Ok _ _ _ _ _ (run_allKeyVersionSnapshots f name d l Hl Hs)). cbv zeta.
  unfold SqlCore.newRecoveryID. rewrite newRecoveryID_cases, Hrand. cbn [p_bind].
  destruct (run_insert_deleted f ("INSERT INTO kv_deleted_keys (name, recovery_id, deleted_date, scheduled_purge_date, versions) VALUES (" ++
      phs f 1 5 ++ ")")%string Keys name ("/deleted" ++ "keys" ++ "/" ++ name ++ "/" ++ version_id e)%string (nowUnix e)
      (scheduledPurge (nowUnix e)) (marshal (json_of_key_payload l)) d ltac:(sent) Eg) as (d1 & Hrun1 & Hlive1 & Hgone1).
  rewrite (run_bind_Ok _ _ _ _ _ Hrun1).
  destruct (run_delete_rows f (R:=key_rows) ("DELETE FROM kv_keys WHERE name = " ++ ph f 1)%string name d1 ltac:(sent))
    as (d2 & Hrun2 & Hs2 & Hel2 & Hgone2).
  rewrite (run_bind_Ok _ _ _ _ _ Hrun2). cbn [latestKey mir_entry key_mirror key_entry_of ke_versions].
  unfold last_ptr. rewrite fmap_last, Hlast. cbn.
  split; [by rewrite cloneKeyRecord_id|].
  apply (mirrors_delete key_mirror name l _ _ _ _ _ d); [done..| |].
  - intros n v Hn. by rewrite Hel2, Hlive1.
  - by rewrite Hgone2, Hgone1.
Qed.

(** *** Recovery *)

(** The times a recovery gives. *)
Definition recovered_key (name : string) (p : nat * key_snapshot) : key_snapshot :=
  key_snapshot_of (key_snapshot_record name p.2) (ks_Material p.2) (wrap64 (ks_CreatedAt p.2 + Z.of_nat p.1)).

Lemma timeline_recovered_keys name l :
  timeline l → Forall (λ s, ks_CreatedAt s + Z.of_nat (length l) ≤ max_int64) l →
  timeline (recovered_key name <$> imap pair l).
Proof.
  intros Hl Hmax. apply (timeline_restamp (R:=key_rows)); [done| | |done].
  - apply Forall_and. split; [|exact Hmax]. eapply Forall_impl; [apply Hl|]. by intros s (_ & _ & _ & _ & _ & ?).
  - intros p (Hv & Hk & Hm & Ha & Ht & _). split_and!; try done; [|apply wrap64_range].
    cbn. unfold SqlCore.cloneTags. by rewrite cloneTags_id.
Qed.

Lemma key_entry_of_recovered name l : key_entry_of name (recovered_key name <$> imap pair l) = key_entry_of name l.
Proof.
  unfold key_entry_of. f_equal. rewrite <-(imap_pair_snd l) at 2. rewrite <-!list_fmap_compose. apply list_fmap_ext. intros i p _.
  unfold key_version_of, key_snapshot_record, recovered_key, key_snapshot_of, SqlCore.cloneTags, material_of. cbn.
  by rewrite !cloneTags_id.
Qed.

(** The rows of a recovery: the material is parsed and written again. *)
Lemma run_insert_recovered name l d :
  stored name d ([] : list key_snapshot) → timeline l → timeline (recovered_key name <$> imap pair l) →
  ∃ d', run (p_iter (λ p : nat * key_snapshot,
      let+ material := Done (deserializeKeyMaterial (ks_Material p.2)) in
      insertKeyRow f (key_snapshot_record name p.2) material (wrap64 (ks_CreatedAt p.2 + Z.of_nat p.1))) (imap pair l)) d = (Ok (), d') ∧
    stored name d' (recovered_key name <$> imap pair l) ∧ elsewhere Keys name d d' ∧ gone Keys d' = gone Keys d.
Proof.
  intros Hs Hl Htl. apply (run_insert_rows (R:=key_rows) name _ (recovered_key name) (imap pair l)) with (l := []).
  2: done. 2: exact (tl_versions _ Htl).
  intros p d1 l1 Hp Hs1 Hnew.
  pose proof (proj1 (Forall_forall _ _) (Forall_imap_pair _ _ (tl_ok _ Hl)) p Hp) as Hok. cbn in Hok.
  destruct (decoded_key_columns p.2 Hok) as (_ & -> & Hm & _). cbn [p_bind].
  apply (run_insertKeyRow f (key_snapshot_record name p.2)); [exact Hm|done|done].
Qed.

Lemma agrees_RecoverDeletedKey name : keys_agree f (RecoverDeletedKey_ name).
Proof.
  intros s d Hr Hmax. destruct (mir_live _ _ _ d Hr name) as (l & Hl & Hs & He).
  pose proof (mir_gone _ _ _ d Hr name) as Hg. unfold same_gone in Hg.
  cbn [keys_in_sql keys_in_memory]. unfold SqlKeys.RecoverDeletedKey, KeyStore.RecoverDeletedKey. monad_unfold. rewrite He.
  rewrite (run_bind_Ok _ _ _ _ _ (run_keys_count f name d l Hl Hs)).
  destruct l as [|s0 l]; [|by rewrite !decide_True by first [by eexists|cbn; lia]]. rewrite !decide_False by first [by intros []|done].
  pose proof (run_getDeletedKeyRow f name d) as Hrow.
  destruct (gone Keys d !! name) as [g|] eqn:Eg; [|by rewrite (run_bind_Err _ _ _ _ _ Hrow), Hg].
  destruct Hg as (e & -> & l & Hne & Hl' & Hgv & ->). rewrite (run_bind_Ok _ _ _ _ _ Hrow). cbn [dr_Versions].
  cbn [mir_payload key_mirror] in Hgv. pose proof (key_payload_round_trip l (tl_ok _ Hl')) as Hpay.
  rewrite Hgv, Hpay. cbn [p_bind].
  assert (timeline (recovered_key name <$> imap pair l)) as Htl.
  { apply timeline_recovered_keys; [done|]. apply (Hmax g); [done|]. by rewrite Hgv. }
  destruct (run_insert_recovered name l d Hs Hl' Htl) as (d1 & Hrun1 & Hs1 & Hel1 & Hg1).
  rewrite (run_bind_Ok _ _ _ _ _ Hrun1).
  destruct (run_delete_deleted f ("DELETE FROM kv_deleted_keys WHERE name = " ++ ph f 1)%string Keys name d1 ltac:(sent))
    as (d2 & Hrun2 & _ & Hlive2 & Hgone2).
  rewrite (run_bind_Ok _ _ _ _ _ Hrun2). cbn [run mir_grave mir_entry key_mirror dke_entry latestKey key_entry_of ke_versions].
  unfold last_ptr, last_of. rewrite fmap_last. destruct (last l) as [x|] eqn:Hlast; [|by apply last_None in Hlast].
  cbn. split; [by rewrite cloneKeyRecord_id|].
  unfold related_keys. cbn. rewrite <-(key_entry_of_recovered name l).
  apply (mirrors_recover key_mirror name (recovered_key name <$> imap pair l) _ _ d); [done|done|by destruct l| | |by rewrite Hgone2, Hg1].
  - eapply stored_ext; [|exact Hs1]. intros v. by rewrite Hlive2.
  - intros n v Hn. by rewrite Hlive2, Hel1.
Qed.

(** *** Lists, on a database that orders names byte by byte *)

Hypothesis Hcollation : name_le = String.le.

Lemma agrees_ListKeys m t : keys_agree f (ListKeys_ m t).
Proof.
  intros s d Hr _. cbn [keys_in_sql keys_in_memory]. unfold SqlKeys.ListKeys, KeyStore.ListKeys. monad_unfold.
  destruct (run_names f "SELECT DISTINCT name FROM kv_keys ORDER BY name" Keys d ltac:(sent) Hcollation)
    as (names & Hrun & Hnd & Hsort & Hin).
  assert (names = sorted_keys (keys s)) as -> by by apply (mirrors_live_names _ _ _ _ _ Hr).
  rewrite (run_bind_Ok _ _ _ _ _ Hrun). unfold SqlCore.paginateNames.
  destruct (StoreCore.paginateNames (sorted_keys (keys s)) t m) as [[page next]| |] eqn:Hp; [|done..]. cbn [p_bind].
  lazymatch goal with |- context [omap ?look page] =>
    rewrite (run_bind_Ok _ _ _ (omap look page) d); [done|apply run_page] end.
  intros n Hn. eapply paginateNames_elem in Hn; [|done]. apply elem_of_sorted_keys in Hn.
  destruct (mir_live _ _ _ d Hr n) as (l & Hl & Hs & He). rewrite He in Hn |- *.
  assert (l ≠ []) as Hne by (intros ->; by destruct Hn). pose proof Hne as [x Hx]%last_Some_ne.
  exists (key_snapshot_record n x). split.
  - rewrite entry_at_Some by done. cbn [mir_entry key_mirror key_entry_of latestKey ke_versions]. unfold last_ptr.
    rewrite fmap_last, Hx. cbn. by rewrite cloneKeyRecord_id.
  - pose proof (run_getKeyVersionRow f n "" d l Hl Hs) as Hrow. unfold find_snapshot, last_ptr in Hrow.
    rewrite decide_True, Hx in Hrow by done. by rewrite (run_bind_Ok _ _ _ _ _ Hrow).
Qed.

Lemma agrees_ListDeletedKeys m t : keys_agree f (ListDeletedKeys_ m t).
Proof.
  intros s d Hr _. cbn [keys_in_sql keys_in_memory]. unfold SqlKeys.ListDeletedKeys, KeyStore.ListDeletedKeys. monad_unfold.
  pose proof (mirrors_gone_names _ _ _ _ Hr) as Hkeys.
  rewrite (run_bind_Ok _ _ _ _ _ (run_deleted_names f "SELECT name FROM kv_deleted_keys ORDER BY name" Keys d ltac:(sent) Hcollation)).
  rewrite Hkeys. unfold SqlCore.paginateNames.
  destruct (StoreCore.paginateNames (sorted_keys (deletedKeys s)) t m) as [[page next]| |] eqn:Hp; [|done..]. cbn [p_bind].
  lazymatch goal with |- context [o_traverse ?look page] => lazymatch goal with |- context [p_traverse ?g page] =>
    destruct (run_page_traverse g look page d) as (xs & -> & Hrun); [|by rewrite (run_bind_Ok _ _ _ _ _ Hrun)] end end.
  intros n Hn. eapply paginateNames_elem in Hn; [|done]. apply elem_of_sorted_keys in Hn.
  pose proof (mir_gone _ _ _ d Hr n) as Hg. unfold same_gone in Hg. pose proof (run_getDeletedKeyRow f n d) as Hrow.
  destruct (gone Keys d !! n) as [g|]; [|rewrite Hg in Hn; by destruct Hn].
  destruct Hg as (e & -> & Hent). rewrite (run_bind_Ok _ _ _ _ _ Hrow).
  destruct (same_key_entry_Ok n e g Hent) as [x Hx]. exists x. split; [done|].
  by rewrite (run_deletedKeyFromRow n g e d Hent), Hx.
Qed.

Lemma all_keys_agree {A} (c : key_call A) : keys_agree f c.
Proof.
  destruct c; [apply agrees_CreateKey|apply agrees_ImportKey|apply agrees_GetKey|apply agrees_ListKeys
    |apply agrees_ListKeyVersions|apply agrees_UpdateKey|apply agrees_DeleteKey|apply agrees_ListDeletedKeys
    |apply agrees_GetDeletedKey|apply agrees_PurgeDeletedKey|apply agrees_RecoverDeletedKey|apply agrees_Encrypt
    |apply agrees_Decrypt|apply agrees_Sign|apply agrees_Verify|apply agrees_WrapKey|apply agrees_UnwrapKey].
Qed.
End simulation.
