(* ===== verification/SqlMemory.v ===== *)
(** * The SQL store and the in-memory store give the same answers

    [secret_call] is the part of store.Storer that is about secrets, by the
    type of its answers.  [related] relates a store of maps to a database, and
    every call keeps it and answers the same from both, run by run, on an
    engine that does not fail. *)

From S2P Require Import Prelude GoStrings GoUtf8 GoBase64 GoJson JsonFacts GoSql Model StoreCore SecretStore SecretBackup SqlSchema SqlCore SqlSecrets SqlFacts SqlRows SqlMirror SqlTimeline.

Inductive secret_call : Type → Type :=
| SetSecret_ (e : Env) (name : string) (req : SecretSetRequest) : secret_call SecretRecord
| GetSecret_ (name version : string) : secret_call SecretRecord
| ListSecrets_ (maxResults : Z) (skipToken : string) : secret_call (list SecretRecord * option string)
| ListSecretVersions_ (name : string) (maxResults : Z) (skipToken : string) : secret_call (list SecretRecord * option string)
| UpdateSecret_ (e : Env) (name version : string) (req : SecretUpdateRequest) : secret_call SecretRecord
| DeleteSecret_ (e : Env) (name : string) : secret_call DeletedSecretRecord
| ListDeletedSecrets_ (maxResults : Z) (skipToken : string) : secret_call (list DeletedSecretRecord * option string)
| GetDeletedSecret_ (name : string) : secret_call DeletedSecretRecord
| PurgeDeletedSecret_ (name : string) : secret_call unit
| RecoverDeletedSecret_ (name : string) : secret_call SecretRecord
| BackupSecret_ (name : string) : secret_call string
| RestoreSecret_ (token : string) : secret_call SecretRecord.

Definition in_memory {A} (c : secret_call A) : SM A :=
  match c with
  | SetSecret_ e name req => SecretStore.SetSecret e name req
  | GetSecret_ name version => SecretStore.GetSecret name version
  | ListSecrets_ m t => SecretStore.ListSecrets m t
  | ListSecretVersions_ name m t => SecretStore.ListSecretVersions name m t
  | UpdateSecret_ e name version req => SecretStore.UpdateSecret e name version req
  | DeleteSecret_ e name => SecretStore.DeleteSecret e name
  | ListDeletedSecrets_ m t => SecretStore.ListDeletedSecrets m t
  | GetDeletedSecret_ name => SecretStore.GetDeletedSecret name
  | PurgeDeletedSecret_ name => SecretStore.PurgeDeletedSecret name
  | RecoverDeletedSecret_ name => SecretStore.RecoverDeletedSecret name
  | BackupSecret_ name => SecretBackup.BackupSecret name
  | RestoreSecret_ token => SecretBackup.RestoreSecret token
  end.

Definition in_sql `{JsonErrors} (f : DBFlavor) {A} (c : secret_call A) : SP A :=
  match c with
  | SetSecret_ e name req => SqlSecrets.SetSecret f e name req
  | GetSecret_ name version => SqlSecrets.GetSecret f name version
  | ListSecrets_ m t => SqlSecrets.ListSecrets f m t
  | ListSecretVersions_ name m t => SqlSecrets.ListSecretVersions f name m t
  | UpdateSecret_ e name version req => SqlSecrets.UpdateSecret f e name version req
  | DeleteSecret_ e name => SqlSecrets.DeleteSecret f e name
  | ListDeletedSecrets_ m t => SqlSecrets.ListDeletedSecrets f m t
  | GetDeletedSecret_ name => SqlSecrets.GetDeletedSecret f name
  | PurgeDeletedSecret_ name => SqlSecrets.PurgeDeletedSecret f name
  | RecoverDeletedSecret_ name => SqlSecrets.RecoverDeletedSecret f name
  | BackupSecret_ name => SqlSecrets.BackupSecret f name
  | RestoreSecret_ token => SqlSecrets.RestoreSecret f token
  end.

(** ** What the two stores hold *)

Definition version_of (name : string) (s : snapshot) : secretVersion := mkSecretVersion (snapshot_record name s).
Definition entry_of (name : string) (l : list snapshot) : secretEntry := mkSecretEntry (version_of name <$> l).
Definition secret_mirror : mirror Secrets snapshot secretEntry deletedSecretEntry :=
  Mirror entry_of mkDeletedSecretEntry (λ l, marshal (json_of_secret_payload l)).

Section related.
Context `{JE : JsonErrors} (f : DBFlavor) {D : SqlEngine} {T : SqlTables D}.

(** The same secrets, live and deleted. *)
Definition related (s : Store) (d : sdb) : Prop := mirrors secret_mirror (secrets s) (deletedSecrets s) d.

(** ** What the stores need of a call *)


Definition ready {A} (c : secret_call A) (d : sdb) : Prop :=
  match c with
  | SetSecret_ e name req =>
      (** the request is text and 64-bit integers *)
      utf8_valid (ssr_Value req) = true ∧ utf8_valid (ssr_ContentType req) = true ∧ tags_ok (ssr_Tags req) ∧
      request_int64 (ssr_Attributes req) ∧
      (** the identifier is new, and the clock is past the rows of the name *)
      ∀ v r, live Secrets d !! (name, v) = Some r → v ≠ version_id e ∧ r.2 < tsNano e 1
  | UpdateSecret_ e _ _ req =>
      (∀ ct, sur_ContentType req = Some ct → utf8_valid ct = true) ∧ tags_ok (sur_Tags req) ∧
      request_int64 (sur_Attributes req)
  | DeleteSecret_ e _ => rand_ok e 0 = true
  | RecoverDeletedSecret_ name =>
      (** the new times do not overflow *)
      ∀ g l, gone Secrets d !! name = Some g → unmarshal_secret_payload (g_versions g) = Ok l →
        Forall (λ s, ss_CreatedAt s + Z.of_nat (length l) ≤ max_int64) l
  | RestoreSecret_ token =>
      (** the blob is one that BackupSecret could have made *)
      ∀ raw payload, b64_DecodeString StdEncoding token = Ok raw → unmarshal_backup raw = Some payload →
        let versions := take (bk_Versions payload).1 (bk_Versions payload).2 in
        Forall (λ r, secret_ok r ∧ RecoveryLevel (sr_Attributes r) = StoreCore.recoveryLevel ∧
          RecoverableDays (sr_Attributes r) = StoreCore.recoverableDays) versions ∧
        NoDup (sr_Version <$> versions) ∧ Z.of_nat (length versions) ≤ max_int64
  | _ => True
  end.

(** The two stores answer the same and stay related. *)
Definition agrees {A} (c : secret_call A) : Prop := ∀ s d,
  related s d → ready c d →
  (run (in_sql f c) d).1 = (in_memory c s).1 ∧ related (in_memory c s).2 (run (in_sql f c) d).2.
End related.

(** ** Versions *)

Section versions.
Lemma findSecretVersion_entry name l version :
  findSecretVersion (entry_of name l) version = prod_map id (version_of name) <$> find_snapshot l version.
Proof.
  unfold findSecretVersion, find_snapshot, entry_of. cbn [latestSecret se_versions]. case_decide.
  - unfold last_ptr. rewrite fmap_last, length_fmap. by destruct (last l).
  - rewrite list_find_fmap. f_equal.
Qed.

Lemma cloneSecretRecord_snapshot name s : cloneSecretRecord (snapshot_record name s) = snapshot_record name s.
Proof. apply cloneSecretRecord_id. Qed.

Lemma version_of_snapshot rec ts : version_of (sr_Name rec) (snapshot_of rec ts) = mkSecretVersion rec.
Proof. unfold version_of, snapshot_record, snapshot_of, SqlCore.cloneTags. cbn. rewrite cloneTags_id. by destruct rec. Qed.
End versions.

(** ** Each call agrees *)

Section simulation.
Context `{JE : JsonErrors} (f : DBFlavor) {D : SqlEngine} {T : SqlTables D} {HL : SqlLaws f T} {HR : SqlReliable f T}.

Lemma agrees_GetSecret name version : agrees f (GetSecret_ name version).
Proof.
  intros s d Hr _. destruct (mir_live _ _ _ d Hr name) as (l & Hl & Hs & He).
  cbn [in_sql in_memory]. unfold SqlSecrets.GetSecret. rewrite (run_getSecretVersionRow f name version d l) by done.
  unfold SecretStore.GetSecret, m_bind, m_get. rewrite He.
  destruct l as [|s0 l]; [by rewrite find_snapshot_nil|].
  unfold entry_at. rewrite findSecretVersion_entry. destruct (find_snapshot _ version) as [[i x]|]; [|done].
  cbn. by rewrite cloneSecretRecord_id.
Qed.

Lemma run_secrets_count name d (l : list snapshot) : timeline l → stored name d l →
  run (db_QueryRow ("SELECT COUNT(*) FROM kv_secrets WHERE name = " ++ ph f 1)%string [VText name] scan_count) d =
    (Ok (Z.of_nat (length l)), d).
Proof. intros Hl Hs. apply (run_versions_count f); [sent|done..]. Qed.

Lemma agrees_ListSecretVersions name m t : agrees f (ListSecretVersions_ name m t).
Proof.
  intros s d Hr _. destruct (mir_live _ _ _ d Hr name) as (l & Hl & Hs & He).
  cbn [in_sql in_memory]. unfold SqlSecrets.ListSecretVersions.
  rewrite (run_bind_Ok _ _ _ _ _ (run_secrets_count name d l Hl Hs)).
  unfold SecretStore.ListSecretVersions, m_bind, m_get. rewrite He.
  destruct l as [|s0 l0]; [done|]. rewrite decide_False by done. set (l := s0 :: l0) in *.
  change (entry_at secret_mirror name l) with (Some (entry_of name l)). 
  rewrite (run_bind_Ok _ _ _ _ _ (run_listed_versions f
    ("SELECT version, content_type, attributes, tags FROM kv_secrets WHERE name = " ++ ph f 1 ++ " ORDER BY created_at DESC")%string
    name d l ltac:(sent) Hl Hs)).
  cbn [run fst snd]. split; [|done]. unfold m_lift. cbn [fst]. unfold SqlCore.paginateNames. f_equal.
  unfold entry_of. cbn [se_versions]. rewrite <-fmap_reverse, <-list_fmap_compose. apply list_fmap_ext.
  intros i x _. unfold listed_record. cbn. by rewrite cloneSecretRecord_id.
Qed.

Lemma agrees_BackupSecret name : agrees f (BackupSecret_ name).
Proof.
  intros s d Hr _. destruct (mir_live _ _ _ d Hr name) as (l & Hl & Hs & He).
  cbn [in_sql in_memory]. unfold SqlSecrets.BackupSecret.
  pose proof (run_getSecretVersionRow f name "" d l Hl Hs) as Hrow.
  unfold SecretBackup.BackupSecret, m_bind, m_get. rewrite He.
  destruct l as [|s0 l0]; [by rewrite (run_bind_Err _ _ _ _ _ Hrow)|]. set (l := s0 :: l0) in *.
  change (entry_at secret_mirror name l) with (Some (entry_of name l)).
  destruct (find_snapshot l "") as [[i x]|] eqn:Hf.
  - rewrite (run_bind_Ok _ _ _ _ _ Hrow), (run_bind_Ok _ _ _ _ _ (run_allSecretVersionSnapshots f name d l Hl Hs)).
    cbn [run p_ret fst snd]. split; [|done]. unfold m_ret. cbn [fst]. do 4 f_equal. unfold entry_of. cbn [se_versions].
    rewrite <-list_fmap_compose. apply list_fmap_ext. intros j y _. cbn. by rewrite cloneSecretRecord_id.
  - exfalso. unfold find_snapshot in Hf. rewrite decide_True in Hf by done. unfold last_ptr in Hf.
    destruct (last l) eqn:E; [done|]. by apply last_None in E.
Qed.

Lemma run_deletedSecretFromRow name g e d :
  same_entry secret_mirror name e g →
  run (Done (deletedSecretFromRow (mkDeletedRow name (g_recovery_id g) (g_deleted g) (g_purge g) (g_versions g)))) d =
    (deleted_secret_record e, d).
Proof.
  intros (l & Hne & Hl & Hg & ->). cbn [run]. f_equal. unfold deletedSecretFromRow, deleted_secret_record. cbn.
  cbn [mir_payload secret_mirror] in Hg. rewrite Hg. destruct (secret_payload_total l) as (l' & -> & _ & ->).
  { eapply Forall_impl; [apply Hl|]. apply snapshot_ok_int64. }
  2:{ apply Hl. }
  cbn [o_bind]. unfold last_ptr. rewrite fmap_last. apply last_Some_ne in Hne as [s ->].
  cbn. by rewrite cloneSecretRecord_id.
Qed.

Lemma same_entry_Ok name e g : same_entry secret_mirror name e g → ∃ x, deleted_secret_record e = Ok x.
Proof.
  intros (l & [x Hx]%last_Some_ne & _ & _ & ->). unfold deleted_secret_record. cbn. unfold last_ptr.
  rewrite fmap_last, Hx. by eexists.
Qed.

Lemma agrees_GetDeletedSecret name : agrees f (GetDeletedSecret_ name).
Proof.
  intros s d Hr _. pose proof (mir_gone _ _ _ d Hr name) as Hg. unfold same_gone in Hg.
  cbn [in_sql in_memory]. unfold SqlSecrets.GetDeletedSecret. rewrite run_bind. unfold m_bind.
  rewrite (run_getDeletedSecretRow f). unfold SecretStore.GetDeletedSecret, m_bind, m_get.
  destruct (gone Secrets d !! name) as [g|]; [|by rewrite Hg]. destruct Hg as (e & -> & He).
  by rewrite (run_deletedSecretFromRow name g e d He).
Qed.

Lemma agrees_PurgeDeletedSecret name : agrees f (PurgeDeletedSecret_ name).
Proof.
  intros s d Hr _. pose proof (mir_gone _ _ _ d Hr name) as Hg. unfold same_gone in Hg.
  cbn [in_sql in_memory]. unfold SqlSecrets.PurgeDeletedSecret. rewrite run_bind. unfold m_bind.
  rewrite (run_getDeletedSecretRow f). unfold SecretStore.PurgeDeletedSecret, m_bind, m_get.
  destruct (gone Secrets d !! name) as [g|] eqn:Eg; [|by rewrite Hg]. destruct Hg as (e & Hs & He).
  rewrite decide_True by by rewrite Hs.
  destruct (run_delete_deleted f ("DELETE FROM kv_deleted_secrets WHERE name = " ++ ph f 1)%string Secrets name d ltac:(sent))
    as (d' & -> & _ & Hlive & Hgone).
  split; [done|]. by apply (mirrors_purge _ name _ _ d).
Qed.

Lemma agrees_SetSecret e name req : agrees f (SetSecret_ e name req).
Proof.
  intros s d Hr (Hval & Hct & Htags & Hatt & Hnew). destruct (mir_live _ _ _ d Hr name) as (l & Hl & Hs & He).
  pose proof (mir_gone _ _ _ d Hr name) as Hg. unfold same_gone in Hg.
  cbn [in_sql in_memory]. unfold SqlSecrets.SetSecret, SecretStore.SetSecret.
  destruct (decide (name = ""%string)); [done|]. destruct (decide (ssr_Value req = ""%string)); [done|].
  monad_unfold. pose proof (run_checkNotDeleted f name d) as Hcheck.
  destruct (gone Secrets d !! name) as [g|] eqn:Eg.
  { destruct Hg as (e0 & Hs0 & _). rewrite decide_True in Hcheck by done.
    rewrite (run_bind_Err _ _ _ _ _ Hcheck). by rewrite Hs0, decide_True. }
  rewrite decide_False in Hcheck by (by intros []). rewrite (run_bind_Ok _ _ _ _ _ Hcheck), Hg.
  rewrite decide_False by (by intros []). unfold SqlCore.newVersion. cbv zeta.
  destruct (newVersion_cases e) as [->| ->]; [|done]. cbn [p_bind].
  set (rec := mkSecretRecord _ _ _ _ _ _).
  assert (snapshot_ok (snapshot_of rec (tsNano e 1))) as Hok.
  { split_and!; [apply version_id_utf8|done|done| |by cbn; unfold SqlCore.cloneTags; rewrite cloneTags_id|apply wrap64_range].
    split; [|by destruct (ssr_Attributes req)]. apply buildAttributes_int64; [done|apply wrap64_range..]. }
  assert (version_id e ∉ ss_Version <$> l ∧ Forall (λ a, before a (snapshot_of rec (tsNano e 1))) l) as [Hfresh Hbefore].
  { split.
    - intros (x & Hx & Hin)%list_elem_of_fmap. by destruct (Hnew (ss_Version x) (row_of x).2) as [Hne _];
        [apply Hs; exact (list_elem_of_fmap_2 row_of l x Hin)|rewrite Hx in Hne].
    - apply Forall_forall. intros x Hin. apply (Hnew (ss_Version x) (row_of x).2). apply Hs. exact (list_elem_of_fmap_2 row_of l x Hin). }
  destruct (run_insertSecretRow f rec (tsNano e 1) d l Hs Hfresh) as (d' & Hrun & Hs' & Hel & Hgd).
  rewrite (run_bind_Ok _ _ _ _ _ Hrun). split; [by cbn; rewrite cloneSecretRecord_id|].
  assert (mir_entry secret_mirror name (l ++ [snapshot_of rec (tsNano e 1)]) =
    mkSecretEntry (se_versions (default (mkSecretEntry []) (secrets s !! name)) ++ [mkSecretVersion rec])) as Hent.
  { rewrite He. cbn [mir_entry secret_mirror]. unfold entry_of. rewrite fmap_app. cbn [fmap list_fmap].
    rewrite (version_of_snapshot rec). by destruct l. }
  unfold related. cbn. rewrite <-Hent. apply (mirrors_put _ name _ _ _ d); [done|by apply timeline_snoc|by destruct l|done..].
Qed.

Lemma update_secret_ok e req s ts name :
  snapshot_ok s → (∀ ct, sur_ContentType req = Some ct → utf8_valid ct = true) → tags_ok (sur_Tags req) →
  request_int64 (sur_Attributes req) → in_int64 ts →
  snapshot_ok (snapshot_of (update_secret_record e req (snapshot_record name s)) ts).
Proof.
  intros (Hv & Hval & Hct & [Ha _] & Ht & Hc) Hrct Hrt Hra Hts. unfold update_secret_record, snapshot_of. cbn.
  split_and!; [done|done| | | |done].
  - cbn. destruct (sur_ContentType req); [by apply Hrct|done].
  - split; [by apply mergeAttributes_int64|done].
  - unfold SqlCore.cloneTags. cbn. destruct (sur_Tags req) eqn:E; [by rewrite cloneTags_id|by rewrite cloneTags_id].
Qed.

Lemma agrees_UpdateSecret e name version req : agrees f (UpdateSecret_ e name version req).
Proof.
  intros s d Hr (Hct & Htags & Hatt). destruct (mir_live _ _ _ d Hr name) as (l & Hl & Hs & He).
  cbn [in_sql in_memory]. unfold SqlSecrets.UpdateSecret, SecretStore.UpdateSecret. monad_unfold. rewrite He.
  pose proof (run_getSecretVersionRow f name version d l Hl Hs) as Hrow.
  destruct (find_snapshot l version) as [[i x]|] eqn:Hf; cycle 1.
  { rewrite (run_bind_Err _ _ _ _ _ Hrow). destruct l as [|s0 l0]; [done|].
    change (entry_at secret_mirror name (s0 :: l0)) with (Some (entry_of name (s0 :: l0))). cbv beta iota zeta.
    by rewrite findSecretVersion_entry, Hf. }
  rewrite (run_bind_Ok _ _ _ _ _ Hrow). pose proof (find_snapshot_Some _ _ _ _ Hf) as Hi.
  rewrite entry_at_Some, findSecretVersion_entry, Hf by (by destruct l). cbn [fmap option_fmap option_map prod_map id sv_record version_of].
  cbv zeta. set (rec := update_secret_record e req (snapshot_record name x)).
  pose proof (proj1 (Forall_lookup _ _) (tl_ok _ Hl) _ _ Hi) as Hx.
  destruct (run_update_secret f ("UPDATE kv_secrets SET content_type = " ++ ph f 1 ++ ", attributes = " ++ ph f 2 ++ ", tags = " ++
      ph f 3 ++ " WHERE name = " ++ ph f 4 ++ " AND version = " ++ ph f 5)%string rec d l i x ltac:(sent) Hl Hs Hi eq_refl eq_refl)
    as (d' & Hrun & Hs' & Hel & Hg).
  cbn [marshalAttrs marshalTags p_bind]. rewrite (run_bind_Ok _ _ _ _ _ Hrun). split; [by cbn; rewrite cloneSecretRecord_id|].
  assert (mir_entry secret_mirror name (<[i := snapshot_of rec (ss_CreatedAt x)]> l) =
    mkSecretEntry (<[i := mkSecretVersion rec]> (version_of name <$> l))) as Hent.
  { cbn [mir_entry secret_mirror]. unfold entry_of. by rewrite list_fmap_insert, (version_of_snapshot rec). }
  enough (mirrors secret_mirror (<[name := mir_entry secret_mirror name (<[i := snapshot_of rec (ss_CreatedAt x)]> l)]> (secrets s))
    (deletedSecrets s) d') as Hput by by rewrite Hent in Hput.
  apply (mirrors_put _ name _ _ _ d); [done| |by destruct l, i|done..].
  apply (timeline_update l i x); [done..|]. apply update_secret_ok; [done..|]. apply Hx.
Qed.

Lemma agrees_DeleteSecret e name : agrees f (DeleteSecret_ e name).
Proof.
  intros s d Hr Hrand. cbn [ready] in Hrand. destruct (mir_live _ _ _ d Hr name) as (l & Hl & Hs & He).
  pose proof (mir_gone _ _ _ d Hr name) as Hg. unfold same_gone in Hg.
  cbn [in_sql in_memory]. unfold SqlSecrets.DeleteSecret, SecretStore.DeleteSecret. monad_unfold. rewrite He.
  pose proof (run_getSecretVersionRow f name "" d l Hl Hs) as Hrow.
  destruct (decide (l = [])) as [->|Hne].
  { rewrite find_snapshot_nil in Hrow. by rewrite (run_bind_Err _ _ _ _ _ Hrow). }
  destruct (last l) as [x|] eqn:Hlast; [|by apply last_None in Hlast].
  assert (find_snapshot l "" = Some ((length l - 1)%nat, x)) as Hf.
  { unfold find_snapshot. rewrite decide_True by done. unfold last_ptr. by rewrite Hlast. }
  rewrite Hf in Hrow. rewrite (run_bind_Ok _ _ _ _ _ Hrow).
  pose proof (run_count_deleted f ("SELECT COUNT(*) FROM kv_deleted_secrets WHERE name = " ++ ph f 1)%string Secrets name d ltac:(sent)) as Hc.
  rewrite entry_at_Some by done.
  destruct (gone Secrets d !! name) as [g|] eqn:Eg.
  { destruct Hg as (e0 & -> & _). rewrite decide_True in Hc by done. by rewrite (run_bind_Ok _ _ _ _ _ Hc), !decide_True. }
  rewrite decide_False in Hc by (by intros []). rewrite (run_bind_Ok _ _ _ _ _ Hc), Hg.
  rewrite !decide_False by first [by intros []|lia].
  rewrite (run_bind_Ok _ _ _ _ _ (run_allSecretVersionSnapshots f name d l Hl Hs)). cbv zeta.
  unfold SqlCore.newRecoveryID. rewrite newRecoveryID_cases, Hrand. cbn [p_bind].
  destruct (run_insert_deleted f ("INSERT INTO kv_deleted_secrets (name, recovery_id, deleted_date, scheduled_purge_date, versions) VALUES (" ++
      phs f 1 5 ++ ")")%string Secrets name ("/deleted" ++ "secrets" ++ "/" ++ name ++ "/" ++ version_id e)%string (nowUnix e)
      (scheduledPurge (nowUnix e)) (marshal (json_of_secret_payload l)) d ltac:(sent) Eg) as (d1 & Hrun1 & Hlive1 & Hgone1).
  rewrite (run_bind_Ok _ _ _ _ _ Hrun1).
  destruct (run_delete_rows f (R:=secret_rows) ("DELETE FROM kv_secrets WHERE name = " ++ ph f 1)%string name d1 ltac:(sent))
    as (d2 & Hrun2 & Hs2 & Hel2 & Hgone2).
  rewrite (run_bind_Ok _ _ _ _ _ Hrun2). cbn [latestSecret mir_entry secret_mirror entry_of se_versions].
  unfold last_ptr. rewrite fmap_last, Hlast. cbn.
  split; [by rewrite cloneSecretRecord_id|].
  apply (mirrors_delete secret_mirror name l _ _ _ _ _ d); [done..| |].
  - intros n v Hn. by rewrite Hel2, Hlive1.
  - by rewrite Hgone2, Hgone1.
Qed.

(** The times a recovery gives. *)
Definition recovered (name : string) (p : nat * snapshot) : snapshot :=
  snapshot_of (snapshot_record name p.2) (wrap64 (ss_CreatedAt p.2 + Z.of_nat p.1)).

Lemma timeline_recovered name l :
  timeline l → Forall (λ s, ss_CreatedAt s + Z.of_nat (length l) ≤ max_int64) l →
  timeline (recovered name <$> imap pair l).
Proof.
  intros Hl Hmax. apply timeline_restamp; [done| | |done].
  - apply Forall_and. split; [|exact Hmax]. eapply Forall_impl; [apply Hl|]. by intros s (_ & _ & _ & _ & _ & ?).
  - intros p (Hv & Hval & Hct & Ha & Ht & _). split_and!; try done; [|apply wrap64_range].
    cbn. unfold SqlCore.cloneTags. by rewrite cloneTags_id.
Qed.

Lemma version_of_recovered name l : version_of name <$> (recovered name <$> imap pair l) = version_of name <$> l.
Proof.
  rewrite <-(imap_pair_snd l) at 2. rewrite <-!list_fmap_compose. apply list_fmap_ext. intros i p _.
  unfold version_of, snapshot_record, recovered, snapshot_of, SqlCore.cloneTags. cbn. by rewrite !cloneTags_id.
Qed.

Lemma agrees_RecoverDeletedSecret name : agrees f (RecoverDeletedSecret_ name).
Proof.
  intros s d Hr Hmax. destruct (mir_live _ _ _ d Hr name) as (l & Hl & Hs & He).
  pose proof (mir_gone _ _ _ d Hr name) as Hg. unfold same_gone in Hg.
  cbn [in_sql in_memory]. unfold SqlSecrets.RecoverDeletedSecret, SecretStore.RecoverDeletedSecret. monad_unfold. rewrite He.
  rewrite (run_bind_Ok _ _ _ _ _ (run_secrets_count name d l Hl Hs)).
  destruct l as [|s0 l]; [|by rewrite !decide_True by first [by eexists|cbn; lia]]. rewrite !decide_False by first [by intros []|done].
  pose proof (run_getDeletedSecretRow f name d) as Hrow.
  destruct (gone Secrets d !! name) as [g|] eqn:Eg; [|by rewrite (run_bind_Err _ _ _ _ _ Hrow), Hg].
  destruct Hg as (e & -> & l & Hne & Hl' & Hgv & ->). rewrite (run_bind_Ok _ _ _ _ _ Hrow). cbn [dr_Versions].
  destruct (secret_payload_total l) as (l0 & Hpay & _ & Heq).
  { eapply Forall_impl; [apply Hl'|]. apply snapshot_ok_int64. }
  rewrite (Heq (tl_ok _ Hl')) in Hpay. clear l0 Heq. cbn [mir_payload secret_mirror] in Hgv. rewrite Hgv, Hpay. cbn [p_bind].
  assert (timeline (recovered name <$> imap pair l)) as Htl.
  { apply timeline_recovered; [done|]. apply (Hmax g); [done|]. by rewrite Hgv. }
  destruct (run_insertSecretRows f name (λ p : nat * snapshot, snapshot_record name p.2)
    (λ p, wrap64 (ss_CreatedAt p.2 + Z.of_nat p.1)) (imap pair l) d [] ltac:(done) Hs (tl_versions _ Htl))
    as (d1 & Hrun1 & Hs1 & Hel1 & Hg1).
  rewrite (run_bind_Ok _ _ _ _ _ Hrun1).
  destruct (run_delete_deleted f ("DELETE FROM kv_deleted_secrets WHERE name = " ++ ph f 1)%string Secrets name d1 ltac:(sent))
    as (d2 & Hrun2 & _ & Hlive2 & Hgone2).
  rewrite (run_bind_Ok _ _ _ _ _ Hrun2). cbn [run mir_grave mir_entry secret_mirror dse_entry latestSecret entry_of se_versions].
  unfold last_ptr, last_of. rewrite fmap_last. destruct (last l) as [x|] eqn:Hlast; [|by apply last_None in Hlast].
  cbn. split; [by rewrite cloneSecretRecord_id|].
  unfold related. cbn. change (entry_of name l) with (mir_entry secret_mirror name l).
  assert (mir_entry secret_mirror name l = mir_entry secret_mirror name (recovered name <$> imap pair l)) as ->
    by (cbn; unfold entry_of; by rewrite version_of_recovered).
  apply (mirrors_recover _ name _ _ _ d); [done|done|by destruct l| | |by rewrite Hgone2, Hg1].
  - eapply stored_ext; [|exact Hs1]. intros v. by rewrite Hlive2.
  - intros n v Hn. by rewrite Hlive2, Hel1.
Qed.

(** The rows a restore writes. *)
Definition restored (name : string) (p : nat * SecretRecord) : snapshot :=
  snapshot_of (restored_record name p.2) (wrap64 (Z.of_nat p.1)).

Lemma timeline_restored name l :
  Forall secret_ok l → NoDup (sr_Version <$> l) → Z.of_nat (length l) ≤ max_int64 →
  timeline (restored name <$> imap pair l).
Proof.
  intros Hok Hnd Hmax.
  assert (∀ i s, l !! i = Some s → wrap64 (Z.of_nat i) = Z.of_nat i) as Hw.
  { intros i s Hi%lookup_lt_Some. apply wrap64_id. unfold in_int64, max_int64 in *. lia. }
  split.
  - apply StronglySorted_lookup_2. intros i j a b Hij. rewrite !list_lookup_fmap, !list_lookup_imap.
    intros (pa & (sa & Ha & ->)%fmap_Some & ->)%fmap_Some (pb & (sb & Hb & ->)%fmap_Some & ->)%fmap_Some.
    unfold before, restored. cbn. rewrite (Hw _ _ Ha), (Hw _ _ Hb). lia.
  - apply Forall_fmap. apply (Forall_impl _ _ _ (Forall_imap_pair _ _ Hok)).
    intros p (Hv & Hval & Hct & [(Hn & He & Hc & Hu & _) _] & Ht). cbn. unfold snapshot_ok, attributes_ok, attributes_int64.
    split_and!; try done. apply wrap64_range.
  - rewrite <-list_fmap_compose. rewrite <-(imap_pair_snd l), <-list_fmap_compose in Hnd. exact Hnd.
Qed.

Lemma version_of_restored name l :
  version_of name <$> (restored name <$> imap pair l) = restored_version name <$> l.
Proof.
  rewrite <-(imap_pair_snd l) at 2. rewrite <-!list_fmap_compose. apply list_fmap_ext. intros i p _.
  unfold restored_version, version_of, snapshot_record, restored, snapshot_of, SqlCore.cloneTags. cbn.
  by rewrite cloneSecretRecord_id, cloneTags_id.
Qed.

Lemma restored_same name r :
  RecoveryLevel (sr_Attributes r) = StoreCore.recoveryLevel → RecoverableDays (sr_Attributes r) = StoreCore.recoverableDays →
  sv_record (restored_version name r) =
    mkSecretRecord name (sr_Version r) (sr_Value r) (sr_ContentType r) (sr_Attributes r) (sr_Tags r).
Proof.
  intros Hl Hd. unfold restored_version. cbn. rewrite cloneSecretRecord_id. f_equal.
  rewrite <-Hl, <-Hd. by destruct (sr_Attributes r).
Qed.

Lemma agrees_RestoreSecret token : agrees f (RestoreSecret_ token).
Proof.
  intros s d Hr Hready. cbn [ready] in Hready.
  cbn [in_sql in_memory]. unfold SqlSecrets.RestoreSecret, SecretBackup.RestoreSecret. monad_unfold.
  destruct (b64_DecodeString StdEncoding token) as [raw| |]; [|done..].
  destruct (unmarshal_backup raw) as [payload|] eqn:Hp; [|done].
  destruct (Hready raw payload eq_refl Hp) as (Hall & Hnd & Hmax). clear Hready.
  pose proof (unmarshal_backup_backing _ _ Hp) as Hlen.
  set (name := bk_Name payload) in *. destruct (bk_Versions payload) as [len backing]. cbn [fst snd] in *.
  set (l := take len backing) in *. cbv zeta. assert (length l = len) as Hl.
  { unfold l. rewrite length_take. unfold slice_ok in Hlen. cbn in Hlen. lia. }
  rewrite Hl.
  destruct (decide (name = ""%string ∨ len = 0%nat)) as [|Hne]; [done|].
  assert (timeline (restored name <$> imap pair l)) as Htl.
  { apply timeline_restored; [|done|by rewrite Hl in *]. eapply Forall_impl; [exact Hall|]. by intros r [? _]. }
  assert (l ≠ []) as Hnl. { intros E. rewrite E in Hl. cbn in Hl. lia. }
  destruct (run_delete_rows f (R:=secret_rows) ("DELETE FROM kv_secrets WHERE name = " ++ ph f 1)%string name d ltac:(sent))
    as (d1 & Hrun1 & Hs1 & Hel1 & Hg1).
  rewrite (run_bind_Ok _ _ _ _ _ Hrun1).
  destruct (run_delete_deleted f ("DELETE FROM kv_deleted_secrets WHERE name = " ++ ph f 1)%string Secrets name d1 ltac:(sent))
    as (d2 & _ & Hrun2 & Hlive2 & Hgone2).
  rewrite (run_bind_Ok _ _ _ _ _ Hrun2).
  assert (stored name d2 []) as Hs2 by (eapply stored_ext; [|exact Hs1]; intros v; by rewrite Hlive2).
  destruct (run_insertSecretRows f name (λ p : nat * SecretRecord, restored_record name p.2)
    (λ p, wrap64 (Z.of_nat p.1)) (imap pair l) d2 [] ltac:(done) Hs2 (tl_versions _ Htl)) as (d3 & Hrun3 & Hs3 & Hel3 & Hg3).
  rewrite (run_bind_Ok _ _ _ _ _ Hrun3). cbn [run latestSecret se_versions].
  unfold last_ptr, last_of. rewrite fmap_last. destruct (last l) as [x|] eqn:Hlast; [|by apply last_None in Hlast].
  assert (x ∈ l) as Hx by (apply last_Some in Hlast as [l' ->]; set_solver).
  pose proof (proj1 (Forall_forall _ _) Hall _ Hx) as (_ & Hlev & Hday).
  cbn [fmap option_fmap option_map deref o_bind fst snd]. split; [by rewrite restored_same, cloneSecretRecord_id|].
  unfold related. cbn.
  assert (mkSecretEntry (restored_version name <$> l) = mir_entry secret_mirror name (restored name <$> imap pair l)) as ->
    by (cbn; unfold entry_of; by rewrite version_of_restored).
  apply (mirrors_recover _ name _ _ _ d); [done|done|by destruct l|done| |by rewrite Hg3, Hgone2, Hg1].
  intros n v Hn. by rewrite Hel3, Hlive2, Hel1.
Qed.

(** ** Lists, on a database that orders names byte by byte *)

Hypothesis Hcollation : name_le = String.le.

Lemma agrees_ListSecrets m t : agrees f (ListSecrets_ m t).
Proof.
  intros s d Hr _. cbn [in_sql in_memory]. unfold SqlSecrets.ListSecrets, SecretStore.ListSecrets. monad_unfold.
  destruct (run_names f "SELECT DISTINCT name FROM kv_secrets ORDER BY name" Secrets d ltac:(sent) Hcollation)
    as (names & Hrun & Hnd & Hsort & Hin).
  assert (names = sorted_keys (secrets s)) as -> by by apply (mirrors_live_names _ _ _ _ _ Hr).
  rewrite (run_bind_Ok _ _ _ _ _ Hrun). unfold SqlCore.paginateNames.
  destruct (StoreCore.paginateNames (sorted_keys (secrets s)) t m) as [[page next]| |] eqn:Hp; [|done..]. cbn [p_bind].
  lazymatch goal with |- context [omap ?look page] =>
    rewrite (run_bind_Ok _ _ _ (omap look page) d); [done|apply run_page] end.
  intros n Hn. eapply paginateNames_elem in Hn; [|done]. apply elem_of_sorted_keys in Hn.
  destruct (mir_live _ _ _ d Hr n) as (l & Hl & Hs & He). rewrite He in Hn |- *.
  assert (l ≠ []) as Hne by (intros ->; by destruct Hn). pose proof Hne as [x Hx]%last_Some_ne.
  exists (listed_record n x). split.
  - rewrite entry_at_Some by done. cbn [mir_entry secret_mirror entry_of latestSecret se_versions]. unfold last_ptr.
    rewrite fmap_last, Hx. cbn. by rewrite cloneSecretRecord_id.
  - pose proof (run_getSecretVersionRow f n "" d l Hl Hs) as Hrow. unfold find_snapshot, last_ptr in Hrow.
    rewrite decide_True, Hx in Hrow by done. by rewrite (run_bind_Ok _ _ _ _ _ Hrow).
Qed.

Lemma agrees_ListDeletedSecrets m t : agrees f (ListDeletedSecrets_ m t).
Proof.
  intros s d Hr _. cbn [in_sql in_memory]. unfold SqlSecrets.ListDeletedSecrets, SecretStore.ListDeletedSecrets. monad_unfold.
  pose proof (mirrors_gone_names _ _ _ _ Hr) as Hkeys.
  rewrite (run_bind_Ok _ _ _ _ _ (run_deleted_names f "SELECT name FROM kv_deleted_secrets ORDER BY name" Secrets d ltac:(sent) Hcollation)).
  rewrite Hkeys. unfold SqlCore.paginateNames.
  destruct (StoreCore.paginateNames (sorted_keys (deletedSecrets s)) t m) as [[page next]| |] eqn:Hp; [|done..]. cbn [p_bind].
  lazymatch goal with |- context [o_traverse ?look page] => lazymatch goal with |- context [p_traverse ?g page] =>
    destruct (run_page_traverse g look page d) as (xs & -> & Hrun); [|by rewrite (run_bind_Ok _ _ _ _ _ Hrun)] end end.
  intros n Hn. eapply paginateNames_elem in Hn; [|done]. apply elem_of_sorted_keys in Hn.
  pose proof (mir_gone _ _ _ d Hr n) as Hg. unfold same_gone in Hg. pose proof (run_getDeletedSecretRow f n d) as Hrow.
  destruct (gone Secrets d !! n) as [g|]; [|rewrite Hg in Hn; by destruct Hn].
  destruct Hg as (e & -> & Hent). rewrite (run_bind_Ok _ _ _ _ _ Hrow).
  destruct (same_entry_Ok n e g Hent) as [x Hx]. pose proof (run_deletedSecretFromRow n g e d Hent) as Hfrom.
  rewrite Hx in Hfrom. exists (blank_deleted x). rewrite Hx. split; [done|]. exact (run_bind_Ok _ _ _ _ _ Hfrom).
Qed.

Lemma all_agree {A} (c : secret_call A) : agrees f c.
Proof.
  destruct c; [apply agrees_SetSecret|apply agrees_GetSecret|apply agrees_ListSecrets|apply agrees_ListSecretVersions
    |apply agrees_UpdateSecret|apply agrees_DeleteSecret|apply agrees_ListDeletedSecrets|apply agrees_GetDeletedSecret
    |apply agrees_PurgeDeletedSecret|apply agrees_RecoverDeletedSecret|apply agrees_BackupSecret|apply agrees_RestoreSecret].
Qed.
End simulation.
