(* ===== verification/SqlRefine.v ===== *)
(** * The SQL store implements the in-memory store

    Histories of the operations on secrets and on keys, mixed in any order: the
    two stores answer them the same. *)

From S2P Require Import Prelude GoStrings GoUtf8 GoBase64 GoJson GoCrypto GoX509 GoSql AesModes Model KeyCrypto StoreCore SecretStore SecretBackup KeyStore HttpJson SqlSchema SqlCore SqlSecrets SqlKeys SqlFacts SqlFrame SqlRows SqlMirror SqlTimeline SqlKeyFacts SqlKeyTimeline SqlKeyMemory SqlMemory Toy ToyX509 ToySql.

(** ** The kinds of a call do not meet *)

Lemma secrets_leave_keys {A} (c : secret_call A) s :
  keys (in_memory c s).2 = keys s ∧ deletedKeys (in_memory c s).2 = deletedKeys s.
Proof.
  destruct c; cbn [in_memory];
  lazymatch goal with |- context [(?m s).2] => let rec h t := lazymatch t with ?g _ => h g | _ => unfold t end in h m end;
  unfold append_secret; monad_unfold; repeat (case_match; simplify_eq/=; try done).
Qed.

Section keys.
Context `{C : BlockCipher} `{L : PublicKeyLib}.

(** The uses of a key read it. *)
Lemma use_state {A} name version (body : keyVersion → outcome error A) s :
  ((let* ver := keyMaterial name version in m_lift (body ver)) s).2 = s.
Proof.
  unfold keyMaterial. monad_unfold. destruct (keys s !! name) as [entry|]; [|done].
  by destruct (findKeyVersion entry version) as [[]|].
Qed.

Lemma keys_leave_secrets {A} (c : key_call A) s :
  secrets (keys_in_memory c s).2 = secrets s ∧ deletedSecrets (keys_in_memory c s).2 = deletedSecrets s.
Proof.
  destruct c; cbn [keys_in_memory];
    lazymatch goal with |- context [(?m s).2] => let rec h t := lazymatch t with ?g _ => h g | _ => unfold t end in h m end.
  12-17: by rewrite !use_state.
  all: unfold append_key; monad_unfold; repeat (case_match; simplify_eq/=; try done).
Qed.
End keys.

Section frame.
Context `{JE : JsonErrors} `{X : CertLib} `{KD : KeyDer} `{C : BlockCipher} `{L : PublicKeyLib}.
Context (f : DBFlavor) {D : SqlEngine} {T : SqlTables D} {HL : SqlLaws f T}.

Lemma secrets_spare {A} (c : secret_call A) k : k ≠ Secrets → spares k (in_sql f c).
Proof. intros Hk. destruct c; cbn [in_sql]; auto with spares nocore. Qed.
Lemma keys_spare {A} (c : key_call A) k : k ≠ Keys → spares k (keys_in_sql f c).
Proof. intros Hk. destruct c; cbn [keys_in_sql]; auto with spares nocore; by apply (spares_use f). Qed.
End frame.

(** ** Histories *)

(** A call on secrets or on keys. *)
Inductive store_call : Type → Type :=
| OfSecrets {A} (c : secret_call A) : store_call A
| OfKeys {A} (c : key_call A) : store_call A.

Inductive any_call : Type :=
| Any {A : Type} (c : store_call A).

Section histories.
Context `{JE : JsonErrors} `{X : CertLib} `{KD : KeyDer} `{C : BlockCipher} `{L : PublicKeyLib}.
Context (f : DBFlavor) {D : SqlEngine} {T : SqlTables D}.

Definition call_in_memory {A} (c : store_call A) : SM A :=
  match c with OfSecrets c => in_memory c | OfKeys c => keys_in_memory c end.
Definition call_in_sql {A} (c : store_call A) : SP A :=
  match c with OfSecrets c => in_sql f c | OfKeys c => keys_in_sql f c end.
Definition call_ready {A} (c : store_call A) (d : sdb) : Prop :=
  match c with OfSecrets c => ready c d | OfKeys c => key_ready c d end.

(** Every call gets the same answer from the two stores. *)
Fixpoint same_answers (h : list any_call) (s : Store) (d : sdb) : Prop :=
  match h with
  | [] => True
  | Any c :: h =>
      (run (call_in_sql c) d).1 = (call_in_memory c s).1 ∧ same_answers h (call_in_memory c s).2 (run (call_in_sql c) d).2
  end.
(** Every call is ready in the state that it meets. *)
Fixpoint all_ready (h : list any_call) (d : sdb) : Prop :=
  match h with
  | [] => True
  | Any c :: h => call_ready c d ∧ all_ready h (run (call_in_sql c) d).2
  end.

Lemma related_New d : (∀ k, live k d = ∅ ∧ gone k d = ∅) → related New d ∧ related_keys New d.
Proof. intros Hd. split; apply mirrors_empty; apply Hd. Qed.

(** A call keeps both kinds in step. *)
Lemma call_agrees {XL : CertLaws L X} {KL : KeyDerLaws L KD} {HL : SqlLaws f T} {HR : SqlReliable f T} {A} (c : store_call A) s d :
  name_le = String.le → related s d ∧ related_keys s d → call_ready c d →
  (run (call_in_sql c) d).1 = (call_in_memory c s).1 ∧
  related (call_in_memory c s).2 (run (call_in_sql c) d).2 ∧ related_keys (call_in_memory c s).2 (run (call_in_sql c) d).2.
Proof.
  intros Hle [Hs Hk] Hc. destruct c as [A c|A c]; cbn [call_in_sql call_in_memory call_ready] in *.
  - destruct (all_agree f Hle c s d Hs Hc) as [Ha Hr]. split; [exact Ha|]. split; [exact Hr|].
    destruct (secrets_leave_keys c s) as [Ek Eg]. destruct (run_spares Keys (in_sql f c) d) as [El Ed]; [by apply secrets_spare|].
    unfold related_keys. rewrite Ek, Eg. by apply (mirrors_ext _ _ _ d).
  - destruct (all_keys_agree f Hle c s d Hk Hc) as [Ha Hr]. split; [exact Ha|]. split; [|exact Hr].
    destruct (keys_leave_secrets c s) as [Es Eg]. destruct (run_spares Secrets (keys_in_sql f c) d) as [El Ed]; [by apply keys_spare|].
    unfold related. rewrite Es, Eg. by apply (mirrors_ext _ _ _ d).
Qed.
End histories.

(** C5: the SQL store and the in-memory store are interchangeable for secrets
    and for keys.  Migrate an empty database, of any of the three flavours, on
    an engine that does what SQL documents, orders names byte by byte and does
    not fail, and run any history of the twelve operations on secrets and the
    seventeen on keys against it, one after the other; run the same history
    against a new in-memory store.  Every call gets the same answer from both,
    errors and pages included, whatever it is: the key that signs from its row
    is the key that was made.  Asked of the calls, in the state they meet:
    requests hold text and 64-bit integers, version identifiers are new, the
    clock is past what is stored, the random source answers a deletion, times
    do not overflow, a blob that is restored is one that a backup makes, and a
    key that is imported is one that x509 writes and reads. *)
Theorem sql_refines_memory `{JE : JsonErrors} `{X : CertLib} `{KD : KeyDer} `{C : BlockCipher} `{L : PublicKeyLib}
    (XL : CertLaws L X) (KL : KeyDerLaws L KD) (f : DBFlavor) {D : SqlEngine} {T : SqlTables D}
    (HL : SqlLaws f T) (HR : SqlReliable f T) (d0 d : sdb) (h : list any_call) :
  name_le = String.le →
  (∀ k, live k d0 = ∅ ∧ gone k d0 = ∅) → run (NewSQLStore f) d0 = (Ok (), d) →
  all_ready f h d → same_answers f h New d.
Proof.
  intros Hle Hempty Hnew. assert (related New d ∧ related_keys New d) as Hr.
  { apply related_New. intros k. destruct (Hempty k), (NewSQLStore_same f d0 _ d Hnew k). split; congruence. }
  clear Hempty Hnew. revert d Hr. generalize New.
  induction h as [|[A c] h IH]; intros s d Hr Hready; [done|]. destruct Hready as [Hc Hready]. cbn [same_answers].
  destruct (call_agrees f c s d Hle Hr Hc) as [Hanswer Hr']. split; [done|]. by apply IH.
Qed.

(** A day with a secret: the clock counts, the identifiers count. *)
Definition day_env (n : Z) : Env := {|
  clock _ := 1700000000 + n;
  clock_nanos _ := 0;
  rand_ok _ := true;
  rand_byte _ j := bmk (n + Z.of_nat j);
  rand_err := "";
|}.
Definition day_secret (value : string) : SecretSetRequest := mkSecretSetRequest value "text/plain" None (Some {["env" := "prod"]}).
Definition day_digest : SignRequest := mkSignRequest "ES256" "3q2-7w".
Definition day : list any_call := [
  Any (OfSecrets (SetSecret_ (day_env 1) "db" (day_secret "one")));
  Any (OfKeys (CreateKey_ (day_env 2) "signing" signing_key));
  Any (OfSecrets (SetSecret_ (day_env 3) "db" (day_secret "two")));
  Any (OfKeys (Sign_ (day_env 4) "signing" "" day_digest));
  Any (OfSecrets (UpdateSecret_ (day_env 5) "db" "" (mkSecretUpdateRequest (Some "text/html"%string) None None)));
  Any (OfKeys (UpdateKey_ (day_env 6) "signing" "" (mkUpdateKeyRequest None None (Some ["sign"%string]))));
  Any (OfSecrets (ListSecretVersions_ "db" 1 ""));
  Any (OfSecrets (DeleteSecret_ (day_env 7) "db"));
  Any (OfKeys (DeleteKey_ (day_env 8) "signing"));
  Any (OfSecrets (SetSecret_ (day_env 9) "db" (day_secret "refused")));
  Any (OfKeys (Sign_ (day_env 10) "signing" "" day_digest));
  Any (OfKeys (RecoverDeletedKey_ "signing"));
  Any (OfSecrets (ListDeletedSecrets_ 0 ""));
  Any (OfSecrets (RecoverDeletedSecret_ "db"));
  Any (OfSecrets (GetSecret_ "db" ""));
  Any (OfKeys (ListKeys_ 0 ""));
  Any (OfSecrets (BackupSecret_ "db"));
  Any (OfKeys (ListKeyVersions_ "signing" 0 ""));
  Any (OfSecrets (ListSecrets_ 0 "1"))].

Lemma rows_before (m : gmap (string * string) (list value * Z)) name id ts :
  bool_decide (map_Forall (λ k r, k.1 = name → k.2 ≠ id ∧ r.2 < ts) m) = true →
  ∀ v r, m !! (name, v) = Some r → v ≠ id ∧ r.2 < ts.
Proof. intros H%bool_decide_eq_true v r Hr. by apply (H (name, v) r Hr). Qed.

Lemma sql_refines_memory_witness :
  same_answers (D:=toy_engine FlavorPostgres) FlavorPostgres day New toy_empty.
Proof.
  apply (sql_refines_memory toy_cert_laws toy_key_der_laws FlavorPostgres (toy_sql_laws FlavorPostgres)
    (toy_sql_reliable FlavorPostgres) toy_empty); [reflexivity|done|vm_compute; reflexivity|].
  cbn [all_ready day call_ready ready key_ready ssr_Value ssr_ContentType ssr_Tags ssr_Attributes sur_ContentType sur_Attributes
    sur_Tags day_secret signing_key ckr_KeyOps ckr_Tags ckr_Attributes ukr_KeyOps ukr_Tags ukr_Attributes].
  assert (tags_ok (Some {["env" := "prod"]}%string)) as Htags by (apply map_Forall_singleton; done).
  assert (tags_ok (Some {["use" := "sign"]}%string)) as Htags2 by (apply map_Forall_singleton; done).
  repeat match goal with |- _ ∧ _ => split end;
    lazymatch goal with
    | |- tags_ok _ => first [exact Htags|exact Htags2|exact I]
    | |- _ = true => reflexivity
    | |- Forall _ [] => apply List.Forall_nil
    | |- ∀ ct, _ = Some ct → _ => by intros ? [= <-]; repeat constructor
    | |- fresh_key _ _ _ => unfold fresh_key; apply rows_before; vm_compute; reflexivity
    | |- ∀ v r, live Secrets _ !! _ = Some r → _ => apply rows_before; vm_compute; reflexivity
    | |- ∀ g l, _ => idtac
    | |- _ => exact I
    end.
  - intros g l Hg Hl. vm_compute in Hg. injection Hg as <-. vm_compute in Hl. injection Hl as <-.
    apply (bool_decide_unpack _). vm_compute. exact I.
  - intros g l Hg Hl. vm_compute in Hg. injection Hg as <-. vm_compute in Hl. injection Hl as <-.
    apply (bool_decide_unpack _). vm_compute. exact I.
Defined.
