(* ===== verification/SqlRaces.v ===== *)
(** * The SQL store: interruptions and races

    No operation of the store is a transaction.  What is still true when one
    is interrupted between two statements, or a statement fails; and what two
    requests can do to each other. *)

From S2P Require Import Prelude GoStrings GoUtf8 GoBase64 GoJson JsonFacts GoSql Model StoreCore SecretStore SecretBackup SqlSchema SqlCore SqlSecrets SqlFacts SqlRows SqlTimeline Toy ToySql.

(** ** Programs step by step *)

Section steps.
Context {D : SqlEngine} {E : Type}.

(** [n] statements, or fewer when the program ends. *)
Fixpoint steps (n : nat) {A} (p : prog E A) (d : sdb) : prog E A * sdb :=
  match n with
  | O => (p, d)
  | S n => let '(p, d) := p_step p d in steps n p d
  end.

Lemma steps_Done n {A} (o : outcome E A) d : steps n (Done o) d = (Done o, d).
Proof. induction n as [|n IH]; [done|]. apply IH. Qed.

(** One statement or one query and nothing more. *)
Definition single {A} (p : prog E A) : Prop :=
  (∃ q args k, p = Query q args k ∧ ∀ o, ∃ r, k o = Done r) ∨ (∃ q args k, p = Exec q args k ∧ ∀ o, ∃ r, k o = Done r).

Lemma single_step {A} (p : prog E A) d : single p → p_step p d = (Done (run p d).1, (run p d).2).
Proof.
  intros [(q & args & g & -> & Hg)|(q & args & g & -> & Hg)]; cbn [p_step run].
  - by destruct (Hg (sql_Query q args d)) as [r ->].
  - by destruct (Hg (sql_Exec q args d).1) as [r ->].
Qed.
Lemma single_bind_step {A B} (p : prog E A) (k : A → prog E B) d :
  single p → p_step (p_bind p k) d = (p_bind (Done (run p d).1) k, (run p d).2).
Proof.
  intros [(q & args & g & -> & Hg)|(q & args & g & -> & Hg)]; cbn [p_bind p_step run].
  - by destruct (Hg (sql_Query q args d)) as [r ->].
  - by destruct (Hg (sql_Exec q args d).1) as [r ->].
Qed.
Lemma bind_step {A B} (p : prog E A) (k : A → prog E B) d a d' :
  single p → run p d = (Ok a, d') → p_step (p_bind p k) d = (k a, d').
Proof. intros Hp Hrun. rewrite single_bind_step by done. by rewrite Hrun. Qed.
Lemma bind_step2 {A B C} (p : prog E A) (k : A → prog E B) (k' : B → prog E C) d a d' :
  single p → run p d = (Ok a, d') → p_step (p_bind (p_bind p k) k') d = (p_bind (k a) k', d').
Proof.
  intros [(q & args & g & -> & Hg)|(q & args & g & -> & Hg)] Hrun; cbn [p_bind p_step run] in *.
  - destruct (Hg (sql_Query q args d)) as [r Hr]. rewrite Hr in *. by injection Hrun as -> ->.
  - destruct (Hg (sql_Exec q args d).1) as [r Hr]. rewrite Hr in *. by injection Hrun as -> <-.
Qed.

(** A property of the database that holds at every step of a program. *)
Fixpoint always {A} (P : sdb → Prop) (p : prog E A) (d : sdb) : Prop :=
  P d ∧
  match p with
  | Done _ => True
  | Exec q args k => always P (k (sql_Exec q args d).1) (sql_Exec q args d).2
  | Query q args k => always P (k (sql_Query q args d)) d
  end.

Lemma always_steps {A} (P : sdb → Prop) (p : prog E A) d n : always P p d → P (steps n p d).2.
Proof.
  revert p d. induction n as [|n IH]; intros p d; [destruct p; by intros []|].
  intros H. cbn [steps]. destruct p as [o|q args k|q args k]; cbn [p_step] in *.
  - rewrite steps_Done. by destruct H.
  - destruct H as [_ H]. by apply IH.
  - destruct H as [_ H]. by apply IH.
Qed.

Lemma always_bind {A B} (P : sdb → Prop) (p : prog E A) (k : A → prog E B) d :
  always P p d → (∀ a d', run p d = (Ok a, d') → always P (k a) d') → always P (p_bind p k) d.
Proof.
  revert d. induction p as [o|q args g IH|q args g IH]; intros d; cbn [always p_bind run].
  - intros [Hd _] Hk. destruct o as [a|e|m]; [by apply Hk|done|done].
  - intros [Hd H] Hk. split; [done|]. by apply IH.
  - intros [Hd H] Hk. split; [done|]. by apply IH.
Qed.

(** A program that sends no statement. *)
Fixpoint reads {A} (p : prog E A) : Prop :=
  match p with Done _ => True | Exec _ _ _ => False | Query q args k => ∀ o, reads (k o) end.

Lemma reads_always {A} (P : sdb → Prop) (p : prog E A) d : reads p → P d → always P p d.
Proof. revert d. induction p as [o|q args k IH|q args k IH]; intros d Hr Hd; split; auto. by apply IH. Qed.
Lemma reads_run {A} (p : prog E A) d : reads p → (run p d).2 = d.
Proof. revert d. induction p as [o|q args k IH|q args k IH]; intros d Hr; [done|done|]. by apply IH. Qed.
Lemma reads_bind {A B} (p : prog E A) (k : A → prog E B) : reads p → (∀ a, reads (k a)) → reads (p_bind p k).
Proof. intros Hp Hk. induction p as [[]|q args g IH|q args g IH]; [apply Hk|done..|]. intros o. by apply IH. Qed.

(** What follows a program that only reads. *)
Lemma always_read {A B} (P : sdb → Prop) (p : prog E A) (k : A → prog E B) d :
  reads p → P d → (∀ a, run p d = (Ok a, d) → always P (k a) d) → always P (p_bind p k) d.
Proof.
  intros Hr Hd Hk. apply always_bind; [by apply reads_always|]. intros a d' Hrun.
  pose proof (reads_run p d Hr) as Hsame. rewrite Hrun in Hsame. cbn in Hsame. subst d'. by apply Hk.
Qed.
End steps.

(** ** What answers that did arrive say, on an engine that may fail *)

Section answered.
Context `{JE : JsonErrors} (f : DBFlavor) {D : SqlEngine} {T : SqlTables D} {HL : SqlLaws f T}.

Lemma exec_Ok q s args d d' : sends f q s → run (db_Exec q args) d = (Ok (), d') → effect s args d d'.
Proof.
  intros Hq. unfold db_Exec, exec. cbn [run]. destruct (sql_Exec q args d) as [o d1] eqn:He.
  cbn [fst snd run]. intros [= Ho <-]. destruct o as [[]| |]; [|done..]. by eapply exec_ok.
Qed.

Lemma always_exec (P : sdb → Prop) q s args d :
  sends f q s → P d → (∀ d', same d d' → P d') → (∀ d', effect s args d d' → P d') → always P (db_Exec q args) d.
Proof.
  intros Hq Hd Hsame He. split; [done|]. destruct (sql_Exec q args d) as [o d1] eqn:Hx. cbn [fst snd always].
  split; [|done]. destruct o as [[]|err|m]; [by apply He, (exec_ok (f:=f) q)|by apply Hsame, (exec_failed (f:=f) _ _ _ _ _ Hx)..].
Qed.

Lemma query_rows_Ok {A} q a args (body : row → outcome error A) d l :
  asks f q a → run (query_rows db_error q args body) d = (Ok l, d) →
  ∃ rows, answers a args d rows ∧ o_traverse body rows = Ok l.
Proof.
  intros Hq. unfold query_rows. cbn [run]. intros [= Hrun].
  destruct (sql_Query q args d) as [[rows err]|e|m] eqn:Hx; [|done..]. cbn [o_maperr o_bind fst snd] in Hrun.
  apply o_bind_Ok in Hrun as (l' & Hl & Herr). destruct err as [err|]; [done|]. injection Herr as <-.
  destruct (query_ok q a args d rows None Hq Hx) as (full & Hfull & _ & Heq). specialize (Heq eq_refl). subst full. by exists rows.
Qed.

Lemma QueryRow_Ok {A} q a args (scan : row → outcome message A) d (c : A) missing :
  asks f q a → run (QueryRow q args scan (or_missing missing)) d = (Ok c, d) →
  ∃ r rows, answers a args d (r :: rows) ∧ scan r = Ok c.
Proof.
  intros Hq. unfold QueryRow. cbn [run]. intros Hrun.
  destruct (sql_Query q args d) as [[rows err]|e|m] eqn:Hx; [|by destruct e|done].
  destruct (query_ok q a args d rows err Hq Hx) as (full & Hfull & [rest Hpre] & _).
  destruct rows as [|r rows]; cbn [first_row o_bind] in Hrun; [by destruct err as [[]|]|].
  exists r, (rows ++ rest). rewrite Hpre in Hfull. split; [done|].
  destruct (scan r) as [c'| |]; cbn in Hrun; by simplify_eq.
Qed.
Lemma query_row_Ok {A} q a args (scan : row → outcome message A) d (c : A) :
  asks f q a → run (db_QueryRow q args scan) d = (Ok c, d) →
  ∃ r rows, answers a args d (r :: rows) ∧ scan r = Ok c.
Proof.
  intros Hq. unfold db_QueryRow, query_row, QueryRow. cbn [run]. intros [= Hrun].
  destruct (sql_Query q args d) as [[rows err]|e|m] eqn:Hx; [|by destruct e|done].
  destruct (query_ok q a args d rows err Hq Hx) as (full & Hfull & [rest Hpre] & _).
  destruct rows as [|r rows]; cbn [first_row o_bind] in Hrun; [by destruct err as [[]|]|].
  exists r, (rows ++ rest). rewrite Hpre in Hfull. split; [done|].
  destruct (scan r) as [c'| |]; cbn in Hrun; by simplify_eq.
Qed.
End answered.

(** ** Versions survive interruptions of a deletion and of a recovery *)

Section survival.
Context `{JE : JsonErrors} (f : DBFlavor) {D : SqlEngine} {T : SqlTables D} {HL : SqlLaws f T}.

(** The versions are all live, or all in the entry of the deleted secret. *)
Definition survives (name : string) (l : list snapshot) (d : sdb) : Prop :=
  (∃ l', stored name d l' ∧ snapshot_record name <$> l' = snapshot_record name <$> l) ∨
  ∃ g, gone Secrets d !! name = Some g ∧ unmarshal_secret_payload (g_versions g) = Ok l.

Lemma survives_same name l d d' : same d d' → survives name l d → survives name l d'.
Proof.
  intros Hs. destruct (Hs Secrets) as [Hl Hg]. intros [(l' & Hl' & Heq)|(g & Hgone & Hp)]; [left|right].
  - exists l'. split; [|done]. eapply stored_ext; [|done]. intros v. by rewrite Hl.
  - exists g. by rewrite Hg.
Qed.

Lemma reads_or_missing {A} missing (o : outcome sql_error A) : reads (or_missing missing o).
Proof. by destruct o as [?|[]|]. Qed.
Lemma reads_getSecretVersionRow name version : reads (getSecretVersionRow f name version).
Proof.
  unfold getSecretVersionRow. apply reads_bind; [|done]. case_decide; intros o; apply reads_or_missing.
Qed.
Lemma reads_getDeletedSecretRow name : reads (getDeletedSecretRow f name).
Proof. intros o. apply reads_or_missing. Qed.
Lemma reads_query_row {A} q args (scan : row → outcome message A) : reads (db_QueryRow q args scan).
Proof. done. Qed.

Lemma DeleteSecret_survives e name l d :
  timeline l → stored name d l → always (survives name l) (SqlSecrets.DeleteSecret f e name) d.
Proof.
  intros Hl Hs. assert (survives name l d) as Hd by (left; by exists l).
  unfold SqlSecrets.DeleteSecret.
  apply always_read; [apply reads_getSecretVersionRow|done|]. intros latest _.
  apply always_read; [done|done|]. intros count _. case_decide; [by split|].
  apply always_read; [done|done|]. intros snapshots Hrun.
  apply (query_rows_Ok f _ (Versions Secrets (version_columns Secrets ++ ["created_at"%string]) false)) in Hrun
    as (rows & Hrows & Hsnap); [|sent].
  rewrite (scan_snapshots name d l rows Hl Hs Hrows) in Hsnap. injection Hsnap as <-. cbv zeta.
  apply always_read; [done|done|]. intros id _.
  apply always_bind.
  - apply (always_exec f _ _ (InsertDeleted Secrets)); [sent|done| |].
    + intros d' Hsame. by eapply survives_same.
    + intros d' (_ & _ & Hlive). left. exists l. split; [|done]. eapply stored_ext; [|done]. intros v. by rewrite Hlive.
  - intros [] d1 Hrun1. apply (exec_Ok f _ (InsertDeleted Secrets)) in Hrun1 as (_ & Hgone & _); [|sent].
    specialize (Hgone Secrets). rewrite decide_True in Hgone by done.
    assert (∃ g, gone Secrets d1 !! name = Some g ∧ unmarshal_secret_payload (g_versions g) = Ok l) as Hg.
    { rewrite Hgone, lookup_insert_eq. eexists. split; [done|]. cbn [g_versions].
      destruct (secret_payload_total l) as (l' & -> & _ & Heq); [eapply Forall_impl; [apply Hl|apply snapshot_ok_int64]|].
      by rewrite Heq by apply Hl. }
    apply always_bind; [|intros [] d2 Hrun2; split; [|done]].
    + apply (always_exec f _ _ (Delete Secrets)); [sent|by right| |].
      * intros d' Hsame. apply (survives_same _ _ d1); [done|by right].
      * intros d' [_ Hgone']. right. by rewrite Hgone'.
    + apply (exec_Ok f _ (Delete Secrets)) in Hrun2 as [_ Hgone']; [|sent]. right. by rewrite Hgone'.
Qed.

(** The insertions of a recovery. *)
Lemma recover_rows name g l (xs : list (nat * snapshot)) : ∀ acc d,
  stored name d acc → gone Secrets d !! name = Some g → unmarshal_secret_payload (g_versions g) = Ok l →
  let p := p_iter (λ x, insertSecretRow f (snapshot_record name x.2) (wrap64 (ss_CreatedAt x.2 + Z.of_nat x.1))) xs in
  always (survives name l) p d ∧
  ∀ d', run p d = (Ok (), d') → gone Secrets d' !! name = Some g ∧
    stored name d' (acc ++ ((λ x, snapshot_of (snapshot_record name x.2) (wrap64 (ss_CreatedAt x.2 + Z.of_nat x.1))) <$> xs)).
Proof.
  induction xs as [|x xs IH]; intros acc d Hs Hg Hp p.
  { split; [split; [right; by exists g|done]|]. intros d' [= <-]. by rewrite app_nil_r. }
  subst p. cbn [p_iter].
  set (rec := snapshot_record name x.2). set (ts := wrap64 (ss_CreatedAt x.2 + Z.of_nat x.1)).
  assert (∀ d', run (insertSecretRow f rec ts) d = (Ok (), d') →
    stored name d' (acc ++ [snapshot_of rec ts]) ∧ gone Secrets d' !! name = Some g) as Hins.
  { intros d' Hrun. apply (exec_Ok f _ (Insert Secrets)) in Hrun as He; [|sent].
    destruct (He [_; _; _; _] ts eq_refl eq_refl) as (Hnone & Hlive & Hgone). specialize (Hlive Secrets).
    rewrite decide_True in Hlive by done. split; [|by rewrite Hgone].
    apply (stored_insert _ d); [done|done|]. by rewrite Hlive. }
  split.
  - apply always_bind.
    + apply (always_exec f _ _ (Insert Secrets)); [sent|right; by exists g| |].
      * intros d' Hsame. apply (survives_same _ _ d); [done|right; by exists g].
      * intros d' He. destruct (He [_; _; _; _] ts eq_refl eq_refl) as (_ & _ & Hgone). right. exists g. by rewrite Hgone.
    + intros [] d1 Hrun. destruct (Hins d1 Hrun) as [Hs1 Hg1]. by apply (IH (acc ++ [snapshot_of rec ts]) d1).
  - intros d'. rewrite run_bind. unfold m_bind. destruct (run (insertSecretRow f rec ts) d) as [[[]| |] d1] eqn:Hrun; [|done..].
    intros Hrun'. destruct (Hins d1 eq_refl) as [Hs1 Hg1].
    destruct (IH (acc ++ [snapshot_of rec ts]) d1 Hs1 Hg1 Hp) as [_ Hend]. rewrite fmap_cons, cons_middle, (assoc_L (++)).
    by apply Hend.
Qed.

Lemma RecoverDeletedSecret_survives name g l d :
  gone Secrets d !! name = Some g → unmarshal_secret_payload (g_versions g) = Ok l →
  always (survives name l) (SqlSecrets.RecoverDeletedSecret f name) d.
Proof.
  intros Hg Hp. assert (survives name l d) as Hd by (right; by exists g).
  unfold SqlSecrets.RecoverDeletedSecret.
  apply always_read; [done|done|]. intros count Hcount. case_decide as Hpos; [by split|].
  assert (stored name d ([] : list snapshot)) as Hnil.
  { apply (query_row_Ok f _ (Count Secrets)) in Hcount as (r & rows & (c & [= -> ->]) & [= Hc]); [|sent].
    intros v r. rewrite <-elem_of_versions_of. destruct (versions_of Secrets name d); [set_solver|]. cbn in Hc. lia. }
  apply always_read; [apply reads_getDeletedSecretRow|done|]. intros r Hrow.
  apply (QueryRow_Ok f _ (Deleted Secrets)) in Hrow as (r0 & rows & Hans & Hscan); [|sent]. cbn [answers] in Hans.
  rewrite Hg in Hans. injection Hans as -> ->. injection Hscan as <-. cbn [dr_Versions]. rewrite Hp. cbn [p_bind].
  destruct (recover_rows name g l (imap pair l) [] d Hnil Hg Hp) as [Halways Hend].
  apply always_bind; [exact Halways|]. intros [] d1 Hrun1. destruct (Hend d1 Hrun1) as [Hg1 Hs1].
  assert (∃ l', stored name d1 l' ∧ snapshot_record name <$> l' = snapshot_record name <$> l) as Hl'.
  { eexists. split; [exact Hs1|]. cbn [app]. rewrite <-(imap_pair_snd l) at 2. rewrite <-!list_fmap_compose.
    apply list_fmap_ext. intros i p _. unfold snapshot_record, snapshot_of, SqlCore.cloneTags. cbn. by rewrite !cloneTags_id. }
  apply always_bind; [|intros [] d2 Hrun2; split; [|done]].
  - apply (always_exec f _ _ (DeleteDeleted Secrets)); [sent|by left| |].
    + intros d' Hsame. apply (survives_same _ _ d1); [done|by left].
    + intros d' [_ Hlive]. destruct Hl' as (l' & Hs' & Heq). left. exists l'. split; [|done].
      eapply stored_ext; [|done]. intros v. by rewrite Hlive.
  - apply (exec_Ok f _ (DeleteDeleted Secrets)) in Hrun2 as [_ Hlive]; [|sent]. destruct Hl' as (l' & Hs' & Heq).
    left. exists l'. split; [|done]. eapply stored_ext; [|done]. intros v. by rewrite Hlive.
Qed.
End survival.

(** C9: an interruption never loses a version.  Start DeleteSecret, on an
    engine any of whose statements may fail, and stop it after any number of
    statements, the live rows of the name being a timeline (text, with distinct
    version identifiers and distinct times): the versions that were live are all live, or all in the entry
    of the deleted secret.  The same for RecoverDeletedSecret: the versions
    that were deleted are all still there, or all live. *)
Theorem sql_versions_survive `{JE : JsonErrors} (f : DBFlavor) {D : SqlEngine} {T : SqlTables D} (HL : SqlLaws f T)
    e name l d n :
  (timeline l → stored name d l → survives name l (steps n (SqlSecrets.DeleteSecret f e name) d).2) ∧
  (∀ g, gone Secrets d !! name = Some g → unmarshal_secret_payload (g_versions g) = Ok l →
    survives name l (steps n (SqlSecrets.RecoverDeletedSecret f name) d).2).
Proof.
  split.
  - intros Hl Hs. by apply always_steps, DeleteSecret_survives.
  - intros g Hg Hp. apply always_steps. by eapply RecoverDeletedSecret_survives.
Qed.

(** ** Refusals, and what each operation does when nothing fails *)

Section refusals.
Context `{JE : JsonErrors} (f : DBFlavor) {D : SqlEngine} {T : SqlTables D} {HL : SqlLaws f T} {HR : SqlReliable f T}.

Lemma single_or_missing {A} q args (scan : row → outcome message A) missing :
  single (QueryRow q args scan (or_missing missing)).
Proof. left. do 3 eexists. split; [done|]. intros o. cbn beta.
  destruct (let! r := first_row o in o_maperr SqlError (scan r)) as [c|[]|m]; by eexists. Qed.
Lemma single_query_row {A} q args (scan : row → outcome message A) : single (db_QueryRow q args scan).
Proof. left. do 3 eexists. split; [done|]. intros o. by eexists. Qed.
Lemma single_query_rows {A} q args (body : row → outcome error A) : single (query_rows db_error q args body).
Proof. left. do 3 eexists. split; [done|]. intros o. by eexists. Qed.
Lemma single_exec q args : single (db_Exec q args).
Proof. right. do 3 eexists. split; [done|]. intros o. by eexists. Qed.
Lemma single_getSecretVersionRow name version : single (getSecretVersionRow f name version).
Proof.
  left. unfold getSecretVersionRow. case_decide; do 3 eexists; (split; [done|]); intros o; cbn beta;
    destruct (let! r := first_row o in o_maperr SqlError (scan_five_texts r)) as [c|[]|m]; by eexists.
Qed.

(** A name that is live and deleted at once. *)
Lemma live_and_deleted_stuck e e' name req (l : list snapshot) g d :
  timeline l → l ≠ [] → stored name d l → gone Secrets d !! name = Some g →
  name ≠ ""%string → ssr_Value req ≠ ""%string →
  run (SqlSecrets.DeleteSecret f e name) d = (Err (secret_missing name), d) ∧
  run (SqlSecrets.RecoverDeletedSecret f name) d =
    (Err (newError StatusConflict "Conflict" ("Secret " ++ name ++ " already exists.")%string), d) ∧
  run (SqlSecrets.SetSecret f e' name req) d =
    (Err (newError StatusConflict "InvalidOperation"
      ("Secret " ++ name ++ " is currently deleted and cannot be reused until recovered or purged.")%string), d).
Proof.
  intros Hl Hne Hs Hg Hname Hvalue. split_and!.
  - unfold SqlSecrets.DeleteSecret. pose proof (run_getSecretVersionRow f name "" d l Hl Hs) as Hrow.
    apply last_Some_ne in Hne as [x Hx]. unfold find_snapshot, last_ptr in Hrow. rewrite decide_True, Hx in Hrow by done.
    rewrite (run_bind_Ok _ _ _ _ _ Hrow).
    pose proof (run_count_deleted f ("SELECT COUNT(*) FROM kv_deleted_secrets WHERE name = " ++ ph f 1)%string Secrets name d ltac:(sent)) as Hc.
    rewrite Hg, decide_True in Hc by done. by rewrite (run_bind_Ok _ _ _ _ _ Hc).
  - unfold SqlSecrets.RecoverDeletedSecret.
    pose proof (run_count f ("SELECT COUNT(*) FROM kv_secrets WHERE name = " ++ ph f 1)%string Secrets name d ltac:(sent)) as Hc.
    rewrite (stored_perm name d l Hl Hs), length_fmap in Hc. rewrite (run_bind_Ok _ _ _ _ _ Hc).
    rewrite decide_True; [done|]. destruct l; [done|cbn; lia].
  - unfold SqlSecrets.SetSecret. rewrite !decide_False by done. pose proof (run_checkNotDeleted f name d) as Hc.
    rewrite Hg, decide_True in Hc by done. by rewrite (run_bind_Err _ _ _ _ _ Hc).
Qed.
End refusals.

(** C40: a recovery that is interrupted leaves a secret nobody can use.  Stop
    RecoverDeletedSecret after it has inserted the first version, and before
    it deletes the entry of the deleted secret.  The name is then live and
    deleted at once, and on an engine that answers, deleting it says that it
    is not there, recovering it that it exists already, and setting it that it
    is deleted, each without changing anything. *)
Theorem sql_interrupted_recovery_stuck `{JE : JsonErrors} (f : DBFlavor) {D : SqlEngine} {T : SqlTables D}
    (HL : SqlLaws f T) (HR : SqlReliable f T) e e' name req l g d :
  gone Secrets d !! name = Some g → unmarshal_secret_payload (g_versions g) = Ok l → timeline l → l ≠ [] →
  stored name d ([] : list snapshot) → name ≠ ""%string → ssr_Value req ≠ ""%string →
  let d' := (steps 3 (SqlSecrets.RecoverDeletedSecret f name) d).2 in
  run (SqlSecrets.DeleteSecret f e name) d' = (Err (secret_missing name), d') ∧
  run (SqlSecrets.RecoverDeletedSecret f name) d' =
    (Err (newError StatusConflict "Conflict" ("Secret " ++ name ++ " already exists.")%string), d') ∧
  run (SqlSecrets.SetSecret f e' name req) d' =
    (Err (newError StatusConflict "InvalidOperation"
      ("Secret " ++ name ++ " is currently deleted and cannot be reused until recovered or purged.")%string), d').
Proof.
  intros Hg Hp Hl Hne Hs Hname Hvalue d'. destruct l as [|x l]; [done|].
  pose proof (run_count f ("SELECT COUNT(*) FROM kv_secrets WHERE name = " ++ ph f 1)%string Secrets name d ltac:(sent)) as Hc.
  rewrite (stored_perm name d [] timeline_nil Hs) in Hc.
  pose proof (run_getDeletedSecretRow f name d) as Hrow. rewrite Hg in Hrow.
  destruct (run_insertSecretRow f (snapshot_record name x) (wrap64 (ss_CreatedAt x + Z.of_nat 0)) d [] Hs ltac:(set_solver))
    as (d1 & Hins & Hs1 & _ & Hg1).
  assert (d' = d1) as ->.
  { subst d'. unfold SqlSecrets.RecoverDeletedSecret. cbn [steps].
    rewrite (bind_step _ _ _ _ _ (single_query_row _ _ _) Hc). rewrite decide_False by (cbn; lia).
    rewrite (bind_step _ _ _ _ _ (single_or_missing _ _ _ _) Hrow). cbn [dr_Versions]. rewrite Hp. cbn [p_bind imap p_iter].
    by rewrite (bind_step2 _ _ _ _ _ _ (single_exec _ _) Hins). }
  apply (live_and_deleted_stuck f _ _ _ _ ([] ++ [snapshot_of (snapshot_record name x) (wrap64 (ss_CreatedAt x + Z.of_nat 0))]) g);
    [|done|exact Hs1|by rewrite Hg1|done|done].
  pose proof (Forall_inv (tl_ok _ Hl)) as (Hv & Hval & Hct & Ha & Ht & _). apply timeline_snoc; [apply timeline_nil| |constructor|set_solver].
  split_and!; [done|done|done|done| |apply wrap64_range]. cbn. unfold SqlCore.cloneTags. by rewrite cloneTags_id.
Qed.

(** The schedule of the race: SetSecret finds that the name is not deleted;
    DeleteSecret reads everything it needs; SetSecret inserts its version;
    DeleteSecret writes what it read and deletes every row of the name. *)
Definition set_delete_race : list bool := [true; false; false; false; true; false; false].

(** A version set while its secret is deleted is lost.  Let SetSecret and
    DeleteSecret of one live secret interleave as [set_delete_race] says, on
    an engine that does not fail.  Both succeed; afterwards the secret is
    deleted with the versions it had before, and the version that was set,
    which its client was told is stored, is neither live nor recoverable. *)
Theorem sql_set_delete_race `{JE : JsonErrors} (f : DBFlavor) {D : SqlEngine} {T : SqlTables D}
    (HL : SqlLaws f T) (HR : SqlReliable f T) e1 e2 name req l d :
  timeline l → l ≠ [] → stored name d l → gone Secrets d !! name = None →
  name ≠ ""%string → ssr_Value req ≠ ""%string → rand_ok e1 0 = true → rand_ok e2 0 = true →
  version_id e1 ∉ ss_Version <$> l →
  ∃ rec deleted d' g,
    interleave set_delete_race (SqlSecrets.SetSecret f e1 name req) (SqlSecrets.DeleteSecret f e2 name) d =
      (Done (Ok rec), Done (Ok deleted), d') ∧
    sr_Version rec = version_id e1 ∧ stored name d' ([] : list snapshot) ∧
    gone Secrets d' !! name = Some g ∧ unmarshal_secret_payload (g_versions g) = Ok l.
Proof.
  intros Hl Hne Hs Hg Hname Hvalue He1 He2 Hfresh.
  set (rec := mkSecretRecord name (version_id e1) (ssr_Value req) (ssr_ContentType req)
    (SqlCore.buildAttributes (ssr_Attributes req) (nowUnix e1) (nowUnix e1)) (SqlCore.cloneTags (ssr_Tags req))).
  pose proof (run_count_deleted f ("SELECT COUNT(*) FROM kv_deleted_secrets WHERE name = " ++ ph f 1)%string Secrets name d
    ltac:(sent)) as Hcount.
  rewrite Hg, decide_False in Hcount by (by intros []).
  pose proof (run_getSecretVersionRow f name "" d l Hl Hs) as Hrow.
  apply last_Some_ne in Hne as [x Hx]. unfold find_snapshot, last_ptr in Hrow. rewrite decide_True, Hx in Hrow by done.
  pose proof (run_allSecretVersionSnapshots f name d l Hl Hs) as Hsnap.
  destruct (run_insertSecretRow f rec (tsNano e1 1) d l Hs Hfresh) as (d1 & Hins & Hs1 & _ & Hg1).
  destruct (run_insert_deleted f ("INSERT INTO kv_deleted_secrets (name, recovery_id, deleted_date, scheduled_purge_date, versions) VALUES (" ++
      phs f 1 5 ++ ")")%string Secrets name ("/deleted" ++ "secrets" ++ "/" ++ name ++ "/" ++ version_id e2)%string (nowUnix e2)
      (scheduledPurge (nowUnix e2)) (marshal (json_of_secret_payload l)) d1 ltac:(sent)) as (d2 & Hins2 & Hlive2 & Hg2);
    [by rewrite Hg1|].
  destruct (run_delete_rows f (R:=secret_rows) ("DELETE FROM kv_secrets WHERE name = " ++ ph f 1)%string name d2 ltac:(sent))
    as (d3 & Hdel & Hs3 & _ & Hg3).
  destruct (secret_payload_total l) as (l' & Hp & _ & Heq); [eapply Forall_impl; [apply Hl|apply snapshot_ok_int64]|].
  rewrite Heq in Hp by apply Hl. clear l' Heq.
  eexists rec, _, d3, _. split; [|split; [done|split; [done|split; [by rewrite Hg3, Hg2, lookup_insert_eq|done]]]].
  unfold SqlSecrets.SetSecret, SqlSecrets.DeleteSecret, set_delete_race, checkNotDeleted. rewrite !decide_False by done.
  cbn [interleave].
  erewrite bind_step2; [|apply single_query_row|exact Hcount]. rewrite decide_False by lia. cbn [p_ret p_bind]. cbv zeta.
  unfold SqlCore.newVersion. rewrite newVersion_Ok by done. cbn [p_bind].
  rewrite (bind_step _ _ _ _ _ (single_getSecretVersionRow f _ _) Hrow).
  rewrite (bind_step _ _ _ _ _ (single_query_row _ _ _) Hcount). rewrite decide_False by lia.
  rewrite (bind_step _ _ _ _ _ (single_query_rows _ _ _) Hsnap). cbv zeta.
  unfold SqlCore.newRecoveryID. rewrite newRecoveryID_cases, He2. cbn [p_bind].
  rewrite (bind_step _ _ _ _ _ (single_exec _ _) Hins).
  rewrite (bind_step _ _ _ _ _ (single_exec _ _) Hins2).
  rewrite (bind_step _ _ _ _ _ (single_exec _ _) Hdel). reflexivity.
Qed.

(** C39: restoring a bad backup destroys the secret it names.  A backup blob
    whose first two versions carry the same identifier is accepted: the
    in-memory store restores it.  The SQL store deletes every row of the name
    and the entry of its deleted secret, and only then fails on the second
    version, whose primary key is taken: the restore answers no success, and
    all that is left of whatever versions the name had is the first version
    of the blob. *)
Theorem sql_restore_destroys `{JE : JsonErrors} (f : DBFlavor) {D : SqlEngine} {T : SqlTables D}
    (HL : SqlLaws f T) (HR : SqlReliable f T) token raw payload v1 v2 rest d s :
  b64_DecodeString StdEncoding token = Ok raw → unmarshal_backup raw = Some payload → bk_Name payload ≠ ""%string →
  take (bk_Versions payload).1 (bk_Versions payload).2 = v1 :: v2 :: rest → sr_Version v2 = sr_Version v1 →
  is_Ok (SecretBackup.RestoreSecret token s).1 ∧
  ¬ is_Ok (run (SqlSecrets.RestoreSecret f token) d).1 ∧
  stored (bk_Name payload) (run (SqlSecrets.RestoreSecret f token) d).2 [snapshot_of (restored_record (bk_Name payload) v1) 0] ∧
  gone Secrets (run (SqlSecrets.RestoreSecret f token) d).2 !! bk_Name payload = None.
Proof.
  intros Hraw Hpay Hname Hv Hdup. split.
  { unfold SecretBackup.RestoreSecret. rewrite Hraw, Hpay. destruct (bk_Versions payload) as [len backing]. cbn [fst snd] in Hv.
    rewrite decide_False by (intros [|E]; [done|]; by subst len). monad_unfold. rewrite Hv.
    unfold latestSecret, last_ptr. cbn [se_versions]. rewrite fmap_last.
    destruct (last (v1 :: v2 :: rest)) as [x|] eqn:Hx; [done|by apply last_None in Hx]. }
  unfold SqlSecrets.RestoreSecret. rewrite Hraw, Hpay. cbv zeta. rewrite Hv, decide_False by (intros [|E]; done).
  set (name := bk_Name payload) in *.
  destruct (run_delete_rows f (R:=secret_rows) ("DELETE FROM kv_secrets WHERE name = " ++ ph f 1)%string name d ltac:(sent))
    as (d1 & Hrun1 & Hs1 & _ & _).
  rewrite (run_bind_Ok _ _ _ _ _ Hrun1).
  destruct (run_delete_deleted f ("DELETE FROM kv_deleted_secrets WHERE name = " ++ ph f 1)%string Secrets name d1 ltac:(sent))
    as (d2 & _ & Hrun2 & Hlive2 & Hgone2).
  rewrite (run_bind_Ok _ _ _ _ _ Hrun2).
  assert (stored name d2 []) as Hs2 by (eapply stored_ext; [|exact Hs1]; intros v; by rewrite Hlive2).
  destruct (run_insertSecretRow f (restored_record name v1) (wrap64 (Z.of_nat 0)) d2 [] Hs2 ltac:(set_solver))
    as (d3 & Hrun3 & Hs3 & _ & Hg3).
  set (again := insertSecretRow f (restored_record name v2) (wrap64 (Z.of_nat 1))).
  assert (¬ is_Ok (run again d3).1 ∧ same d3 (run again d3).2) as [Hfail Hsame].
  { unfold again, insertSecretRow. cbn [p_bind marshalAttrs marshalTags]. unfold db_Exec, exec. cbn [run].
    destruct (sql_Exec _ _ d3) as [o d4] eqn:Hx. cbn [fst snd run].
    destruct o as [[]|err|m]; [|split; [by intros []|by apply (exec_failed (f:=f) _ _ _ _ _ Hx)]..].
    exfalso. apply (exec_ok (f:=f) _ (Insert Secrets)) in Hx; [|sent].
    destruct (Hx [_; _; _; _] _ eq_refl eq_refl) as [Hnone _]. cbn [sr_Name sr_Version restored_record] in Hnone.
    rewrite Hdup in Hnone. pose proof (Hs3 (sr_Version v1) (row_of (snapshot_of (restored_record name v1) (wrap64 (Z.of_nat 0)))).2) as Hin.
    assert (live Secrets d3 !! (name, sr_Version v1) = None) as Hnone' by exact Hnone. cbn [sr_Name restored_record] in Hin.
    rewrite Hnone' in Hin. destruct Hin as [_ Hin]. discriminate Hin. by left. }
  assert (∃ o, run (let+ _ := p_iter (λ p : nat * SecretRecord, insertSecretRow f (restored_record name p.2) (wrap64 (Z.of_nat p.1)))
      (imap pair (v1 :: v2 :: rest)) in
    Done (let! latest := last_of (v1 :: v2 :: rest) in
      Ok (mkSecretRecord name (sr_Version latest) (sr_Value latest) (sr_ContentType latest) (sr_Attributes latest)
        (sr_Tags latest)))) d2 = (o, (run again d3).2) ∧ ¬ is_Ok o) as (o & -> & Ho).
  { cbn [imap p_iter]. rewrite run_bind. unfold m_bind. rewrite (run_bind_Ok _ _ _ _ _ Hrun3).
    cbn [p_iter imap]. rewrite run_bind. unfold m_bind.
    change (insertSecretRow f (restored_record name ((pair ∘ S) 0%nat v2).2) (wrap64 (Z.of_nat ((pair ∘ S) 0%nat v2).1))) with again.
    destruct (run again d3) as [[[]|e|m] d4]; [by destruct Hfail|(eexists; split; [reflexivity|by intros []])..]. }
  cbn [fst snd]. destruct (Hsame Secrets) as [Hl Hg]. split; [done|]. split.
  - eapply stored_ext; [|exact Hs3]. intros v. by rewrite Hl.
  - by rewrite Hg, Hg3, Hgone2, lookup_delete_eq.
Qed.

(** ** A database with one secret of two versions *)

Definition race_attributes : Attributes := SqlCore.buildAttributes None 1700000000 1700000000.
Definition race_one : snapshot := mkSecretSnapshot "v1" "one" "text/plain" race_attributes None 1.
Definition race_two : snapshot := mkSecretSnapshot "v2" "two" "text/plain" race_attributes (Some {["env" := "prod"]}) 2.
Definition race_versions : list snapshot := [race_one; race_two].

Lemma race_timeline : timeline race_versions.
Proof.
  split.
  - repeat constructor.
  - assert (attributes_ok race_attributes) as Ha.
    { unfold attributes_ok, attributes_int64, in_int64, max_int64. cbn. split_and!; try done; lia. }
    assert (∀ z, 0 ≤ z < 10 → in_int64 z) as Hz by (intros z; unfold in_int64, max_int64; lia).
    apply Forall_cons. split; [|apply Forall_singleton].
    + split_and!; [reflexivity..|exact Ha|exact I|by apply Hz].
    + split_and!; [reflexivity..|exact Ha|by apply map_Forall_singleton|by apply Hz].
  - apply (bool_decide_unpack _). vm_compute. exact I.
Qed.

Definition race_db : toy_tables :=
  toy_set_live Secrets <[("db", "v2") := (row_of race_two).2]> (toy_set_live Secrets <[("db", "v1") := (row_of race_one).2]> toy_empty).
Definition race_grave : grave := mkGrave "/deletedsecrets/db/0" 1700000000 1707776000 (marshal (json_of_secret_payload race_versions)).
Definition race_deleted_db : toy_tables := toy_set_gone Secrets <["db" := race_grave]> toy_empty.

Lemma race_stored f : stored (D:=toy_engine f) (T:=toy_views f) "db" race_db race_versions.
Proof.
  apply (stored_insert (D:=toy_engine f) (T:=toy_views f) "db" (toy_set_live Secrets <[("db", "v1") := (row_of race_one).2]> toy_empty)
    race_db [race_one] race_two); [|reflexivity..].
  apply (stored_insert (D:=toy_engine f) (T:=toy_views f) "db" toy_empty _ [] race_one); [|reflexivity..].
  intros v r. split; [discriminate|]. by intros ?%elem_of_nil.
Qed.
Lemma race_payload : unmarshal_secret_payload (g_versions race_grave) = Ok race_versions.
Proof. vm_compute. reflexivity. Qed.

Lemma sql_versions_survive_witness :
  survives (D:=toy_engine FlavorMSSQL) (T:=toy_views FlavorMSSQL) "db" race_versions
    (steps (D:=toy_engine FlavorMSSQL) 4 (SqlSecrets.DeleteSecret FlavorMSSQL toy_env "db") race_db).2 ∧
  survives (D:=toy_engine FlavorMSSQL) (T:=toy_views FlavorMSSQL) "db" race_versions
    (steps (D:=toy_engine FlavorMSSQL) 4 (SqlSecrets.RecoverDeletedSecret FlavorMSSQL "db") race_deleted_db).2.
Proof.
  split.
  - exact (proj1 (sql_versions_survive FlavorMSSQL (toy_sql_laws FlavorMSSQL) toy_env "db" race_versions race_db 4)
      race_timeline (race_stored FlavorMSSQL)).
  - exact (proj2 (sql_versions_survive FlavorMSSQL (toy_sql_laws FlavorMSSQL) toy_env "db" race_versions race_deleted_db 4)
      race_grave eq_refl race_payload).
Defined.

Definition race_request : SecretSetRequest := mkSecretSetRequest "three" "text/plain" None None.

Lemma sql_interrupted_recovery_stuck_witness :
  (run (D:=toy_engine FlavorSQLite) (SqlSecrets.RecoverDeletedSecret FlavorSQLite "db")
    (steps (D:=toy_engine FlavorSQLite) 3 (SqlSecrets.RecoverDeletedSecret FlavorSQLite "db") race_deleted_db).2).1 =
  Err (newError 409 "Conflict" "Secret db already exists.").
Proof.
  rewrite (proj1 (proj2 (sql_interrupted_recovery_stuck FlavorSQLite (toy_sql_laws FlavorSQLite) (toy_sql_reliable FlavorSQLite)
    toy_env toy_env "db" race_request race_versions race_grave race_deleted_db eq_refl race_payload race_timeline
    ltac:(discriminate) ltac:(intros v r; split; [discriminate|by intros ?%elem_of_nil]) ltac:(discriminate) ltac:(discriminate)))).
  reflexivity.
Defined.

Lemma sql_set_delete_race_witness : ∃ rec deleted d' g,
  interleave (D:=toy_engine FlavorPostgres) set_delete_race (SqlSecrets.SetSecret FlavorPostgres toy_env "db" race_request)
    (SqlSecrets.DeleteSecret FlavorPostgres toy_env "db") race_db = (Done (Ok rec), Done (Ok deleted), d') ∧
  sr_Version rec = version_id toy_env ∧ stored (D:=toy_engine FlavorPostgres) (T:=toy_views FlavorPostgres) "db" d' ([] : list snapshot) ∧
  toy_gone d' Secrets !! "db"%string = Some g ∧ unmarshal_secret_payload (g_versions g) = Ok race_versions.
Proof.
  apply (sql_set_delete_race FlavorPostgres (toy_sql_laws FlavorPostgres) (toy_sql_reliable FlavorPostgres)
    toy_env toy_env "db" race_request race_versions race_db); try discriminate; try reflexivity.
  - exact race_timeline.
  - apply race_stored.
  - apply (bool_decide_unpack _). vm_compute. exact I.
Defined.

(** A blob whose versions carry the same identifier. *)
Definition twice (value : string) : SecretRecord := mkSecretRecord "db" "v1" value "text/plain" race_attributes None.
Definition bad_blob : string := b64_EncodeToString StdEncoding (json_print (json_of_backup "db" [twice "a"; twice "b"])).

Lemma sql_restore_destroys_witness :
  is_Ok (SecretBackup.RestoreSecret bad_blob New).1 ∧
  ¬ is_Ok (run (D:=toy_engine FlavorSQLite) (SqlSecrets.RestoreSecret FlavorSQLite bad_blob) race_db).1.
Proof.
  destruct (sql_restore_destroys FlavorSQLite (toy_sql_laws FlavorSQLite) (toy_sql_reliable FlavorSQLite) bad_blob
    (json_print (json_of_backup "db" [twice "a"; twice "b"])) (mkSecretBackup "db" (2%nat, [twice "a"; twice "b"]))
    (twice "a") (twice "b") [] race_db New) as (H1 & H2 & _); try (vm_compute; reflexivity); [vm_compute; discriminate|by split].
Defined.
