(* ===== verification/SqlInv.v ===== *)
(** * The SQL store: an invariant of every schedule

    Requests run their statements one by one and nothing orders them, so an
    invariant of the database has to survive each statement alone.  Here: the
    rows of the secrets decode.  [sql_call] names every operation of the store. *)

From S2P Require Import Prelude GoStrings GoUtf8 GoBase64 GoJson JsonFacts GoCrypto GoX509 GoSql Model KeyCrypto CertCrypto StoreCore SecretStore SecretBackup KeyStore CertStore HttpJson SqlSchema SqlCore SqlSecrets SqlKeys SqlCerts SqlFacts SqlFrame SqlRows SqlKeep SqlTimeline Toy ToyX509 ToySql SqlRaces.

(** ** Any operation of the store *)

Inductive sql_call : Type :=
| CSetSecret (e : Env) (name : string) (req : SecretSetRequest)
| CGetSecret (name version : string)
| CListSecrets (maxResults : Z) (skipToken : string)
| CListSecretVersions (name : string) (maxResults : Z) (skipToken : string)
| CUpdateSecret (e : Env) (name version : string) (req : SecretUpdateRequest)
| CDeleteSecret (e : Env) (name : string)
| CListDeletedSecrets (maxResults : Z) (skipToken : string)
| CGetDeletedSecret (name : string)
| CPurgeDeletedSecret (name : string)
| CRecoverDeletedSecret (name : string)
| CBackupSecret (name : string)
| CRestoreSecret (token : string)
| CCreateKey (e : Env) (name : string) (req : CreateKeyRequest)
| CImportKey (e : Env) (name : string) (req : ImportKeyRequest)
| CGetKey (name version : string)
| CListKeys (maxResults : Z) (skipToken : string)
| CListKeyVersions (name : string) (maxResults : Z) (skipToken : string)
| CUpdateKey (e : Env) (name version : string) (req : UpdateKeyRequest)
| CDeleteKey (e : Env) (name : string)
| CListDeletedKeys (maxResults : Z) (skipToken : string)
| CGetDeletedKey (name : string)
| CPurgeDeletedKey (name : string)
| CRecoverDeletedKey (name : string)
| CEncrypt (e : Env) (name version : string) (req : EncryptRequest)
| CDecrypt (name version : string) (req : EncryptRequest)
| CSign (e : Env) (name version : string) (req : SignRequest)
| CVerify (name version : string) (req : VerifyRequest)
| CWrapKey (e : Env) (name version : string) (req : EncryptRequest)
| CUnwrapKey (name version : string) (req : EncryptRequest)
| CCreateCertificate (e : Env) (name : string) (req : CreateCertificateRequest)
| CImportCertificate (e : Env) (name : string) (req : ImportCertificateRequest)
| CGetCertificate (name version : string)
| CListCertificates (maxResults : Z) (skipToken : string)
| CListCertificateVersions (name : string) (maxResults : Z) (skipToken : string)
| CUpdateCertificate (e : Env) (name version : string) (req : UpdateCertificateRequest)
| CGetCertificatePolicy (name : string)
| CUpdateCertificatePolicy (e : Env) (name : string) (policy : option CertificatePolicy)
| CGetPendingCertificateOperation (name : string)
| CDeleteCertificate (e : Env) (name : string)
| CListDeletedCertificates (maxResults : Z) (skipToken : string)
| CGetDeletedCertificate (name : string)
| CPurgeDeletedCertificate (name : string)
| CRecoverDeletedCertificate (name : string).

(** The integers of a request are Go's 64-bit integers. *)
Definition call_int64 (c : sql_call) : Prop :=
  match c with
  | CSetSecret _ _ req => request_int64 (ssr_Attributes req)
  | CUpdateSecret _ _ _ req => request_int64 (sur_Attributes req)
  | CCreateCertificate _ _ req => request_int64 (ccr_Attributes req)
  | CImportCertificate _ _ req => request_int64 (icr_Attributes req)
  | _ => True
  end.

#[local] Hint Resolve recoverableDays_int64 nowUnix_int64 wrap64_range : core.

Section invariant.
Context `{JE : JsonErrors} (f : DBFlavor) {D : SqlEngine} {T : SqlTables D} {HL : SqlLaws f T}.

(** ** What the tables hold *)

Definition row_decodes (r : live_row) : Prop :=
  in_int64 r.2 ∧ ∃ value contentType attrs tags, r.1 = [VText value; VText contentType; VText attrs; VText tags] ∧
    is_Ok (unmarshalAttrs attrs) ∧ is_Ok (unmarshalTags tags).
Definition grave_decodes (g : grave) : Prop := is_Ok (unmarshal_secret_payload (g_versions g)).
Definition secrets_decode : sdb → Prop := rows_hold Secrets row_decodes grave_decodes.

(** ** The statements on secrets *)

Lemma columns_decode value ct attrs t ts :
  in_int64 ts → attributes_int64 attrs →
  row_decodes ([VText value; VText ct; VText (marshal (json_of_attributes attrs)); VText (marshal (enc_string_map t))], ts).
Proof.
  intros Hts Ha. split; [done|]. do 4 eexists. split; [done|].
  destruct (unmarshalAttrs_total _ Ha) as (a' & -> & _). by destruct (unmarshalTags_total t) as (t' & -> & _).
Qed.
Lemma keeps_insertSecretRow rec ts :
  attributes_int64 (sr_Attributes rec) → in_int64 ts → keeps secrets_decode (insertSecretRow f rec ts).
Proof.
  intros Ha Hts. unfold insertSecretRow. cbn [p_bind marshalAttrs marshalTags].
  apply (keeps_insert f Secrets _ _ _ _ [_; _; _; _]); [sent|done|]. by apply columns_decode.
Qed.
Lemma keeps_update_secret ct attrs t name version q :
  sends f q (Update Secrets ["content_type"; "attributes"; "tags"]%string) → attributes_int64 attrs →
  keeps secrets_decode (db_Exec q
    [VText ct; VText (marshal (json_of_attributes attrs)); VText (marshal (enc_string_map t)); VText name; VText version]).
Proof.
  intros Hq Ha. apply (keeps_update f Secrets _ _ ["content_type"; "attributes"; "tags"]%string [_; _; _]); [exact Hq|done|].
  intros [cols ts] (Hts & v & c & a & t0 & Hr & _). cbn [fst snd] in *. subst cols.
  apply (columns_decode v ct attrs t ts Hts Ha).
Qed.
Lemma keeps_insert_deleted_secret name id deleted purge l q :
  sends f q (InsertDeleted Secrets) → Forall snapshot_int64 l →
  keeps secrets_decode (db_Exec q
    [VText name; VText id; VInt deleted; VInt purge; VText (marshal (json_of_secret_payload l))]).
Proof.
  intros Hq Hs. apply (keeps_insert_deleted f); [done|].
  unfold grave_decodes. cbn [g_versions]. by destruct (secret_payload_total l Hs) as (l' & -> & _).
Qed.
End invariant.

Section operations.
Context `{JE : JsonErrors} (f : DBFlavor) {D : SqlEngine} {T : SqlTables D} {HL : SqlLaws f T}.

Lemma keeps_checkNotDeleted table name what : keeps secrets_decode (checkNotDeleted f table name what).
Proof. keep. Qed.
Lemma keeps_getSecretVersionRow name version : keeps secrets_decode (getSecretVersionRow f name version).
Proof. unfold getSecretVersionRow. keep. Qed.
Lemma keeps_allSecretVersionSnapshots name : keeps secrets_decode (allSecretVersionSnapshots f name).
Proof. unfold allSecretVersionSnapshots. keep. Qed.
Lemma keeps_getDeletedSecretRow name : keeps secrets_decode (getDeletedSecretRow f name).
Proof. unfold getDeletedSecretRow. keep. Qed.

(** ** What they return *)

Lemma returns_getSecretVersionRow name version :
  returns secrets_decode (getSecretVersionRow f name version) (λ rec, attributes_int64 (sr_Attributes rec)).
Proof.
  unfold getSecretVersionRow. eapply returns_bind; [apply returns_True|]. intros [[[[ver value] ct] attrs] tags] _.
  apply returns_Done_intro. unfold secret_of_columns. intros rec (a & Ha & (t & _ & [= <-])%o_bind_Ok)%o_bind_Ok. by eapply unmarshalAttrs_int64.
Qed.

Lemma returns_allSecretVersionSnapshots name :
  returns secrets_decode (allSecretVersionSnapshots f name) (Forall snapshot_int64).
Proof.
  unfold allSecretVersionSnapshots. apply returns_query_rows. intros d rows err r a Hd Hq Hr.
  destruct (read_versions f Secrets _ _ (version_columns Secrets ++ ["created_at"%string]) false _ _ _ _ _ _ ltac:(sent) Hd Hq Hr)
    as (v & row & -> & Hts & value & ct & attrs & tags & Hrow & _).
  destruct row as [cols ts]. cbn [fst snd] in *. subst cols. cbn [project column fmap list_fmap].
  intros (c & Hc & Ha)%o_bind_Ok. apply (f_equal (λ o, match o with Ok c => Some c | _ => None end)) in Hc.
  vm_compute in Hc. injection Hc as <-. apply o_bind_Ok in Ha as (at_ & Hat & (tg & _ & [= <-])%o_bind_Ok).
  split; [by eapply unmarshalAttrs_int64|done].
Qed.

(** ** Every operation keeps the invariant *)

Lemma keeps_SetSecret e name req :
  request_int64 (ssr_Attributes req) → keeps secrets_decode (SqlSecrets.SetSecret f e name req).
Proof.
  intros Hreq. unfold SqlSecrets.SetSecret. do 2 (case_decide; [done|]).
  apply keeps_then; [apply keeps_checkNotDeleted|intros _]. apply keeps_then; [done|intros version].
  apply keeps_then; [|done]. apply (keeps_insertSecretRow f); [|apply wrap64_range].
  cbn [sr_Attributes]. by apply buildAttributes_int64; [| |].
Qed.

Lemma keeps_UpdateSecret e name version req :
  request_int64 (sur_Attributes req) → keeps secrets_decode (SqlSecrets.UpdateSecret f e name version req).
Proof.
  intros Hreq. unfold SqlSecrets.UpdateSecret.
  eapply keeps_bind; [apply keeps_getSecretVersionRow|apply returns_getSecretVersionRow|]. intros rec Hrec.
  cbv zeta. cbn [marshalAttrs marshalTags p_bind]. apply keeps_then; [|done].
  apply (keeps_update_secret f); [sent|]. by apply mergeAttributes_int64.
Qed.

Lemma keeps_DeleteSecret e name : keeps secrets_decode (SqlSecrets.DeleteSecret f e name).
Proof.
  unfold SqlSecrets.DeleteSecret. apply keeps_then; [apply keeps_getSecretVersionRow|intros latest].
  apply keeps_then; [apply keeps_query_row|intros count]. case_decide; [done|].
  eapply keeps_bind; [apply keeps_allSecretVersionSnapshots|apply returns_allSecretVersionSnapshots|].
  intros l Hl. cbv zeta. apply keeps_then; [done|intros id].
  apply keeps_then; [by apply (keeps_insert_deleted_secret f); [sent|]|intros _].
  apply keeps_then; [apply (keeps_delete f); sent|done].
Qed.

Lemma keeps_RecoverDeletedSecret name : keeps secrets_decode (SqlSecrets.RecoverDeletedSecret f name).
Proof.
  unfold SqlSecrets.RecoverDeletedSecret. apply keeps_then; [apply keeps_query_row|intros count]. case_decide; [done|].
  apply keeps_then; [apply keeps_getDeletedSecretRow|intros r].
  eapply (keeps_bind _ _ (Forall snapshot_int64)); [done|apply returns_Done_intro; intros l; apply unmarshal_secret_payload_int64|].
  intros l Hl. apply keeps_then.
  - apply keeps_iter. apply (Forall_impl _ _ _ (Forall_imap_pair _ _ Hl)). intros p [Ha _].
    by apply (keeps_insertSecretRow f); [|apply wrap64_range].
  - intros _. apply keeps_then; [first [apply (keeps_delete_deleted f)|apply (keeps_delete_ignore f)]; sent|done].
Qed.

Lemma unmarshal_backup_int64 data payload :
  unmarshal_backup data = Some payload → Forall (λ r, attributes_int64 (sr_Attributes r)) (bk_Versions payload).2.
Proof.
  assert (attributes_int64 zero_attributes) as Hz.
  { unfold attributes_int64, in_int64, max_int64. cbn. split_and!; try done; lia. }
  unfold unmarshal_backup. intros (j & _ & H)%bind_Some. revert H.
  apply (dec_struct_inv (λ b, Forall (λ r, attributes_int64 (sr_Attributes r)) (bk_Versions b).2)); [|constructor].
  intros n d Hd cur j' v Hcur. apply list_elem_of_In in Hd. cbn in Hd.
  destruct Hd as [[= <- <-]|[[= <- <-]|[]]]; intros (x & Hx & ->)%fmap_Some; [done|]. cbn. revert Hx.
  apply dec_slice_inv; [done| |done]. clear. intros cur j v Hc.
  apply (dec_struct_inv (λ r, attributes_int64 (sr_Attributes r))); [|done]. clear. intros n d Hd cur j v Hc.
  apply list_elem_of_In in Hd. cbn in Hd.
  destruct_or! Hd; try done; injection Hd as <- <-; intros (x & Hx & ->)%fmap_Some; cbn; try done.
  by eapply dec_attributes_int64.
Qed.

Lemma keeps_RestoreSecret token : keeps secrets_decode (SqlSecrets.RestoreSecret f token).
Proof.
  unfold SqlSecrets.RestoreSecret. destruct (b64_DecodeString StdEncoding token) as [raw| |]; [|done..].
  destruct (unmarshal_backup raw) as [payload|] eqn:Hp; [|done]. apply unmarshal_backup_int64 in Hp.
  cbv zeta. case_decide; [done|].
  apply keeps_then; [apply (keeps_delete f); sent|intros _].
  apply keeps_then; [first [apply (keeps_delete_deleted f)|apply (keeps_delete_ignore f)]; sent|intros _]. apply keeps_then; [|done].
  apply keeps_iter. apply (Forall_take _ (bk_Versions payload).1) in Hp.
  apply (Forall_impl _ _ _ (Forall_imap_pair _ _ Hp)). intros p (Hn & He & Hc & Hu & _).
  apply (keeps_insertSecretRow f); [|apply wrap64_range]. by split_and!.
Qed.
End operations.

Create HintDb keeps.
Ltac head_of p := lazymatch p with ?g _ => head_of g | _ => p end.

Section programs.
Context `{JE : JsonErrors} `{X : CertLib} `{KD : KeyDer} `{L : PublicKeyLib} `{C : BlockCipher}.
Context (f : DBFlavor) {D : SqlEngine} {T : SqlTables D} {HL : SqlLaws f T}.

Hint Resolve keeps_checkNotDeleted keeps_getSecretVersionRow : keeps.
(** The operations on keys and certificates write no row of the secrets but
    through [insertSecretRow]. *)
Hint Extern 2 (keeps _ _) => apply keeps_spared; solve [auto 3 with spares nocore] : keeps.
#[local] Ltac keep_all := keep; try solve [auto 2 with keeps nocore].

Lemma keeps_getIssuerMaterialSQL name : keeps secrets_decode (getIssuerMaterialSQL f name).
Proof. unfold getIssuerMaterialSQL. keep_all. Qed.
Hint Resolve keeps_getIssuerMaterialSQL : keeps.

Lemma keeps_cert_secret name version value tags e input ts :
  request_int64 input → in_int64 ts →
  keeps secrets_decode (insertSecretRow f (mkSecretRecord name version value "application/x-pkcs12"
    (StoreCore.buildAttributes input (nowUnix e) (nowUnix e)) tags) ts).
Proof. intros Hi Hts. apply (keeps_insertSecretRow f); [|done]. by apply buildAttributes_int64. Qed.

Lemma keeps_CreateCertificate e name req :
  request_int64 (ccr_Attributes req) → keeps secrets_decode (SqlCerts.CreateCertificate f e name req).
Proof.
  intros Hreq. unfold SqlCerts.CreateCertificate. keep_all.
  by apply keeps_cert_secret; [|apply wrap64_range].
Qed.
Lemma keeps_ImportCertificate e name req :
  request_int64 (icr_Attributes req) → keeps secrets_decode (SqlCerts.ImportCertificate f e name req).
Proof.
  intros Hreq. unfold SqlCerts.ImportCertificate. keep_all.
  - destruct (cert_RSAPublicKey _); keep_all.
  - by apply keeps_cert_secret; [|apply wrap64_range].
Qed.

(** The program of a call, its answer dropped. *)
Definition dropped {A} (p : SP A) : SP unit := let+ _ := p in p_ret ().
Definition sql_prog (c : sql_call) : SP unit :=
  match c with
  | CSetSecret e n r => dropped (SqlSecrets.SetSecret f e n r)
  | CGetSecret n v => dropped (SqlSecrets.GetSecret f n v)
  | CListSecrets m s => dropped (SqlSecrets.ListSecrets f m s)
  | CListSecretVersions n m s => dropped (SqlSecrets.ListSecretVersions f n m s)
  | CUpdateSecret e n v r => dropped (SqlSecrets.UpdateSecret f e n v r)
  | CDeleteSecret e n => dropped (SqlSecrets.DeleteSecret f e n)
  | CListDeletedSecrets m s => dropped (SqlSecrets.ListDeletedSecrets f m s)
  | CGetDeletedSecret n => dropped (SqlSecrets.GetDeletedSecret f n)
  | CPurgeDeletedSecret n => SqlSecrets.PurgeDeletedSecret f n
  | CRecoverDeletedSecret n => dropped (SqlSecrets.RecoverDeletedSecret f n)
  | CBackupSecret n => dropped (SqlSecrets.BackupSecret f n)
  | CRestoreSecret s => dropped (SqlSecrets.RestoreSecret f s)
  | CCreateKey e n r => dropped (SqlKeys.CreateKey f e n r)
  | CImportKey e n r => dropped (SqlKeys.ImportKey f e n r)
  | CGetKey n v => dropped (SqlKeys.GetKey f n v)
  | CListKeys m s => dropped (SqlKeys.ListKeys f m s)
  | CListKeyVersions n m s => dropped (SqlKeys.ListKeyVersions f n m s)
  | CUpdateKey e n v r => dropped (SqlKeys.UpdateKey f e n v r)
  | CDeleteKey e n => dropped (SqlKeys.DeleteKey f e n)
  | CListDeletedKeys m s => dropped (SqlKeys.ListDeletedKeys f m s)
  | CGetDeletedKey n => dropped (SqlKeys.GetDeletedKey f n)
  | CPurgeDeletedKey n => SqlKeys.PurgeDeletedKey f n
  | CRecoverDeletedKey n => dropped (SqlKeys.RecoverDeletedKey f n)
  | CEncrypt e n v r => dropped (SqlKeys.Encrypt f e n v r)
  | CDecrypt n v r => dropped (SqlKeys.Decrypt f n v r)
  | CSign e n v r => dropped (SqlKeys.Sign f e n v r)
  | CVerify n v r => dropped (SqlKeys.Verify f n v r)
  | CWrapKey e n v r => dropped (SqlKeys.WrapKey f e n v r)
  | CUnwrapKey n v r => dropped (SqlKeys.UnwrapKey f n v r)
  | CCreateCertificate e n r => dropped (SqlCerts.CreateCertificate f e n r)
  | CImportCertificate e n r => dropped (SqlCerts.ImportCertificate f e n r)
  | CGetCertificate n v => dropped (SqlCerts.GetCertificate f n v)
  | CListCertificates m s => dropped (SqlCerts.ListCertificates f m s)
  | CListCertificateVersions n m s => dropped (SqlCerts.ListCertificateVersions f n m s)
  | CUpdateCertificate e n v r => dropped (SqlCerts.UpdateCertificate f e n v r)
  | CGetCertificatePolicy n => dropped (SqlCerts.GetCertificatePolicy f n)
  | CUpdateCertificatePolicy e n p => dropped (SqlCerts.UpdateCertificatePolicy f e n p)
  | CGetPendingCertificateOperation n => dropped (SqlCerts.GetPendingCertificateOperation f n)
  | CDeleteCertificate e n => dropped (SqlCerts.DeleteCertificate f e n)
  | CListDeletedCertificates m s => dropped (SqlCerts.ListDeletedCertificates f m s)
  | CGetDeletedCertificate n => dropped (SqlCerts.GetDeletedCertificate f n)
  | CPurgeDeletedCertificate n => SqlCerts.PurgeDeletedCertificate f n
  | CRecoverDeletedCertificate n => dropped (SqlCerts.RecoverDeletedCertificate f n)
  end.

Lemma keeps_dropped {A} (p : SP A) : keeps secrets_decode p → keeps secrets_decode (dropped p).
Proof. intros Hp. by apply keeps_then. Qed.

Hint Resolve keeps_allSecretVersionSnapshots keeps_getDeletedSecretRow keeps_SetSecret keeps_UpdateSecret keeps_DeleteSecret
  keeps_RecoverDeletedSecret keeps_RestoreSecret keeps_CreateCertificate keeps_ImportCertificate : keeps.

Lemma keeps_call c : call_int64 c → keeps secrets_decode (sql_prog c).
Proof.
  intros Hc. destruct c; cbn [sql_prog call_int64] in *; try apply keeps_dropped; try solve [eauto with keeps];
    match goal with |- keeps _ ?p => let h := head_of p in unfold h end.
  all: keep; try solve [eauto with keeps]; try apply keeps_traverse; keep; try solve [eauto with keeps].
  - apply (keeps_delete_deleted f). sent.
Qed.

(** ** Reading what decodes *)

Lemma row_decodes_columns (r : live_row) name v :
  row_decodes r → ∃ c rec,
    scan_five_texts (project Secrets (version_columns Secrets) (v, r)) = Ok c ∧
    secret_of_columns name c = Ok rec.
Proof.
  destruct r as [cols ts]. intros (_ & value & ct & attrs & tags & Hr & Ha & Ht). cbn [fst] in Hr. subst cols.
  destruct (unmarshalAttrs attrs) as [a| |] eqn:Ea, (unmarshalTags tags) as [t| |] eqn:Et; try done.
  do 2 eexists. split; [reflexivity|]. unfold secret_of_columns. rewrite Ea. cbn [o_bind]. by rewrite Et.
Qed.

Lemma GetSecret_decodes name version d :
  SqlReliable f T → secrets_decode d →
  is_Ok (run (SqlSecrets.GetSecret f name version) d).1 ∨
  (run (SqlSecrets.GetSecret f name version) d).1 = Err (secret_missing name).
Proof.
  intros HR [Hl _].
  set (cols := version_columns Secrets).
  assert (∀ q args, q ∈ questions → askable q args → (∀ rows, answers q args d rows → rows = [] ∨ ∃ v r rest, rows = project Secrets cols (v, r) :: rest ∧ row_decodes r) →
    ∃ o, first_row (sql_Query (query_text f q) args d) = o ∧
      (o = Err ErrNoRows ∨ ∃ v r, o = Ok (project Secrets cols (v, r)) ∧ row_decodes r)) as Hq.
  { intros q args Hq Hargs Hans. assert (asks f (query_text f q) q) as Hasks by done.
    destruct (query_reliable (f:=f) _ _ args d Hasks Hargs) as [rows Hrows]. rewrite Hrows. eexists. split; [done|].
    destruct (query_ok _ _ _ _ _ _ Hasks Hrows) as (full & Hfull & _ & Heq). rewrite (Heq eq_refl).
    destruct (Hans _ Hfull) as [->|(v & r & rest & -> & Hr)]; [by left|right]. by exists v, r. }
  unfold SqlSecrets.GetSecret, getSecretVersionRow. rewrite run_bind. unfold m_bind.
  assert (∃ o, first_row (if decide (version = ""%string)
      then sql_Query (query_text f (Latest Secrets cols)) [VText name] d
      else sql_Query (query_text f (Version Secrets cols)) [VText name; VText version] d) = o ∧
    (o = Err ErrNoRows ∨ ∃ v r, o = Ok (project Secrets cols (v, r)) ∧ row_decodes r)) as (o & Ho & Hcase).
  { case_decide.
    - apply Hq; [apply (bool_decide_unpack _); vm_compute; exact I|by eexists|]. intros rows (l & Hperm & _ & ->). destruct l as [|[v r] l]; [by left|right].
      exists v, r, []. split; [done|]. apply (Hl (name, v)). apply elem_of_versions_of. rewrite <-Hperm. set_solver.
    - apply Hq; [apply (bool_decide_unpack _); vm_compute; exact I|by do 2 eexists|]. cbn [answers]. intros rows ->. destruct (live Secrets d !! (name, version)) as [r|] eqn:Hr; [right|by left].
      exists version, r, []. split; [done|]. by apply (Hl _ _ Hr). }
  assert (run (if decide (version = ""%string) then
      QueryRow ("SELECT version, value, content_type, attributes, tags FROM kv_secrets WHERE name = " ++ ph f 1 ++
          " ORDER BY created_at DESC " ++ limitOne f)%string [VText name] scan_five_texts (or_missing (secret_missing name))
    else
      QueryRow ("SELECT version, value, content_type, attributes, tags FROM kv_secrets WHERE name = " ++ ph f 1 ++
          " AND version = " ++ ph f 2)%string [VText name; VText version] scan_five_texts (or_missing (secret_missing name))) d
    = run (or_missing (secret_missing name) (let! r := o in o_maperr SqlError (scan_five_texts r))) d) as ->.
  { case_decide; rewrite <-Ho; reflexivity. }
  destruct Hcase as [->|(v & r & -> & Hr)]; [by right|left].
  destruct (row_decodes_columns r name v Hr) as (c & rec & Hc & Hrec).
  cbn [o_bind]. unfold cols. rewrite Hc. cbn [run o_maperr or_missing]. by rewrite Hrec.
Qed.
End programs.

(** C8: the rows of the secrets decode under every schedule.  Let any number
    of requests, of whatever operations of the store, run against a database
    whose secrets decode, one statement of one request at a time in any order,
    any of them stopped anywhere, statements of the engine failing or not.
    Whatever state that leads to, the secrets there decode: on an engine that
    answers, reading a secret finds it or says it is not there, and never
    fails on what is stored. *)
Theorem sql_secrets_always_decode `{JsonErrors} `{CertLib} `{KeyDer} `{PublicKeyLib} `{BlockCipher} (f : DBFlavor)
    {D : SqlEngine} {T : SqlTables D} (HL : SqlLaws f T) calls ps d d' :
  Forall call_int64 calls → secrets_decode d → rtc pool_step (sql_prog f <$> calls, d) (ps, d') →
  secrets_decode d' ∧
  (SqlReliable f T → ∀ name version,
    is_Ok (run (SqlSecrets.GetSecret f name version) d').1 ∨
    (run (SqlSecrets.GetSecret f name version) d').1 = Err (secret_missing name)).
Proof.
  intros Hc Hd Hsteps.
  destruct (keeps_pool (secrets_decode (T:=T)) _ _ Hsteps Hd) as [Hd' _].
  { apply Forall_fmap. apply (Forall_impl _ _ _ Hc). intros c. apply (keeps_call f c). }
  split; [done|]. intros HR name version. by apply (GetSecret_decodes (T:=T) f).
Qed.

(** A set and a deletion of one secret, the first two statements of the set. *)
Definition two_calls : list sql_call := [CSetSecret toy_env "db" race_request; CDeleteSecret toy_env "db"].

Definition two_done : prog error unit * toy_tables :=
  steps (D:=toy_engine FlavorSQLite) 2 (sql_prog FlavorSQLite (CSetSecret toy_env "db" race_request)) toy_empty.

Lemma sql_secrets_always_decode_witness : ∃ ps d',
  rtc (pool_step (D:=toy_engine FlavorSQLite)) (sql_prog FlavorSQLite <$> two_calls, toy_empty) (ps, d') ∧
  secrets_decode (D:=toy_engine FlavorSQLite) (T:=toy_views FlavorSQLite) d'.
Proof.
  assert (rtc (pool_step (D:=toy_engine FlavorSQLite)) (sql_prog FlavorSQLite <$> two_calls, toy_empty)
    ([two_done.1; sql_prog FlavorSQLite (CDeleteSecret toy_env "db")], two_done.2)) as Hsteps.
  { set (p := sql_prog FlavorSQLite (CSetSecret toy_env "db" race_request)).
    set (q := sql_prog FlavorSQLite (CDeleteSecret toy_env "db")).
    pose (x := p_step (D:=toy_engine FlavorSQLite) p toy_empty).
    apply (rtc_l _ _ ([x.1; q], x.2)); [exact (pool_step_at (D:=toy_engine FlavorSQLite) 0%nat [p; q] p toy_empty eq_refl)|].
    apply rtc_once. exact (pool_step_at (D:=toy_engine FlavorSQLite) 0%nat [x.1; q] x.1 x.2 eq_refl). }
  exists [two_done.1; sql_prog FlavorSQLite (CDeleteSecret toy_env "db")], two_done.2.
  split; [exact Hsteps|].
  refine (proj1 (sql_secrets_always_decode FlavorSQLite (toy_sql_laws FlavorSQLite) two_calls _ toy_empty _ _ _ Hsteps)).
  - repeat constructor.
  - split; apply map_Forall_empty.
Defined.
