(* ===== verification/ToyHttp.v ===== *)
(** * Concrete requests

    Requests for the witnesses of the theorems
    about HTTP. *)

From S2P Require Import Prelude GoStrings GoUrl GoJson Toy ToyX509 Model StoreCore HttpJson Http HttpSecrets HttpKeys HttpCerts.

Definition demo_request (method path query body : string) : Request :=
  mkRequest method "demo.vault.local:8443" true "" path query (Some (to_bytes body)).

(** A JSON object with string members. *)
Definition demo_object (ms : list (string * string)) : string :=
  of_bytes (json_print (JObj (map (λ m, (m.1, JStr m.2)) ms))).

(** The store after some requests. *)
Definition serve_all (rs : list Request) (s : Store) : Store := foldl (λ s r, (api_handler toy_env r s).2) s rs.
