(* ===== verification/StoreInv.v ===== *)
(** * The store as a transition system, and its invariant

    [call] lists every operation of the [Storer] interface that [Store]
    implements, [exec] runs one, and [reachable] closes the empty store under
    all of them, whatever the environment and the outcome: a call that fails
    or panics leaves the store it left, and the next call starts from it. *)

From S2P Require Import Prelude JsonFacts GoStrings GoBase64 GoCrypto GoX509 Model KeyCrypto CertCrypto StoreCore SecretStore SecretBackup KeyStore CertStore.

Inductive call : Type :=
| CSetSecret (name : string) (req : SecretSetRequest)
| CGetSecret (name version : string)
| CListSecrets (max : Z) (token : string)
| CListSecretVersions (name : string) (max : Z) (token : string)
| CUpdateSecret (name version : string) (req : SecretUpdateRequest)
| CDeleteSecret (name : string)
| CListDeletedSecrets (max : Z) (token : string)
| CGetDeletedSecret (name : string)
| CPurgeDeletedSecret (name : string)
| CRecoverDeletedSecret (name : string)
| CBackupSecret (name : string)
| CRestoreSecret (token : string)
| CCreateKey (name : string) (req : CreateKeyRequest)
| CImportKey (name : string) (req : ImportKeyRequest)
| CGetKey (name version : string)
| CListKeys (max : Z) (token : string)
| CListKeyVersions (name : string) (max : Z) (token : string)
| CUpdateKey (name version : string) (req : UpdateKeyRequest)
| CDeleteKey (name : string)
| CListDeletedKeys (max : Z) (token : string)
| CGetDeletedKey (name : string)
| CPurgeDeletedKey (name : string)
| CRecoverDeletedKey (name : string)
| CEncrypt (name version : string) (req : EncryptRequest)
| CDecrypt (name version : string) (req : EncryptRequest)
| CSign (name version : string) (req : SignRequest)
| CVerify (name version : string) (req : VerifyRequest)
| CWrapKey (name version : string) (req : EncryptRequest)
| CUnwrapKey (name version : string) (req : EncryptRequest)
| CCreateCertificate (name : string) (req : CreateCertificateRequest)
| CImportCertificate (name : string) (req : ImportCertificateRequest)
| CGetCertificate (name version : string)
| CListCertificates (max : Z) (token : string)
| CListCertificateVersions (name : string) (max : Z) (token : string)
| CUpdateCertificate (name version : string) (req : UpdateCertificateRequest)
| CGetCertificatePolicy (name : string)
| CUpdateCertificatePolicy (name : string) (policy : option CertificatePolicy)
| CGetPendingCertificateOperation (name : string)
| CDeleteCertificate (name : string)
| CListDeletedCertificates (max : Z) (token : string)
| CGetDeletedCertificate (name : string)
| CPurgeDeletedCertificate (name : string)
| CRecoverDeletedCertificate (name : string).

Definition void {A} (m : SM A) : SM unit := let* _ := m in m_ret ().

Lemma void_state {A} (m : SM A) s : (void m s).2 = (m s).2.
Proof. unfold void, m_bind, m_ret. by destruct (m s) as [[]]. Qed.
Lemma void_Panic {A} (m : SM A) s : is_Panic (void m s).1 ↔ is_Panic (m s).1.
Proof. unfold void, m_bind, m_ret. by destruct (m s) as [[]]. Qed.

Section system.
Context `{C : BlockCipher} `{L : PublicKeyLib} `{X : CertLib}.

Definition exec (e : Env) (c : call) : SM unit :=
  match c with
  | CSetSecret n req => void (SetSecret e n req)
  | CGetSecret n v => void (GetSecret n v)
  | CListSecrets m t => void (ListSecrets m t)
  | CListSecretVersions n m t => void (ListSecretVersions n m t)
  | CUpdateSecret n v req => void (UpdateSecret e n v req)
  | CDeleteSecret n => void (DeleteSecret e n)
  | CListDeletedSecrets m t => void (ListDeletedSecrets m t)
  | CGetDeletedSecret n => void (GetDeletedSecret n)
  | CPurgeDeletedSecret n => void (PurgeDeletedSecret n)
  | CRecoverDeletedSecret n => void (RecoverDeletedSecret n)
  | CBackupSecret n => void (BackupSecret n)
  | CRestoreSecret t => void (RestoreSecret t)
  | CCreateKey n req => void (CreateKey e n req)
  | CImportKey n req => void (ImportKey e n req)
  | CGetKey n v => void (GetKey n v)
  | CListKeys m t => void (ListKeys m t)
  | CListKeyVersions n m t => void (ListKeyVersions n m t)
  | CUpdateKey n v req => void (UpdateKey e n v req)
  | CDeleteKey n => void (DeleteKey e n)
  | CListDeletedKeys m t => void (ListDeletedKeys m t)
  | CGetDeletedKey n => void (GetDeletedKey n)
  | CPurgeDeletedKey n => void (PurgeDeletedKey n)
  | CRecoverDeletedKey n => void (RecoverDeletedKey n)
  | CEncrypt n v req => void (Encrypt e n v req)
  | CDecrypt n v req => void (Decrypt n v req)
  | CSign n v req => void (Sign e n v req)
  | CVerify n v req => void (Verify n v req)
  | CWrapKey n v req => void (WrapKey e n v req)
  | CUnwrapKey n v req => void (UnwrapKey n v req)
  | CCreateCertificate n req => void (CreateCertificate e n req)
  | CImportCertificate n req => void (ImportCertificate e n req)
  | CGetCertificate n v => void (GetCertificate n v)
  | CListCertificates m t => void (ListCertificates m t)
  | CListCertificateVersions n m t => void (ListCertificateVersions n m t)
  | CUpdateCertificate n v req => void (UpdateCertificate e n v req)
  | CGetCertificatePolicy n => void (GetCertificatePolicy n)
  | CUpdateCertificatePolicy n p => void (UpdateCertificatePolicy e n p)
  | CGetPendingCertificateOperation n => void (GetPendingCertificateOperation n)
  | CDeleteCertificate n => void (DeleteCertificate e n)
  | CListDeletedCertificates m t => void (ListDeletedCertificates m t)
  | CGetDeletedCertificate n => void (GetDeletedCertificate n)
  | CPurgeDeletedCertificate n => void (PurgeDeletedCertificate n)
  | CRecoverDeletedCertificate n => void (RecoverDeletedCertificate n)
  end.

(** One atomic step: some call, in some environment. *)
Inductive step : Store → Store → Prop :=
| step_call e c s : step s (exec e c s).2.

Inductive reachable : Store → Prop :=
| reachable_new : reachable New
| reachable_step s s' : reachable s → step s s' → reachable s'.

(** A run of the store from the empty one. *)
Definition run (calls : list (Env * call)) : Store :=
  foldl (λ s ec, (exec ec.1 ec.2 s).2) New calls.

Lemma reachable_run calls : reachable (run calls).
Proof.
  unfold run. induction calls as [|[e c] calls IH] using rev_ind; [constructor|].
  rewrite foldl_app. simpl. by apply (reachable_step _ _ IH), step_call.
Qed.
End system.

(** ** The invariant *)

Definition recovery_ok (a : Attributes) : Prop :=
  RecoveryLevel a = recoveryLevel ∧ RecoverableDays a = recoverableDays.

Definition secret_version_ok (name : string) (v : secretVersion) : Prop :=
  sr_Name (sv_record v) = name ∧ recovery_ok (sr_Attributes (sv_record v)).
Definition key_version_ok (name : string) (v : keyVersion) : Prop :=
  kr_Name (kv_record v) = name ∧ recovery_ok (kr_Attributes (kv_record v)) ∧
  jwk_is_public (kr_Key (kv_record v)).
Definition certificate_version_ok (name : string) (v : certificateVersion) : Prop :=
  cr_Name (cv_record v) = name ∧ cr_Kid (cv_record v) = name ∧ cr_Sid (cv_record v) = name ∧
  recovery_ok (cr_Attributes (cv_record v)) ∧ is_Some (cr_Policy (cv_record v)).

(** An entry is never empty, and each of its versions fits its name. *)
Definition versions_ok {V} (P : string → V → Prop) (name : string) (vs : list V) : Prop :=
  vs ≠ [] ∧ Forall (P name) vs.

Record store_ok (s : Store) : Prop := {
  ok_secrets : map_Forall (λ n en, versions_ok secret_version_ok n (se_versions en)) (secrets s);
  ok_deletedSecrets :
    map_Forall (λ n d, versions_ok secret_version_ok n (se_versions (dse_entry d))) (deletedSecrets s);
  ok_keys : map_Forall (λ n en, versions_ok key_version_ok n (ke_versions en)) (keys s);
  ok_deletedKeys :
    map_Forall (λ n d, versions_ok key_version_ok n (ke_versions (dke_entry d))) (deletedKeys s);
  ok_certificates :
    map_Forall (λ n en, versions_ok certificate_version_ok n (ce_versions en)) (certificates s);
  ok_deletedCertificates :
    map_Forall (λ n d, versions_ok certificate_version_ok n (ce_versions (dce_entry d)))
      (deletedCertificates s);
}.

Lemma store_ok_New : store_ok New.
Proof. split; apply map_Forall_empty. Qed.

Section updates.
Implicit Types s : Store.

Lemma store_ok_secrets f s :
  store_ok s → map_Forall (λ n en, versions_ok secret_version_ok n (se_versions en)) (f (secrets s)) →
  store_ok (set_secrets f s).
Proof. intros [] ?. by split. Qed.
Lemma store_ok_deletedSecrets f s :
  store_ok s →
  map_Forall (λ n d, versions_ok secret_version_ok n (se_versions (dse_entry d))) (f (deletedSecrets s)) →
  store_ok (set_deletedSecrets f s).
Proof. intros [] ?. by split. Qed.
Lemma store_ok_keys f s :
  store_ok s → map_Forall (λ n en, versions_ok key_version_ok n (ke_versions en)) (f (keys s)) →
  store_ok (set_keys f s).
Proof. intros [] ?. by split. Qed.
Lemma store_ok_deletedKeys f s :
  store_ok s →
  map_Forall (λ n d, versions_ok key_version_ok n (ke_versions (dke_entry d))) (f (deletedKeys s)) →
  store_ok (set_deletedKeys f s).
Proof. intros [] ?. by split. Qed.
Lemma store_ok_certificates f s :
  store_ok s →
  map_Forall (λ n en, versions_ok certificate_version_ok n (ce_versions en)) (f (certificates s)) →
  store_ok (set_certificates f s).
Proof. intros [] ?. by split. Qed.
Lemma store_ok_deletedCertificates f s :
  store_ok s →
  map_Forall (λ n d, versions_ok certificate_version_ok n (ce_versions (dce_entry d)))
    (f (deletedCertificates s)) →
  store_ok (set_deletedCertificates f s).
Proof. intros [] ?. by split. Qed.
End updates.

Lemma versions_ok_append {V} (P : string → V → Prop) name vs v :
  Forall (P name) vs → P name v → versions_ok P name (vs ++ [v]).
Proof. intros. split; [by destruct vs|]. by apply Forall_app_2; [|constructor]. Qed.

Lemma versions_ok_insert {V} (P : string → V → Prop) name vs i v :
  versions_ok P name vs → P name v → versions_ok P name (<[i := v]> vs).
Proof.
  intros [Hne Hall] Hv. split; [|by apply Forall_insert].
  intros H%(f_equal length). rewrite length_insert in H. by destruct vs.
Qed.

Lemma versions_ok_last {V} (P : string → V → Prop) name vs :
  versions_ok P name vs → ∃ v, last_ptr vs = Some ((length vs - 1)%nat, v) ∧ last vs = Some v ∧ P name v.
Proof.
  intros [Hne Hall]. destruct (last_ptr_nonempty vs Hne) as (v & Hp & Hl).
  exists v. split_and!; [done|done|]. rewrite Forall_forall in Hall. apply Hall.
  by apply last_Some_elem_of.
Qed.

#[export] Hint Resolve store_ok_secrets store_ok_deletedSecrets store_ok_keys store_ok_deletedKeys
  store_ok_certificates store_ok_deletedCertificates map_Forall_insert_2 map_Forall_delete
  versions_ok_append versions_ok_insert ok_secrets ok_deletedSecrets ok_keys ok_deletedKeys
  ok_certificates ok_deletedCertificates : kv.

(** ** Every operation keeps the invariant *)

(** The invariant for the entry a guard found. *)
Ltac use_entry :=
  match goal with
  | Hok : store_ok ?s, H : secrets ?s !! _ = Some _ |- _ => pose proof (ok_secrets s Hok _ _ H); clear H
  | Hok : store_ok ?s, H : deletedSecrets ?s !! _ = Some _ |- _ =>
      pose proof (ok_deletedSecrets s Hok _ _ H); clear H
  | Hok : store_ok ?s, H : keys ?s !! _ = Some _ |- _ => pose proof (ok_keys s Hok _ _ H); clear H
  | Hok : store_ok ?s, H : deletedKeys ?s !! _ = Some _ |- _ =>
      pose proof (ok_deletedKeys s Hok _ _ H); clear H
  | Hok : store_ok ?s, H : certificates ?s !! _ = Some _ |- _ =>
      pose proof (ok_certificates s Hok _ _ H); clear H
  | Hok : store_ok ?s, H : deletedCertificates ?s !! _ = Some _ |- _ =>
      pose proof (ok_deletedCertificates s Hok _ _ H); clear H
  end.

(** Splits the branches of an operation and leaves those that change the store. *)
Ltac branches :=
  repeat first [ progress simpl | case_decide | case_match ]; simplify_eq/=; try assumption.

(** Proves [store_ok] of an updated store from [store_ok] of the old one. *)
Ltac store_tac :=
  repeat first
    [ assumption
    | apply store_ok_secrets | apply store_ok_deletedSecrets | apply store_ok_keys
    | apply store_ok_deletedKeys | apply store_ok_certificates | apply store_ok_deletedCertificates
    | apply map_Forall_insert_2 | apply map_Forall_delete
    | apply ok_secrets | apply ok_deletedSecrets | apply ok_keys | apply ok_deletedKeys
    | apply ok_certificates | apply ok_deletedCertificates ].

Section preservation.
Context `{C : BlockCipher} `{L : PublicKeyLib} `{X : CertLib}.
Implicit Types s : Store.

Definition preserves {A} (m : SM A) : Prop := ∀ s, store_ok s → store_ok (m s).2.

Lemma preserves_read {A} (m : SM A) : (∀ s, (m s).2 = s) → preserves m.
Proof. intros H s Hs. by rewrite H. Qed.

Lemma preserves_bind {A B} (m : SM A) (k : A → SM B) :
  preserves m → (∀ a, preserves (k a)) → preserves (m_bind m k).
Proof.
  intros Hm Hk s Hs. specialize (Hm s Hs). unfold m_bind.
  destruct (m s) as [[a|e|p] s']; [by apply Hk|done..].
Qed.

Lemma mergeAttributes_recovery e a p : recovery_ok (mergeAttributes e a p).
Proof. done. Qed.
Lemma buildAttributes_recovery a c u : recovery_ok (buildAttributes a c u).
Proof. by destruct a. Qed.

Lemma append_secret_ok name v : secret_version_ok name v → preserves (append_secret name v).
Proof.
  intros Hv s Hs. unfold append_secret, m_bind, m_get, m_modify. simpl.
  apply store_ok_secrets; [done|]. apply map_Forall_insert_2; [|by apply ok_secrets].
  apply versions_ok_append; [|done]. destruct (secrets s !! name) eqn:He; simpl; [|done].
  by apply (ok_secrets s Hs) in He as [_ ?].
Qed.
Lemma append_key_ok name v : key_version_ok name v → preserves (append_key name v).
Proof.
  intros Hv s Hs. unfold append_key, m_bind, m_get, m_modify. simpl.
  apply store_ok_keys; [done|]. apply map_Forall_insert_2; [|by apply ok_keys].
  apply versions_ok_append; [|done]. destruct (keys s !! name) eqn:He; simpl; [|done].
  by apply (ok_keys s Hs) in He as [_ ?].
Qed.
Lemma append_certificate_ok name v :
  certificate_version_ok name v → preserves (append_certificate name v).
Proof.
  intros Hv s Hs. unfold append_certificate, m_bind, m_get, m_modify. simpl.
  apply store_ok_certificates; [done|]. apply map_Forall_insert_2; [|by apply ok_certificates].
  apply versions_ok_append; [|done]. destruct (certificates s !! name) eqn:He; simpl; [|done].
  by apply (ok_certificates s Hs) in He as [_ ?].
Qed.

Lemma found_secret en version i v name :
  findSecretVersion en version = Some (i, v) →
  versions_ok secret_version_ok name (se_versions en) → secret_version_ok name v.
Proof.
  unfold findSecretVersion. intros Hf [_ Hall]. rewrite Forall_lookup in Hall. apply (Hall i).
  case_decide; [by apply last_ptr_Some in Hf as [? _]|by apply list_find_Some in Hf as [? _]].
Qed.
Lemma found_key en version i v name :
  findKeyVersion en version = Some (i, v) →
  versions_ok key_version_ok name (ke_versions en) → key_version_ok name v.
Proof.
  unfold findKeyVersion. intros Hf [_ Hall]. rewrite Forall_lookup in Hall. apply (Hall i).
  case_decide; [by apply last_ptr_Some in Hf as [? _]|by apply list_find_Some in Hf as [? _]].
Qed.
Lemma found_certificate en version i v name :
  findCertificateVersion en version = Some (i, v) →
  versions_ok certificate_version_ok name (ce_versions en) → certificate_version_ok name v.
Proof.
  unfold findCertificateVersion. intros Hf [_ Hall]. rewrite Forall_lookup in Hall. apply (Hall i).
  case_decide; [by apply last_ptr_Some in Hf as [? _]|by apply list_find_Some in Hf as [? _]].
Qed.

(** *** Secrets *)

Lemma SetSecret_ok e name req : preserves (SetSecret e name req).
Proof.
  unfold SetSecret. do 2 (case_decide; [by apply preserves_read|]).
  intros s Hs. unfold m_bind at 1, m_get. case_decide; [done|].
  refine (preserves_bind _ _ _ _ s Hs); [by apply preserves_read|]. intros version.
  apply preserves_bind; [|by intros; apply preserves_read].
  apply append_secret_ok. split; [done|apply buildAttributes_recovery].
Qed.

Lemma UpdateSecret_ok e name version req : preserves (UpdateSecret e name version req).
Proof.
  intros s Hs. unfold UpdateSecret, m_bind, m_get, m_modify.
  destruct (secrets s !! name) as [en|] eqn:He; [|done]. use_entry.
  destruct (findSecretVersion en version) as [[i v]|] eqn:Hf; [|done].
  destruct (found_secret _ _ _ _ name Hf H) as [Hn _]. cbn.
  apply store_ok_secrets; [done|].
  apply map_Forall_insert_2; [|by apply ok_secrets]. apply versions_ok_insert; [done|].
  split; [done|apply mergeAttributes_recovery].
Qed.

Lemma DeleteSecret_ok e name : preserves (DeleteSecret e name).
Proof.
  intros s Hs. unfold DeleteSecret, m_bind, m_get, m_modify, m_lift. branches.
  all: use_entry; store_tac.
Qed.

Lemma PurgeDeletedSecret_ok name : preserves (PurgeDeletedSecret name).
Proof.
  intros s Hs. unfold PurgeDeletedSecret, m_bind, m_get, m_modify. branches. store_tac.
Qed.

Lemma RecoverDeletedSecret_ok name : preserves (RecoverDeletedSecret name).
Proof.
  intros s Hs. unfold RecoverDeletedSecret, m_bind, m_get, m_modify, m_lift. branches.
  all: use_entry; store_tac.
Qed.
Lemma restored_version_ok name v : secret_version_ok name (restored_version name v).
Proof. unfold restored_version. rewrite cloneSecretRecord_id. done. Qed.

Lemma RestoreSecret_ok token : preserves (RestoreSecret token).
Proof.
  intros s Hs. unfold RestoreSecret, m_bind, m_modify, m_lift.
  destruct (b64_DecodeString _ token) as [data| |]; [|done..].
  destruct (unmarshal_backup data) as [[name [len backing]]|] eqn:Hu; [|done].
  cbn [bk_Versions bk_Name]. case_decide as Hne; [done|].
  assert (versions_ok secret_version_ok name (restored_version name <$> take len backing)) as Hv.
  { split.
    - apply unmarshal_backup_backing in Hu. unfold slice_ok in Hu. cbn in Hu.
      intros Hnil%fmap_nil_inv%(f_equal length). rewrite length_take in Hnil. simpl in Hnil.
      apply Hne. right. lia.
    - apply Forall_fmap, Forall_true. intros r. apply restored_version_ok. }
  branches; store_tac; done.
Qed.

(** *** Keys *)

Lemma with_KeyOps_public ops k : jwk_is_public k → jwk_is_public (with_KeyOps ops k).
Proof. done. Qed.

Lemma CreateKey_ok e name req : preserves (CreateKey e name req).
Proof.
  unfold CreateKey. do 2 (case_decide; [by apply preserves_read|]).
  intros s Hs. unfold m_bind at 1, m_get. case_decide; [done|].
  refine (preserves_bind _ _ _ _ s Hs); [by apply preserves_read|]. intros version.
  intros s1 Hs1. unfold m_bind at 1, m_lift.
  destruct (GenerateKey _ _ _ _ _ _ _) as [[m jwk]| |] eqn:Hg; [|done..]. cbn [o_maperr].
  refine (preserves_bind _ _ _ _ s1 Hs1); [|by intros; apply preserves_read].
  apply append_key_ok. split; [done|]. split; [apply buildAttributes_recovery|].
  by eapply generated_public, GenerateKey_generated.
Qed.

Lemma ImportKey_ok e name req : preserves (ImportKey e name req).
Proof.
  unfold ImportKey. do 2 (case_decide; [by apply preserves_read|]).
  intros s Hs. unfold m_bind at 1, m_get. case_decide; [done|].
  unfold m_bind at 1, m_lift at 1.
  destruct (KeyCrypto.ImportKey _ _) as [[m jwk]| |] eqn:Hg; [|done..]. cbn [o_maperr].
  apply ImportKey_public in Hg as [Hpub _].
  refine (preserves_bind _ _ _ _ s Hs); [by apply preserves_read|]. intros version.
  apply preserves_bind; [|by intros; apply preserves_read].
  apply append_key_ok. split; [done|]. split; [apply buildAttributes_recovery|done].
Qed.

Lemma UpdateKey_ok e name version req : preserves (UpdateKey e name version req).
Proof.
  intros s Hs. unfold UpdateKey, m_bind, m_get, m_modify.
  destruct (keys s !! name) as [en|] eqn:He; [|done]. use_entry.
  destruct (findKeyVersion en version) as [[i v]|] eqn:Hf; [|done].
  destruct (found_key _ _ _ _ name Hf H) as (Hn & _ & Hpub). cbn. store_tac.
  apply versions_ok_insert; [done|]. split; [done|]. split; [apply mergeAttributes_recovery|].
  cbn. by destruct (ukr_KeyOps req).
Qed.

Lemma DeleteKey_ok e name : preserves (DeleteKey e name).
Proof.
  intros s Hs. unfold DeleteKey, m_bind, m_get, m_modify, m_lift. branches.
  all: use_entry; store_tac.
Qed.
Lemma PurgeDeletedKey_ok name : preserves (PurgeDeletedKey name).
Proof. intros s Hs. unfold PurgeDeletedKey, m_bind, m_get, m_modify. branches. store_tac. Qed.
Lemma RecoverDeletedKey_ok name : preserves (RecoverDeletedKey name).
Proof.
  intros s Hs. unfold RecoverDeletedKey, m_bind, m_get, m_modify, m_lift. branches.
  all: use_entry; store_tac.
Qed.

(** *** Certificates *)

Lemma putKeyVersion_ok name version r m :
  recovery_ok (kr_Attributes r) → jwk_is_public (kr_Key r) → preserves (putKeyVersion name version r m).
Proof.
  intros Hr Hp. unfold putKeyVersion. apply preserves_bind; [|by intros; apply preserves_read].
  apply append_key_ok. rewrite cloneKeyRecord_id. done.
Qed.
Lemma putSecretVersion_ok name version value ct attrs t :
  recovery_ok attrs → preserves (putSecretVersion name version value ct attrs t).
Proof.
  intros Hr. unfold putSecretVersion. apply preserves_bind; [|by intros; apply preserves_read].
  apply append_secret_ok. split; [done|]. cbn. by rewrite cloneAttributes_id.
Qed.

Lemma clonePolicy_is_Some p : is_Some p → is_Some (clonePolicy p).
Proof. intros [q ->]. simpl. case_match; eauto. Qed.

Lemma created_record_ok name version cer attrs t p pem :
  recovery_ok attrs → is_Some p →
  certificate_version_ok name (mkCertificateVersion
    (cloneCertificateRecord (mkCertificateRecord name version cer name name attrs t (clonePolicy p))) pem).
Proof.
  intros Hr Hp. do 3 (split; [done|]). cbn. rewrite cloneAttributes_id.
  split; [done|]. by apply clonePolicy_is_Some, clonePolicy_is_Some.
Qed.

Lemma CreateCertificate_ok e name req : preserves (CreateCertificate e name req).
Proof.
  unfold CreateCertificate. case_decide; [by apply preserves_read|].
  intros s Hs. unfold m_bind at 1, m_get. case_decide; [done|].
  refine (preserves_bind _ _ _ _ s Hs); [by apply preserves_read|]. intros version.
  apply preserves_bind.
  { apply preserves_read. intros s'. case_decide; [|done]. unfold m_bind, m_lift, m_ret.
    by destruct (o_maperr _ _). }
  intros issuer. apply preserves_bind; [by apply preserves_read|]. intros [priv der].
  pose proof (buildAttributes_recovery (ccr_Attributes req) (nowUnix e) (nowUnix e)) as Hr.
  apply preserves_bind; [by apply append_certificate_ok, created_record_ok|]. intros _.
  apply preserves_bind; [by apply putKeyVersion_ok; [|apply RSAToJWK_public]|]. intros _.
  apply preserves_bind; [by apply putSecretVersion_ok|]. intros _. by apply preserves_read.
Qed.

Lemma ImportCertificate_ok e name req : preserves (ImportCertificate e name req).
Proof.
  unfold ImportCertificate. do 2 (case_decide; [by apply preserves_read|]).
  apply preserves_bind; [by apply preserves_read|]. intros [[cert priv] pemValue].
  intros s Hs. unfold m_bind at 1, m_get. case_decide; [done|].
  refine (preserves_bind _ _ _ _ s Hs); [by apply preserves_read|]. intros version.
  pose proof (buildAttributes_recovery (icr_Attributes req) (nowUnix e) (nowUnix e)) as Hr.
  apply preserves_bind; [by apply append_certificate_ok, created_record_ok|]. intros _.
  apply preserves_bind.
  { destruct (cert_RSAPublicKey cert); [|by apply preserves_read].
    apply preserves_bind; [|by intros; apply preserves_read].
    by apply putKeyVersion_ok; [|apply RSAToJWK_public]. }
  intros _. apply preserves_bind; [by apply putSecretVersion_ok|]. intros _. by apply preserves_read.
Qed.

Lemma UpdateCertificate_ok e name version req : preserves (UpdateCertificate e name version req).
Proof.
  intros s Hs. unfold UpdateCertificate, m_bind, m_get, m_modify.
  destruct (certificates s !! name) as [en|] eqn:He; [|done]. use_entry.
  destruct (findCertificateVersion en version) as [[i v]|] eqn:Hf; [|done].
  destruct (found_certificate _ _ _ _ name Hf H) as (? & ? & ? & _ & ?). cbn. store_tac.
  apply versions_ok_insert; [done|]. do 3 (split; [done|]). done.
Qed.

Lemma UpdateCertificatePolicy_ok e name policy : preserves (UpdateCertificatePolicy e name policy).
Proof.
  intros s Hs. unfold UpdateCertificatePolicy, m_bind, m_get, m_modify.
  destruct (certificates s !! name) as [en|] eqn:He; [|done]. use_entry.
  destruct (latestCertificate (Some en)) as [[i v]|] eqn:Hf; [|done].
  destruct (found_certificate en "" i v name Hf H) as (? & ? & ? & ? & ?). cbn. store_tac.
  apply versions_ok_insert; [done|]. do 4 (split; [done|]). by eexists.
Qed.

Lemma DeleteCertificate_ok e name : preserves (DeleteCertificate e name).
Proof.
  intros s Hs. unfold DeleteCertificate, m_bind, m_get, m_modify, m_lift. branches.
  all: use_entry; store_tac.
Qed.
Lemma PurgeDeletedCertificate_ok name : preserves (PurgeDeletedCertificate name).
Proof. intros s Hs. unfold PurgeDeletedCertificate, m_bind, m_get, m_modify. branches. store_tac. Qed.
Lemma RecoverDeletedCertificate_ok name : preserves (RecoverDeletedCertificate name).
Proof.
  intros s Hs. unfold RecoverDeletedCertificate, m_bind, m_get, m_modify, m_lift. branches.
  all: use_entry; store_tac.
Qed.
End preservation.

(** ** Operations that only read *)

(** Reads are exactly the operations that hold the read lock. *)
Definition is_read (c : call) : bool :=
  match c with
  | CGetSecret _ _ | CListSecrets _ _ | CListSecretVersions _ _ _ | CListDeletedSecrets _ _
  | CGetDeletedSecret _ | CBackupSecret _
  | CGetKey _ _ | CListKeys _ _ | CListKeyVersions _ _ _ | CListDeletedKeys _ _ | CGetDeletedKey _
  | CEncrypt _ _ _ | CDecrypt _ _ _ | CSign _ _ _ | CVerify _ _ _ | CWrapKey _ _ _ | CUnwrapKey _ _ _
  | CGetCertificate _ _ | CListCertificates _ _ | CListCertificateVersions _ _ _
  | CGetCertificatePolicy _ | CGetPendingCertificateOperation _ | CListDeletedCertificates _ _
  | CGetDeletedCertificate _ => true
  | _ => false
  end.

Section reads.
Context `{C : BlockCipher} `{L : PublicKeyLib} `{X : CertLib}.
Implicit Types s : Store.

Definition pure_read {A} (m : SM A) : Prop := ∀ s, (m s).2 = s.

Lemma pure_ret {A} (a : A) : pure_read (m_ret a).
Proof. done. Qed.
Lemma pure_lift {A} (o : outcome error A) : pure_read (m_lift o).
Proof. done. Qed.
Lemma pure_fail {A} (e : error) : pure_read (A:=A) (m_fail e).
Proof. done. Qed.
Lemma pure_bind {A B} (m : SM A) (k : A → SM B) :
  pure_read m → (∀ a, pure_read (k a)) → pure_read (m_bind m k).
Proof.
  intros Hm Hk s. specialize (Hm s). unfold m_bind.
  destruct (m s) as [[a| |] s']; simpl in Hm; subst; [apply Hk|done..].
Qed.

Ltac pure_tac :=
  repeat first
    [ apply pure_ret | apply pure_lift | apply pure_fail
    | apply pure_bind; [done|]; intros ?
    | case_match | case_decide ].

Lemma keyMaterial_pure name version : pure_read (keyMaterial name version).
Proof. unfold keyMaterial. pure_tac. Qed.

Lemma exec_read e c : is_read c = true → pure_read (exec e c).
Proof.
  destruct c; try done; intros _; cbn [exec]; unfold void;
    (apply pure_bind; [|intros; apply pure_ret]).
  all: try (apply pure_bind; [apply keyMaterial_pure|intros; apply pure_lift]).
  all: unfold GetSecret, ListSecrets, ListSecretVersions, ListDeletedSecrets, GetDeletedSecret,
    BackupSecret, GetKey, ListKeys, ListKeyVersions, ListDeletedKeys, GetDeletedKey, GetCertificate,
    ListCertificates, ListCertificateVersions, GetCertificatePolicy, GetPendingCertificateOperation,
    ListDeletedCertificates, GetDeletedCertificate.
  all: pure_tac.
Qed.

Lemma exec_preserves e c : preserves (exec e c).
Proof.
  intros s Hs. destruct (is_read c) eqn:Hr; [by rewrite exec_read|].
  destruct c; try done; cbn [exec]; rewrite void_state; revert s Hs.
  - apply SetSecret_ok.
  - apply UpdateSecret_ok.
  - apply DeleteSecret_ok.
  - apply PurgeDeletedSecret_ok.
  - apply RecoverDeletedSecret_ok.
  - apply RestoreSecret_ok.
  - apply CreateKey_ok.
  - apply ImportKey_ok.
  - apply UpdateKey_ok.
  - apply DeleteKey_ok.
  - apply PurgeDeletedKey_ok.
  - apply RecoverDeletedKey_ok.
  - apply CreateCertificate_ok.
  - apply ImportCertificate_ok.
  - apply UpdateCertificate_ok.
  - apply UpdateCertificatePolicy_ok.
  - apply DeleteCertificate_ok.
  - apply PurgeDeletedCertificate_ok.
  - apply RecoverDeletedCertificate_ok.
Qed.

Lemma reachable_store_ok s : reachable s → store_ok s.
Proof.
  induction 1 as [|s s' _ IH Hst]; [apply store_ok_New|].
  destruct Hst as [e c s]. exact (exec_preserves e c s IH).
Qed.
End reads.
