(* ===== verification/StoreSafety.v ===== *)
(** * What every reachable store satisfies: the invariant and the absence of panics *)

From S2P Require Import Prelude JsonFacts GoStrings GoBase64 GoCrypto GoX509 Toy ToyX509 AesModes Model KeyCrypto CertCrypto StoreCore SecretStore SecretBackup KeyStore CertStore StoreInv.

(** ** Panics that are not the store's *)

(** A function of the libraries panicked with this message. *)
Inductive library_panics `{L : PublicKeyLib} `{X : CertLib} (msg : string) : Prop :=
| in_rsa_GenerateKey e n (H : rsa_GenerateKey e n = Panic msg)
| in_rsa_Precompute k (H : rsa_Precompute k = Panic msg)
| in_rsa_EncryptOAEP h e k m (H : rsa_EncryptOAEP h e k m = Panic msg)
| in_rsa_EncryptPKCS1v15 e k m (H : rsa_EncryptPKCS1v15 e k m = Panic msg)
| in_rsa_DecryptOAEP h k m (H : rsa_DecryptOAEP h k m = Panic msg)
| in_rsa_DecryptPKCS1v15 k m (H : rsa_DecryptPKCS1v15 k m = Panic msg)
| in_rsa_SignPSS e k h d (H : rsa_SignPSS e k h d = Panic msg)
| in_rsa_SignPKCS1v15 e k h d (H : rsa_SignPKCS1v15 e k h d = Panic msg)
| in_ecdsa_GenerateKey c e (H : ecdsa_GenerateKey c e = Panic msg)
| in_ecdsa_Sign e k d (H : ecdsa_Sign e k d = Panic msg)
| in_x509_ParseCertificate b (H : x509_ParseCertificate b = Panic msg)
| in_x509_CreateCertificate e t p pub k (H : x509_CreateCertificate e t p pub k = Panic msg)
| in_pkcs12_ToPEM d p (H : pkcs12_ToPEM d p = Panic msg)
| in_rand_Int e m (H : rand_Int e m = Panic msg).

(** The call asks [make] for a symmetric key of a length it cannot serve, which
    [KeyCrypto.GenerateKey_oct_panics] is about. *)
Definition makes_too_much (c : call) : Prop :=
  match c with
  | CCreateKey _ req =>
      kty_family (ckr_Kty req) = Some FamOct ∧ Z.rem (ckr_KeySize req) 8 = 0 ∧
      (ckr_KeySize req < 0 ∨ 8 * max_alloc < ckr_KeySize req)
  | _ => False
  end.

(** The lists that are cut into pages fit a 64-bit integer with a page to
    spare, as whatever is in memory does. *)
Definition fits (n : nat) : Prop := Z.of_nat n ≤ max_int64 - 100.
#[export] Instance fits_dec n : Decision (fits n).
Proof. unfold fits. apply _. Defined.
Record store_fits (s : Store) : Prop := {
  fits_secrets : fits (size (secrets s));
  fits_deletedSecrets : fits (size (deletedSecrets s));
  fits_keys : fits (size (keys s));
  fits_deletedKeys : fits (size (deletedKeys s));
  fits_certificates : fits (size (certificates s));
  fits_deletedCertificates : fits (size (deletedCertificates s));
  fits_secret_versions : map_Forall (λ _ en, fits (length (se_versions en))) (secrets s);
  fits_key_versions : map_Forall (λ _ en, fits (length (ke_versions en))) (keys s);
  fits_certificate_versions : map_Forall (λ _ en, fits (length (ce_versions en))) (certificates s);
}.

Section from_library.
Context `{C : BlockCipher} `{L : PublicKeyLib} `{X : CertLib}.

(** Only a library panics in [o]. *)
Definition from_library {E A} (o : outcome E A) : Prop := ∀ msg, o = Panic msg → library_panics msg.

Lemma from_library_never {E A} (o : outcome E A) : ¬ is_Panic o → from_library o.
Proof. intros H msg ->. by destruct H. Qed.
Lemma from_library_Ok {E A} (a : A) : from_library (E:=E) (Ok a).
Proof. done. Qed.
Lemma from_library_Err {E A} (err : E) : from_library (A:=A) (Err err).
Proof. done. Qed.
Lemma from_library_bind {E A B} (o : outcome E A) (k : A → outcome E B) :
  from_library o → (∀ a, o = Ok a → from_library (k a)) → from_library (o_bind o k).
Proof. intros Ho Hk msg. destruct o; cbn; [by apply Hk|done|]. intros [= ->]. by apply Ho. Qed.
Lemma from_library_map {E A B} (f : A → B) (o : outcome E A) : from_library o → from_library (o_map f o).
Proof. intros Ho msg. destruct o; cbn; [done..|]. intros [= ->]. by apply Ho. Qed.
Lemma from_library_maperr {E F A} (f : E → F) (o : outcome E A) : from_library o → from_library (o_maperr f o).
Proof. intros Ho msg. destruct o; cbn; [done..|]. intros [= ->]. by apply Ho. Qed.

Lemma b64_finish_safe dbuf si src : ¬ is_Panic (b64_finish dbuf si src).
Proof. unfold b64_finish. by destruct (skip_newlines _ _) as [? []]; intros []. Qed.
Lemma b64_decode_safe enc src dbuf si : ¬ is_Panic (b64_decode enc dbuf si src).
Proof.
  revert dbuf si. induction src as [|c src IH]; intros dbuf si; cbn [b64_decode].
  - destruct dbuf; [by intros []|]. by case_decide; intros [].
  - destruct (dec_char enc c).
    + case_decide; [|apply IH]. specialize (IH [] (si + 1)). by destruct (b64_decode _ _ _ _).
    + case_decide; [apply IH|]. case_decide; [by intros []|].
      destruct (length dbuf) as [|[|[|]]]; [by intros []..| |apply b64_finish_safe].
      destruct (skip_newlines _ _) as [? []]; [by intros []|]. case_decide; [apply b64_finish_safe|by intros []].
Qed.
Lemma b64_DecodeString_safe enc s : ¬ is_Panic (b64_DecodeString enc s).
Proof. apply b64_decode_safe. Qed.
Lemma rand_Read_safe e i n : ¬ is_Panic (rand_Read e i n).
Proof. unfold rand_Read. by case_match; intros []. Qed.

Lemma DecodeBase64URL_from s : from_library (DecodeBase64URL s).
Proof. apply from_library_maperr, from_library_never, b64_DecodeString_safe. Qed.
Lemma decodeBigInt_from s : from_library (decodeBigInt s).
Proof. apply from_library_bind; [apply DecodeBase64URL_from|done]. Qed.
Lemma resolveCurve_from s : from_library (resolveCurve s).
Proof. unfold resolveCurve. by repeat case_decide. Qed.
Lemma rsaHash_from s : from_library (rsaHash s).
Proof. unfold rsaHash. by repeat case_decide. Qed.
Lemma selectAESKey_from k s : from_library (selectAESKey k s).
Proof. unfold selectAESKey. by repeat case_decide. Qed.
Lemma aes_NewCipher_from k : from_library (aes_NewCipher k).
Proof. unfold aes_NewCipher. by case_decide. Qed.
Lemma pkcs7Unpad_from d bs : from_library (pkcs7Unpad d bs).
Proof. rewrite pkcs7Unpad_eq. cbn zeta. by repeat case_decide. Qed.
Lemma aesKeyWrap_from k p : from_library (aesKeyWrap k p).
Proof. rewrite aesKeyWrap_eq. cbn zeta. by repeat case_decide. Qed.
Lemma aesKeyUnwrap_from k p : from_library (aesKeyUnwrap k p).
Proof. rewrite aesKeyUnwrap_eq. cbn zeta. by repeat case_decide. Qed.

(** A branch at a time; the leaves are the libraries and the lemmas above. *)
Ltac from_tac :=
  repeat first
    [ apply from_library_Ok | apply from_library_Err
    | apply DecodeBase64URL_from | apply decodeBigInt_from | apply resolveCurve_from | apply rsaHash_from
    | apply selectAESKey_from | apply aes_NewCipher_from | apply pkcs7Unpad_from | apply aesKeyWrap_from
    | apply aesKeyUnwrap_from | apply from_library_never, rand_Read_safe
    | apply from_library_map | apply from_library_maperr | apply from_library_bind; [|intros ? ?]
    | case_decide | case_match
    | solve [intros ? ?; by econstructor] ].

Lemma CBCEncrypter_from k iv l : (length l `mod` aes_BlockSize = 0)%nat → from_library (CBCEncrypter k iv l).
Proof. intros H. unfold CBCEncrypter. by case_decide. Qed.
Lemma CBCDecrypter_from k iv l : (length l `mod` aes_BlockSize = 0)%nat → from_library (CBCDecrypter k iv l).
Proof. intros H. unfold CBCDecrypter. by case_decide. Qed.

(** The input is a whole number of blocks: it was padded or checked. *)
Lemma encryptCBC_from e k alg p iv : from_library (encryptCBC e k alg p iv).
Proof.
  unfold encryptCBC. apply from_library_bind; [from_tac|]. intros iv' _. case_decide; [done|].
  apply from_library_bind; [from_tac|]. intros k1 _. apply from_library_bind; [from_tac|]. intros k2 _.
  apply from_library_bind; [from_tac|]. intros input Hin. apply from_library_bind; [|done].
  apply CBCEncrypter_from. destruct (HasSuffix alg "PAD").
  - injection Hin as <-. apply length_pkcs7Pad. unfold aes_BlockSize. lia.
  - case_decide as Hm; [done|]. injection Hin as <-. lia.
Qed.
Lemma decryptCBC_from k alg c iv : from_library (decryptCBC k alg c iv).
Proof.
  unfold decryptCBC. case_decide; [done|]. case_decide as Hm; [done|].
  apply from_library_bind; [from_tac|]. intros k1 _. apply from_library_bind; [from_tac|]. intros k2 _.
  apply from_library_bind; [apply CBCDecrypter_from; lia|]. intros out _.
  apply from_library_bind; [from_tac|done].
Qed.

Lemma Encrypt_from e m kty alg p iv : from_library (KeyCrypto.Encrypt e m kty alg p iv).
Proof. unfold KeyCrypto.Encrypt. destruct (is_RSA kty); [from_tac|]. destruct (is_oct kty); [apply encryptCBC_from|done]. Qed.
Lemma Decrypt_from m kty alg c iv : from_library (KeyCrypto.Decrypt m kty alg c iv).
Proof. unfold KeyCrypto.Decrypt. destruct (is_RSA kty); [from_tac|]. destruct (is_oct kty); [apply decryptCBC_from|done]. Qed.
Lemma Sign_from e m kty alg d : from_library (KeyCrypto.Sign e m kty alg d).
Proof. unfold KeyCrypto.Sign. from_tac. Qed.
(** The halves of a signature are cut where its length was checked. *)
Lemma Verify_from m kty alg d sig : from_library (KeyCrypto.Verify m kty alg d sig).
Proof.
  unfold KeyCrypto.Verify. destruct (is_RSA kty); [from_tac|]. destruct (is_EC kty); [|done].
  destruct (ecdsa_public_of m) as [pub|]; [|done]. cbn zeta. case_decide as Hl; [done|].
  by rewrite slice_expr_to, slice_expr_from by lia.
Qed.
Lemma Wrap_from e m kty alg p : from_library (KeyCrypto.Wrap e m kty alg p).
Proof.
  unfold KeyCrypto.Wrap. destruct (is_RSA kty); [apply from_library_map, Encrypt_from|]. from_tac.
Qed.
Lemma Unwrap_from m kty alg p : from_library (KeyCrypto.Unwrap m kty alg p).
Proof.
  unfold KeyCrypto.Unwrap. destruct (is_RSA kty); [apply from_library_map, Decrypt_from|]. from_tac.
Qed.

Lemma GenerateKey_from e i kty n crv kid ops :
  ¬ (kty_family kty = Some FamOct ∧ Z.rem n 8 = 0 ∧ (n < 0 ∨ 8 * max_alloc < n)) →
  from_library (GenerateKey e i kty n crv kid ops).
Proof.
  intros Hn. unfold GenerateKey. unfold kty_family in Hn.
  destruct (decide (kty ∈ ["RSA"; "RSA-HSM"]%string)); [from_tac|].
  destruct (decide (kty ∈ ["EC"; "EC-HSM"]%string)); [from_tac|].
  destruct (decide (kty ∈ ["oct"; "oct-HSM"]%string)); [|done]. cbn zeta.
  destruct (decide (n = 0)) as [->|Hn0]; [unfold make_len; cbn; from_tac|].
  case_decide as Hr; [done|]. apply from_library_bind; [|intros; from_tac].
  unfold make_len. case_decide as Hl; [done|]. destruct Hn. split; [done|]. split; [done|].
  pose proof (Z.quot_rem' n 8). unfold max_alloc in *. lia.
Qed.
Lemma KeyImport_from jwk kid : from_library (KeyCrypto.ImportKey jwk kid).
Proof. unfold KeyCrypto.ImportKey. from_tac. Qed.

Lemma GenerateCert_from e i name policy opts : from_library (GenerateCert e i name policy opts).
Proof.
  unfold GenerateCert. apply from_library_bind; [intros ? ?; by econstructor|]. intros priv _.
  apply from_library_bind; [intros ? ?; by econstructor|]. intros serial _.
  destruct (if bool_decide _ then _ else _). destruct (opt_IssuerCert opts); cbn beta iota;
    (apply from_library_bind; [intros ? ?; by econstructor|done]).
Qed.
Lemma parsePEMData_from d : from_library (parsePEMData d).
Proof. unfold parsePEMData. by destruct (scan_pem _ _ _ _) as [[] ?]. Qed.
Lemma ParseImportedCertificate_from value password : from_library (ParseImportedCertificate value password).
Proof.
  unfold ParseImportedCertificate. cbv zeta. set (data := if Contains value _ then _ else _). clearbody data.
  destruct (pem_Decode data); [apply parsePEMData_from|].
  assert (from_library (match x509_ParseCertificate data with
    | Ok parsed => Ok (parsed, None, pem_EncodeToMemory (mk_pem_Block "CERTIFICATE" data))
    | Err _ => Err invalid_certificate | Panic p => Panic p end : outcome message (x509_Certificate * option rsa_PrivateKey * bytes))) as Hd.
  { intros msg. destruct (x509_ParseCertificate data) eqn:Hp; [done..|]. intros [= ->]. by econstructor. }
  destruct (pkcs12_ToPEM data password) as [[|b bs]| |] eqn:Hp; [done|apply parsePEMData_from|done|].
  intros msg' [= ->]. by econstructor.
Qed.
Lemma getIssuerMaterial_from s name : from_library (getIssuerMaterial s name).
Proof.
  unfold getIssuerMaterial. destruct (secrets s !! name) as [entry|]; [|done]. destruct (latestSecret _) as [[i v]|]; [|done].
  pose proof (ParseImportedCertificate_from (sr_Value (sv_record v)) "") as Hp.
  destruct (ParseImportedCertificate _ _) as [[[c []] p]| |p]; [done..|]. intros msg [= ->]. by apply Hp.
Qed.
End from_library.

Section no_panic.
Context (e : Env) (Hrand : rand_ok e 0 = true).
Implicit Types s : Store.

Definition safe {A} (m : SM A) (s : Store) : Prop := ¬ is_Panic (m s).1.

Lemma newRecoveryID_Ok kind name :
  newRecoveryID e kind name = Ok ("/deleted" ++ kind ++ "/" ++ name ++ "/" ++ version_id e)%string.
Proof. unfold newRecoveryID. by rewrite newVersion_Ok. Qed.

Lemma o_traverse_safe {A B} (f : A → outcome error B) l :
  (∀ x, x ∈ l → ¬ is_Panic (f x)) → ¬ is_Panic (o_traverse f l).
Proof.
  induction l as [|x l IH]; intros Hf; [by intros []|]. simpl.
  pose proof (Hf x ltac:(set_solver)). destruct (f x); simpl; [|done|done].
  specialize (IH ltac:(set_solver)). by destruct (o_traverse f l).
Qed.

Lemma safe_paginate {T A} (items : list T) token m (k : list T * option string → SM A) s :
  fits (length items) → (∀ page next, (∀ x, x ∈ page → x ∈ items) → safe (k (page, next)) s) →
  safe (let* pn := m_lift (paginateNames items token m) in k pn) s.
Proof.
  intros Hlen Hk. unfold safe, m_bind, m_lift.
  pose proof (paginateNames_no_panic items token m Hlen) as Hp.
  destruct (paginateNames items token m) as [[page next]| |] eqn:Hpg; [|by intros []|done].
  apply Hk. intros x. by eapply paginateNames_elem.
Qed.

(** The latest version of an entry that satisfies the invariant. *)
Lemma deref_last {V} (P : string → V → Prop) name vs :
  versions_ok P name vs → ∃ v, deref (last_ptr vs) = Ok v ∧ last vs = Some v.
Proof. intros (v & Hp & Hl & _)%versions_ok_last. exists v. by rewrite Hp. Qed.

Ltac latest H :=
  let v := fresh "v" in let Hv := fresh "Hv" in
  destruct (deref_last _ _ _ H) as (v & Hv & _); rewrite Hv.

Lemma list_deleted_safe {D B} (m : gmap string D) (P : string → D → Prop)
    (f : D → outcome error B) names :
  map_Forall P m → (∀ n d, P n d → ¬ is_Panic (f d)) → (∀ x, x ∈ names → x ∈ sorted_keys m) →
  ¬ is_Panic (o_traverse (λ name, match m !! name with Some d => f d | None => Panic
    "runtime error: invalid memory address or nil pointer dereference" end) names).
Proof.
  intros Hall Hf Hnames. apply o_traverse_safe. intros n Hn%Hnames.
  apply elem_of_sorted_keys in Hn as [d Hd]. rewrite Hd. by eapply Hf, Hall.
Qed.

(** Unfolds the monad and leaves the branches that could panic. *)
Ltac plain :=
  unfold m_bind, m_get, m_ret, m_fail, m_modify, m_lift, m_panic;
  repeat first [ progress simplify_eq/= | case_decide | case_match ]; try (by intros []); try done.

Lemma lookup_safe s :
  store_ok s → ∀ name,
  (∀ en, secrets s !! name = Some en → ∃ v, deref (latestSecret (Some en)) = Ok v) ∧
  (∀ d, deletedSecrets s !! name = Some d → ∃ v, deref (latestSecret (Some (dse_entry d))) = Ok v) ∧
  (∀ en, keys s !! name = Some en → ∃ v, deref (latestKey (Some en)) = Ok v) ∧
  (∀ d, deletedKeys s !! name = Some d → ∃ v, deref (latestKey (Some (dke_entry d))) = Ok v) ∧
  (∀ en, certificates s !! name = Some en → ∃ v, deref (latestCertificate (Some en)) = Ok v) ∧
  (∀ d, deletedCertificates s !! name = Some d →
    ∃ v, deref (latestCertificate (Some (dce_entry d))) = Ok v).
Proof.
  intros Hs name. split_and!; intros x Hx.
  - destruct (deref_last _ _ _ (ok_secrets s Hs _ _ Hx)) as (v & Hv & _). by exists v.
  - destruct (deref_last _ _ _ (ok_deletedSecrets s Hs _ _ Hx)) as (v & Hv & _). by exists v.
  - destruct (deref_last _ _ _ (ok_keys s Hs _ _ Hx)) as (v & Hv & _). by exists v.
  - destruct (deref_last _ _ _ (ok_deletedKeys s Hs _ _ Hx)) as (v & Hv & _). by exists v.
  - destruct (deref_last _ _ _ (ok_certificates s Hs _ _ Hx)) as (v & Hv & _). by exists v.
  - destruct (deref_last _ _ _ (ok_deletedCertificates s Hs _ _ Hx)) as (v & Hv & _). by exists v.
Qed.

Lemma SetSecret_safe name req s : safe (SetSecret e name req) s.
Proof. unfold safe, SetSecret, append_secret. rewrite newVersion_Ok by done. plain. Qed.

Lemma DeleteSecret_safe name s : store_ok s → safe (DeleteSecret e name) s.
Proof.
  intros Hs. unfold safe, DeleteSecret, m_bind, m_get, m_modify, m_lift, m_ret, m_fail.
  destruct (secrets s !! name) as [en|] eqn:He; [|by intros []].
  destruct (decide _); [by intros []|]. rewrite newRecoveryID_Ok. cbn [fst snd].
  destruct (lookup_safe s Hs name) as (H1 & H2 & H3 & H4 & H5 & H6).
  destruct (H1 en He) as [v Hv]. rewrite Hv. by intros [].
Qed.
Lemma RecoverSecret_safe name s : store_ok s → safe (RecoverDeletedSecret name) s.
Proof.
  intros Hs. unfold safe, RecoverDeletedSecret, m_bind, m_get, m_modify, m_lift, m_ret, m_fail.
  destruct (decide _); [by intros []|].
  destruct (deletedSecrets s !! name) as [d|] eqn:He; [|by intros []].
  destruct (lookup_safe s Hs name) as (H1 & H2 & H3 & H4 & H5 & H6).
  destruct (H2 d He) as [v Hv]. rewrite Hv. by intros [].
Qed.
Lemma GetDeletedSecret_safe name s : store_ok s → safe (GetDeletedSecret name) s.
Proof.
  intros Hs. unfold safe, GetDeletedSecret, deleted_secret_record, m_bind, m_get, m_lift, m_ret, m_fail.
  destruct (deletedSecrets s !! name) as [d|] eqn:He; [|by intros []].
  destruct (lookup_safe s Hs name) as (H1 & H2 & H3 & H4 & H5 & H6).
  destruct (H2 d He) as [v Hv]. rewrite Hv. by intros [].
Qed.
Lemma ListSecrets_safe m token s : store_fits s → safe (ListSecrets m token) s.
Proof.
  intros Hf. unfold ListSecrets, safe, m_bind at 1, m_get. apply safe_paginate; [|by intros ? ? _ []].
  rewrite length_sorted_keys. apply Hf.
Qed.
Lemma ListSecretVersions_safe name m token s : store_fits s → safe (ListSecretVersions name m token) s.
Proof.
  intros Hf. unfold ListSecretVersions, safe, m_bind, m_get, m_lift, m_fail.
  destruct (secrets s !! name) as [en|] eqn:He; [|by intros []]. apply paginateNames_no_panic.
  rewrite length_fmap, length_reverse. exact (fits_secret_versions s Hf _ _ He).
Qed.
Lemma ListDeletedSecrets_safe m token s : store_ok s → store_fits s → safe (ListDeletedSecrets m token) s.
Proof.
  intros Hs Hf. unfold ListDeletedSecrets, safe, m_bind at 1, m_get. apply safe_paginate.
  { rewrite length_sorted_keys. apply Hf. }
  intros page next Hpage. unfold safe, m_bind, m_lift, m_ret.
  match goal with |- context [o_traverse ?f page] =>
    assert (¬ is_Panic (o_traverse f page)) as Hp; [|by destruct (o_traverse f page)] end.
  apply o_traverse_safe. intros n Hn%Hpage%elem_of_sorted_keys. destruct Hn as [d Hd]. rewrite Hd.
  pose proof (GetDeletedSecret_safe n s Hs) as Hg.
  unfold safe, GetDeletedSecret, m_bind, m_get, m_lift in Hg. rewrite Hd in Hg.
  by destruct (deleted_secret_record d).
Qed.

Lemma DeleteKey_safe name s : store_ok s → safe (DeleteKey e name) s.
Proof.
  intros Hs. unfold safe, DeleteKey, m_bind, m_get, m_modify, m_lift, m_ret, m_fail.
  destruct (keys s !! name) as [en|] eqn:He; [|by intros []].
  destruct (decide _); [by intros []|]. rewrite newRecoveryID_Ok. cbn [fst snd].
  destruct (lookup_safe s Hs name) as (H1 & H2 & H3 & H4 & H5 & H6).
  destruct (H3 en He) as [v Hv]. rewrite Hv. by intros [].
Qed.
Lemma RecoverKey_safe name s : store_ok s → safe (RecoverDeletedKey name) s.
Proof.
  intros Hs. unfold safe, RecoverDeletedKey, m_bind, m_get, m_modify, m_lift, m_ret, m_fail.
  destruct (decide _); [by intros []|].
  destruct (deletedKeys s !! name) as [d|] eqn:He; [|by intros []].
  destruct (lookup_safe s Hs name) as (H1 & H2 & H3 & H4 & H5 & H6).
  destruct (H4 d He) as [v Hv]. rewrite Hv. by intros [].
Qed.
Lemma GetDeletedKey_safe name s : store_ok s → safe (GetDeletedKey name) s.
Proof.
  intros Hs. unfold safe, GetDeletedKey, deleted_key_record, m_bind, m_get, m_lift, m_ret, m_fail.
  destruct (deletedKeys s !! name) as [d|] eqn:He; [|by intros []].
  destruct (lookup_safe s Hs name) as (H1 & H2 & H3 & H4 & H5 & H6).
  destruct (H4 d He) as [v Hv]. rewrite Hv. by intros [].
Qed.
Lemma ListKeys_safe m token s : store_fits s → safe (ListKeys m token) s.
Proof.
  intros Hf. unfold ListKeys, safe, m_bind at 1, m_get. apply safe_paginate; [|by intros ? ? _ []].
  rewrite length_sorted_keys. apply Hf.
Qed.
Lemma ListKeyVersions_safe name m token s : store_fits s → safe (ListKeyVersions name m token) s.
Proof.
  intros Hf. unfold ListKeyVersions, safe, m_bind, m_get, m_lift, m_fail.
  destruct (keys s !! name) as [en|] eqn:He; [|by intros []]. apply paginateNames_no_panic.
  rewrite length_fmap, length_reverse. exact (fits_key_versions s Hf _ _ He).
Qed.
Lemma ListDeletedKeys_safe m token s : store_ok s → store_fits s → safe (ListDeletedKeys m token) s.
Proof.
  intros Hs Hf. unfold ListDeletedKeys, safe, m_bind at 1, m_get. apply safe_paginate.
  { rewrite length_sorted_keys. apply Hf. }
  intros page next Hpage. unfold safe, m_bind, m_lift, m_ret.
  match goal with |- context [o_traverse ?f page] =>
    assert (¬ is_Panic (o_traverse f page)) as Hp; [|by destruct (o_traverse f page)] end.
  apply o_traverse_safe. intros n Hn%Hpage%elem_of_sorted_keys. destruct Hn as [d Hd]. rewrite Hd.
  pose proof (GetDeletedKey_safe n s Hs) as Hg.
  unfold safe, GetDeletedKey, m_bind, m_get, m_lift in Hg. rewrite Hd in Hg.
  by destruct (deleted_key_record d).
Qed.

Lemma DeleteCertificate_safe name s : store_ok s → safe (DeleteCertificate e name) s.
Proof.
  intros Hs. unfold safe, DeleteCertificate, m_bind, m_get, m_modify, m_lift, m_ret, m_fail.
  destruct (certificates s !! name) as [en|] eqn:He; [|by intros []].
  destruct (decide _); [by intros []|]. rewrite newRecoveryID_Ok. cbn [fst snd].
  destruct (lookup_safe s Hs name) as (H1 & H2 & H3 & H4 & H5 & H6).
  destruct (H5 en He) as [v Hv]. rewrite Hv. by intros [].
Qed.
Lemma RecoverCertificate_safe name s : store_ok s → safe (RecoverDeletedCertificate name) s.
Proof.
  intros Hs. unfold safe, RecoverDeletedCertificate, m_bind, m_get, m_modify, m_lift, m_ret, m_fail.
  destruct (decide _); [by intros []|].
  destruct (deletedCertificates s !! name) as [d|] eqn:He; [|by intros []].
  destruct (lookup_safe s Hs name) as (H1 & H2 & H3 & H4 & H5 & H6).
  destruct (H6 d He) as [v Hv]. rewrite Hv. by intros [].
Qed.
Lemma GetDeletedCertificate_safe name s : store_ok s → safe (GetDeletedCertificate name) s.
Proof.
  intros Hs. unfold safe, GetDeletedCertificate, deleted_certificate_record, m_bind, m_get, m_lift, m_ret, m_fail.
  destruct (deletedCertificates s !! name) as [d|] eqn:He; [|by intros []].
  destruct (lookup_safe s Hs name) as (H1 & H2 & H3 & H4 & H5 & H6).
  destruct (H6 d He) as [v Hv]. rewrite Hv. by intros [].
Qed.
Lemma ListCertificates_safe m token s : store_fits s → safe (ListCertificates m token) s.
Proof.
  intros Hf. unfold ListCertificates, safe, m_bind at 1, m_get. apply safe_paginate; [|by intros ? ? _ []].
  rewrite length_sorted_keys. apply Hf.
Qed.
Lemma ListCertificateVersions_safe name m token s : store_fits s → safe (ListCertificateVersions name m token) s.
Proof.
  intros Hf. unfold ListCertificateVersions, safe, m_bind, m_get, m_lift, m_fail.
  destruct (certificates s !! name) as [en|] eqn:He; [|by intros []]. apply paginateNames_no_panic.
  rewrite length_fmap, length_reverse. exact (fits_certificate_versions s Hf _ _ He).
Qed.
Lemma ListDeletedCertificates_safe m token s : store_ok s → store_fits s → safe (ListDeletedCertificates m token) s.
Proof.
  intros Hs Hf. unfold ListDeletedCertificates, safe, m_bind at 1, m_get. apply safe_paginate.
  { rewrite length_sorted_keys. apply Hf. }
  intros page next Hpage. unfold safe, m_bind, m_lift, m_ret.
  match goal with |- context [o_traverse ?f page] =>
    assert (¬ is_Panic (o_traverse f page)) as Hp; [|by destruct (o_traverse f page)] end.
  apply o_traverse_safe. intros n Hn%Hpage%elem_of_sorted_keys. destruct Hn as [d Hd]. rewrite Hd.
  pose proof (GetDeletedCertificate_safe n s Hs) as Hg.
  unfold safe, GetDeletedCertificate, m_bind, m_get, m_lift in Hg. rewrite Hd in Hg.
  by destruct (deleted_certificate_record d).
Qed.

Lemma GetCertificatePolicy_safe name s : store_ok s → safe (GetCertificatePolicy name) s.
Proof.
  intros Hs. unfold safe, GetCertificatePolicy, m_bind, m_get, m_lift, m_ret, m_fail.
  destruct (certificates s !! name) as [en|] eqn:He; [|by intros []].
  destruct (lookup_safe s Hs name) as (_ & _ & _ & _ & H5 & _).
  destruct (H5 en He) as [v Hv]. rewrite Hv. by intros [].
Qed.
Lemma UpdateCertificatePolicy_safe name policy s :
  store_ok s → safe (UpdateCertificatePolicy e name policy) s.
Proof.
  intros Hs. unfold safe, UpdateCertificatePolicy, m_bind, m_get, m_modify, m_ret, m_fail, m_panic.
  destruct (certificates s !! name) as [en|] eqn:He; [|by intros []].
  destruct (lookup_safe s Hs name) as (_ & _ & _ & _ & H5 & _).
  destruct (H5 en He) as [v Hv].
  destruct (latestCertificate (Some en)) as [[i w]|]; [by intros []|done].
Qed.
Lemma GetPendingCertificateOperation_safe name s :
  store_ok s → safe (GetPendingCertificateOperation name) s.
Proof.
  intros Hs. unfold safe, GetPendingCertificateOperation, m_bind, m_get, m_lift, m_ret, m_fail.
  destruct (certificates s !! name) as [en|] eqn:He; [|by intros []].
  destruct (lookup_safe s Hs name) as (_ & _ & _ & _ & H5 & _).
  destruct (H5 en He) as [v Hv]. rewrite Hv. by intros [].
Qed.
Lemma RestoreSecret_safe token s : safe (RestoreSecret token) s.
Proof.
  unfold safe, RestoreSecret, m_bind, m_modify, m_lift, m_ret, m_fail.
  destruct (b64_DecodeString _ token); [|by intros []..].
  destruct (unmarshal_backup _) as [[name [len backing]]|] eqn:Hu; [|by intros []].
  cbn [bk_Versions bk_Name]. case_decide as Hne; [by intros []|].
  apply unmarshal_backup_backing in Hu. unfold slice_ok in Hu. cbn in Hu.
  destruct (last_ptr_nonempty (restored_version name <$> take len backing)) as (v & Hv & _).
  { intros Hnil%(f_equal length). rewrite length_fmap, length_take in Hnil. simpl in Hnil.
    apply Hne. right. lia. }
  unfold latestSecret. cbn [se_versions]. rewrite Hv. by intros [].
Qed.

Context `{C : BlockCipher} `{L : PublicKeyLib} `{X : CertLib}.

(** A step of the store that only a library can make panic. *)
Definition lib_safe {A} (m : SM A) (s : Store) : Prop := from_library (m s).1.

Lemma lib_safe_lift {A B} (o : outcome error A) (k : A → SM B) s :
  from_library o → (∀ a, o = Ok a → lib_safe (k a) s) → lib_safe (m_bind (m_lift o) k) s.
Proof.
  intros Ho Hk msg. unfold m_bind, m_lift. destruct o; cbn; [by apply Hk|done|]. intros [= ->]. by apply Ho.
Qed.
Lemma lib_safe_never {A} (m : SM A) s : safe m s → lib_safe m s.
Proof. intros H. by apply from_library_never. Qed.
Lemma newVersion_from : from_library (newVersion e).
Proof. by rewrite newVersion_Ok. Qed.

Lemma lib_safe_get {A} (k : Store → SM A) s : lib_safe (k s) s → lib_safe (m_bind m_get k) s.
Proof. done. Qed.

Lemma CreateKey_lib_safe name req s : ¬ makes_too_much (CCreateKey name req) → lib_safe (CreateKey e name req) s.
Proof.
  intros Hm. unfold CreateKey. case_decide; [done|]. case_decide; [done|]. apply lib_safe_get.
  case_decide; [done|]. apply lib_safe_lift; [apply newVersion_from|]. intros version _.
  apply lib_safe_lift; [by apply from_library_maperr, GenerateKey_from|]. by intros [material jwk] _.
Qed.
Lemma ImportKey_lib_safe name req s : lib_safe (ImportKey e name req) s.
Proof.
  unfold ImportKey. case_decide; [done|]. case_decide; [done|]. apply lib_safe_get. case_decide; [done|].
  apply lib_safe_lift; [apply from_library_maperr, KeyImport_from|]. intros [material jwk] _.
  by apply lib_safe_lift; [apply newVersion_from|].
Qed.
Lemma with_material {A} name version (o : keyVersion → outcome error A) s :
  (∀ ver, from_library (o ver)) → lib_safe (let* ver := keyMaterial name version in m_lift (o ver)) s.
Proof.
  intros Ho. unfold lib_safe, keyMaterial, m_bind, m_get, m_lift, m_ret, key_not_found, m_fail.
  destruct (keys s !! name) as [entry|]; [|done]. destruct (findKeyVersion entry version) as [[i ver]|]; [apply Ho|done].
Qed.
Lemma decode_field_from what value : from_library (decode_field what value).
Proof. apply from_library_maperr, DecodeBase64URL_from. Qed.

Ltac use_key :=
  apply with_material; intros ver;
  repeat first
    [ apply from_library_Ok | apply decode_field_from
    | apply Encrypt_from | apply Decrypt_from | apply Sign_from | apply Verify_from | apply Wrap_from | apply Unwrap_from
    | apply from_library_maperr | apply from_library_bind; [|intros ? ?] | case_decide ].

Lemma Encrypt_lib_safe name version req s : lib_safe (Encrypt e name version req) s.
Proof. use_key. Qed.
Lemma Decrypt_lib_safe name version req s : lib_safe (Decrypt name version req) s.
Proof. use_key. Qed.
Lemma Sign_lib_safe name version req s : lib_safe (Sign e name version req) s.
Proof. use_key. Qed.
Lemma Verify_lib_safe name version req s : lib_safe (Verify name version req) s.
Proof. use_key. Qed.
Lemma WrapKey_lib_safe name version req s : lib_safe (WrapKey e name version req) s.
Proof. use_key. Qed.
Lemma UnwrapKey_lib_safe name version req s : lib_safe (UnwrapKey name version req) s.
Proof. use_key. Qed.

Lemma CreateCertificate_lib_safe name req s : lib_safe (CreateCertificate e name req) s.
Proof.
  unfold CreateCertificate. case_decide; [done|]. apply lib_safe_get. case_decide; [done|].
  apply lib_safe_lift; [apply newVersion_from|]. intros version _. cbv zeta.
  set (policy := defaultCertificatePolicy name (ccr_Policy req)). clearbody policy.
  assert (∀ A (k : option x509_Certificate * option rsa_PrivateKey → SM A) n, (∀ issuer, lib_safe (k issuer) s) →
    lib_safe (let* issuer := (if decide (n ≠ ""%string) then
      let* ck := m_lift (o_maperr (newError StatusBadRequest "InvalidIssuer") (getIssuerMaterial s n)) in
      m_ret (Some ck.1, Some ck.2) else m_ret (None, None)) in k issuer) s) as Hissuer.
  { intros A k n Hk. case_decide; [|apply Hk]. unfold lib_safe, m_bind, m_lift, m_ret.
    pose proof (from_library_maperr (newError StatusBadRequest "InvalidIssuer") _ (getIssuerMaterial_from s n)) as Hi.
    destruct (o_maperr _ (getIssuerMaterial s n)) as [ck|err|p]; [apply Hk|done|]. intros msg [= ->]. by apply Hi. }
  apply Hissuer. intros issuer. apply lib_safe_lift; [apply from_library_maperr, GenerateCert_from|]. by intros [priv der] _.
Qed.
Lemma ImportCertificate_lib_safe name req s : lib_safe (ImportCertificate e name req) s.
Proof.
  unfold ImportCertificate. case_decide; [done|]. case_decide; [done|].
  apply lib_safe_lift; [apply from_library_maperr, ParseImportedCertificate_from|]. intros [[cert priv] pem] _.
  apply lib_safe_get. case_decide; [done|]. apply lib_safe_lift; [apply newVersion_from|]. intros version _. cbv zeta.
  by destruct (cert_RSAPublicKey cert).
Qed.

Lemma exec_lib_safe c s : store_ok s → store_fits s → ¬ makes_too_much c → lib_safe (exec e c) s.
Proof.
  intros Hs Hf Hc. unfold lib_safe. destruct c; cbn [exec].
  all: try (apply from_library_never; rewrite void_Panic;
    first
    [ apply SetSecret_safe
    | by apply DeleteSecret_safe | by apply RecoverSecret_safe | by apply GetDeletedSecret_safe
    | by apply ListSecrets_safe | by apply ListSecretVersions_safe | by apply ListDeletedSecrets_safe
    | by apply DeleteKey_safe | by apply RecoverKey_safe | by apply GetDeletedKey_safe
    | by apply ListKeys_safe | by apply ListKeyVersions_safe | by apply ListDeletedKeys_safe
    | by apply DeleteCertificate_safe | by apply RecoverCertificate_safe
    | by apply GetDeletedCertificate_safe | by apply ListCertificates_safe
    | by apply ListCertificateVersions_safe | by apply ListDeletedCertificates_safe
    | by apply GetCertificatePolicy_safe | by apply UpdateCertificatePolicy_safe
    | by apply GetPendingCertificateOperation_safe | apply RestoreSecret_safe
    | solve [unfold GetSecret, UpdateSecret, PurgeDeletedSecret, BackupSecret, GetKey, UpdateKey,
        PurgeDeletedKey, GetCertificate, UpdateCertificate, PurgeDeletedCertificate; plain] ]).
  all: assert (∀ A (m : SM A), lib_safe m s → from_library (void m s).1) as Hvoid
    by (intros A m Hm msg; unfold void, m_bind, m_ret; specialize (Hm msg); revert Hm; by destruct (m s) as [[]]; intros Hm [= ->]; apply Hm).
  all: apply Hvoid.
  - by apply CreateKey_lib_safe.
  - apply ImportKey_lib_safe.
  - apply Encrypt_lib_safe.
  - apply Decrypt_lib_safe.
  - apply Sign_lib_safe.
  - apply Verify_lib_safe.
  - apply WrapKey_lib_safe.
  - apply UnwrapKey_lib_safe.
  - apply CreateCertificate_lib_safe.
  - apply ImportCertificate_lib_safe.
Qed.
End no_panic.

(** ** An operation that returns an error has not changed the store *)

Section atomicity.
Context `{C : BlockCipher} `{L : PublicKeyLib} `{X : CertLib}.

Definition atomic {A} (m : SM A) : Prop := ∀ s err s', m s = (Err err, s') → s' = s.
Definition no_err {A} (m : SM A) : Prop := ∀ s err, (m s).1 ≠ Err err.

Lemma atomic_read {A} (m : SM A) : pure_read m → atomic m.
Proof. intros H s err s' Hm. specialize (H s). by rewrite Hm in H. Qed.
Lemma atomic_no_err {A} (m : SM A) : no_err m → atomic m.
Proof. intros H s err s' Hm. destruct (H s err). by rewrite Hm. Qed.
Lemma atomic_bind_read {A B} (m : SM A) (k : A → SM B) :
  pure_read m → (∀ a, atomic (k a)) → atomic (m_bind m k).
Proof.
  intros Hm Hk s err s'. specialize (Hm s). unfold m_bind.
  destruct (m s) as [[a| |] s1]; simpl in Hm; subst; [apply Hk|naive_solver..].
Qed.
Lemma atomic_bind_last {A B} (m : SM A) (k : A → SM B) :
  atomic m → (∀ a, no_err (k a)) → atomic (m_bind m k).
Proof.
  intros Hm Hk s err s'. specialize (Hm s). unfold m_bind.
  destruct (m s) as [[a|e|] s1]; [|naive_solver..].
  intros Heq. destruct (Hk a s1 err). by rewrite Heq.
Qed.
Lemma no_err_bind {A B} (m : SM A) (k : A → SM B) :
  no_err m → (∀ a, no_err (k a)) → no_err (m_bind m k).
Proof.
  intros Hm Hk s err. specialize (Hm s). unfold m_bind.
  destruct (m s) as [[a|e|] s1]; [apply Hk|by destruct (Hm e)|done].
Qed.
Lemma no_err_ret {A} (a : A) : no_err (m_ret a).
Proof. done. Qed.
Lemma no_err_modify f : no_err (m_modify (E:=error) f).
Proof. done. Qed.
Lemma no_err_lift_deref {A} (p : option (nat * A)) : no_err (m_lift (deref p)).
Proof. by destruct p as [[? ?]|]. Qed.
Lemma no_err_newRecoveryID e kind name : no_err (m_lift (newRecoveryID e kind name)).
Proof.
  intros s err. unfold m_lift, newRecoveryID. simpl.
  destruct (newVersion_cases e) as [-> | ->]; done.
Qed.
Lemma no_err_append_secret name v : no_err (append_secret name v).
Proof. done. Qed.
Lemma no_err_append_key name v : no_err (append_key name v).
Proof. done. Qed.
Lemma no_err_append_certificate name v : no_err (append_certificate name v).
Proof. done. Qed.
Lemma no_err_putKeyVersion name version r m : no_err (putKeyVersion name version r m).
Proof. done. Qed.
Lemma no_err_putSecretVersion name version value ct a t :
  no_err (putSecretVersion name version value ct a t).
Proof. done. Qed.

Ltac no_err_tac :=
  repeat first
    [ apply no_err_ret | apply no_err_modify | apply no_err_lift_deref | apply no_err_newRecoveryID
    | apply no_err_append_secret | apply no_err_append_key | apply no_err_append_certificate
    | apply no_err_putKeyVersion | apply no_err_putSecretVersion
    | apply no_err_bind; [|intros ?] | case_match ].

(** Reads and guards first, then steps that cannot fail. *)
Ltac atomic_tac :=
  repeat first
    [ solve [apply atomic_no_err; no_err_tac]
    | solve [apply atomic_read; done]
    | apply atomic_bind_read; [solve [done | by apply pure_bind]|intros ?]
    | case_decide | case_match ].

Lemma exec_atomic e c : atomic (exec e c).
Proof.
  destruct (is_read c) eqn:Hr; [by apply atomic_read, exec_read|].
  destruct c; try done; cbn [exec]; unfold void; (apply atomic_bind_last; [|by intros]);
    unfold SetSecret, UpdateSecret, DeleteSecret, PurgeDeletedSecret, RecoverDeletedSecret,
      RestoreSecret, CreateKey, ImportKey, UpdateKey, DeleteKey, PurgeDeletedKey, RecoverDeletedKey,
      CreateCertificate, ImportCertificate, UpdateCertificate, UpdateCertificatePolicy,
      DeleteCertificate, PurgeDeletedCertificate, RecoverDeletedCertificate.
  all: atomic_tac.
Qed.
End atomicity.

(** ** Properties *)

Section properties.
Context `{C : BlockCipher} `{L : PublicKeyLib} `{X : CertLib}.

(** C4: in every state the store can reach, whatever calls were made, failed
    or panicked, an entry of any of the six maps is non-empty, all its
    records carry the entry's name and the fixed recovery policy, no key
    record discloses a private member of its JSON web key, and every
    certificate names its key and secret and has a policy. *)
Theorem reachable_invariant s : reachable s → store_ok s.
Proof. apply reachable_store_ok. Qed.

(** C10: whatever panics is a library.  With the random source working, in a
    reachable store whose maps and version lists fit 64-bit indices, a panic of
    any of the calls is a panic of a function of the cryptographic, X.509 or
    PKCS#12 libraries that it called; the one exception is a request for a
    symmetric key of a length that [make] cannot serve.  So the nil
    dereferences, the index and slice expressions and the whole-block
    requirement of CBC are all guarded by the code. *)
Theorem reachable_no_panic e c s msg :
  reachable s → store_fits s → rand_ok e 0 = true → ¬ makes_too_much c →
  (exec e c s).1 = Panic msg → library_panics msg.
Proof. intros Hs%reachable_store_ok Hf Hr Hc. by apply exec_lib_safe. Qed.

(** C11: a call that returns an error has left the store exactly as it was, and
    so has every call that only takes the read lock, whatever it returns. *)
Theorem failed_calls_change_nothing e c s :
  is_read c = true ∨ (∃ err, (exec e c s).1 = Err err) → (exec e c s).2 = s.
Proof.
  intros [Hr|[err Herr]]; [by apply exec_read|].
  destruct (exec e c s) as [o s'] eqn:He. simpl in *. subst o. by eapply exec_atomic.
Qed.
End properties.

(** A panic is not so harmless: if the random source fails while a live
    secret is being deleted, the secret is in neither map afterwards, so it
    can be neither read nor recovered. *)
Theorem DeleteSecret_panic_loses_secret e name s entry :
  rand_ok e 0 = false → secrets s !! name = Some entry → deletedSecrets s !! name = None →
  is_Panic (DeleteSecret e name s).1 ∧
  secrets (DeleteSecret e name s).2 !! name = None ∧
  deletedSecrets (DeleteSecret e name s).2 !! name = None.
Proof.
  intros Hr He Hd. unfold DeleteSecret, m_bind, m_get, m_modify, m_lift, newRecoveryID.
  rewrite He. rewrite decide_False by (by rewrite Hd; intros []).
  rewrite newVersion_Panic by done. simpl. split; [done|]. by rewrite lookup_delete_eq.
Qed.

(** ** Witnesses *)

Definition demo_secret_request : SecretSetRequest := mkSecretSetRequest "hunter2" "" None None.
Definition broken_env : Env :=
  {| clock := clock toy_env; clock_nanos := clock_nanos toy_env; rand_ok _ := false;
     rand_byte := rand_byte toy_env; rand_err := "EOF" |}.

Definition demo_entry_of (v : string) : secretEntry := mkSecretEntry [mkSecretVersion
  (mkSecretRecord "db" v "hunter2" "" (buildAttributes None 1700000000 1700000000) None)].

Definition demo_calls : list (Env * call) := [
  (toy_env, CSetSecret "db" demo_secret_request);
  (toy_env, CCreateKey "signer" (mkCreateKeyRequest "RSA" 0 [] None None "" ""));
  (toy_env, CCreateCertificate "root" (mkCreateCertificateRequest None None None));
  (broken_env, CSetSecret "lost" demo_secret_request);
  (toy_env, CDeleteSecret "db");
  (toy_env, CDeleteSecret "root")].

Lemma DeleteSecret_panic_loses_secret_witness :
  let s := (SetSecret toy_env "db" demo_secret_request New).2 in
  is_Panic (DeleteSecret broken_env "db" s).1 ∧
  secrets (DeleteSecret broken_env "db" s).2 !! "db" = None ∧
  deletedSecrets (DeleteSecret broken_env "db" s).2 !! "db" = None.
Proof.
  eapply (DeleteSecret_panic_loses_secret broken_env "db"); reflexivity.
Defined.

Lemma reachable_invariant_witness :
  reachable (run demo_calls) ∧ size (deletedSecrets (run demo_calls)) = 2%nat ∧
  size (keys (run demo_calls)) = 2%nat ∧ store_ok (run demo_calls).
Proof.
  split; [apply reachable_run|]. split; [vm_compute; reflexivity|].
  split; [vm_compute; reflexivity|]. apply reachable_invariant, reachable_run.
Defined.

(** The toy libraries do not panic. *)
Lemma toy_library_panics msg : ¬ library_panics msg.
Proof.
  intros []; cbn in H; unfold toy_open in H; repeat case_match; done.
Qed.

Lemma demo_fits : store_fits (run demo_calls).
Proof. split; apply (bool_decide_unpack _); vm_compute; exact I. Qed.

Lemma reachable_no_panic_witness :
  (∀ msg, (exec toy_env (CListDeletedSecrets 1 "1") (run demo_calls)).1 ≠ Panic msg) ∧
  (∀ msg, (exec toy_env (CSign "signer" "" (mkSignRequest "RS256" "3q2-7w")) (run demo_calls)).1 ≠ Panic msg).
Proof.
  split; intros msg H; apply (toy_library_panics msg);
    (eapply (reachable_no_panic toy_env); [apply reachable_run|exact demo_fits|reflexivity| |exact H]); exact (λ x, x).
Defined.

Lemma failed_calls_change_nothing_witness :
  (exec toy_env (CSetSecret "db" demo_secret_request) (run demo_calls)).2 = run demo_calls.
Proof. apply failed_calls_change_nothing. right. eexists. vm_compute. reflexivity. Defined.
