(* ===== verification/SoftDelete.v ===== *)
(** * The soft-delete contract: an abstract lifecycle and the interface

    Secrets, keys and certificates share one contract.  A name is absent,
    live, soft-deleted, or (see [Clash]) both; the specification is a function
    on that [cell].  [SoftDelete] is the interface of a kind of object, its
    laws [SoftDeleteLaws] say that the four operations of the kind implement
    the specification and touch nothing else, and the theorems about the
    contract are proved from the interface. *)

From S2P Require Import Prelude GoStrings GoCrypto GoX509 Toy ToyX509 Model KeyCrypto CertCrypto StoreCore SecretStore KeyStore CertStore.

(** What is known of a deletion. *)
Record tomb : Type := mkTomb { tomb_id : string; tomb_date : Z; tomb_purge : Z }.

Inductive cell (V : Type) : Type :=
| Absent
| Live (vs : list V)
| Gone (vs : list V) (t : tomb)
| Clash (live vs : list V) (t : tomb).
Arguments Absent {V}.
Arguments Live {V} vs.
Arguments Gone {V} vs t.
Arguments Clash {V} live vs t.

Definition cell_of {V} (live : option (list V)) (gone : option (list V * tomb)) : cell V :=
  match live, gone with
  | None, None => Absent
  | Some vs, None => Live vs
  | None, Some (vs, t) => Gone vs t
  | Some ls, Some (vs, t) => Clash ls vs t
  end.

(** ** The interface of a kind of object *)

Class SoftDelete (V R D : Type) : Type := {
  sd_live : Store → string → option (list V);
  sd_gone : Store → string → option (list V * tomb);
  sd_record : V → R;                 (** what a response shows of a version *)
  sd_deleted : R → tomb → D;
  sd_kind : string;
  sd_missing : string → error;
  sd_deleted_missing : string → error;
  sd_exists : string → error;
  sd_frame : Store → Store → Prop;   (** the other kinds are the same *)
  op_delete : Env → string → SM D;
  op_get_deleted : string → SM D;
  op_purge : string → SM unit;
  op_recover : string → SM R;
}.

Definition nil_deref {E A} : outcome E A :=
  Panic "runtime error: invalid memory address or nil pointer dereference".

Section spec.
Context `{K : SoftDelete V R D}.

Definition view (s : Store) (name : string) : cell V := cell_of (sd_live s name) (sd_gone s name).

Definition latest_of (vs : list V) : outcome error V :=
  match last vs with Some v => Ok v | None => nil_deref end.

Definition new_tomb (e : Env) (name : string) : tomb :=
  mkTomb ("/deleted" ++ sd_kind ++ "/" ++ name ++ "/" ++ version_id e)
    (nowUnix e) (scheduledPurge (nowUnix e)).

Definition spec_delete (e : Env) (name : string) (c : cell V) : outcome error D * cell V :=
  match c with
  | Live vs =>
      if rand_ok e 0 then
        let t := new_tomb e name in
        (o_map (λ v, sd_deleted (sd_record v) t) (latest_of vs), Gone vs t)
      else (Panic ("failed to generate version id: " ++ rand_err e), Absent)
  | _ => (Err (sd_missing name), c)
  end.

Definition spec_get_deleted (name : string) (c : cell V) : outcome error D * cell V :=
  match c with
  | Gone vs t | Clash _ vs t => (o_map (λ v, sd_deleted (sd_record v) t) (latest_of vs), c)
  | _ => (Err (sd_deleted_missing name), c)
  end.

Definition spec_purge (name : string) (c : cell V) : outcome error unit * cell V :=
  match c with
  | Gone vs t => (Ok (), Absent)
  | Clash ls vs t => (Ok (), Live ls)
  | _ => (Err (sd_deleted_missing name), c)
  end.

Definition spec_recover (name : string) (c : cell V) : outcome error R * cell V :=
  match c with
  | Gone vs t => (o_map sd_record (latest_of vs), Live vs)
  | Absent => (Err (sd_deleted_missing name), c)
  | _ => (Err (sd_exists name), c)
  end.

(** The operation [m] on [name] implements [f], and touches nothing else. *)
Definition implements {A} (m : SM A) (name : string) (f : cell V → outcome error A * cell V) : Prop :=
  ∀ s, ((m s).1, view (m s).2 name) = f (view s name) ∧
    (∀ name', name' ≠ name → view (m s).2 name' = view s name') ∧ sd_frame s (m s).2.
End spec.

Class SoftDeleteLaws {V R D} (K : SoftDelete V R D) : Prop := {
  delete_implements e name : implements (op_delete e name) name (spec_delete e name);
  get_deleted_implements name : implements (op_get_deleted name) name (spec_get_deleted name);
  purge_implements name : implements (op_purge name) name (spec_purge name);
  recover_implements name : implements (op_recover name) name (spec_recover name);
  sd_frame_trans : Transitive sd_frame;
}.

(** ** Consequences of the contract, proved from the interface *)

Section contract.
Context `{K : SoftDelete V R D} `{!SoftDeleteLaws K}.
Implicit Types (s : Store) (name : string) (vs : list V).

Definition same_views (s s' : Store) : Prop := (∀ n, view s n = view s' n) ∧ sd_frame s s'.

Lemma recover_delete e name vs v s :
  rand_ok e 0 = true → view s name = Live vs → last vs = Some v →
  ∃ d r s1 s2, op_delete e name s = (Ok d, s1) ∧ view s1 name = Gone vs (new_tomb e name) ∧
    op_recover name s1 = (Ok r, s2) ∧ r = sd_record v ∧ same_views s s2.
Proof.
  intros Hr Hv Hl. destruct (delete_implements e name s) as (Hd & Hoth & Hfr).
  destruct (op_delete e name s) as [o s1] eqn:Hop. cbn [fst snd] in *.
  rewrite Hv in Hd. unfold spec_delete, latest_of in Hd. rewrite Hr, Hl in Hd.
  injection Hd as -> Hv1.
  destruct (recover_implements name s1) as (Hrec & Hoth2 & Hfr2).
  destruct (op_recover name s1) as [o2 s2] eqn:Hop2. cbn [fst snd] in *.
  rewrite Hv1 in Hrec. unfold spec_recover, latest_of in Hrec. rewrite Hl in Hrec.
  injection Hrec as -> Hv2. do 4 eexists. do 4 (split; [done|]).
  split; [|by eapply sd_frame_trans]. intros n. destruct (decide (n = name)) as [->|Hne].
  - by rewrite Hv, Hv2.
  - by rewrite Hoth2, Hoth.
Qed.

Lemma purge_delete e name vs v s :
  rand_ok e 0 = true → view s name = Live vs → last vs = Some v →
  let s1 := (op_delete e name s).2 in
  let s2 := (op_purge name s1).2 in
  (op_purge name s1).1 = Ok () ∧ view s2 name = Absent ∧
  (op_recover name s2).1 = Err (sd_deleted_missing name) ∧
  (op_get_deleted name s2).1 = Err (sd_deleted_missing name) ∧
  (∀ n, n ≠ name → view s2 n = view s n).
Proof.
  intros Hr Hv Hl s1 s2. destruct (delete_implements e name s) as (Hd & Hoth & _). fold s1 in Hd, Hoth.
  rewrite Hv in Hd. unfold spec_delete in Hd. rewrite Hr in Hd. injection Hd as _ Hv1.
  destruct (purge_implements name s1) as (Hp & Hoth2 & _). fold s2 in Hp, Hoth2.
  rewrite Hv1 in Hp. injection Hp as Hok Hv2.
  destruct (recover_implements name s2) as (Hrec & _). rewrite Hv2 in Hrec. injection Hrec as Hrec _.
  destruct (get_deleted_implements name s2) as (Hget & _). rewrite Hv2 in Hget. injection Hget as Hget _.
  split_and!; [done|done|done|done|]. intros n Hn. by rewrite Hoth2, Hoth.
Qed.
End contract.

(** ** The three kinds implement the interface *)

Create HintDb sd.
#[local] Hint Unfold DeleteSecret GetDeletedSecret PurgeDeletedSecret RecoverDeletedSecret
  DeleteKey GetDeletedKey PurgeDeletedKey RecoverDeletedKey
  DeleteCertificate GetDeletedCertificate PurgeDeletedCertificate RecoverDeletedCertificate
  secret_not_found deleted_secret_not_found deleted_secret_record latestSecret
  key_not_found deleted_key_not_found deleted_key_record latestKey
  certificate_not_found deleted_certificate_not_found deleted_certificate_record latestCertificate
  spec_delete spec_get_deleted spec_purge spec_recover view cell_of deref last_ptr latest_of : sd.


(** Looks at what the two maps hold under the name and runs the operation. *)
Ltac look live gone s name :=
  let Hl := fresh "Hl" in let Hg := fresh "Hg" in
  destruct (live s !! name) as [[?vs]|] eqn:Hl; destruct (gone s !! name) as [[[?ws] ?ri ?dd ?sp]|] eqn:Hg;
  repeat first
    [ rewrite decide_True by (by eexists) | rewrite decide_False by (by intros [])
    | progress cbn | rewrite Hl | rewrite Hg ].

(** What the operation left under the name, and under the other names. *)
Ltac after :=
  split; [rewrite ?lookup_delete_eq, ?lookup_insert_eq; done|]; split; [intros ?n ?Hn|done];
  repeat first [ rewrite lookup_delete_ne by done | rewrite lookup_insert_ne by done ]; done.

(** [ops] unfolds the fields of the instance. *)
Ltac soft_delete_tac live gone ops :=
  intros;
  match goal with |- implements _ ?name _ => intros s; ops; autounfold with sd; monad_unfold;
    try rewrite newRecoveryID_cases; look live gone s name;
    repeat match goal with |- context [rand_ok ?e 0] => destruct (rand_ok e 0); cbn end;
    repeat match goal with |- context [last ?l] => destruct (last l); cbn end;
    rewrite ?lookup_delete_eq, ?lookup_insert_eq; cbn;
    repeat match goal with H : _ !! _ = _ |- _ => rewrite H end; cbn; try after
  end.

#[export] Instance secrets_soft_delete : SoftDelete secretVersion SecretRecord DeletedSecretRecord := {|
  sd_live s n := se_versions <$> secrets s !! n;
  sd_gone s n := (λ d, (se_versions (dse_entry d),
    mkTomb (dse_recoveryID d) (dse_deletedDate d) (dse_scheduledPurgeDate d))) <$> deletedSecrets s !! n;
  sd_record v := cloneSecretRecord (sv_record v);
  sd_deleted r t := mkDeletedSecretRecord r (tomb_id t) (tomb_date t) (tomb_purge t);
  sd_kind := "secrets";
  sd_missing n := newError StatusNotFound "SecretNotFound"
    ("A secret with (name/id) " ++ n ++ " was not found in this key vault.")%string;
  sd_deleted_missing n := newError StatusNotFound "SecretNotFound"
    ("A deleted secret with name " ++ n ++ " was not found in this key vault.")%string;
  sd_exists n := newError StatusConflict "Conflict" ("Secret " ++ n ++ " already exists.")%string;
  sd_frame s s' := keys s = keys s' ∧ deletedKeys s = deletedKeys s' ∧ certificates s = certificates s' ∧ deletedCertificates s = deletedCertificates s';
  op_delete := DeleteSecret;
  op_get_deleted := GetDeletedSecret;
  op_purge := PurgeDeletedSecret;
  op_recover := RecoverDeletedSecret;
|}.

#[export] Instance secrets_soft_delete_laws : SoftDeleteLaws secrets_soft_delete.
Proof.
  split.
  - soft_delete_tac secrets deletedSecrets ltac:(cbn [op_delete sd_live sd_gone sd_missing secrets_soft_delete]).
  - soft_delete_tac secrets deletedSecrets ltac:(cbn [op_get_deleted sd_live sd_gone secrets_soft_delete]).
  - soft_delete_tac secrets deletedSecrets ltac:(cbn [op_purge sd_live sd_gone secrets_soft_delete]).
  - soft_delete_tac secrets deletedSecrets ltac:(cbn [op_recover sd_live sd_gone secrets_soft_delete]).
  - intros s1 s2 s3. unfold sd_frame; cbn. intuition congruence.
Qed.

#[export] Instance keys_soft_delete : SoftDelete keyVersion KeyRecord DeletedKeyRecord := {|
  sd_live s n := ke_versions <$> keys s !! n;
  sd_gone s n := (λ d, (ke_versions (dke_entry d),
    mkTomb (dke_recoveryID d) (dke_deletedDate d) (dke_scheduledPurgeDate d))) <$> deletedKeys s !! n;
  sd_record v := cloneKeyRecord (kv_record v);
  sd_deleted r t := mkDeletedKeyRecord r (tomb_id t) (tomb_date t) (tomb_purge t);
  sd_kind := "keys";
  sd_missing n := newError StatusNotFound "KeyNotFound"
    ("A key with (name/id) " ++ n ++ " was not found in this key vault.")%string;
  sd_deleted_missing n := newError StatusNotFound "KeyNotFound"
    ("A deleted key with name " ++ n ++ " was not found in this key vault.")%string;
  sd_exists n := newError StatusConflict "Conflict" ("Key " ++ n ++ " already exists.")%string;
  sd_frame s s' := secrets s = secrets s' ∧ deletedSecrets s = deletedSecrets s' ∧ certificates s = certificates s' ∧ deletedCertificates s = deletedCertificates s';
  op_delete := DeleteKey;
  op_get_deleted := GetDeletedKey;
  op_purge := PurgeDeletedKey;
  op_recover := RecoverDeletedKey;
|}.

#[export] Instance keys_soft_delete_laws : SoftDeleteLaws keys_soft_delete.
Proof.
  split.
  - soft_delete_tac keys deletedKeys ltac:(cbn [op_delete sd_live sd_gone sd_missing keys_soft_delete]).
  - soft_delete_tac keys deletedKeys ltac:(cbn [op_get_deleted sd_live sd_gone keys_soft_delete]).
  - soft_delete_tac keys deletedKeys ltac:(cbn [op_purge sd_live sd_gone keys_soft_delete]).
  - soft_delete_tac keys deletedKeys ltac:(cbn [op_recover sd_live sd_gone keys_soft_delete]).
  - intros s1 s2 s3. unfold sd_frame; cbn. intuition congruence.
Qed.

#[export] Instance certificates_soft_delete : SoftDelete certificateVersion CertificateRecord DeletedCertificateRecord := {|
  sd_live s n := ce_versions <$> certificates s !! n;
  sd_gone s n := (λ d, (ce_versions (dce_entry d),
    mkTomb (dce_recoveryID d) (dce_deletedDate d) (dce_scheduledPurgeDate d))) <$> deletedCertificates s !! n;
  sd_record v := cloneCertificateRecord (cv_record v);
  sd_deleted r t := mkDeletedCertificateRecord r (tomb_id t) (tomb_date t) (tomb_purge t);
  sd_kind := "certificates";
  sd_missing n := newError StatusNotFound "CertificateNotFound"
    ("A certificate with (name/id) " ++ n ++ " was not found in this key vault.")%string;
  sd_deleted_missing n := newError StatusNotFound "CertificateNotFound"
    ("A deleted certificate with name " ++ n ++ " was not found in this key vault.")%string;
  sd_exists n := newError StatusConflict "Conflict" ("Certificate " ++ n ++ " already exists.")%string;
  sd_frame s s' := secrets s = secrets s' ∧ deletedSecrets s = deletedSecrets s' ∧ keys s = keys s' ∧ deletedKeys s = deletedKeys s';
  op_delete := DeleteCertificate;
  op_get_deleted := GetDeletedCertificate;
  op_purge := PurgeDeletedCertificate;
  op_recover := RecoverDeletedCertificate;
|}.

#[export] Instance certificates_soft_delete_laws : SoftDeleteLaws certificates_soft_delete.
Proof.
  split.
  - soft_delete_tac certificates deletedCertificates ltac:(cbn [op_delete sd_live sd_gone sd_missing certificates_soft_delete]).
  - soft_delete_tac certificates deletedCertificates ltac:(cbn [op_get_deleted sd_live sd_gone certificates_soft_delete]).
  - soft_delete_tac certificates deletedCertificates ltac:(cbn [op_purge sd_live sd_gone certificates_soft_delete]).
  - soft_delete_tac certificates deletedCertificates ltac:(cbn [op_recover sd_live sd_gone certificates_soft_delete]).
  - intros s1 s2 s3. unfold sd_frame; cbn. intuition congruence.
Qed.
