(* ===== verification/Lifecycle.v ===== *)
(** * The three stores implement the lifecycle

    The specifications of the operations that create, read and update versions
    of a name, completing those of [SoftDelete], and the theorems that each
    store implements them. *)

From S2P Require Import Prelude GoStrings GoBase64 GoCrypto GoX509 Toy ToyX509 Model KeyCrypto CertCrypto StoreCore SecretStore SecretBackup KeyStore CertStore StoreInv StoreSafety SoftDelete.

Arguments version_id : simpl never.

(** The versions a request can see: the live ones. *)
Definition live_versions {V} (c : cell V) : option (list V) :=
  match c with Live vs | Clash vs _ _ => Some vs | _ => None end.

Definition set_live {V} (c : cell V) (vs : list V) : cell V :=
  match c with Absent | Live _ => Live vs | Gone ws t => Clash vs ws t | Clash _ ws t => Clash vs ws t end.

(** The version a request names: the last one, or the first with the id. *)
Definition pick_version {V} (id : V → string) (vs : list V) (version : string) : option (nat * V) :=
  if decide (version = ""%string) then last_ptr vs else list_find (λ v, id v = version) vs.

Section spec.
Context {V R : Type} (id : V → string) (show : V → R) (missing : string → error).

Definition spec_get (name version : string) (c : cell V) : outcome error R * cell V :=
  match live_versions c with
  | None => (Err (missing name), c)
  | Some vs =>
      match pick_version id vs version with
      | None => (Err (missing name), c)
      | Some (_, v) => (Ok (show v), c)
      end
  end.

(** [f] is the change of the version that was found. *)
Definition spec_update (f : V → V) (name version : string) (c : cell V) : outcome error R * cell V :=
  match live_versions c with
  | None => (Err (missing name), c)
  | Some vs =>
      match pick_version id vs version with
      | None => (Err (missing name), c)
      | Some (i, v) => (Ok (show (f v)), set_live c (<[i := f v]> vs))
      end
  end.

(** [made] is the new version, or why it could not be made. *)
Definition spec_add (deleted : error) (made : outcome error V) (c : cell V) : outcome error R * cell V :=
  match c with
  | Gone _ _ | Clash _ _ _ => (Err deleted, c)
  | _ => match made with
         | Ok v => (Ok (show v), Live (default [] (live_versions c) ++ [v]))
         | Err err => (Err err, c)
         | Panic p => (Panic p, c)
         end
  end.
End spec.

Definition secret_id (v : secretVersion) : string := sr_Version (sv_record v).
Definition key_id (v : keyVersion) : string := kr_Version (kv_record v).
Definition certificate_id (v : certificateVersion) : string := cr_Version (cv_record v).

(** The version [SetSecret] makes of a request. *)
Definition made_secret (e : Env) (name : string) (req : SecretSetRequest) : outcome error secretVersion :=
  if rand_ok e 0 then
    Ok (mkSecretVersion (mkSecretRecord name (version_id e) (ssr_Value req) (ssr_ContentType req)
      (buildAttributes (ssr_Attributes req) (nowUnix e) (nowUnix e)) (ssr_Tags req)))
  else Panic ("failed to generate version id: " ++ rand_err e).

Definition updated_secret (e : Env) (req : SecretUpdateRequest) (v : secretVersion) : secretVersion :=
  mkSecretVersion (update_secret_record e req (sv_record v)).
Definition updated_key (e : Env) (req : UpdateKeyRequest) (v : keyVersion) : keyVersion :=
  mkKeyVersion (update_key_record e req (kv_record v)) (kv_material v).
Definition updated_certificate (e : Env) (req : UpdateCertificateRequest) (v : certificateVersion)
    : certificateVersion :=
  mkCertificateVersion (update_certificate_record e req (cv_record v)) (cv_pem v).

Definition deleted_conflict (what name : string) : error :=
  newError StatusConflict "InvalidOperation"
    (what ++ name ++ " is currently deleted and cannot be reused until recovered or purged.")%string.

#[local] Hint Unfold SetSecret GetSecret UpdateSecret append_secret findSecretVersion latestSecret
  GetKey UpdateKey append_key findKeyVersion latestKey key_deleted_conflict
  GetCertificate UpdateCertificate findCertificateVersion latestCertificate
  secret_not_found key_not_found certificate_not_found
  spec_get spec_update spec_add pick_version live_versions set_live view cell_of secret_id key_id certificate_id
  : sd.

(** A guard whose two sides are visible in the goal. *)
Ltac guards := repeat match goal with |- context [decide ?P] => destruct (decide P); cbn; try done end.

Lemma newVersion_spec e :
  newVersion e = if rand_ok e 0 then Ok (version_id e)
    else Panic ("failed to generate version id: " ++ rand_err e).
Proof. destruct (rand_ok e 0) eqn:Hr; [by apply newVersion_Ok|by apply newVersion_Panic]. Qed.

Lemma SetSecret_implements e name req :
  name ≠ ""%string → ssr_Value req ≠ ""%string →
  implements (SetSecret e name req) name
    (spec_add sv_record (deleted_conflict "Secret " name) (made_secret e name req)).
Proof.
  intros Hn Hv s. unfold SetSecret, made_secret.
  rewrite !(decide_False (P:=_ = ""%string)) by done. autounfold with sd. monad_unfold.
  rewrite newVersion_spec. cbn [sd_live sd_gone secrets_soft_delete].
  look secrets deletedSecrets s name; destruct (rand_ok e 0); cbn;
    rewrite ?Hl, ?Hg, ?cloneSecretRecord_id, ?cloneTags_id; cbn; try done.
  all: rewrite ?lookup_insert_eq, ?Hg; cbn; split; [done|]; split; [|done].
  all: intros n' Hn'; by rewrite lookup_insert_ne.
Qed.

(** Reads and updates: the found version is shown, or changed in place. *)
Ltac found_tac live gone inst clone :=
  match goal with |- implements _ ?name _ =>
    let s := fresh "s" in
    intros s; autounfold with sd; monad_unfold; cbn [sd_live sd_gone inst];
    look live gone s name; try done;
    repeat match goal with |- context [if decide ?P then _ else _] => destruct (decide P) end;
    repeat match goal with
    | |- context [last_ptr ?l] => destruct (last_ptr l) as [[? ?]|] eqn:?
    | |- context [list_find ?P ?l] => destruct (list_find P l) as [[? ?]|] eqn:?
    end; cbn; rewrite ?lookup_insert_eq; cbn;
    repeat match goal with H : _ !! _ = _ |- _ => rewrite H; cbn end; rewrite ?clone; try done;
    (split; [done|split; [|done]]); intros ?n ?Hn; by rewrite lookup_insert_ne
  end.

Lemma GetSecret_implements name version :
  implements (GetSecret name version) name (spec_get secret_id sv_record (@sd_missing _ _ _ secrets_soft_delete) name version).
Proof. found_tac secrets deletedSecrets secrets_soft_delete cloneSecretRecord_id. Qed.
Lemma UpdateSecret_implements e name version req :
  implements (UpdateSecret e name version req) name
    (spec_update secret_id sv_record (@sd_missing _ _ _ secrets_soft_delete) (updated_secret e req) name version).
Proof. found_tac secrets deletedSecrets secrets_soft_delete cloneSecretRecord_id. Qed.

Lemma GetKey_implements name version :
  implements (GetKey name version) name (spec_get key_id kv_record (@sd_missing _ _ _ keys_soft_delete) name version).
Proof. found_tac keys deletedKeys keys_soft_delete cloneKeyRecord_id. Qed.
Lemma UpdateKey_implements e name version req :
  implements (UpdateKey e name version req) name
    (spec_update key_id kv_record (@sd_missing _ _ _ keys_soft_delete) (updated_key e req) name version).
Proof. found_tac keys deletedKeys keys_soft_delete cloneKeyRecord_id. Qed.

Lemma GetCertificate_implements name version :
  implements (GetCertificate name version) name
    (spec_get certificate_id (λ v, cloneCertificateRecord (cv_record v)) (@sd_missing _ _ _ certificates_soft_delete) name version).
Proof. found_tac certificates deletedCertificates certificates_soft_delete cloneSecretRecord_id. Qed.
Lemma UpdateCertificate_implements e name version req :
  implements (UpdateCertificate e name version req) name
    (spec_update certificate_id (λ v, cloneCertificateRecord (cv_record v)) (@sd_missing _ _ _ certificates_soft_delete)
      (updated_certificate e req) name version).
Proof. found_tac certificates deletedCertificates certificates_soft_delete cloneSecretRecord_id. Qed.

(** ** Creating and importing keys *)

Section make_keys.
Context `{C : BlockCipher} `{L : PublicKeyLib}.

(** The version made of generated or imported material. *)
Definition made_key (e : Env) (name : string) (attrs : option Attributes) (t : tags)
    (m : KeyMaterial) (jwk : JSONWebKey) : keyVersion :=
  mkKeyVersion (mkKeyRecord name (version_id e) jwk
    (buildAttributes attrs (nowUnix e) (nowUnix e)) t) m.

Definition no_entropy {A} (e : Env) : outcome error A :=
  Panic ("failed to generate version id: " ++ rand_err e).

Definition created_key (e : Env) (name : string) (req : CreateKeyRequest) : outcome error keyVersion :=
  if rand_ok e 0 then
    o_map (λ mj : KeyMaterial * JSONWebKey, made_key e name (ckr_Attributes req) (ckr_Tags req) mj.1 mj.2)
      (o_maperr bad_parameter (GenerateKey e 1 (ckr_Kty req) (ckr_KeySize req) (ckr_Crv req) ""
         (defaultKeyOps (ckr_Kty req) (ckr_KeyOps req))))
  else no_entropy e.

Definition imported_key (e : Env) (name : string) (req : ImportKeyRequest) : outcome error keyVersion :=
  match KeyCrypto.ImportKey (ikr_Key req) "" with
  | Ok (m, jwk) =>
      if rand_ok e 0 then
        Ok (made_key e name (ikr_Attributes req) (ikr_Tags req) m
          (with_KeyOps (defaultKeyOps (jwk_Kty (ikr_Key req)) (jwk_KeyOps (ikr_Key req))) jwk))
      else no_entropy e
  | Err err => Err (bad_parameter err)
  | Panic p => Panic p
  end.

Lemma CreateKey_implements e name req :
  name ≠ ""%string → ckr_Kty req ≠ ""%string →
  implements (CreateKey e name req) name
    (spec_add kv_record (deleted_conflict "Key " name) (created_key e name req)).
Proof.
  intros Hn Hv s. unfold CreateKey, created_key, no_entropy.
  rewrite !(decide_False (P:=_ = ""%string)) by done. autounfold with sd. monad_unfold.
  rewrite newVersion_spec. cbn [sd_live sd_gone keys_soft_delete].
  destruct (GenerateKey _ _ _ _ _ _ _) as [[m jwk]| |];
  look keys deletedKeys s name; destruct (rand_ok e 0); cbn;
    rewrite ?Hl, ?Hg, ?cloneKeyRecord_id, ?cloneTags_id; cbn; try done.
  all: rewrite ?lookup_insert_eq, ?Hg; cbn; split; [done|]; split; [|done].
  all: intros n' Hn'; by rewrite lookup_insert_ne.
Qed.

Lemma ImportKey_implements e name req :
  name ≠ ""%string → jwk_Kty (ikr_Key req) ≠ ""%string →
  implements (ImportKey e name req) name
    (spec_add kv_record (deleted_conflict "Key " name) (imported_key e name req)).
Proof.
  intros Hn Hv s. unfold ImportKey, imported_key, no_entropy.
  rewrite !(decide_False (P:=_ = ""%string)) by done. autounfold with sd. monad_unfold.
  rewrite newVersion_spec. cbn [sd_live sd_gone keys_soft_delete].
  destruct (KeyCrypto.ImportKey _ _) as [[m jwk]| |];
  look keys deletedKeys s name; destruct (rand_ok e 0); cbn;
    rewrite ?Hl, ?Hg, ?cloneKeyRecord_id, ?cloneTags_id; cbn; try done.
  all: rewrite ?lookup_insert_eq, ?Hg; cbn; split; [done|]; split; [|done].
  all: intros n' Hn'; by rewrite lookup_insert_ne.
Qed.
End make_keys.

(** ** The lifecycle of each kind, as one specification *)

(** A request that is refused before the store is looked at. *)
Definition spec_require {V A} (bad : bool) (err : error) (f : cell V → outcome error A * cell V)
    (c : cell V) : outcome error A * cell V :=
  if bad then (Err err, c) else f c.

Lemma implements_require `{K : SoftDelete V R D} {A} (m : SM A) (P : Prop) `{!Decision P} err name f :
  (∀ s, sd_frame s s) → (¬ P → implements m name f) → (P → m = m_fail err) →
  implements m name (spec_require (bool_decide P) err f).
Proof.
  intros Hrefl Hf Hm. unfold spec_require. case_bool_decide as HP; [|auto].
  rewrite (Hm HP). intros s. done.
Qed.

Definition spec_set_secret (e : Env) (name : string) (req : SecretSetRequest)
    : cell secretVersion → outcome error SecretRecord * cell secretVersion :=
  spec_require (bool_decide (name = ""%string)) (bad_parameter "Secret name is required.")
  (spec_require (bool_decide (ssr_Value req = ""%string)) (bad_parameter "Secret value is required.")
  (spec_add sv_record (deleted_conflict "Secret " name) (made_secret e name req))).

Section refinement.
Context `{C : BlockCipher} `{L : PublicKeyLib}.

Definition spec_create_key (e : Env) (name : string) (req : CreateKeyRequest)
    : cell keyVersion → outcome error KeyRecord * cell keyVersion :=
  spec_require (bool_decide (name = ""%string)) (bad_parameter "Key name is required.")
  (spec_require (bool_decide (ckr_Kty req = ""%string)) (bad_parameter "Key type is required.")
  (spec_add kv_record (deleted_conflict "Key " name) (created_key e name req))).

Definition spec_import_key (e : Env) (name : string) (req : ImportKeyRequest)
    : cell keyVersion → outcome error KeyRecord * cell keyVersion :=
  spec_require (bool_decide (name = ""%string)) (bad_parameter "Key name is required.")
  (spec_require (bool_decide (jwk_Kty (ikr_Key req) = ""%string)) (bad_parameter "Key type is required.")
  (spec_add kv_record (deleted_conflict "Key " name) (imported_key e name req))).

Lemma SetSecret_refines e name req : implements (SetSecret e name req) name (spec_set_secret e name req).
Proof.
  apply implements_require; [done| |].
  - intros Hn. apply implements_require; [done|by apply SetSecret_implements|].
    intros Hv. unfold SetSecret. by rewrite decide_False, decide_True by done.
  - intros Hn. unfold SetSecret. by rewrite decide_True by done.
Qed.

Lemma CreateKey_refines e name req : implements (CreateKey e name req) name (spec_create_key e name req).
Proof.
  apply implements_require; [done| |].
  - intros Hn. apply implements_require; [done|by apply CreateKey_implements|].
    intros Hv. unfold CreateKey. by rewrite decide_False, decide_True by done.
  - intros Hn. unfold CreateKey. by rewrite decide_True by done.
Qed.

Lemma ImportKey_refines e name req : implements (ImportKey e name req) name (spec_import_key e name req).
Proof.
  apply implements_require; [done| |].
  - intros Hn. apply implements_require; [done|by apply ImportKey_implements|].
    intros Hv. unfold ImportKey. by rewrite decide_False, decide_True by done.
  - intros Hn. unfold ImportKey. by rewrite decide_True by done.
Qed.

(** C1: the secret operations implement the abstract lifecycle of a name:
    [SetSecret] appends a version to a name that is absent or live and is
    refused while the name is deleted; [GetSecret] and [UpdateSecret] find
    the latest version or the one asked for; [DeleteSecret] buries all the
    versions under a tomb, [RecoverDeletedSecret] brings back exactly those,
    [PurgeDeletedSecret] forgets them.  Each returns what the specification
    says, errors included, and touches no other name and no key or
    certificate. *)
Theorem secrets_refine_lifecycle e name version sreq ureq :
  implements (SetSecret e name sreq) name (spec_set_secret e name sreq) ∧
  implements (GetSecret name version) name
    (spec_get secret_id sv_record (@sd_missing _ _ _ secrets_soft_delete) name version) ∧
  implements (UpdateSecret e name version ureq) name
    (spec_update secret_id sv_record (@sd_missing _ _ _ secrets_soft_delete) (updated_secret e ureq)
      name version) ∧
  implements (DeleteSecret e name) name (spec_delete e name) ∧
  implements (GetDeletedSecret name) name (spec_get_deleted name) ∧
  implements (K:=secrets_soft_delete) (PurgeDeletedSecret name) name (spec_purge name) ∧
  implements (RecoverDeletedSecret name) name (spec_recover name).
Proof.
  split_and!.
  - apply SetSecret_refines.
  - apply GetSecret_implements.
  - apply UpdateSecret_implements.
  - apply (delete_implements (K:=secrets_soft_delete)).
  - apply (get_deleted_implements (K:=secrets_soft_delete)).
  - apply (purge_implements (K:=secrets_soft_delete)).
  - apply (recover_implements (K:=secrets_soft_delete)).
Qed.

(** C2: the key operations implement the same lifecycle; a new version is
    what the cryptographic library generates or imports, with the default
    operations of its type, and a failure of the library is reported as a
    bad parameter and leaves the name as it was. *)
Theorem keys_refine_lifecycle e name version creq ireq ureq :
  implements (CreateKey e name creq) name (spec_create_key e name creq) ∧
  implements (ImportKey e name ireq) name (spec_import_key e name ireq) ∧
  implements (GetKey name version) name
    (spec_get key_id kv_record (@sd_missing _ _ _ keys_soft_delete) name version) ∧
  implements (UpdateKey e name version ureq) name
    (spec_update key_id kv_record (@sd_missing _ _ _ keys_soft_delete) (updated_key e ureq)
      name version) ∧
  implements (DeleteKey e name) name (spec_delete e name) ∧
  implements (GetDeletedKey name) name (spec_get_deleted name) ∧
  implements (K:=keys_soft_delete) (PurgeDeletedKey name) name (spec_purge name) ∧
  implements (RecoverDeletedKey name) name (spec_recover name).
Proof.
  split_and!.
  - apply CreateKey_refines.
  - apply ImportKey_refines.
  - apply GetKey_implements.
  - apply UpdateKey_implements.
  - apply (delete_implements (K:=keys_soft_delete)).
  - apply (get_deleted_implements (K:=keys_soft_delete)).
  - apply (purge_implements (K:=keys_soft_delete)).
  - apply (recover_implements (K:=keys_soft_delete)).
Qed.
End refinement.

(** C3: the certificate operations that work on one name implement the
    lifecycle: reading and updating a version, deleting, purging and
    recovering; they touch no other name, and neither the key nor the secret
    of the certificate. *)
Theorem certificates_refine_lifecycle e name version ureq :
  implements (GetCertificate name version) name
    (spec_get certificate_id (λ v, cloneCertificateRecord (cv_record v))
      (@sd_missing _ _ _ certificates_soft_delete) name version) ∧
  implements (UpdateCertificate e name version ureq) name
    (spec_update certificate_id (λ v, cloneCertificateRecord (cv_record v))
      (@sd_missing _ _ _ certificates_soft_delete) (updated_certificate e ureq) name version) ∧
  implements (DeleteCertificate e name) name (spec_delete e name) ∧
  implements (GetDeletedCertificate name) name (spec_get_deleted name) ∧
  implements (K:=certificates_soft_delete) (PurgeDeletedCertificate name) name (spec_purge name) ∧
  implements (RecoverDeletedCertificate name) name (spec_recover name).
Proof.
  split_and!.
  - apply GetCertificate_implements.
  - apply UpdateCertificate_implements.
  - apply (delete_implements (K:=certificates_soft_delete)).
  - apply (get_deleted_implements (K:=certificates_soft_delete)).
  - apply (purge_implements (K:=certificates_soft_delete)).
  - apply (recover_implements (K:=certificates_soft_delete)).
Qed.

(** ** Deleting and recovering *)

Lemma Store_eta s : mkStore (secrets s) (deletedSecrets s) (keys s) (deletedKeys s)
  (certificates s) (deletedCertificates s) = s.
Proof. by destruct s. Qed.

Lemma DeleteSecret_live e name s en v :
  rand_ok e 0 = true → secrets s !! name = Some en → deletedSecrets s !! name = None → last (se_versions en) = Some v →
  let t := new_tomb (K:=secrets_soft_delete) e name in
  DeleteSecret e name s =
    (Ok (mkDeletedSecretRecord (cloneSecretRecord (sv_record v)) (tomb_id t) (tomb_date t) (tomb_purge t)),
     set_deletedSecrets <[name := mkDeletedSecretEntry en (tomb_id t) (tomb_date t) (tomb_purge t)]>
       (set_secrets (delete name) s)).
Proof.
  intros Hr Hen Hd Hl t. unfold DeleteSecret. monad_unfold. rewrite Hen, newRecoveryID_cases, Hr.
  rewrite decide_False by (rewrite Hd; by intros []). cbn.
  unfold latestSecret, last_ptr. rewrite Hl. done.
Qed.

Lemma RecoverDeletedSecret_gone name s d v :
  secrets s !! name = None → deletedSecrets s !! name = Some d → last (se_versions (dse_entry d)) = Some v →
  RecoverDeletedSecret name s =
    (Ok (cloneSecretRecord (sv_record v)),
     set_deletedSecrets (delete name) (set_secrets <[name := dse_entry d]> s)).
Proof.
  intros Hen Hd Hl. unfold RecoverDeletedSecret. monad_unfold. rewrite Hd.
  rewrite decide_False by (rewrite Hen; by intros []). cbn.
  unfold latestSecret, last_ptr. rewrite Hl. done.
Qed.

Lemma DeleteKey_live e name s en v :
  rand_ok e 0 = true → keys s !! name = Some en → deletedKeys s !! name = None → last (ke_versions en) = Some v →
  let t := new_tomb (K:=keys_soft_delete) e name in
  DeleteKey e name s =
    (Ok (mkDeletedKeyRecord (cloneKeyRecord (kv_record v)) (tomb_id t) (tomb_date t) (tomb_purge t)),
     set_deletedKeys <[name := mkDeletedKeyEntry en (tomb_id t) (tomb_date t) (tomb_purge t)]>
       (set_keys (delete name) s)).
Proof.
  intros Hr Hen Hd Hl t. unfold DeleteKey. monad_unfold. rewrite Hen, newRecoveryID_cases, Hr.
  rewrite decide_False by (rewrite Hd; by intros []). cbn.
  unfold latestKey, last_ptr. rewrite Hl. done.
Qed.

Lemma RecoverDeletedKey_gone name s d v :
  keys s !! name = None → deletedKeys s !! name = Some d → last (ke_versions (dke_entry d)) = Some v →
  RecoverDeletedKey name s =
    (Ok (cloneKeyRecord (kv_record v)),
     set_deletedKeys (delete name) (set_keys <[name := dke_entry d]> s)).
Proof.
  intros Hen Hd Hl. unfold RecoverDeletedKey. monad_unfold. rewrite Hd.
  rewrite decide_False by (rewrite Hen; by intros []). cbn.
  unfold latestKey, last_ptr. rewrite Hl. done.
Qed.

Lemma DeleteCertificate_live e name s en v :
  rand_ok e 0 = true → certificates s !! name = Some en → deletedCertificates s !! name = None → last (ce_versions en) = Some v →
  let t := new_tomb (K:=certificates_soft_delete) e name in
  DeleteCertificate e name s =
    (Ok (mkDeletedCertificateRecord (cloneCertificateRecord (cv_record v)) (tomb_id t) (tomb_date t) (tomb_purge t)),
     set_deletedCertificates <[name := mkDeletedCertificateEntry en (tomb_id t) (tomb_date t) (tomb_purge t)]>
       (set_certificates (delete name) s)).
Proof.
  intros Hr Hen Hd Hl t. unfold DeleteCertificate. monad_unfold. rewrite Hen, newRecoveryID_cases, Hr.
  rewrite decide_False by (rewrite Hd; by intros []). cbn.
  unfold latestCertificate, last_ptr. rewrite Hl. done.
Qed.

Lemma RecoverDeletedCertificate_gone name s d v :
  certificates s !! name = None → deletedCertificates s !! name = Some d → last (ce_versions (dce_entry d)) = Some v →
  RecoverDeletedCertificate name s =
    (Ok (cloneCertificateRecord (cv_record v)),
     set_deletedCertificates (delete name) (set_certificates <[name := dce_entry d]> s)).
Proof.
  intros Hen Hd Hl. unfold RecoverDeletedCertificate. monad_unfold. rewrite Hd.
  rewrite decide_False by (rewrite Hen; by intros []). cbn.
  unfold latestCertificate, last_ptr. rewrite Hl. done.
Qed.

(** Deleting and then recovering an object is the identity on the store,
    for secrets, keys and certificates: every version, value, attribute, tag
    and key material is back, nothing else has moved, and the recovered object
    is reported as its latest version. *)
Theorem recover_undoes_delete e s :
  store_ok s → rand_ok e 0 = true →
  (∀ name en, secrets s !! name = Some en → deletedSecrets s !! name = None →
    ∃ v, last (se_versions en) = Some v ∧
      RecoverDeletedSecret name (DeleteSecret e name s).2 = (Ok (sv_record v), s)) ∧
  (∀ name en, keys s !! name = Some en → deletedKeys s !! name = None →
    ∃ v, last (ke_versions en) = Some v ∧
      RecoverDeletedKey name (DeleteKey e name s).2 = (Ok (kv_record v), s)) ∧
  (∀ name en, certificates s !! name = Some en → deletedCertificates s !! name = None →
    ∃ v, last (ce_versions en) = Some v ∧
      RecoverDeletedCertificate name (DeleteCertificate e name s).2 =
        (Ok (cloneCertificateRecord (cv_record v)), s)).
Proof.
  intros Hok Hr. split_and!; intros name en Hen Hd.
  - destruct (versions_ok_last _ _ _ (ok_secrets s Hok _ _ Hen)) as (v & _ & Hl & _).
    exists v. split; [done|]. rewrite (DeleteSecret_live _ _ _ _ _ Hr Hen Hd Hl). cbn [snd].
    erewrite RecoverDeletedSecret_gone; [|apply lookup_delete_eq|apply lookup_insert_eq|exact Hl].
    rewrite cloneSecretRecord_id. f_equal. unfold set_secrets, set_deletedSecrets. cbn.
    rewrite insert_delete_eq, insert_id, delete_insert_id by done. apply Store_eta.
  - destruct (versions_ok_last _ _ _ (ok_keys s Hok _ _ Hen)) as (v & _ & Hl & _).
    exists v. split; [done|]. rewrite (DeleteKey_live _ _ _ _ _ Hr Hen Hd Hl). cbn [snd].
    erewrite RecoverDeletedKey_gone; [|apply lookup_delete_eq|apply lookup_insert_eq|exact Hl].
    rewrite cloneKeyRecord_id. f_equal. unfold set_keys, set_deletedKeys. cbn.
    rewrite insert_delete_eq, insert_id, delete_insert_id by done. apply Store_eta.
  - destruct (versions_ok_last _ _ _ (ok_certificates s Hok _ _ Hen)) as (v & _ & Hl & _).
    exists v. split; [done|]. rewrite (DeleteCertificate_live _ _ _ _ _ Hr Hen Hd Hl). cbn [snd].
    erewrite RecoverDeletedCertificate_gone; [|apply lookup_delete_eq|apply lookup_insert_eq|exact Hl].
     f_equal. unfold set_certificates, set_deletedCertificates. cbn.
    rewrite insert_delete_eq, insert_id, delete_insert_id by done. apply Store_eta.
Qed.

(** ** Setting and getting *)

Lemma SetSecret_Ok e name req s r s' :
  SetSecret e name req s = (Ok r, s') →
  rand_ok e 0 = true ∧ name ≠ ""%string ∧ ssr_Value req ≠ ""%string ∧ deletedSecrets s !! name = None ∧
  r = mkSecretRecord name (version_id e) (ssr_Value req) (ssr_ContentType req)
        (buildAttributes (ssr_Attributes req) (nowUnix e) (nowUnix e)) (ssr_Tags req) ∧
  s' = set_secrets <[name := mkSecretEntry (se_versions (default (mkSecretEntry []) (secrets s !! name))
         ++ [mkSecretVersion r])]> s.
Proof.
  unfold SetSecret, append_secret. monad_unfold. rewrite newVersion_spec.
  repeat (case_decide; [done|]). destruct (rand_ok e 0) eqn:Hr; [|done]. cbn.
  rewrite cloneSecretRecord_id, cloneTags_id. intros [= <- <-].
  assert (deletedSecrets s !! name = None) by (by apply eq_None_not_Some). done.
Qed.

Lemma list_find_app_l {A} (P : A → Prop) `{∀ x, Decision (P x)} l k i x :
  list_find P l = Some (i, x) → list_find P (l ++ k) = Some (i, x).
Proof.
  intros (Hi & HP & Hlt)%list_find_Some. apply list_find_Some. split_and!.
  - by apply lookup_app_l_Some.
  - done.
  - intros j y Hj Hji. apply (Hlt j); [|done]. rewrite lookup_app_l in Hj; [done|].
    apply lookup_lt_Some in Hi. lia.
Qed.

(** A secret that was set is what a read then returns, under the name
    alone and under the version that [SetSecret] reported; the record has the
    value, content type, tags and attributes of the request, and every
    earlier version of the name can still be read as it was. *)
Theorem GetSecret_after_SetSecret e name req s r s' :
  SetSecret e name req s = (Ok r, s') →
  sr_Value r = ssr_Value req ∧ sr_ContentType r = ssr_ContentType req ∧ sr_Tags r = ssr_Tags req ∧
  GetSecret name "" s' = (Ok r, s') ∧
  ((∀ en v, secrets s !! name = Some en → v ∈ se_versions en → secret_id v ≠ sr_Version r) →
    GetSecret name (sr_Version r) s' = (Ok r, s')) ∧
  (∀ version old, version ≠ ""%string → GetSecret name version s = (Ok old, s) →
    GetSecret name version s' = (Ok old, s')).
Proof.
  intros (Hr & Hn & Hv & Hd & Hrec & ->)%SetSecret_Ok.
  set (vs := se_versions (default (mkSecretEntry []) (secrets s !! name))).
  set (s' := set_secrets _ s).
  assert (∀ version, GetSecret name version s' =
    match findSecretVersion (mkSecretEntry (vs ++ [mkSecretVersion r])) version with
    | None => secret_not_found name s' | Some (_, v) => (Ok (sv_record v), s') end) as Hget.
  { intros version. unfold GetSecret. monad_unfold. cbn. rewrite lookup_insert_eq.
    destruct (findSecretVersion _ version) as [[i v]|]; [|done]. by rewrite cloneSecretRecord_id. }
  rewrite Hrec at 1 2 3. do 3 (split; [done|]). split_and!.
  - rewrite Hget. unfold findSecretVersion. cbn. by rewrite last_ptr_app.
  - intros Hfresh. rewrite Hget. unfold findSecretVersion.
    assert (sr_Version r = version_id e) as Hver by (by rewrite Hrec).
    rewrite decide_False by (rewrite Hver; apply version_id_nonempty). cbn.
    assert (list_find (λ current, sr_Version (sv_record current) = sr_Version r) vs = None) as Hnone.
    { apply list_find_None, Forall_forall. intros v Hin. unfold vs in Hin.
      destruct (secrets s !! name) as [en|] eqn:He; [|by apply elem_of_nil in Hin].
      by apply (Hfresh en v). }
    rewrite list_find_app_r by done. cbn. by rewrite decide_True.
  - intros version old Hne. rewrite Hget. unfold GetSecret, secret_not_found, findSecretVersion. monad_unfold.
    unfold vs. destruct (secrets s !! name) as [en|] eqn:He; [|done]. cbn.
    repeat (case_decide; [done|]). destruct (list_find _ (se_versions en)) as [[i v]|] eqn:Hf; [|done].
    rewrite cloneSecretRecord_id. intros [= <-]. by rewrite (list_find_app_l _ _ _ _ _ Hf).
Qed.

(** ** A name is live or deleted, not both -- unless a certificate is created *)

Definition not_clash {V} (c : cell V) : Prop := match c with Clash _ _ _ => False | _ => True end.

Definition no_clash `{K : SoftDelete V R D} (s : Store) : Prop := ∀ n, not_clash (view s n).

Lemma implements_no_clash `{K : SoftDelete V R D} {A} (m : SM A) name f s :
  implements m name f → (∀ c, not_clash c → not_clash (f c).2) → no_clash s → no_clash (m s).2.
Proof.
  intros Hm Hf Hs n. destruct (Hm s) as (Hv & Hoth & _).
  destruct (decide (n = name)) as [->|Hne]; [|rewrite Hoth by done; apply Hs].
  assert (view (m s).2 name = (f (view s name)).2) as -> by (by rewrite <-Hv). apply Hf, Hs.
Qed.

Section spec_no_clash.
Context `{K : SoftDelete V R D}.
Implicit Types c : cell V.

Lemma spec_delete_no_clash e n c : not_clash c → not_clash (spec_delete e n c).2.
Proof. destruct c; simpl; [done| |done|done]. by destruct (rand_ok e 0). Qed.
Lemma spec_get_deleted_no_clash n c : not_clash c → not_clash (spec_get_deleted n c).2.
Proof. by destruct c. Qed.
Lemma spec_purge_no_clash n c : not_clash c → not_clash (spec_purge n c).2.
Proof. by destruct c. Qed.
Lemma spec_recover_no_clash n c : not_clash c → not_clash (spec_recover n c).2.
Proof. by destruct c. Qed.
Lemma spec_update_no_clash (id : V → string) (show : V → R) missing f n version c :
  not_clash c → not_clash (spec_update id show missing f n version c).2.
Proof. unfold spec_update. destruct c; simpl; try done. by destruct (pick_version _ _ _) as [[]|]. Qed.
Lemma spec_add_no_clash (show : V → R) deleted made c :
  not_clash c → not_clash (spec_add show deleted made c).2.
Proof. by destruct c; destruct made. Qed.
Lemma spec_require_no_clash {A} bad err (f : cell V → outcome error A * cell V) c :
  (∀ c, not_clash c → not_clash (f c).2) → not_clash c → not_clash (spec_require bad err f c).2.
Proof. intros Hf Hc. unfold spec_require. destruct bad; [done|]. by apply Hf. Qed.
End spec_no_clash.

(** The two calls that write the key and the secret of their name without
    looking at the deleted ones. *)
Definition makes_certificate (c : call) : bool :=
  match c with CCreateCertificate _ _ | CImportCertificate _ _ => true | _ => false end.

Definition all_disjoint (s : Store) : Prop :=
  no_clash (K:=secrets_soft_delete) s ∧ no_clash (K:=keys_soft_delete) s ∧
  no_clash (K:=certificates_soft_delete) s.

Lemma no_clash_frame_secrets s s' :
  secrets s = secrets s' → deletedSecrets s = deletedSecrets s' →
  no_clash (K:=secrets_soft_delete) s → no_clash (K:=secrets_soft_delete) s'.
Proof. unfold no_clash, view; cbn. by intros -> ->. Qed.
Lemma no_clash_frame_keys s s' :
  keys s = keys s' → deletedKeys s = deletedKeys s' →
  no_clash (K:=keys_soft_delete) s → no_clash (K:=keys_soft_delete) s'.
Proof. unfold no_clash, view; cbn. by intros -> ->. Qed.
Lemma no_clash_frame_certificates s s' :
  certificates s = certificates s' → deletedCertificates s = deletedCertificates s' →
  no_clash (K:=certificates_soft_delete) s → no_clash (K:=certificates_soft_delete) s'.
Proof. unfold no_clash, view; cbn. by intros -> ->. Qed.

Lemma secret_op_disjoint {A} (m : SM A) name f s :
  implements (K:=secrets_soft_delete) m name f → (∀ c, not_clash c → not_clash (f c).2) →
  all_disjoint s → all_disjoint (m s).2.
Proof.
  intros Hm Hf (Hs & Hk & Hc). destruct (Hm s) as (_ & _ & F1 & F2 & F3 & F4).
  split; [by eapply implements_no_clash|]. split.
  - by eapply no_clash_frame_keys.
  - by eapply no_clash_frame_certificates.
Qed.
Lemma key_op_disjoint {A} (m : SM A) name f s :
  implements (K:=keys_soft_delete) m name f → (∀ c, not_clash c → not_clash (f c).2) →
  all_disjoint s → all_disjoint (m s).2.
Proof.
  intros Hm Hf (Hs & Hk & Hc). destruct (Hm s) as (_ & _ & F1 & F2 & F3 & F4).
  split; [by eapply no_clash_frame_secrets|]. split; [by eapply implements_no_clash|].
  by eapply no_clash_frame_certificates.
Qed.
Lemma certificate_op_disjoint {A} (m : SM A) name f s :
  implements (K:=certificates_soft_delete) m name f → (∀ c, not_clash c → not_clash (f c).2) →
  all_disjoint s → all_disjoint (m s).2.
Proof.
  intros Hm Hf (Hs & Hk & Hc). destruct (Hm s) as (_ & _ & F1 & F2 & F3 & F4).
  split; [by eapply no_clash_frame_secrets|]. split; [by eapply no_clash_frame_keys|].
  by eapply implements_no_clash.
Qed.

Lemma UpdateCertificatePolicy_disjoint e name policy s :
  all_disjoint s → all_disjoint (UpdateCertificatePolicy e name policy s).2.
Proof.
  intros Hs. unfold UpdateCertificatePolicy, certificate_not_found, m_panic. monad_unfold.
  destruct (certificates s !! name) as [en|] eqn:He; [|done].
  destruct (latestCertificate (Some en)) as [[i v]|]; [|done]. cbn.
  destruct Hs as (Hs & Hk & Hc). split; [done|]. split; [done|]. intros n. specialize (Hc n).
  unfold view in *. cbn in *. destruct (decide (n = name)) as [->|Hne].
  - rewrite lookup_insert_eq. rewrite He in Hc. cbn in *. by destruct (deletedCertificates s !! name).
  - by rewrite lookup_insert_ne.
Qed.

Lemma RestoreSecret_disjoint token s : all_disjoint s → all_disjoint (RestoreSecret token s).2.
Proof.
  intros Hs. unfold RestoreSecret. monad_unfold. destruct (b64_DecodeString _ token); [|done..].
  destruct (unmarshal_backup _) as [[name [len backing]]|]; [|done]. cbn [bk_Versions bk_Name].
  case_decide; [done|].
  assert (all_disjoint (set_deletedSecrets (delete name)
    (set_secrets <[name := mkSecretEntry (restored_version name <$> take len backing)]> s))) as Hd.
  { destruct Hs as (Hs & Hk & Hc). split; [|done]. intros n. specialize (Hs n). unfold view in *. cbn in *.
    destruct (decide (n = name)) as [->|Hne].
    - by rewrite lookup_insert_eq, lookup_delete_eq.
    - by rewrite lookup_insert_ne, lookup_delete_ne. }
  by destruct (deref _).
Qed.

Section disjointness.
Context `{C : BlockCipher} `{L : PublicKeyLib} `{X : CertLib}.

Lemma exec_disjoint e c s : makes_certificate c = false → all_disjoint s → all_disjoint (exec e c s).2.
Proof.
  intros Hc Hs. destruct (is_read c) eqn:Hr; [by rewrite exec_read|].
  destruct c; try done; cbn [exec]; rewrite void_state.
  - eapply secret_op_disjoint; [apply SetSecret_refines| |done]. intros c Hcl.
    do 2 (apply spec_require_no_clash; [intros|done]). by apply spec_add_no_clash.
  - eapply secret_op_disjoint; [apply UpdateSecret_implements| |done]. intros. by apply spec_update_no_clash.
  - eapply secret_op_disjoint; [apply (delete_implements (K:=secrets_soft_delete))| |done].
    intros. by apply spec_delete_no_clash.
  - eapply secret_op_disjoint; [apply (purge_implements (K:=secrets_soft_delete))| |done].
    intros. by apply spec_purge_no_clash.
  - eapply secret_op_disjoint; [apply (recover_implements (K:=secrets_soft_delete))| |done].
    intros. by apply spec_recover_no_clash.
  - by apply RestoreSecret_disjoint.
  - eapply key_op_disjoint; [apply CreateKey_refines| |done]. intros c Hcl.
    do 2 (apply spec_require_no_clash; [intros|done]). by apply spec_add_no_clash.
  - eapply key_op_disjoint; [apply ImportKey_refines| |done]. intros c Hcl.
    do 2 (apply spec_require_no_clash; [intros|done]). by apply spec_add_no_clash.
  - eapply key_op_disjoint; [apply UpdateKey_implements| |done]. intros. by apply spec_update_no_clash.
  - eapply key_op_disjoint; [apply (delete_implements (K:=keys_soft_delete))| |done].
    intros. by apply spec_delete_no_clash.
  - eapply key_op_disjoint; [apply (purge_implements (K:=keys_soft_delete))| |done].
    intros. by apply spec_purge_no_clash.
  - eapply key_op_disjoint; [apply (recover_implements (K:=keys_soft_delete))| |done].
    intros. by apply spec_recover_no_clash.
  - eapply certificate_op_disjoint; [apply UpdateCertificate_implements| |done].
    intros. by apply spec_update_no_clash.
  - by apply UpdateCertificatePolicy_disjoint.
  - eapply certificate_op_disjoint; [apply (delete_implements (K:=certificates_soft_delete))| |done].
    intros. by apply spec_delete_no_clash.
  - eapply certificate_op_disjoint; [apply (purge_implements (K:=certificates_soft_delete))| |done].
    intros. by apply spec_purge_no_clash.
  - eapply certificate_op_disjoint; [apply (recover_implements (K:=certificates_soft_delete))| |done].
    intros. by apply spec_recover_no_clash.
Qed.

(** As long as no certificate is created or imported, no name is live and
    deleted at the same time, for secrets, keys and certificates alike, so
    every name has exactly one state in the lifecycle. *)
Theorem live_or_deleted_not_both calls :
  forallb (λ ec : Env * call, negb (makes_certificate ec.2)) calls = true →
  all_disjoint (run calls).
Proof.
  unfold run. induction calls as [|[e c] calls IH] using rev_ind; [done|].
  rewrite forallb_app, foldl_app. simpl. intros [Hc Hl]%andb_prop.
  apply exec_disjoint; [|by apply IH]. destruct (makes_certificate c); [done|done].
Qed.
End disjointness.

(** ** Listing *)

Section walking.
Context {R : Type}.

(** Follows the continuation tokens of a listing of the store. *)
Fixpoint walk_list (op : string → SM (list R * option string)) (s : Store) (fuel : nat) (token : string)
    : option (list (list R)) :=
  match fuel with
  | O => None
  | S fuel =>
      match (op token s).1 with
      | Ok (items, None) => Some [items]
      | Ok (items, Some next) => cons items <$> walk_list op s fuel next
      | _ => None
      end
  end.

(** A listing that shows [f] of each name on its page. *)
Lemma walk_list_pages (op : string → SM (list R * option string)) s (f : string → R) (names : list string) m
    (pages : list (list string)) fuel token :
  (∀ token, (op token s).1 = o_map (λ pn, (map f pn.1, pn.2)) (paginateNames names token m)) →
  walk names fuel token m = Some pages → walk_list op s fuel token = Some (map (map f) pages).
Proof.
  intros Hop. revert token pages. induction fuel as [|fuel IH]; intros token pages; [done|].
  cbn [walk walk_list]. rewrite Hop.
  destruct (paginateNames names token m) as [[page [next|]]| |]; [|by intros [= <-]|done..].
  cbn [o_map fst snd]. intros (ps & Hps & ->)%fmap_Some. by rewrite (IH _ _ Hps).
Qed.
End walking.

Lemma omap_all {A B} (g : A → option B) (f : A → B) (l : list A) :
  (∀ x, x ∈ l → g x = Some (f x)) → omap g l = map f l.
Proof.
  induction l as [|x l IH]; intros Hg; [done|]. cbn.
  rewrite (Hg x) by set_solver. cbn. f_equal. apply IH. set_solver.
Qed.

(** The latest record of a live secret, without its value. *)
Definition listed_secret (s : Store) (name : string) : SecretRecord :=
  match secrets s !! name with
  | Some en => match last (se_versions en) with Some v => blank_value (sv_record v) | None => zero_secret end
  | None => zero_secret
  end.

Lemma ListSecrets_page s m token :
  store_ok s →
  (ListSecrets m token s).1 =
    o_map (λ pn, (map (listed_secret s) pn.1, pn.2)) (paginateNames (sorted_keys (secrets s)) token m).
Proof.
  intros Hok. unfold ListSecrets. monad_unfold.
  destruct (paginateNames _ token m) as [[page next]| |] eqn:Hp; [|done..]. cbn. f_equal. f_equal.
  apply omap_all. intros n Hn. eapply paginateNames_elem in Hn; [|done].
  apply elem_of_sorted_keys in Hn as [en He]. unfold listed_secret. rewrite He. cbn.
  destruct (versions_ok_last _ _ _ (ok_secrets s Hok _ _ He)) as (v & Hv & Hl & _). rewrite Hv, Hl.
  by rewrite cloneSecretRecord_id.
Qed.

(** Listing the secrets page by page ends and shows every live secret
    exactly once, in the order of the names, whatever page size was asked for,
    and never shows a value. *)
Theorem ListSecrets_complete s m :
  store_ok s → Z.of_nat (size (secrets s)) ≤ max_int64 - 100 →
  ∃ pages, walk_list (ListSecrets m) s (S (size (secrets s))) "" = Some pages ∧
    concat pages = map (listed_secret s) (sorted_keys (secrets s)) ∧
    map sr_Name (concat pages) = sorted_keys (secrets s) ∧
    Forall (λ r, sr_Value r = ""%string) (concat pages).
Proof.
  intros Hok Hsize. set (names := sorted_keys (secrets s)).
  assert (length names = size (secrets s)) as Hlen by apply length_sorted_keys.
  destruct (walk_all names m) as (pages & Hw & Hc & _); [by rewrite Hlen|]. rewrite Hlen in Hw.
  exists (map (map (listed_secret s)) pages).
  assert (concat (map (map (listed_secret s)) pages) = map (listed_secret s) names) as ->.
  { by rewrite <-concat_map, Hc. }
  split; [|split; [done|split]].
  - eapply walk_list_pages; [|exact Hw]. intros token. by apply ListSecrets_page.
  - rewrite <-list_fmap_compose. rewrite <-(list_fmap_id names) at 2. apply list_fmap_ext.
    intros i n Hn. apply list_elem_of_lookup_2, elem_of_sorted_keys in Hn as [en He]. cbn. unfold listed_secret.
    rewrite He. destruct (versions_ok_last _ _ _ (ok_secrets s Hok _ _ He)) as (v & _ & Hl & Hn & _). by rewrite Hl.
  - apply Forall_fmap, Forall_forall. intros n _. cbn. unfold listed_secret.
    destruct (secrets s !! n) as [en|]; [|done]. by destruct (last (se_versions en)).
Qed.

(** ** Witnesses *)

Lemma recover_undoes_delete_witness :
  let s := run [(toy_env, CSetSecret "db" demo_secret_request)] in
  ∃ v, RecoverDeletedSecret "db" (DeleteSecret toy_env "db" s).2 = (Ok (sv_record v), s).
Proof.
  intros s.
  destruct (recover_undoes_delete toy_env s (reachable_store_ok s (reachable_run _)) eq_refl) as (Hs & _ & _).
  destruct (Hs "db" (demo_entry_of (version_id toy_env)) eq_refl eq_refl) as (v & _ & Hv).
  exists v. exact Hv.
Defined.

Definition demo_stored : SecretRecord :=
  match (SetSecret toy_env "db" demo_secret_request New).1 with Ok r => r | _ => zero_secret end.

Lemma GetSecret_after_SetSecret_witness :
  let s' := (SetSecret toy_env "db" demo_secret_request New).2 in
  SetSecret toy_env "db" demo_secret_request New = (Ok demo_stored, s') ∧
  sr_Value demo_stored = ssr_Value demo_secret_request ∧
  GetSecret "db" "" s' = (Ok demo_stored, s') ∧
  GetSecret "db" (sr_Version demo_stored) s' = (Ok demo_stored, s').
Proof.
  intros s'. assert (SetSecret toy_env "db" demo_secret_request New = (Ok demo_stored, s')) as H
    by (vm_compute; reflexivity).
  destruct (GetSecret_after_SetSecret toy_env "db" demo_secret_request New demo_stored s' H)
    as (Hv & _ & _ & Hg & Hver & _).
  split; [exact H|split; [exact Hv|split; [exact Hg|apply Hver]]].
  intros en v Hl. vm_compute in Hl. discriminate.
Defined.

Lemma live_or_deleted_not_both_witness :
  all_disjoint (run [(toy_env, CSetSecret "db" demo_secret_request); (toy_env, CDeleteSecret "db");
    (broken_env, CSetSecret "db" demo_secret_request)]).
Proof. apply live_or_deleted_not_both. reflexivity. Defined.

Lemma ListSecrets_complete_witness :
  let s := run [(toy_env, CSetSecret "db" demo_secret_request); (toy_env, CSetSecret "api" demo_secret_request)] in
  ∃ pages, walk_list (ListSecrets 1) s 3 "" = Some pages ∧
    sr_Name <$> concat pages = sorted_keys (secrets s).
Proof.
  intros s. destruct (ListSecrets_complete s 1 (reachable_store_ok s (reachable_run _)))
    as (pages & Hw & _ & Hn & _); [vm_compute; discriminate|].
  exists pages. split; [exact Hw|exact Hn].
Defined.
