(* ===== verification/Issuing.v ===== *)
(** * Certificates, the key and the secret they come with, and their issuers *)

From S2P Require Import Prelude GoStrings GoBase64 GoCrypto GoX509 Toy ToyX509 Model KeyCrypto CertCrypto StoreCore SecretStore SecretBackup KeyStore CertStore StoreInv StoreSafety SoftDelete Lifecycle.

Arguments version_id : simpl never.

Section issuing.
Context `{L : PublicKeyLib} `{X : CertLib}.

(** The PEM text that is the value of a certificate's secret. *)
Definition managed_secret (priv : rsa_PrivateKey) (der : bytes) : string :=
  of_bytes (pem_EncodeToMemory (mk_pem_Block "CERTIFICATE" der) ++
    pem_EncodeToMemory (mk_pem_Block "RSA PRIVATE KEY" (x509_MarshalPKCS1PrivateKey priv))).

Definition secret_versions (s : Store) (name : string) : list secretVersion :=
  se_versions (default (mkSecretEntry []) (secrets s !! name)).
Definition key_versions (s : Store) (name : string) : list keyVersion :=
  ke_versions (default (mkKeyEntry []) (keys s !! name)).
Definition certificate_versions (s : Store) (name : string) : list certificateVersion :=
  ce_versions (default (mkCertificateEntry []) (certificates s !! name)).

(** The issuer a policy names, as the code looks it up. *)
Definition issuer_of (s : Store) (policy : CertificatePolicy)
    : outcome message (option x509_Certificate * option rsa_PrivateKey) :=
  let issuer := default ""%string (any_string (x509_prop (Some policy) "issuer_name")) in
  if decide (issuer ≠ ""%string)
  then o_map (λ ck, (Some ck.1, Some ck.2)) (getIssuerMaterial s issuer) else Ok (None, None).

(** What a successful [CreateCertificate] has done. *)
Lemma CreateCertificate_Ok e name req s r s1 :
  CreateCertificate e name req s = (Ok r, s1) →
  let policy := defaultCertificatePolicy name (ccr_Policy req) in
  let attrs := buildAttributes (ccr_Attributes req) (nowUnix e) (nowUnix e) in
  let record priv der := mkCertificateRecord name (version_id e) der name name attrs (ccr_Tags req)
    (clonePolicy (Some policy)) in
  rand_ok e 0 = true ∧ deletedCertificates s !! name = None ∧
  ∃ certType issuer priv der,
    issuer_of s policy = Ok issuer ∧
    GenerateCert e 1 name (Some policy) (mkCertOptions certType issuer.1 issuer.2) = Ok (priv, der) ∧
    r = cloneCertificateRecord (record priv der) ∧
    s1 = set_secrets <[name := mkSecretEntry (secret_versions s name ++ [mkSecretVersion
           (mkSecretRecord name (version_id e) (managed_secret priv der) "application/x-pem-file"
             attrs (ccr_Tags req))])]>
         (set_keys <[name := mkKeyEntry (key_versions s name ++ [mkKeyVersion
           (cert_key_record name (version_id e) (rsa_Public priv) attrs (ccr_Tags req))
           (mkKeyMaterial (Some priv) None None (Some (rsa_Public priv)) None)])]>
         (set_certificates <[name := mkCertificateEntry (certificate_versions s name ++
           [mkCertificateVersion (cloneCertificateRecord (record priv der))
              (pem_EncodeToMemory (mk_pem_Block "CERTIFICATE" der))])]> s)).
Proof.
  intros H policy attrs record. revert H. unfold CreateCertificate, bad_parameter. fold policy.
  fold attrs. monad_unfold. rewrite newVersion_spec. case_decide; [done|]. case_decide as Hdel; [done|].
  destruct (rand_ok e 0); [|done]. unfold issuer_of. case_decide as Hiss.
  - destruct (getIssuerMaterial s _) as [[cert key]| |]; [|done..]. cbn [o_maperr o_map].
    destruct (GenerateCert _ _ _ _ _) as [[priv der]| |] eqn:Hg; [|done..]. cbn [o_maperr].
    unfold append_certificate, putKeyVersion, append_key, putSecretVersion, append_secret. monad_unfold. cbn.
    intros [= <- <-]. rewrite !cloneTags_id, !cloneAttributes_id, cloneKeyRecord_id.
    split; [done|]. split; [by apply eq_None_not_Some|].
    eexists _, (Some cert, Some key), priv, der. split; [done|]. split; [exact Hg|]. done.
  - cbn. destruct (GenerateCert _ _ _ _ _) as [[priv der]| |] eqn:Hg; [|done..]. cbn [o_maperr].
    unfold append_certificate, putKeyVersion, append_key, putSecretVersion, append_secret. monad_unfold. cbn.
    intros [= <- <-]. rewrite !cloneTags_id, !cloneAttributes_id, cloneKeyRecord_id.
    split; [done|]. split; [by apply eq_None_not_Some|].
    eexists _, (None, None), priv, der. split; [done|]. split; [exact Hg|]. done.
Qed.

Context `{!CertLaws L X}.

Lemma pem_length ty b : ty ∈ ["CERTIFICATE"; "RSA PRIVATE KEY"]%string →
  (0 < length (pem_EncodeToMemory (mk_pem_Block ty b)))%nat.
Proof.
  intros Hty. pose proof (pem_Decode_Encode ty b [] Hty) as H%pem_Decode_shrinks.
  rewrite app_nil_r in H. lia.
Qed.

(** The managed secret parses back to the certificate and its key. *)
Lemma ParseImportedCertificate_managed e priv der cert password :
  rsa_GenerateKey e 2048 = Ok priv → x509_ParseCertificate der = Ok cert →
  ∃ pemOut, ParseImportedCertificate (managed_secret priv der) password = Ok (cert, Some priv, pemOut).
Proof.
  intros Hk Hc. unfold ParseImportedCertificate.
  assert (Contains (managed_secret priv der) "BEGIN " = true) as ->.
  { destruct (pem_Encode_header "CERTIFICATE" der) as [tail Ht].
    unfold managed_secret. rewrite Ht, <-!app_assoc.
    set (rest := tail ++ _). 
    replace (of_bytes (to_bytes ("-----BEGIN " ++ "CERTIFICATE" ++ "-----")%string ++ rest))
      with ("-----" ++ "BEGIN " ++ ("CERTIFICATE-----" ++ of_bytes rest))%string by reflexivity.
    by apply Contains_app. }
  unfold managed_secret. rewrite to_of_bytes.
  set (pc := pem_EncodeToMemory (mk_pem_Block "CERTIFICATE" der)).
  set (pk := pem_EncodeToMemory (mk_pem_Block "RSA PRIVATE KEY" (x509_MarshalPKCS1PrivateKey priv))).
  assert (pem_Decode (pc ++ pk) = Some (mk_pem_Block "CERTIFICATE" der, pk)) as Hd1.
  { apply pem_Decode_Encode. set_solver. }
  assert (pem_Decode pk = Some (mk_pem_Block "RSA PRIVATE KEY" (x509_MarshalPKCS1PrivateKey priv), [])) as Hd2.
  { rewrite <-(app_nil_r pk). apply pem_Decode_Encode. set_solver. }
  rewrite Hd1. unfold parsePEMData.
  assert (2 ≤ length (pc ++ pk))%nat as Hlen.
  { rewrite length_app. pose proof (pem_length "CERTIFICATE" der ltac:(set_solver)).
    pose proof (pem_length "RSA PRIVATE KEY" (x509_MarshalPKCS1PrivateKey priv) ltac:(set_solver)).
    unfold pc, pk. lia. }
  destruct (length (pc ++ pk)) as [|[|fuel]]; [lia|lia|]. cbn [scan_pem].
  rewrite Hd1. unfold scan_block at 1. cbn [pem_Type pem_Bytes mk_pem_Block]. rewrite decide_True, Hc by done.
  cbn [scan_pem]. rewrite Hd2. unfold scan_block. cbn [pem_Type pem_Bytes mk_pem_Block].
  rewrite decide_False, decide_True by done.
  rewrite (x509_PKCS1_round_trip _ _ _ Hk), pem_Decode_nil. eexists. reflexivity.
Qed.
End issuing.

(** C31: creating a certificate creates three objects of one name and one
    version that agree: the certificate's bytes parse to a certificate of the
    generated key, the key of the name holds that private key and shows its
    public half, and the secret of the name is the PEM text from which both
    are read back; the certificate can then issue others. *)
Theorem CreateCertificate_consistent `{CertLaws} e name req s r s1 :
  CreateCertificate e name req s = (Ok r, s1) →
  ∃ priv cert, x509_ParseCertificate (cr_Cer r) = Ok cert ∧
    cert_RSAPublicKey cert = Some (rsa_Public priv) ∧
    (∃ cr, GetCertificate name "" s1 = (Ok cr, s1) ∧ cr_Cer cr = cr_Cer r ∧ cr_Version cr = cr_Version r) ∧
    (∃ kv, keyMaterial name "" s1 = (Ok kv, s1) ∧ kr_Version (kv_record kv) = cr_Version r ∧
      km_RSA (kv_material kv) = Some priv ∧
      kr_Key (kv_record kv) = RSAToJWK "" "RSA" (defaultKeyOps "RSA" []) (rsa_Public priv)) ∧
    (∃ sr pemOut, GetSecret name "" s1 = (Ok sr, s1) ∧ sr_Version sr = cr_Version r ∧
      ParseImportedCertificate (sr_Value sr) "" = Ok (cert, Some priv, pemOut)) ∧
    getIssuerMaterial s1 name = Ok (cert, priv).
Proof.
  intros (_ & _ & certType & issuer & priv & der & _ & Hg & -> & ->)%CreateCertificate_Ok.
  apply GenerateCert_Ok in Hg as (Hk & tpl & signer & Hd & _).
  destruct (x509_Parse_Create _ _ _ _ _ _ Hd) as (cert & Hc & Hpub).
  destruct (ParseImportedCertificate_managed e priv der cert "" Hk Hc) as [pemOut Hp].
  exists priv, cert. split; [exact Hc|]. split; [done|]. split_and!.
  - unfold GetCertificate, findCertificateVersion. monad_unfold. cbn. rewrite lookup_insert_eq. cbn.
    rewrite last_ptr_app. by eexists.
  - unfold keyMaterial, findKeyVersion. monad_unfold. cbn. rewrite lookup_insert_eq. cbn.
    rewrite last_ptr_app. by eexists.
  - unfold GetSecret, findSecretVersion. monad_unfold. cbn. rewrite lookup_insert_eq. cbn.
    rewrite last_ptr_app. do 2 eexists. split; [done|]. split; [done|]. exact Hp.
  - unfold getIssuerMaterial. cbn. rewrite lookup_insert_eq. cbn. rewrite last_ptr_app. cbn.
    by rewrite Hp.
Qed.

(** ** Names that are live and deleted *)

(** What each operation does with a secret that is both. *)
Lemma clashing_secret s name v d :
  name ≠ ""%string → secrets s !! name = Some (mkSecretEntry [v]) → deletedSecrets s !! name = Some d →
  GetSecret name "" s = (Ok (sv_record v), s) ∧
  view (K:=secrets_soft_delete) (PurgeDeletedSecret name s).2 name = Live [v] ∧
  (∀ e sreq, ssr_Value sreq ≠ ""%string → SetSecret e name sreq s = (Err (deleted_conflict "Secret " name), s)) ∧
  (∀ e, DeleteSecret e name s = (Err (@sd_missing _ _ _ secrets_soft_delete name), s)) ∧
  RecoverDeletedSecret name s = (Err (@sd_exists _ _ _ secrets_soft_delete name), s).
Proof.
  intros Hname Hs Hd. split_and!.
  - unfold GetSecret, findSecretVersion. monad_unfold. rewrite Hs. cbn. by rewrite decide_True, cloneSecretRecord_id.
  - unfold PurgeDeletedSecret, view. monad_unfold. rewrite Hd, decide_True by (by eexists). cbn. by rewrite Hs, lookup_delete_eq.
  - intros e sreq Hval. unfold SetSecret. rewrite !(decide_False (P:=_ = ""%string)) by done. monad_unfold.
    by rewrite Hd, decide_True by (by eexists).
  - intros e. unfold DeleteSecret. monad_unfold. by rewrite Hs, Hd, decide_True by (by eexists).
  - unfold RecoverDeletedSecret. monad_unfold. by rewrite Hs, decide_True by (by eexists).
Qed.

(** And with a key. *)
Lemma clashing_key `{BlockCipher} `{PublicKeyLib} s name v d :
  name ≠ ""%string → keys s !! name = Some (mkKeyEntry [v]) → deletedKeys s !! name = Some d →
  GetKey name "" s = (Ok (kv_record v), s) ∧
  view (K:=keys_soft_delete) (PurgeDeletedKey name s).2 name = Live [v] ∧
  (∀ e kreq, ckr_Kty kreq ≠ ""%string → CreateKey e name kreq s = (Err (deleted_conflict "Key " name), s)) ∧
  (∀ e kreq, jwk_Kty (ikr_Key kreq) ≠ ""%string → ImportKey e name kreq s = (Err (deleted_conflict "Key " name), s)) ∧
  (∀ e, DeleteKey e name s = (Err (@sd_missing _ _ _ keys_soft_delete name), s)) ∧
  RecoverDeletedKey name s = (Err (@sd_exists _ _ _ keys_soft_delete name), s).
Proof.
  intros Hname Hs Hd. split_and!.
  - unfold GetKey, findKeyVersion. monad_unfold. rewrite Hs. cbn. by rewrite decide_True, cloneKeyRecord_id.
  - unfold PurgeDeletedKey, view. monad_unfold. rewrite Hd, decide_True by (by eexists). cbn. by rewrite Hs, lookup_delete_eq.
  - intros e kreq Hkty. unfold CreateKey. rewrite !(decide_False (P:=_ = ""%string)) by done. monad_unfold.
    by rewrite Hd, decide_True by (by eexists).
  - intros e kreq Hkty. unfold ImportKey. rewrite !(decide_False (P:=_ = ""%string)) by done. monad_unfold.
    by rewrite Hd, decide_True by (by eexists).
  - intros e. unfold DeleteKey. monad_unfold. by rewrite Hs, Hd, decide_True by (by eexists).
  - unfold RecoverDeletedKey. monad_unfold. by rewrite Hs, decide_True by (by eexists).
Qed.

(** C35: creating a certificate ignores the soft-delete rule of its key and its
    secret.  If the secret of the name is deleted, it becomes live and deleted
    at the same time, after which it can be read but neither set, nor deleted,
    nor recovered, until purging the deleted one leaves the new version alone;
    and if the key of the name is deleted, the same happens to the key, which
    can then neither be created, nor imported, nor deleted, nor recovered. *)
Theorem CreateCertificate_resurrects `{BlockCipher} `{PublicKeyLib} `{CertLib} e name req s r s1 :
  CreateCertificate e name req s = (Ok r, s1) →
  (∀ ws t, view (K:=secrets_soft_delete) s name = Gone ws t →
    (∃ v, view (K:=secrets_soft_delete) s1 name = Clash [v] ws t ∧
      GetSecret name "" s1 = (Ok (sv_record v), s1) ∧
      view (K:=secrets_soft_delete) (PurgeDeletedSecret name s1).2 name = Live [v]) ∧
    (∀ e' sreq, ssr_Value sreq ≠ ""%string →
      SetSecret e' name sreq s1 = (Err (deleted_conflict "Secret " name), s1)) ∧
    (∀ e', DeleteSecret e' name s1 = (Err (@sd_missing _ _ _ secrets_soft_delete name), s1)) ∧
    RecoverDeletedSecret name s1 = (Err (@sd_exists _ _ _ secrets_soft_delete name), s1)) ∧
  (∀ ws t, view (K:=keys_soft_delete) s name = Gone ws t →
    (∃ v, view (K:=keys_soft_delete) s1 name = Clash [v] ws t ∧
      GetKey name "" s1 = (Ok (kv_record v), s1) ∧
      view (K:=keys_soft_delete) (PurgeDeletedKey name s1).2 name = Live [v]) ∧
    (∀ e' kreq, ckr_Kty kreq ≠ ""%string →
      CreateKey e' name kreq s1 = (Err (deleted_conflict "Key " name), s1)) ∧
    (∀ e' kreq, jwk_Kty (ikr_Key kreq) ≠ ""%string →
      ImportKey e' name kreq s1 = (Err (deleted_conflict "Key " name), s1)) ∧
    (∀ e', DeleteKey e' name s1 = (Err (@sd_missing _ _ _ keys_soft_delete name), s1)) ∧
    RecoverDeletedKey name s1 = (Err (@sd_exists _ _ _ keys_soft_delete name), s1)).
Proof.
  intros Hcr.
  assert (name ≠ ""%string) as Hname.
  { intros ->. revert Hcr. unfold CreateCertificate. by rewrite decide_True by done. }
  apply CreateCertificate_Ok in Hcr as (_ & _ & ct & issuer & priv & der & _ & Hg & -> & ->).
  split; intros ws t Hgone; unfold view in Hgone; cbn in Hgone.
  - destruct (secrets s !! name) as [en|] eqn:Hs; destruct (deletedSecrets s !! name) as [d|] eqn:Hd; try done.
    cbn in Hgone. injection Hgone as Hws Ht. unfold secret_versions. rewrite Hs.
    match goal with |- context [GetSecret name "" ?s1] =>
      edestruct (clashing_secret s1 name) as (Hget & Hpurge & Hset & Hdel & Hrec);
        [exact Hname|cbn; apply lookup_insert_eq|exact Hd|] end. split_and!; [|exact Hset|exact Hdel|exact Hrec].
    eexists. split; [|split; [exact Hget|exact Hpurge]].
    unfold view. cbn. by rewrite lookup_insert_eq, Hd, <-Hws, <-Ht.
  - destruct (keys s !! name) as [en|] eqn:Hs; destruct (deletedKeys s !! name) as [d|] eqn:Hd; try done.
    cbn in Hgone. injection Hgone as Hws Ht. unfold key_versions. rewrite Hs.
    match goal with |- context [GetKey name "" ?s1] =>
      edestruct (clashing_key s1 name) as (Hget & Hpurge & Hcreate & Himp & Hdel & Hrec);
        [exact Hname|cbn; apply lookup_insert_eq|exact Hd|] end. split_and!; [|exact Hcreate|exact Himp|exact Hdel|exact Hrec].
    eexists. split; [|split; [exact Hget|exact Hpurge]].
    unfold view. cbn. by rewrite lookup_insert_eq, Hd, <-Hws, <-Ht.
Qed.

(** ** Witnesses *)

Definition demo_cert_request : CreateCertificateRequest := mkCreateCertificateRequest None None None.

Lemma CreateCertificate_consistent_witness : ∃ r s1 priv cert,
  CreateCertificate toy_env "root" demo_cert_request New = (Ok r, s1) ∧
  x509_ParseCertificate (cr_Cer r) = Ok cert ∧ getIssuerMaterial s1 "root" = Ok (cert, priv).
Proof.
  destruct (CreateCertificate toy_env "root" demo_cert_request New) as [[r| |] s1] eqn:Hc;
    [|vm_compute in Hc; discriminate..].
  destruct (CreateCertificate_consistent toy_env "root" demo_cert_request New r s1 Hc)
    as (priv & cert & Hp & _ & _ & _ & _ & Hi).
  exists r, s1, priv, cert. split; [reflexivity|]. split; [exact Hp|exact Hi].
Defined.

Definition demo_ec_request : CreateKeyRequest := mkCreateKeyRequest "EC" 0 [] None None "P-256" "".

Lemma CreateCertificate_resurrects_witness :
  let s0 := (SetSecret toy_env "db" demo_secret_request New).2 in
  let s := (DeleteKey toy_env "db" (CreateKey toy_env "db" demo_ec_request (DeleteSecret toy_env "db" s0).2).2).2 in
  let s1 := (CreateCertificate toy_env "db" demo_cert_request s).2 in
  RecoverDeletedSecret "db" s1 = (Err (@sd_exists _ _ _ secrets_soft_delete "db"), s1) ∧
  RecoverDeletedKey "db" s1 = (Err (@sd_exists _ _ _ keys_soft_delete "db"), s1).
Proof.
  intros s0 s s1. destruct (CreateCertificate toy_env "db" demo_cert_request s) as [[r| |] s1'] eqn:Hc;
    [|vm_compute in Hc; discriminate..].
  subst s1. cbn [snd].
  destruct (CreateCertificate_resurrects toy_env "db" demo_cert_request s r s1' Hc) as [Hsecret Hkey].
  split.
  - eapply Hsecret. reflexivity.
  - eapply Hkey. reflexivity.
Defined.
