(* ===== verification/AtRest.v ===== *)
(** * What encryption at rest guarantees, and where it is by-passed

    The wrapper of [EncryptedStore] over the in-memory store: the values it
    stores, the answers it gives, and the operations that reach the store
    without it. *)

From S2P Require Import Prelude GoStrings GoBase64 GoCrypto GoX509 GoGcm Toy ToyX509 Encryption Model KeyCrypto CertCrypto StoreCore SecretStore EncryptedStore SecretBackup KeyStore CertStore StoreInv StoreSafety SoftDelete Lifecycle Issuing.

Section values.
Context (P : string → Prop).

(** Every stored secret value, live or deleted, satisfies [P]. *)
Definition entry_values (en : secretEntry) : Prop := Forall (λ v, P (sr_Value (sv_record v))) (se_versions en).
Definition values_ok (s : Store) : Prop :=
  map_Forall (λ _, entry_values) (secrets s) ∧
  map_Forall (λ _ d, entry_values (dse_entry d)) (deletedSecrets s).
Definition keeps_values {A} (m : SM A) : Prop := ∀ s, values_ok s → values_ok (m s).2.

(** Operations that leave the secrets alone. *)
Definition keeps_secrets {A} (m : SM A) : Prop :=
  ∀ s, secrets (m s).2 = secrets s ∧ deletedSecrets (m s).2 = deletedSecrets s.

Lemma keeps_secrets_values {A} (m : SM A) : keeps_secrets m → keeps_values m.
Proof. intros Hm s Hs. destruct (Hm s) as [E1 E2]. unfold values_ok. by rewrite E1, E2. Qed.

Lemma op_keeps_bind {A B} (m : SM A) (k : A → SM B) :
  keeps_secrets m → (∀ a, keeps_secrets (k a)) → keeps_secrets (m_bind m k).
Proof.
  intros Hm Hk s. specialize (Hm s). unfold m_bind. destruct (m s) as [[a| |] s']; [|done..].
  cbn in Hm. destruct (Hk a s') as [E1 E2]. by rewrite E1, E2.
Qed.
Lemma keeps_ret {A} (a : A) : keeps_secrets (m_ret a).
Proof. done. Qed.
Lemma keeps_fail {A} e : keeps_secrets (A:=A) (m_fail e).
Proof. done. Qed.
Lemma keeps_lift {A} (o : outcome error A) : keeps_secrets (m_lift o).
Proof. done. Qed.
Lemma keeps_get : keeps_secrets m_get.
Proof. done. Qed.
Lemma keeps_set_keys f : keeps_secrets (m_modify (set_keys f)).
Proof. done. Qed.
Lemma keeps_set_deletedKeys f : keeps_secrets (m_modify (set_deletedKeys f)).
Proof. done. Qed.
Lemma keeps_set_certificates f : keeps_secrets (m_modify (set_certificates f)).
Proof. done. Qed.
Lemma keeps_set_deletedCertificates f : keeps_secrets (m_modify (set_deletedCertificates f)).
Proof. done. Qed.

Lemma SetSecret_values e name req : P (ssr_Value req) → keeps_values (SetSecret e name req).
Proof.
  intros HP s [Hs Hd]. destruct (SetSecret e name req s) as [[r| |] s'] eqn:H.
  - apply SetSecret_Ok in H as (_ & _ & _ & _ & -> & ->). split; [|done]. cbn.
    apply map_Forall_insert_2; [|done]. apply Forall_app_2; [|by repeat constructor].
    destruct (secrets s !! name) as [en|] eqn:He; [|constructor]. exact (Hs _ _ He).
  - revert H. unfold SetSecret, append_secret. monad_unfold. repeat case_match; intros [= <- <-]; done.
  - revert H. unfold SetSecret, append_secret. monad_unfold. repeat case_match; intros [= <- <-]; done.
Qed.

Lemma UpdateSecret_values e name version req : keeps_values (UpdateSecret e name version req).
Proof.
  intros s [Hs Hd]. unfold UpdateSecret. monad_unfold. destruct (secrets s !! name) as [en|] eqn:He; [|done].
  destruct (findSecretVersion en version) as [[i ver]|] eqn:Hf; [|done]. split; [|done]. cbn.
  apply map_Forall_insert_2; [|done]. unfold entry_values. cbn.
  apply Forall_insert; [exact (Hs _ _ He)|]. cbn.
  assert (se_versions en !! i = Some ver) as Hi.
  { revert Hf. unfold findSecretVersion, latestSecret. case_decide.
    - by intros (? & _ & _)%last_ptr_Some.
    - by intros (? & _ & _)%list_find_Some. }
  by apply (Forall_lookup_1 _ _ _ _ (Hs _ _ He) Hi).
Qed.
Lemma DeleteSecret_values e name : keeps_values (DeleteSecret e name).
Proof.
  intros s [Hs Hd]. unfold DeleteSecret. monad_unfold. destruct (secrets s !! name) as [en|] eqn:He; [|done].
  case_decide; [done|]. pose proof (map_Forall_delete _ _ name Hs) as Hs'.
  destruct (newRecoveryID e "secrets" name) as [id| |]; [|done..]. cbn [o_map].
  assert (values_ok (set_deletedSecrets <[name := mkDeletedSecretEntry en id (nowUnix e) (scheduledPurge (nowUnix e))]>
    (set_secrets (delete name) s))) as Hok.
  { split; [done|]. apply map_Forall_insert_2; [|done]. exact (Hs _ _ He). }
  by destruct (deref _).
Qed.
Lemma PurgeDeletedSecret_values name : keeps_values (PurgeDeletedSecret name).
Proof.
  intros s [Hs Hd]. unfold PurgeDeletedSecret. monad_unfold. case_decide; [|done].
  split; [done|]. by apply map_Forall_delete.
Qed.
Lemma RecoverDeletedSecret_values name : keeps_values (RecoverDeletedSecret name).
Proof.
  intros s [Hs Hd]. unfold RecoverDeletedSecret. monad_unfold. case_decide; [done|].
  destruct (deletedSecrets s !! name) as [d|] eqn:He; [|done].
  assert (values_ok (set_deletedSecrets (delete name) (set_secrets <[name := dse_entry d]> s))) as Hok.
  { split; [|by apply map_Forall_delete]. apply map_Forall_insert_2; [|done]. exact (Hd _ _ He). }
  by destruct (deref _).
Qed.
End values.

Create HintDb at_rest discriminated.
#[local] Hint Resolve keeps_ret keeps_fail keeps_lift keeps_get keeps_set_keys keeps_set_deletedKeys
  keeps_set_certificates keeps_set_deletedCertificates : at_rest.
Ltac keeps_tac :=
  repeat first
    [ progress (intros; cbn [void]) | solve [auto with at_rest nocore] | apply op_keeps_bind
    | case_match | case_decide ].

Section system.
Context `{C : BlockCipher} `{L : PublicKeyLib} `{X : CertLib}.

(** The calls that change keys or certificates only. *)
Definition other_kinds (c : call) : bool :=
  match c with
  | CCreateKey _ _ | CImportKey _ _ | CUpdateKey _ _ _ | CDeleteKey _ | CPurgeDeletedKey _
  | CRecoverDeletedKey _ | CUpdateCertificate _ _ _ | CUpdateCertificatePolicy _ _
  | CDeleteCertificate _ | CPurgeDeletedCertificate _ | CRecoverDeletedCertificate _ => true
  | _ => false
  end.

Lemma exec_other_kinds e c : other_kinds c = true → keeps_secrets (exec e c).
Proof.
  destruct c; try done; intros _; cbn [exec]; unfold void.
  all: unfold CreateKey, ImportKey, UpdateKey, DeleteKey, PurgeDeletedKey, RecoverDeletedKey,
    UpdateCertificate, UpdateCertificatePolicy, DeleteCertificate, PurgeDeletedCertificate,
    RecoverDeletedCertificate, append_key.
  all: keeps_tac.
Qed.
End system.

Section at_rest.
Context `{C : BlockCipher} `{L : PublicKeyLib} `{X : CertLib}.

(** One call of the store the web handler hands to the key-vault API. *)
Definition es_exec (es : encryptedStore) (e : Env) (c : call) : SM unit :=
  match c with
  | CSetSecret n req => void (es_SetSecret es e n req)
  | CGetSecret n v => void (es_GetSecret es n v)
  | CUpdateSecret n v req => void (es_UpdateSecret es e n v req)
  | CDeleteSecret n => void (es_DeleteSecret es e n)
  | CGetDeletedSecret n => void (es_GetDeletedSecret es n)
  | CRecoverDeletedSecret n => void (es_RecoverDeletedSecret es n)
  | c => exec e c
  end.

(** The calls that write a secret value without going through [SetSecret]. *)
Definition writes_past (c : call) : bool :=
  match c with CRestoreSecret _ | CCreateCertificate _ _ | CImportCertificate _ _ => true | _ => false end.

(** A value that decrypts under the key. *)
Definition sealed (key : bytes) (v : string) : Prop := ∃ p, DecryptString key v = Ok p.

Lemma keeps_void P {A} (m : SM A) : keeps_values P m → keeps_values P (void m).
Proof. intros Hm s Hs. rewrite void_state. by apply Hm. Qed.
Lemma op_keeps_then P {A B} (m : SM A) (g : A → B) :
  keeps_values P m → keeps_values P (let* r := m in m_ret (g r)).
Proof. intros Hm s Hs. specialize (Hm s Hs). unfold m_bind. by destruct (m s) as [[] s']. Qed.
Lemma keeps_pure P {A} (m : SM A) : pure_read m → keeps_values P m.
Proof. intros Hm s Hs. by rewrite Hm. Qed.

Context `{!BlockCipherLaws C}.

Lemma sealed_EncryptString key e i v c : EncryptString e i key v = Ok c → sealed key c.
Proof. intros H. exists v. by eapply DecryptString_EncryptString. Qed.

Lemma es_SetSecret_values key locked e n req :
  keeps_values (sealed key) (es_SetSecret (newEncryptedStore (Some key) locked) e n req).
Proof.
  intros s Hs. unfold es_SetSecret. cbn [getKey]. case_decide as Hv.
  - cbn. unfold SetSecret. rewrite (decide_True (P:=ssr_Value req = _)) by done. by case_decide.
  - unfold m_bind, m_lift. destruct (EncryptString e 0 key (ssr_Value req)) as [c| |] eqn:Hc; [|done..].
    apply SetSecret_values; [|done]. by eapply sealed_EncryptString.
Qed.

(** C29: with a key loaded, every secret value at rest, live or deleted, stays
    a ciphertext under the key through every call of the store, whether the
    call succeeds or not, except the three that write secrets past the
    wrapper; and while the vault is locked no secret can be set at all. *)
Theorem encrypted_at_rest key locked e c s :
  (values_ok (sealed key) s → writes_past c = false →
   values_ok (sealed key) (es_exec (newEncryptedStore (Some key) locked) e c s).2) ∧
  (∀ name req, es_SetSecret (newEncryptedStore None (Some true)) e name req s =
    (Err (OtherError (Text "vault is locked: unlock before writing secrets")), s)).
Proof.
  split; [|done]. intros Hs Hc. revert s Hs. change (keeps_values (sealed key)
    (es_exec (newEncryptedStore (Some key) locked) e c)).
  destruct (is_read c) eqn:Hr; [destruct c; try done; try by apply keeps_pure, exec_read|].
  - apply keeps_void, op_keeps_then, keeps_pure. exact (λ s, eq_trans (eq_sym (void_state _ s)) (exec_read e (CGetSecret name version) eq_refl s)).
  - apply keeps_void, op_keeps_then, keeps_pure. exact (λ s, eq_trans (eq_sym (void_state _ s)) (exec_read e (CGetDeletedSecret name) eq_refl s)).
  - destruct (other_kinds c) eqn:Ho.
    { destruct c; try done; by apply keeps_secrets_values, exec_other_kinds. }
    destruct c; try done; cbn [es_exec exec]; apply keeps_void.
    + apply es_SetSecret_values.
    + apply op_keeps_then, UpdateSecret_values.
    + apply op_keeps_then, DeleteSecret_values.
    + apply PurgeDeletedSecret_values.
    + apply op_keeps_then, RecoverDeletedSecret_values.
Qed.
End at_rest.

Lemma GetSecret_latest name vs v s :
  let s' := set_secrets <[name := mkSecretEntry (vs ++ [v])]> s in
  GetSecret name "" s' = (Ok (sv_record v), s').
Proof.
  intros s'. unfold GetSecret, findSecretVersion. monad_unfold. cbn -[cloneSecretRecord]. rewrite lookup_insert_eq.
  cbn -[cloneSecretRecord]. rewrite last_ptr_app, decide_True by done. by rewrite cloneSecretRecord_id.
Qed.

(** what [SetSecret] answers is not what was set.  With a key loaded, a
    successful [SetSecret] answers the ciphertext as the value, while reading
    the secret back answers the value that was set. *)
Theorem SetSecret_answers_ciphertext `{BlockCipherLaws} key locked e name req s r s' :
  let es := newEncryptedStore (Some key) locked in
  es_SetSecret (St:=Store) es e name req s = (Ok r, s') →
  sr_Value r ≠ ssr_Value req ∧
  DecryptString key (sr_Value r) = Ok (ssr_Value req) ∧
  es_GetSecret (St:=Store) es name "" s' = (Ok (map_value (λ _, ssr_Value req) r), s').
Proof.
  intros es. unfold es_SetSecret, es_GetSecret. cbn [getKey es]. unfold m_lift, m_bind, m_ret.
  destruct (decide (ssr_Value req = "")%string) as [Hv|Hv].
  { cbn [st_SetSecret Store_SecretStorer]. unfold SetSecret. rewrite (decide_True (P:=ssr_Value req = _)) by done.
    by case_decide. }
  destruct (EncryptString e 0 key (ssr_Value req)) as [c| |] eqn:Hc; [|done..]. cbn [o_maperr].
  cbn [st_SetSecret st_GetSecret Store_SecretStorer]. intros (_ & _ & _ & _ & -> & ->)%SetSecret_Ok. cbn [sr_Value].
  split; [by eapply EncryptString_ne|]. split; [by eapply DecryptString_EncryptString|].
  rewrite GetSecret_latest. unfold decryptRecord, map_value, es. cbn [sv_record sr_Value getKey ssr_Value with_Value].
  by rewrite (reveal_encrypted _ _ _ _ _ Hc).
Qed.

(** C34: creating a certificate stores its private key in the clear.  Through
    the wrapper and with a key loaded, a successful [CreateCertificate] leaves
    a secret whose stored value is not a ciphertext: anyone who reads the
    store parses the certificate's private key out of it without the vault
    key. *)
Theorem CreateCertificate_bypasses_encryption `{C : BlockCipher} `{CertLaws} key locked e name req s r s1 :
  CreateCertificate e name req s = (Ok r, s1) →
  es_exec (newEncryptedStore (Some key) locked) e (CCreateCertificate name req) s = (Ok (), s1) ∧
  ∃ sr cert priv pemOut, GetSecret name "" s1 = (Ok sr, s1) ∧
    (∀ h, DecryptString key (sr_Value sr) ≠ Ok h) ∧
    ParseImportedCertificate (sr_Value sr) "" = Ok (cert, Some priv, pemOut) ∧
    cert_RSAPublicKey cert = Some (rsa_Public priv).
Proof.
  intros Hcr. split; [cbn [es_exec exec]; unfold void, m_bind; by rewrite Hcr|].
  apply CreateCertificate_Ok in Hcr as (_ & _ & certType & issuer & priv & der & _ & Hg & -> & ->).
  apply GenerateCert_Ok in Hg as (Hk & tpl & signer & Hd & _).
  destruct (x509_Parse_Create _ _ _ _ _ _ Hd) as (cert & Hc & Hpub).
  destruct (ParseImportedCertificate_managed e priv der cert "" Hk Hc) as [pemOut Hp].
  eexists _, cert, priv, pemOut. split.
  { apply GetSecret_latest. }
  split_and!; [|exact Hp|exact Hpub]. intros h. cbn [sv_record sr_Value]. unfold managed_secret, DecryptString, hex_DecodeString.
  destruct (pem_Encode_header "CERTIFICATE" der) as [tail ->]. by rewrite to_of_bytes.
Qed.

(** ** Witnesses *)

Definition demo_key : bytes := bmk <$> seqZ 0 32.

Lemma encrypted_at_rest_witness :
  let es := newEncryptedStore (Some demo_key) None in
  let s := (es_exec es toy_env (CSetSecret "db" demo_secret_request) New).2 in
  values_ok (sealed demo_key) (es_exec es toy_env (CDeleteSecret "db") s).2 ∧
  is_Some (deletedSecrets (es_exec es toy_env (CDeleteSecret "db") s).2 !! "db"%string).
Proof.
  intros es s. split; [|vm_compute; eexists; reflexivity].
  apply (encrypted_at_rest (C:=toy_cipher) demo_key None toy_env (CDeleteSecret "db") s); [|reflexivity].
  apply (encrypted_at_rest (C:=toy_cipher) demo_key None toy_env (CSetSecret "db" demo_secret_request) New); [|reflexivity].
  split; apply map_Forall_empty.
Defined.

Lemma SetSecret_answers_ciphertext_witness :
  let es := newEncryptedStore (Some demo_key) None in
  let s' := (es_SetSecret (St:=Store) es toy_env "db" demo_secret_request New).2 in
  ∃ r, es_SetSecret (St:=Store) es toy_env "db" demo_secret_request New = (Ok r, s') ∧
    sr_Value r ≠ ssr_Value demo_secret_request.
Proof.
  intros es s'. destruct (es_SetSecret es toy_env "db" demo_secret_request New) as [[r| |] s1] eqn:H;
    [|vm_compute in H; discriminate..].
  exists r. split; [reflexivity|].
  exact (proj1 (SetSecret_answers_ciphertext demo_key None toy_env "db" demo_secret_request New r s1 H)).
Defined.

Lemma CreateCertificate_bypasses_encryption_witness :
  let es := newEncryptedStore (Some demo_key) None in
  let s1 := (es_exec es toy_env (CCreateCertificate "root" demo_cert_request) New).2 in
  ∃ sr, GetSecret "root" "" s1 = (Ok sr, s1) ∧ ∀ h, DecryptString demo_key (sr_Value sr) ≠ Ok h.
Proof.
  intros es s1. destruct (CreateCertificate toy_env "root" demo_cert_request New) as [[r| |] s1'] eqn:Hc;
    [|vm_compute in Hc; discriminate..].
  destruct (CreateCertificate_bypasses_encryption (C:=toy_cipher) demo_key None toy_env "root"
    demo_cert_request New r s1' Hc) as (He & sr & _ & _ & _ & Hg & Hn & _).
  assert (s1 = s1') as -> by (unfold s1, es; by rewrite He).
  exists sr. split; [exact Hg|exact Hn].
Defined.
