(* ===== verification/HttpSame.v ===== *)
(** * The REST API does not tell its stores apart

    A handler answers a request by at most one call of the store.  So if two
    stores answer the calls of a request the same, the request is answered the
    same; [agree] is that for one state of each, [secrets_agree] and
    [keys_agree_at] say it of all calls, and the wrapper that encrypts keeps it.
    A request that was decoded is text, whatever its bytes. *)

From S2P Require Import Prelude GoStrings GoUtf8 GoJson JsonFacts JsonText GoCrypto GoX509 GoSql Encryption Model KeyCrypto StoreCore SecretStore EncryptedStore SecretBackup KeyStore HttpJson Http HttpSecrets HttpKeys HttpCerts SqlFacts.

(** ** Decoded requests *)

Definition text_set (req : SecretSetRequest) : Prop :=
  utf8_valid (ssr_Value req) = true ∧ utf8_valid (ssr_ContentType req) = true ∧ tags_ok (ssr_Tags req) ∧
  request_int64 (ssr_Attributes req).
Definition text_update (req : SecretUpdateRequest) : Prop :=
  (∀ ct, sur_ContentType req = Some ct → utf8_valid ct = true) ∧ tags_ok (sur_Tags req) ∧ request_int64 (sur_Attributes req).
Definition text_create_key (req : CreateKeyRequest) : Prop :=
  Forall (λ s, utf8_valid s = true) (ckr_KeyOps req) ∧ tags_ok (ckr_Tags req) ∧ request_int64 (ckr_Attributes req).
Definition text_import_key (req : ImportKeyRequest) : Prop :=
  Forall (λ s, utf8_valid s = true) (jwk_KeyOps (ikr_Key req)) ∧ tags_ok (ikr_Tags req) ∧ request_int64 (ikr_Attributes req).
Definition text_update_key (req : UpdateKeyRequest) : Prop :=
  (∀ ops, ukr_KeyOps req = Some ops → Forall (λ s, utf8_valid s = true) ops) ∧ tags_ok (ukr_Tags req) ∧
  request_int64 (ukr_Attributes req).

Lemma dec_attributes_ptr_int64 cur j v : request_int64 cur → dec_attributes_ptr cur j = Some v → request_int64 v.
Proof.
  intros Hc. unfold dec_attributes_ptr, dec_ptr.
  assert (attributes_int64 (default zero_attributes cur)) as Hd.
  { destruct cur; [done|]. unfold attributes_int64, in_int64, max_int64. cbn. split_and!; try done; lia. }
  destruct j; try (by intros [= <-]); intros (a & Ha & ->)%fmap_Some; by eapply dec_attributes_int64.
Qed.

(** A list of strings that is decoded, with its backing array. *)
Definition text_strings (s : option (nat * list string)) : Prop :=
  match s with Some sl => Forall (λ s, utf8_valid s = true) sl.2 | None => True end.
Lemma dec_strings_text cur j v : text_strings cur → json_text j → dec_strings cur j = Some v → text_strings v.
Proof.
  intros Hc Hj. unfold dec_strings.
  assert (Forall (λ s, utf8_valid s = true) (default (0%nat, []) cur).2) as Hd by (by destruct cur).
  destruct j as [| | | |js|]; try done; [by intros [= <-]|].
  intros (sl & Hsl & ->)%fmap_Some. cbn. eapply (dec_slice_text _ ""%string dec_string); [done|apply dec_string_text|exact Hd|exact Hj|exact Hsl].
Qed.
Lemma text_strings_of s : text_strings s → Forall (λ s, utf8_valid s = true) (strings_of s).
Proof. destruct s as [[n l]|]; [|done]. apply Forall_take. Qed.

Lemma dec_ptr_string_text cur j v :
  (∀ s, cur = Some s → utf8_valid s = true) → json_text j → dec_ptr ""%string dec_string cur j = Some v →
  ∀ s, v = Some s → utf8_valid s = true.
Proof.
  intros Hc Hj. unfold dec_ptr. destruct j as [| | |s| |]; try done; [by intros [= <-]|]. by intros [= <-] s' [= <-].
Qed.

(** A member of the object, decoded into its field; the fields that another
    member set stay as they are. *)
Ltac text_member :=
  try done;
  first
    [ eapply dec_string_text; [| |eassumption]; eassumption
    | eapply dec_string_map_text; [| |eassumption]; eassumption
    | eapply dec_attributes_ptr_int64; [|eassumption]; eassumption
    | eapply dec_strings_text; [| |eassumption]; eassumption
    | eapply dec_ptr_string_text; [| |eassumption]; eassumption ].
Ltac text_fields :=
  let Hd := fresh in
  intros ? ? Hd; apply list_elem_of_In in Hd; cbn in Hd;
  destruct_or! Hd; try done; injection Hd as <- <-; intros ? ? ? ? ? (? & ? & ->)%fmap_Some.

Lemma SecretSetRequest_text j req :
  json_text j → dec_SecretSetRequest zero_SecretSetRequest j = Some req → text_set req.
Proof.
  intros Hj. apply (dec_struct_text text_set); [|by split_and!|exact Hj].
  text_fields; unfold text_set in *; destruct_and!; split_and!; text_member.
Qed.
Lemma SecretUpdateRequest_text j req :
  json_text j → dec_SecretUpdateRequest zero_SecretUpdateRequest j = Some req → text_update req.
Proof.
  intros Hj. apply (dec_struct_text text_update); [|by split_and!|exact Hj].
  text_fields; unfold text_update in *; destruct_and!; split_and!; text_member.
Qed.

Lemma CreateKeyRequest_text j req : json_text j → decode_CreateKeyRequest j = Some req → text_create_key req.
Proof.
  intros Hj (r & Hr & ->)%fmap_Some.
  assert (text_strings (rc_ops r) ∧ tags_ok (ckr_Tags (rc_req r)) ∧ request_int64 (ckr_Attributes (rc_req r))) as (Ho & Ht & Ha).
  { revert Hr. apply (dec_struct_text (λ r, text_strings (rc_ops r) ∧ tags_ok (ckr_Tags (rc_req r)) ∧ request_int64 (ckr_Attributes (rc_req r))));
      [|by split_and!|exact Hj].
    text_fields; destruct_and!; split_and!; text_member. }
  split_and!; [by apply text_strings_of|done..].
Qed.
Lemma UpdateKeyRequest_text j req : json_text j → decode_UpdateKeyRequest j = Some req → text_update_key req.
Proof.
  intros Hj (r & Hr & ->)%fmap_Some.
  assert (text_strings (ru_ops r) ∧ tags_ok (ru_tags r) ∧ request_int64 (ru_attributes r)) as (Ho & Ht & Ha).
  { revert Hr. apply (dec_struct_text (λ r, text_strings (ru_ops r) ∧ tags_ok (ru_tags r) ∧ request_int64 (ru_attributes r)));
      [|by split_and!|exact Hj].
    text_fields; destruct_and!; split_and!; text_member. }
  split_and!; [|done..]. intros ops (sl & Hsl & ->)%fmap_Some. unfold text_strings in Ho. rewrite Hsl in Ho. by apply Forall_take.
Qed.

(** The operations of a JSON web key. *)
Lemma dec_raw_jwk_text (cur : raw_jwk) j v : text_strings cur.2 → json_text j → dec_raw_jwk cur j = Some v → text_strings v.2.
Proof.
  intros Hc Hj. apply (dec_struct_text (λ r : raw_jwk, text_strings r.2)); [|done|exact Hj].
  intros n d Hd. apply elem_of_cons in Hd as [[= -> ->]|Hd].
  - intros r j' v' Hr Hj' (x & Hx & ->)%fmap_Some. by eapply dec_strings_text; [exact Hr|exact Hj'|].
  - apply list_elem_of_In, in_map_iff in Hd as (m & [= <- <-] & _). by intros r j' v' Hr Hj' (x & Hx & ->)%fmap_Some.
Qed.
Lemma ImportKeyRequest_text j req : json_text j → decode_ImportKeyRequest j = Some req → text_import_key req.
Proof.
  intros Hj (r & Hr & ->)%fmap_Some.
  assert (text_strings (ri_key r).2 ∧ tags_ok (ri_tags r) ∧ request_int64 (ri_attributes r)) as (Ho & Ht & Ha).
  { revert Hr. apply (dec_struct_text (λ r, text_strings (ri_key r).2 ∧ tags_ok (ri_tags r) ∧ request_int64 (ri_attributes r)));
      [|by split_and!|exact Hj].
    text_fields; destruct_and!; split_and!; first [text_member|by eapply dec_raw_jwk_text; [| |eassumption]]. }
  split_and!; [by apply text_strings_of|done..].
Qed.

(** What a body decodes to. *)
Lemma parseBody_text `{JsonErrors} {A} kind (decode : json → option A) (P : A → Prop) r v :
  (∀ j v, json_text j → decode j = Some v → P v) → parseBody kind decode r = Ok v → P v.
Proof.
  intros Hd. unfold parseBody. destruct (r_Body r) as [body|]; [|done].
  destruct (json_first body ≫= decode) as [v'|] eqn:Hv; [|done]. intros [= <-].
  apply bind_Some in Hv as (j & ([j' rest] & Hp & ->)%fmap_Some & Hv). apply parse_text in Hp. by eapply Hd.
Qed.

(** A ciphertext is written in hexadecimal. *)
Lemma EncryptString_text `{BlockCipher} e i key v c : EncryptString e i key v = Ok c → utf8_valid c = true.
Proof. unfold EncryptString. destruct (Encryption.Encrypt e i key (to_bytes v)); [|done..]. intros [= <-]. apply hex_utf8. Qed.

(** ** Two stores *)

Section agreement.
Context {S1 S2 : Type} (R : S1 → S2 → Prop).

(** The same answer, and states that are still related. *)
Definition agree {E A} (m1 : M S1 E A) (m2 : M S2 E A) (s1 : S1) (s2 : S2) : Prop :=
  (m1 s1).1 = (m2 s2).1 ∧ R (m1 s1).2 (m2 s2).2.

Lemma agree_fmap {E A B} (g : A → B) (m1 : M S1 E A) (m2 : M S2 E A) s1 s2 :
  agree m1 m2 s1 s2 → agree (let* a := m1 in m_ret (g a)) (let* a := m2 in m_ret (g a)) s1 s2.
Proof.
  intros [Ho Hs]. unfold agree, m_bind. destruct (m1 s1) as [[]], (m2 s2) as [[]]; cbn in *; by simplify_eq.
Qed.

Lemma agree_answer rsp s1 s2 : R s1 s2 → agree (answer rsp) (answer rsp) s1 s2.
Proof. done. Qed.

Lemma agree_serve {A} (op1 : M S1 error A) (op2 : M S2 error A) ok s1 s2 :
  agree op1 op2 s1 s2 → agree (serve op1 ok) (serve op2 ok) s1 s2.
Proof.
  intros [Ho Hs]. unfold agree, serve. destruct (op1 s1) as [[]], (op2 s2) as [[]]; cbn in *; by simplify_eq.
Qed.

Lemma agree_body `{JsonErrors} {A} kind (decode : json → option A) r (k1 : A → HM S1) (k2 : A → HM S2) s1 s2 :
  R s1 s2 → (∀ v, parseBody kind decode r = Ok v → agree (k1 v) (k2 v) s1 s2) →
  agree (with_body kind decode r k1) (with_body kind decode r k2) s1 s2.
Proof. intros Hs Hk. unfold with_body. destruct (parseBody kind decode r) eqn:Hb; [by apply Hk|done..]. Qed.

Lemma agree_listing {X I} r (op1 : Z → string → M S1 error (list X * option string)) op2 (item : X → I) enc s1 s2 :
  R s1 s2 → (∀ m t, agree (op1 m t) (op2 m t) s1 s2) → agree (listing r op1 item enc) (listing r op2 item enc) s1 s2.
Proof.
  intros Hs Hop. unfold listing. destruct (parsePagination r) as [[m skip]| |]; [|done..]. by apply agree_serve.
Qed.

(** Every call on secrets agrees, in these two states and this environment. *)
Record secrets_agree (A1 : SecretsApi S1) (A2 : SecretsApi S2) (e : Env) (restorable : string → Prop) (s1 : S1) (s2 : S2) : Prop := {
  ag_SetSecret name req : text_set req → agree (api_SetSecret e name req) (api_SetSecret e name req) s1 s2;
  ag_GetSecret name version : agree (api_GetSecret name version) (api_GetSecret name version) s1 s2;
  ag_ListSecrets m t : agree (api_ListSecrets m t) (api_ListSecrets m t) s1 s2;
  ag_ListSecretVersions name m t : agree (api_ListSecretVersions name m t) (api_ListSecretVersions name m t) s1 s2;
  ag_UpdateSecret name version req : text_update req →
    agree (api_UpdateSecret e name version req) (api_UpdateSecret e name version req) s1 s2;
  ag_DeleteSecret name : agree (api_DeleteSecret e name) (api_DeleteSecret e name) s1 s2;
  ag_ListDeletedSecrets m t : agree (api_ListDeletedSecrets m t) (api_ListDeletedSecrets m t) s1 s2;
  ag_GetDeletedSecret name : agree (api_GetDeletedSecret name) (api_GetDeletedSecret name) s1 s2;
  ag_PurgeDeletedSecret name : agree (api_PurgeDeletedSecret name) (api_PurgeDeletedSecret name) s1 s2;
  ag_RecoverDeletedSecret name : agree (api_RecoverDeletedSecret name) (api_RecoverDeletedSecret name) s1 s2;
  ag_BackupSecret name : agree (api_BackupSecret name) (api_BackupSecret name) s1 s2;
  ag_RestoreSecret token : restorable token → agree (api_RestoreSecret token) (api_RestoreSecret token) s1 s2;
}.

(** And every call on keys. *)
Record keys_agree_at (A1 : KeysApi S1) (A2 : KeysApi S2) (e : Env) (importable : JSONWebKey → Prop) (s1 : S1) (s2 : S2) : Prop := {
  ag_CreateKey name req : text_create_key req → agree (api_CreateKey e name req) (api_CreateKey e name req) s1 s2;
  ag_ImportKey name req : text_import_key req → importable (ikr_Key req) →
    agree (api_ImportKey e name req) (api_ImportKey e name req) s1 s2;
  ag_GetKey name version : agree (api_GetKey name version) (api_GetKey name version) s1 s2;
  ag_ListKeys m t : agree (api_ListKeys m t) (api_ListKeys m t) s1 s2;
  ag_ListKeyVersions name m t : agree (api_ListKeyVersions name m t) (api_ListKeyVersions name m t) s1 s2;
  ag_UpdateKey name version req : text_update_key req →
    agree (api_UpdateKey e name version req) (api_UpdateKey e name version req) s1 s2;
  ag_DeleteKey name : agree (api_DeleteKey e name) (api_DeleteKey e name) s1 s2;
  ag_ListDeletedKeys m t : agree (api_ListDeletedKeys m t) (api_ListDeletedKeys m t) s1 s2;
  ag_GetDeletedKey name : agree (api_GetDeletedKey name) (api_GetDeletedKey name) s1 s2;
  ag_PurgeDeletedKey name : agree (api_PurgeDeletedKey name) (api_PurgeDeletedKey name) s1 s2;
  ag_RecoverDeletedKey name : agree (api_RecoverDeletedKey name) (api_RecoverDeletedKey name) s1 s2;
  ag_Encrypt name version req : agree (api_Encrypt e name version req) (api_Encrypt e name version req) s1 s2;
  ag_Decrypt name version req : agree (api_Decrypt name version req) (api_Decrypt name version req) s1 s2;
  ag_Sign name version req : agree (api_Sign e name version req) (api_Sign e name version req) s1 s2;
  ag_Verify name version req : agree (api_Verify name version req) (api_Verify name version req) s1 s2;
  ag_WrapKey name version req : agree (api_WrapKey e name version req) (api_WrapKey e name version req) s1 s2;
  ag_UnwrapKey name version req : agree (api_UnwrapKey name version req) (api_UnwrapKey name version req) s1 s2;
}.

(** ** Handlers *)

Section handlers.
Context `{JE : JsonErrors} {A1 : SecretsApi S1} {A2 : SecretsApi S2} {K1 : KeysApi S1} {K2 : KeysApi S2}.
Context (e : Env) (restorable : string → Prop) (importable : JSONWebKey → Prop) (s1 : S1) (s2 : S2) (Hs : R s1 s2).
Context (HA : secrets_agree A1 A2 e restorable s1 s2) (HK : keys_agree_at K1 K2 e importable s1 s2).

(** What the body of a request must be: a blob that can be restored, a key
    that can be imported. *)
Definition bodies_ok (r : Request) : Prop :=
  (∀ req, parseBody "restoreRequest" (dec_restoreRequest (mkRestoreRequest "")) r = Ok req →
    r_Path r = "/secrets/restore"%string → restorable (rr_Value req)) ∧
  (∀ req name, parseBody "ImportKeyRequest" decode_ImportKeyRequest r = Ok req →
    splitPath (r_Path r) "/keys/" = [name; "import"%string] → importable (ikr_Key req)).

Ltac agree_op :=
  first
    [ apply (ag_SetSecret _ _ _ _ _ _ HA) | apply (ag_GetSecret _ _ _ _ _ _ HA) | apply (ag_ListSecrets _ _ _ _ _ _ HA)
    | apply (ag_ListSecretVersions _ _ _ _ _ _ HA) | apply (ag_UpdateSecret _ _ _ _ _ _ HA)
    | apply (ag_DeleteSecret _ _ _ _ _ _ HA) | apply (ag_ListDeletedSecrets _ _ _ _ _ _ HA)
    | apply (ag_GetDeletedSecret _ _ _ _ _ _ HA) | apply (ag_PurgeDeletedSecret _ _ _ _ _ _ HA)
    | apply (ag_RecoverDeletedSecret _ _ _ _ _ _ HA) | apply (ag_BackupSecret _ _ _ _ _ _ HA)
    | apply (ag_RestoreSecret _ _ _ _ _ _ HA)
    | apply (ag_CreateKey _ _ _ _ _ _ HK) | apply (ag_ImportKey _ _ _ _ _ _ HK) | apply (ag_GetKey _ _ _ _ _ _ HK)
    | apply (ag_ListKeys _ _ _ _ _ _ HK) | apply (ag_ListKeyVersions _ _ _ _ _ _ HK) | apply (ag_UpdateKey _ _ _ _ _ _ HK)
    | apply (ag_DeleteKey _ _ _ _ _ _ HK) | apply (ag_ListDeletedKeys _ _ _ _ _ _ HK) | apply (ag_GetDeletedKey _ _ _ _ _ _ HK)
    | apply (ag_PurgeDeletedKey _ _ _ _ _ _ HK) | apply (ag_RecoverDeletedKey _ _ _ _ _ _ HK)
    | apply (ag_Encrypt _ _ _ _ _ _ HK) | apply (ag_Decrypt _ _ _ _ _ _ HK) | apply (ag_Sign _ _ _ _ _ _ HK)
    | apply (ag_Verify _ _ _ _ _ _ HK) | apply (ag_WrapKey _ _ _ _ _ _ HK) | apply (ag_UnwrapKey _ _ _ _ _ _ HK) ].
Ltac agree_tac :=
  repeat first
    [ apply (agree_answer _ _ _ Hs)
    | apply (agree_body _ _ _ _ _ _ _ Hs); intros ? ?
    | apply (agree_listing _ _ _ _ _ _ _ Hs); intros ? ?
    | apply agree_serve; agree_op
    | agree_op
    | case_decide | case_match ];
  try (eapply parseBody_text; [|eassumption]; cbn beta; intros ? ? ?;
    first [by apply SecretSetRequest_text|by apply SecretUpdateRequest_text|by apply CreateKeyRequest_text
      |by apply ImportKeyRequest_text|by apply UpdateKeyRequest_text]).

Lemma handleSecretRoutes_agree r : agree (handleSecretRoutes (St:=S1) e r) (handleSecretRoutes (St:=S2) e r) s1 s2.
Proof. unfold handleSecretRoutes, listSecretVersions. agree_tac. Qed.
Lemma handleDeletedSecretRoutes_agree r : agree (handleDeletedSecretRoutes (St:=S1) r) (handleDeletedSecretRoutes (St:=S2) r) s1 s2.
Proof. unfold handleDeletedSecretRoutes. agree_tac. Qed.
Lemma handleKeyOperation_agree r name version operation :
  agree (handleKeyOperation (St:=S1) e r name version operation) (handleKeyOperation (St:=S2) e r name version operation) s1 s2.
Proof. unfold handleKeyOperation. agree_tac. Qed.

Context (r : Request) (Hr : bodies_ok r).

Lemma handleKeyPost_agree name rest :
  splitPath (r_Path r) "/keys/" = name :: rest →
  agree (handleKeyPost (St:=S1) e r name (name :: rest)) (handleKeyPost (St:=S2) e r name (name :: rest)) s1 s2.
Proof.
  intros Hp. unfold handleKeyPost. destruct rest as [|action [|operation [|]]]; [agree_tac| | |agree_tac].
  - case_decide; [agree_tac|]. case_decide as Hi; [|agree_tac].
    apply agree_body; [done|]. intros req Hb. apply agree_serve, (ag_ImportKey _ _ _ _ _ _ HK).
    + eapply parseBody_text; [|exact Hb]. apply ImportKeyRequest_text.
    + eapply Hr; [exact Hb|]. by rewrite Hp, Hi.
  - apply handleKeyOperation_agree.
Qed.

Lemma handleKeyRoutes_agree : agree (handleKeyRoutes (St:=S1) e r) (handleKeyRoutes (St:=S2) e r) s1 s2.
Proof.
  unfold handleKeyRoutes, handleKeyGet, listKeyVersions.
  destruct (splitPath (r_Path r) "/keys/") as [|name rest] eqn:Hp; [agree_tac|].
  case_decide; [by apply handleKeyPost_agree|]. agree_tac.
Qed.
Lemma handleDeletedKeyRoutes_agree : agree (handleDeletedKeyRoutes (St:=S1) r) (handleDeletedKeyRoutes (St:=S2) r) s1 s2.
Proof. unfold handleDeletedKeyRoutes. agree_tac. Qed.

(** The same route is taken. *)
Definition agree_route (h1 : option (HM S1)) (h2 : option (HM S2)) : Prop :=
  match h1, h2 with Some h1, Some h2 => agree h1 h2 s1 s2 | None, None => True | _, _ => False end.

Lemma secret_routes_agree : agree_route (secret_routes (St:=S1) e r) (secret_routes (St:=S2) e r).
Proof.
  unfold secret_routes. case_decide; [unfold http_listSecrets; agree_tac|]. case_decide as Hp.
  { unfold restoreSecret. apply agree_body; [done|]. intros req Hb. apply agree_serve, (ag_RestoreSecret _ _ _ _ _ _ HA).
    eapply Hr; [exact Hb|apply Hp]. }
  destruct (_ && _); [apply handleSecretRoutes_agree|].
  case_decide; [unfold HttpSecrets.listDeletedSecrets; agree_tac|].
  destruct (_ && _); [apply handleDeletedSecretRoutes_agree|done].
Qed.
Lemma key_routes_agree : agree_route (key_routes (St:=S1) e r) (key_routes (St:=S2) e r).
Proof.
  unfold key_routes. case_decide; [unfold http_listKeys; agree_tac|].
  destruct (_ && _); [apply handleKeyRoutes_agree|].
  case_decide; [unfold listDeletedKeys; agree_tac|]. destruct (_ && _); [apply handleDeletedKeyRoutes_agree|done].
Qed.

(** A path that is not a certificate's. *)
Definition no_certificate_path : Prop :=
  HasPrefix (r_Path r) "/certificates" = false ∧ HasPrefix (r_Path r) "/deletedcertificates" = false.

Lemma api_handler_agree {C1 : CertsApi S1} {C2 : CertsApi S2} :
  no_certificate_path → agree (api_handler (St:=S1) e r) (api_handler (St:=S2) e r) s1 s2.
Proof.
  intros [Hc Hd]. unfold api_handler. case_decide; [by apply agree_answer|].
  pose proof secret_routes_agree as Hsec. pose proof key_routes_agree as Hkey. unfold agree_route in Hsec, Hkey.
  destruct (secret_routes (St:=S1) e r), (secret_routes (St:=S2) e r); try done.
  destruct (key_routes (St:=S1) e r), (key_routes (St:=S2) e r); try done.
  assert (∀ St (CA : CertsApi St), certificate_routes e r = None) as Hnone.
  { intros St CA. unfold certificate_routes.
    rewrite (decide_False (P:=_ = "/certificates"%string ∧ _)) by (intros [Hp _]; by rewrite Hp in Hc).
    rewrite (decide_False (P:=_ = "/deletedcertificates"%string ∧ _)) by (intros [Hp _]; by rewrite Hp in Hd).
    rewrite (HasPrefix_longer _ "/certificates" "/"), (HasPrefix_longer _ "/deletedcertificates" "/") by done. done. }
  by rewrite !Hnone.
Qed.
End handlers.

(** ** The wrapper that encrypts *)

Section wrapper.
Context `{C : BlockCipher} {T1 : SecretStorer S1} {T2 : SecretStorer S2}.

(** The six calls the wrapper makes. *)
Record storer_agree (e : Env) (s1 : S1) (s2 : S2) : Prop := {
  ag_st_SetSecret name req : text_set req → agree (st_SetSecret e name req) (st_SetSecret e name req) s1 s2;
  ag_st_GetSecret name version : agree (st_GetSecret name version) (st_GetSecret name version) s1 s2;
  ag_st_UpdateSecret name version req : text_update req →
    agree (st_UpdateSecret e name version req) (st_UpdateSecret e name version req) s1 s2;
  ag_st_DeleteSecret name : agree (st_DeleteSecret e name) (st_DeleteSecret e name) s1 s2;
  ag_st_GetDeletedSecret name : agree (st_GetDeletedSecret name) (st_GetDeletedSecret name) s1 s2;
  ag_st_RecoverDeletedSecret name : agree (st_RecoverDeletedSecret name) (st_RecoverDeletedSecret name) s1 s2;
}.

Lemma encrypted_agree (es : encryptedStore) {A1 : SecretsApi S1} {A2 : SecretsApi S2} e restorable s1 s2 :
  R s1 s2 → storer_agree e s1 s2 →
  (∀ name req, text_set req → agree (st_SetSecret (skip_rand 1 e) name req) (st_SetSecret (skip_rand 1 e) name req) s1 s2) →
  secrets_agree A1 A2 e restorable s1 s2 →
  secrets_agree (encrypted_SecretsApi A1 es) (encrypted_SecretsApi A2 es) e restorable s1 s2.
Proof.
  intros Hs HT HT' HA. split; cbn; try apply HA.
  - intros name req Hreq. unfold es_SetSecret. destruct (getKey es) as [key|].
    + case_decide; [by apply HT|]. unfold agree, m_bind, m_lift.
      destruct (EncryptString e 0 key (ssr_Value req)) as [c|m|p] eqn:Hc; cbn [o_maperr]; [|done..].
      apply HT'. destruct Hreq as (_ & ? & ? & ?). split_and!; try done. cbn. by eapply EncryptString_text.
    + case_decide; [done|]. by apply HT.
  - intros name version. apply agree_fmap, HT.
  - intros name version req Hreq. by apply agree_fmap, HT.
  - intros name. apply agree_fmap, HT.
  - intros name. apply agree_fmap, HT.
  - intros name. apply agree_fmap, HT.
Qed.
End wrapper.
End agreement.
