(* ===== verification/HttpSecrecy.v ===== *)
(** * The JSON web keys in responses are public

    A JSON web key in a response carries no private member.  (The private key
    of a certificate leaves the store by design: as the PEM text that is the
    value of the secret of its name.)  [yields] is the program
    logic for it: an operation keeps an invariant of the store and its result
    has a property; a handler then does as well, whatever store it serves. *)

From S2P Require Import Prelude GoStrings GoJson GoCrypto GoX509 GoSql AesModes Encryption Model KeyCrypto CertCrypto StoreCore SecretStore EncryptedStore SecretBackup KeyStore CertStore StoreInv HttpJson CertJson Http HttpSecrets HttpKeys HttpCerts Toy.

(** ** Bodies *)

(** The private members of a JSON web key (RFC 7518).  What a client wrote
    may use any name: the tags, an object of strings, and the contents of a
    certificate policy, an object that has the members of a policy only. *)
Definition private_members : list string := ["d"; "p"; "q"; "dp"; "dq"; "qi"; "k"]%string.
Definition policy_members : list string :=
  ["id"; "issuer"; "key_props"; "secret_props"; "x509_props"; "lifetime_actions"; "attributes"]%string.

Definition is_tags (j : json) : bool :=
  match j with
  | JObj ms => forallb (λ m : string * json, match m.2 with JStr _ => true | _ => false end) ms
  | _ => false
  end.
Definition is_policy (j : json) : bool :=
  match j with JObj ms => forallb (λ m : string * json, bool_decide (m.1 ∈ policy_members)) ms | _ => false end.
Definition clients_words (name : string) (j : json) : bool :=
  bool_decide (name = "tags"%string) && is_tags j || bool_decide (name = "policy"%string) && is_policy j.

(** No object in it, what clients wrote aside, has a private member. *)
Fixpoint no_private_member (j : json) : bool :=
  match j with
  | JArr l => forallb no_private_member l
  | JObj ms =>
      forallb (λ m : string * json, bool_decide (m.1 ∉ private_members) &&
        (clients_words m.1 m.2 || no_private_member m.2)) ms
  | _ => true
  end.
Definition member_ok (m : string * json) : Prop :=
  m.1 ∉ private_members ∧ (clients_words m.1 m.2 = true ∨ no_private_member m.2 = true).

Lemma no_private_obj ms : no_private_member (JObj ms) = true ↔ Forall member_ok ms.
Proof.
  cbn [no_private_member]. rewrite forallb_forall, Forall_forall. unfold member_ok.
  setoid_rewrite <-list_elem_of_In. setoid_rewrite andb_true_iff. setoid_rewrite bool_decide_eq_true.
  split; intros H x Hx; destruct (H x Hx) as [Hp Hm]; (split; [done|]).
  - by apply orb_true_iff in Hm.
  - by apply orb_true_iff.
Qed.
Lemma no_private_arr l : no_private_member (JArr l) = true ↔ Forall (λ j, no_private_member j = true) l.
Proof. cbn [no_private_member]. rewrite forallb_forall, Forall_forall. by setoid_rewrite <-list_elem_of_In. Qed.

(** The members an encoder writes. *)
Lemma member_omitempty (b : bool) n j : (b = false → member_ok (n, j)) → Forall member_ok (omitempty b n j).
Proof. intros H. destruct b; [constructor|]. constructor; [by apply H|constructor]. Qed.
Lemma member_str n v : n ∉ private_members → Forall member_ok (str_field n v).
Proof. intros Hn. apply member_omitempty. split; [done|by right]. Qed.
Lemma member_int n v : n ∉ private_members → Forall member_ok (int_field n v).
Proof. intros Hn. apply member_omitempty. split; [done|by right]. Qed.
Lemma member_strings n l : n ∉ private_members → Forall member_ok (strings_field n l).
Proof. intros Hn. apply member_omitempty. split; [done|right]. apply no_private_arr, Forall_fmap, Forall_true. done. Qed.
Lemma member_empty n v : v = ""%string → Forall member_ok (str_field n v).
Proof. intros ->. constructor. Qed.
Lemma member_tags t : Forall member_ok (tags_field t).
Proof.
  unfold tags_field, omitempty. destruct t as [t|]; [|rewrite bool_decide_true by done; constructor].
  case_bool_decide; [constructor|]. constructor; [|constructor]. split; [set_solver|left].
  unfold clients_words, is_tags, enc_string_map. rewrite orb_true_iff, !andb_true_iff. left. split; [done|].
  apply forallb_forall. intros m Hm%list_elem_of_In. by apply list_elem_of_fmap in Hm as (k & -> & _).
Qed.
Lemma member_one n j : member_ok (n, j) → Forall member_ok [(n, j)].
Proof. by constructor. Qed.
Lemma member_attributes a : member_ok ("attributes"%string, json_of_attributes a).
Proof.
  split; [set_solver|right]. apply no_private_obj. repeat apply Forall_app_2.
  1-3: case_match; constructor; [split; [set_solver|by right]|constructor].
  all: apply member_omitempty; (split; [set_solver|by right]).
Qed.

Create HintDb members.
#[export] Hint Resolve Forall_app_2 Forall_nil_2 Forall_cons_2 member_str member_int member_strings member_tags member_one
  member_attributes : members.
#[export] Hint Extern 1 (_ ∉ private_members) => by apply (bool_decide_unpack _) : members.
Lemma secret_bundle_members_ok b : Forall member_ok (secret_bundle_members b).
Proof. unfold secret_bundle_members. auto 10 with members. Qed.

(** ** The response types *)

Lemma deleted_members_ok r d p : Forall member_ok (deleted_members r d p).
Proof. unfold deleted_members. auto 10 with members. Qed.
#[export] Hint Resolve secret_bundle_members_ok deleted_members_ok : members.

(** A public JSON web key shows nothing private. *)
Lemma public_key_shown k : jwk_is_public k → no_private_member (json_of_JSONWebKey k) = true.
Proof.
  intros Hk. apply no_private_obj.
  destruct k as [kid kty ops n e d p q dp dq qi crv x y sym]. unfold jwk_is_public, jwk_private in Hk. cbn in Hk.
  rewrite !Forall_cons in Hk. destruct Hk as (-> & -> & -> & -> & -> & -> & -> & _). cbn. auto 20 with members.
Qed.
Lemma key_bundle_members_ok b : jwk_is_public (kb_Key b) → Forall member_ok (key_bundle_members b).
Proof.
  intros Hk%public_key_shown. unfold key_bundle_members, member_ok. apply Forall_app_2; [|auto with members].
  constructor; [split; [set_solver|by right]|auto with members].
Qed.
#[export] Hint Resolve key_bundle_members_ok : members.

Lemma json_of_CertificatePolicy_ok p j : json_of_CertificatePolicy p = Some j → is_policy j = true.
Proof.
  unfold json_of_CertificatePolicy. intros H.
  assert (∀ n b v, n ∈ policy_members → Forall (λ m : string * json, m.1 ∈ policy_members) (omitempty b n v)) as Ho
    by (intros n b v Hn; destruct b; by constructor).
  assert (∀ n m l, n ∈ policy_members → anymap_field n m = Some l → Forall (λ m, m.1 ∈ policy_members) l) as Hf
    by (intros n m l Hn (v & _ & ->)%fmap_Some; by apply Ho).
  repeat match type of H with
  | anymap_field ?n _ ≫= _ = Some _ => let Hx := fresh in apply bind_Some in H as (? & Hx & H); apply Hf in Hx; [|set_solver..]
  | _ ≫= _ = Some _ => apply bind_Some in H as (? & _ & H)
  end.
  injection H as <-. unfold is_policy. apply forallb_forall. intros m Hm%list_elem_of_In.
  apply bool_decide_eq_true. revert m Hm. apply Forall_forall.
  repeat apply Forall_app_2; try done; apply Ho; set_solver.
Qed.
Lemma certificate_bundle_members_ok b ms : certificate_bundle_members b = Some ms → Forall member_ok ms.
Proof.
  unfold certificate_bundle_members. intros (policy & Hp & [= <-])%bind_Some.
  assert (Forall member_ok policy).
  { destruct (cb_Policy b) as [p|]; [|injection Hp as <-; constructor]. apply bind_Some in Hp as (j & Hj & [= <-]).
    constructor; [|constructor]. split; [set_solver|left]. cbn [fst snd]. unfold clients_words.
    by rewrite (json_of_CertificatePolicy_ok p j). }
  auto 10 with members.
Qed.
Lemma json_of_ListResult_ok {T} (enc : T → json) l :
  Forall (λ x, no_private_member (enc x) = true) (lr_Value l) → no_private_member (json_of_ListResult enc l) = true.
Proof.
  intros Hl. apply no_private_obj. constructor.
  - split; [set_solver|right]. by apply no_private_arr, Forall_fmap.
  - destruct (lr_NextLink l); [|constructor]. constructor; [|constructor]. split; [set_solver|by right].
Qed.

(** ** Operations and handlers *)

(** What a response shows: a body that is a policy is the client's words. *)
Definition shows_no_key (rsp : Response) : Prop :=
  match rsp_Body rsp with JsonBody j => no_private_member j = true ∨ is_policy j = true | _ => True end.

Section logic.
Context {St : Type} (Inv : St → Prop).

(** The operation keeps [Inv], and what it returns has [Q]. *)
Definition yields {E A} (Q : A → Prop) (m : M St E A) : Prop :=
  ∀ s, Inv s → Inv (m s).2 ∧ ∀ a, (m s).1 = Ok a → Q a.
Definition respects {E A} : M St E A → Prop := yields (λ _, True).

Lemma respects_of_yields {E A} Q (m : M St E A) : yields Q m → respects m.
Proof. intros H s Hs. destruct (H s Hs). done. Qed.
Lemma yields_bind {E A B} (P : A → Prop) (Q : B → Prop) (m : M St E A) (k : A → M St E B) :
  yields P m → (∀ a, P a → yields Q (k a)) → yields Q (m_bind m k).
Proof.
  intros Hm Hk s Hs. destruct (Hm s Hs) as [Hs' Ha]. unfold m_bind.
  destruct (m s) as [[a| |] s']; [by apply Hk; [apply Ha|]|done..].
Qed.
Lemma yields_lift {E A} (Q : A → Prop) (o : outcome E A) : (∀ a, o = Ok a → Q a) → yields Q (m_lift o).
Proof. intros H s Hs. by split. Qed.
Lemma yields_read {E A} (Q : A → Prop) (m : M St E A) :
  (∀ s, (m s).2 = s) → (∀ s a, Inv s → (m s).1 = Ok a → Q a) → yields Q m.
Proof. intros H Hq s Hs. rewrite H. split; [done|]. intros a. by apply Hq. Qed.

Lemma yields_answer rsp : shows_no_key rsp → yields shows_no_key (answer rsp).
Proof. intros H s Hs. split; [done|]. by intros ? [= <-]. Qed.
Lemma yields_panic {E A} (Q : A → Prop) p : yields Q (λ s, (Panic p : outcome E A, s)).
Proof. intros s Hs. by split. Qed.
Lemma yields_refused err : yields shows_no_key (answer (writeError err)).
Proof. apply yields_answer. by destruct err. Qed.
Lemma yields_serve {A} (Q : A → Prop) (op : M St error A) ok :
  yields Q op → (∀ a, Q a → shows_no_key (ok a)) → yields shows_no_key (serve op ok).
Proof.
  intros Hop Hok s Hs. destruct (Hop s Hs) as [Hs' Ha]. unfold serve.
  destruct (op s) as [[a|err|p] s']; (split; [done|]).
  - intros rsp [= <-]. by apply Hok, Ha.
  - intros rsp [= <-]. by destruct err.
  - done.
Qed.
Lemma yields_body `{JsonErrors} {A} kind (decode : json → option A) r (k : A → HM St) :
  (∀ v, yields shows_no_key (k v)) → yields shows_no_key (with_body kind decode r k).
Proof. intros Hk. unfold with_body. destruct (parseBody kind decode r); [done|apply yields_refused|apply yields_panic]. Qed.
Lemma yields_listing {R X} (Q : R → Prop) r (op : Z → string → M St error (list R * option string)) (item : R → X) enc :
  (∀ m t, yields (λ p, Forall Q p.1) (op m t)) →
  (∀ l next, Forall Q l → shows_no_key (write_value StatusOK (enc (mkListResult (map item l) next)))) →
  yields shows_no_key (listing r op item enc).
Proof.
  intros Hop He. unfold listing. destruct (parsePagination r) as [[m t]| |]; [|apply yields_refused|apply yields_panic].
  eapply yields_serve; [apply Hop|]. intros [l next]. apply He.
Qed.
Lemma respects_listing {R X} r (op : Z → string → M St error (list R * option string)) (item : R → X) enc :
  (∀ m t, respects (op m t)) → (∀ l next, shows_no_key (write_value StatusOK (enc (mkListResult (map item l) next)))) →
  yields shows_no_key (listing r op item enc).
Proof.
  intros Hop He. apply (yields_listing (λ _, True)); [|by intros]. intros m t s Hs. destruct (Hop m t s Hs).
  split; [done|]. intros p _. by apply Forall_true.
Qed.

(** ** What the handlers need of a store

    Every operation respects the invariant, and a key record that an operation
    returns holds a public JSON web key. *)

Record secrets_keep (A : SecretsApi St) : Prop := {
  sk_SetSecret e name req : respects (api_SetSecret e name req);
  sk_GetSecret name version : respects (api_GetSecret name version);
  sk_ListSecrets m t : respects (api_ListSecrets m t);
  sk_ListSecretVersions name m t : respects (api_ListSecretVersions name m t);
  sk_UpdateSecret e name version req : respects (api_UpdateSecret e name version req);
  sk_DeleteSecret e name : respects (api_DeleteSecret e name);
  sk_ListDeletedSecrets m t : respects (api_ListDeletedSecrets m t);
  sk_GetDeletedSecret name : respects (api_GetDeletedSecret name);
  sk_PurgeDeletedSecret name : respects (api_PurgeDeletedSecret name);
  sk_RecoverDeletedSecret name : respects (api_RecoverDeletedSecret name);
  sk_BackupSecret name : respects (api_BackupSecret name);
  sk_RestoreSecret token : respects (api_RestoreSecret token);
}.

Definition public_record (r : KeyRecord) : Prop := jwk_is_public (kr_Key r).
Definition public_deleted (d : DeletedKeyRecord) : Prop := public_record (dkr_KeyRecord d).
Record keys_public (K : KeysApi St) : Prop := {
  kp_CreateKey e name req : yields public_record (api_CreateKey e name req);
  kp_ImportKey e name req : yields public_record (api_ImportKey e name req);
  kp_GetKey name version : yields public_record (api_GetKey name version);
  kp_ListKeys m t : yields (λ p, Forall public_record p.1) (api_ListKeys m t);
  kp_ListKeyVersions name m t : yields (λ p, Forall public_record p.1) (api_ListKeyVersions name m t);
  kp_UpdateKey e name version req : yields public_record (api_UpdateKey e name version req);
  kp_DeleteKey e name : yields public_deleted (api_DeleteKey e name);
  kp_ListDeletedKeys m t : yields (λ p, Forall public_deleted p.1) (api_ListDeletedKeys m t);
  kp_GetDeletedKey name : yields public_deleted (api_GetDeletedKey name);
  kp_PurgeDeletedKey name : respects (api_PurgeDeletedKey name);
  kp_RecoverDeletedKey name : yields public_record (api_RecoverDeletedKey name);
  kp_Encrypt e name version req : respects (api_Encrypt e name version req);
  kp_Decrypt name version req : respects (api_Decrypt name version req);
  kp_Sign e name version req : respects (api_Sign e name version req);
  kp_Verify name version req : respects (api_Verify name version req);
  kp_WrapKey e name version req : respects (api_WrapKey e name version req);
  kp_UnwrapKey name version req : respects (api_UnwrapKey name version req);
}.

Record certificates_keep (A : CertsApi St) : Prop := {
  ck_CreateCertificate e name req : respects (api_CreateCertificate e name req);
  ck_ImportCertificate e name req : respects (api_ImportCertificate e name req);
  ck_GetCertificate name version : respects (api_GetCertificate name version);
  ck_ListCertificates m t : respects (api_ListCertificates m t);
  ck_ListCertificateVersions name m t : respects (api_ListCertificateVersions name m t);
  ck_UpdateCertificate e name version req : respects (api_UpdateCertificate e name version req);
  ck_GetCertificatePolicy name : respects (api_GetCertificatePolicy name);
  ck_UpdateCertificatePolicy e name policy : respects (api_UpdateCertificatePolicy e name policy);
  ck_GetPendingCertificateOperation name : respects (api_GetPendingCertificateOperation name);
  ck_DeleteCertificate e name : respects (api_DeleteCertificate e name);
  ck_ListDeletedCertificates m t : respects (api_ListDeletedCertificates m t);
  ck_GetDeletedCertificate name : respects (api_GetDeletedCertificate name);
  ck_PurgeDeletedCertificate name : respects (api_PurgeDeletedCertificate name);
  ck_RecoverDeletedCertificate name : respects (api_RecoverDeletedCertificate name);
}.
End logic.

(** ** The answers *)

Lemma page_shown {R X} (P : R → Prop) (item : R → X) (enc : X → json) l next :
  (∀ x, P x → no_private_member (enc (item x)) = true) → Forall P l →
  shows_no_key (write_value StatusOK (json_page enc (mkListResult (map item l) next))).
Proof. intros Hx Hl. left. apply json_of_ListResult_ok, Forall_fmap. eapply Forall_impl; [exact Hl|apply Hx]. Qed.
Lemma page_opt_shown {R X} (item : R → X) (enc : X → option json) l next :
  (∀ x j, enc x = Some j → no_private_member j = true) →
  shows_no_key (write_value StatusOK (json_page_opt enc (mkListResult (map item l) next))).
Proof.
  intros Hx. unfold json_page_opt. cbn [lr_Value lr_NextLink].
  destruct (mapM enc (map item l)) as [js|] eqn:Hm; [|done].
  left. change (no_private_member (json_of_ListResult id (mkListResult js next)) = true). apply json_of_ListResult_ok.
  apply mapM_Some in Hm. eapply Forall2_Forall_r; [exact Hm|]. apply Forall_true. intros x j. apply Hx.
Qed.

Lemma certificate_json_shown b j : json_of_CertificateBundle b = Some j → no_private_member j = true.
Proof. intros (ms & Hms & ->)%fmap_Some. apply no_private_obj. by eapply certificate_bundle_members_ok. Qed.
Lemma deleted_certificate_json_shown d j : json_of_DeletedCertificateBundle d = Some j → no_private_member j = true.
Proof.
  intros (ms & Hms%certificate_bundle_members_ok & ->)%fmap_Some. apply no_private_obj. auto with members.
Qed.
Lemma write_value_shown status (v : option json) :
  (∀ j, v = Some j → no_private_member j = true) → shows_no_key (write_value status v).
Proof. destruct v; [|done]. intros H. left. by apply H. Qed.

Lemma item_shown ms : Forall member_ok ms → no_private_member (JObj ms) = true.
Proof. apply no_private_obj. Qed.
Lemma object_shown status ms : Forall member_ok ms → shows_no_key (writeJSON status (JObj ms)).
Proof. left. by apply item_shown. Qed.

Section answers.
Context (r : Request).
Lemma secret_shown record : shows_no_key (secret_ok r record).
Proof. apply object_shown. auto with members. Qed.
Lemma deleted_secret_shown record : shows_no_key (deleted_secret_ok r record).
Proof. apply object_shown. auto with members. Qed.
Lemma key_shown record : public_record record → shows_no_key (key_ok r record).
Proof. intros H. apply object_shown, key_bundle_members_ok. apply H. Qed.
Lemma deleted_key_shown record : public_deleted record → shows_no_key (deleted_key_ok r record).
Proof. intros H. apply object_shown, Forall_app_2; [apply key_bundle_members_ok, H|auto with members]. Qed.
Lemma crypto_shown name version alg v : shows_no_key (crypto_ok r name version alg v).
Proof. apply object_shown. auto 10 with members. Qed.
Lemma certificate_shown record : shows_no_key (certificate_ok r record).
Proof. apply write_value_shown, certificate_json_shown. Qed.
Lemma deleted_certificate_shown record : shows_no_key (deleted_certificate_ok r record).
Proof. apply write_value_shown, deleted_certificate_json_shown. Qed.
Lemma policy_shown policy : shows_no_key (policy_ok policy).
Proof.
  unfold policy_ok, json_of_policy_ptr. destruct policy as [p|]; [|by left].
  destruct (json_of_CertificatePolicy p) as [j|] eqn:Hj; [|done]. right. by eapply json_of_CertificatePolicy_ok.
Qed.
Lemma operation_shown o : shows_no_key (writeJSON StatusOK (json_of_CertificateOperation o)).
Proof. apply object_shown. repeat apply Forall_app_2; auto with members. constructor; [|constructor]. split; [set_solver|by right]. Qed.
Lemma secret_page_shown l next :
  shows_no_key (write_value StatusOK (json_page json_of_SecretItem (mkListResult (map (secret_item r) l) next))).
Proof. apply (page_shown (λ _, True)); [|by apply Forall_true]. intros x _. apply item_shown. auto 10 with members. Qed.
Lemma deleted_secret_page_shown l next :
  shows_no_key (write_value StatusOK (json_page json_of_DeletedSecretBundle (mkListResult (map (deletedSecretBundle r) l) next))).
Proof. apply (page_shown (λ _, True)); [|by apply Forall_true]. intros x _. apply item_shown. auto with members. Qed.
Lemma key_page_shown l next :
  shows_no_key (write_value StatusOK (json_page json_of_KeyItem (mkListResult (map (key_item r) l) next))).
Proof. apply (page_shown (λ _, True)); [|by apply Forall_true]. intros x _. apply item_shown. auto 10 with members. Qed.
Lemma deleted_key_page_shown l next : Forall public_deleted l →
  shows_no_key (write_value StatusOK (json_page json_of_DeletedKeyBundle (mkListResult (map (deletedKeyBundle r) l) next))).
Proof. apply page_shown. intros x Hx. apply item_shown, Forall_app_2; [apply key_bundle_members_ok, Hx|auto with members]. Qed.
Lemma certificate_page_shown l next :
  shows_no_key (write_value StatusOK (json_page json_of_CertificateItem (mkListResult (map (certificateItem r) l) next))).
Proof. apply (page_shown (λ _, True)); [|by apply Forall_true]. intros x _. apply item_shown. auto 10 with members. Qed.
Lemma deleted_certificate_page_shown l next :
  shows_no_key (write_value StatusOK (json_page_opt json_of_DeletedCertificateBundle (mkListResult (map (deletedCertificateBundle r) l) next))).
Proof. apply page_opt_shown, deleted_certificate_json_shown. Qed.
End answers.
Create HintDb shown.
#[export] Hint Resolve secret_shown deleted_secret_shown key_shown deleted_key_shown crypto_shown certificate_shown
  deleted_certificate_shown policy_shown operation_shown secret_page_shown deleted_secret_page_shown key_page_shown
  deleted_key_page_shown certificate_page_shown deleted_certificate_page_shown : shown.
#[export] Hint Extern 1 (shows_no_key (mkResponse _ NoBody)) => exact I : shown.
#[export] Hint Extern 1 (shows_no_key (writeJSON _ _)) => left; reflexivity : shown.

(** ** Handlers *)

Section handlers.
Context `{JE : JsonErrors} {St : Type} (Inv : St → Prop) {SA : SecretsApi St} {KA : KeysApi St} {CA : CertsApi St}.
Context (HS : secrets_keep Inv SA) (HK : keys_public Inv KA) (HC : certificates_keep Inv CA) (e : Env) (r : Request).

Ltac op_tac :=
  first
    [ apply (sk_SetSecret _ _ HS) | apply (sk_GetSecret _ _ HS) | apply (sk_ListSecrets _ _ HS)
    | apply (sk_ListSecretVersions _ _ HS) | apply (sk_UpdateSecret _ _ HS) | apply (sk_DeleteSecret _ _ HS)
    | apply (sk_ListDeletedSecrets _ _ HS) | apply (sk_GetDeletedSecret _ _ HS) | apply (sk_PurgeDeletedSecret _ _ HS)
    | apply (sk_RecoverDeletedSecret _ _ HS) | apply (sk_BackupSecret _ _ HS) | apply (sk_RestoreSecret _ _ HS)
    | apply (kp_CreateKey _ _ HK) | apply (kp_ImportKey _ _ HK) | apply (kp_GetKey _ _ HK) | apply (kp_ListKeys _ _ HK)
    | apply (kp_ListKeyVersions _ _ HK) | apply (kp_UpdateKey _ _ HK) | apply (kp_DeleteKey _ _ HK)
    | apply (kp_ListDeletedKeys _ _ HK) | apply (kp_GetDeletedKey _ _ HK) | apply (kp_PurgeDeletedKey _ _ HK)
    | apply (kp_RecoverDeletedKey _ _ HK) | apply (kp_Encrypt _ _ HK) | apply (kp_Decrypt _ _ HK) | apply (kp_Sign _ _ HK)
    | apply (kp_Verify _ _ HK) | apply (kp_WrapKey _ _ HK) | apply (kp_UnwrapKey _ _ HK)
    | apply (ck_CreateCertificate _ _ HC) | apply (ck_ImportCertificate _ _ HC) | apply (ck_GetCertificate _ _ HC)
    | apply (ck_ListCertificates _ _ HC) | apply (ck_ListCertificateVersions _ _ HC) | apply (ck_UpdateCertificate _ _ HC)
    | apply (ck_GetCertificatePolicy _ _ HC) | apply (ck_UpdateCertificatePolicy _ _ HC)
    | apply (ck_GetPendingCertificateOperation _ _ HC) | apply (ck_DeleteCertificate _ _ HC)
    | apply (ck_ListDeletedCertificates _ _ HC) | apply (ck_GetDeletedCertificate _ _ HC)
    | apply (ck_PurgeDeletedCertificate _ _ HC) | apply (ck_RecoverDeletedCertificate _ _ HC) ].
Ltac yields_tac :=
  repeat first
    [ apply yields_refused
    | apply yields_answer; exact I
    | apply yields_body; intros ?
    | eapply yields_listing; [intros ? ?; op_tac|auto with shown]
    | eapply respects_listing; [intros ? ?; op_tac|auto with shown]
    | eapply yields_serve; [repeat case_decide; op_tac|auto with shown]
    | case_decide | case_match ].

Lemma handleSecretRoutes_quiet : yields Inv shows_no_key (handleSecretRoutes e r).
Proof. unfold handleSecretRoutes, listSecretVersions. yields_tac. Qed.
Lemma handleDeletedSecretRoutes_quiet : yields Inv shows_no_key (handleDeletedSecretRoutes r).
Proof. unfold handleDeletedSecretRoutes. yields_tac. Qed.
Lemma handleKeyOperation_quiet name version operation :
  yields Inv shows_no_key (handleKeyOperation e r name version operation).
Proof. unfold handleKeyOperation. yields_tac. Qed.
Lemma handleKeyRoutes_quiet : yields Inv shows_no_key (handleKeyRoutes e r).
Proof.
  unfold handleKeyRoutes, handleKeyPost, handleKeyGet, listKeyVersions.
  repeat first [apply handleKeyOperation_quiet|case_match|case_decide]; yields_tac.
Qed.
Lemma handleDeletedKeyRoutes_quiet : yields Inv shows_no_key (handleDeletedKeyRoutes r).
Proof. unfold handleDeletedKeyRoutes. yields_tac. Qed.
Lemma handleCertificateRoutes_quiet : yields Inv shows_no_key (handleCertificateRoutes e r).
Proof.
  unfold handleCertificateRoutes, handleCertificatePost, handleCertificateGet, handleCertificatePatch,
    listCertificateVersions. yields_tac.
Qed.
Lemma handleDeletedCertificateRoutes_quiet : yields Inv shows_no_key (handleDeletedCertificateRoutes r).
Proof. unfold handleDeletedCertificateRoutes. yields_tac. Qed.

Lemma routes_quiet h :
  secret_routes e r = Some h ∨ key_routes e r = Some h ∨ certificate_routes e r = Some h → yields Inv shows_no_key h.
Proof.
  unfold secret_routes, key_routes, certificate_routes. intros Hh.
  destruct_or! Hh; revert Hh; repeat (case_match; [intros [= <-]|]); try done;
    unfold http_listSecrets, restoreSecret, HttpSecrets.listDeletedSecrets, http_listKeys, listDeletedKeys,
      http_listCertificates, listDeletedCertificates;
    auto using handleSecretRoutes_quiet, handleDeletedSecretRoutes_quiet, handleKeyRoutes_quiet,
      handleDeletedKeyRoutes_quiet, handleCertificateRoutes_quiet, handleDeletedCertificateRoutes_quiet;
    yields_tac.
Qed.

Lemma api_handler_quiet : yields Inv shows_no_key (api_handler e r).
Proof.
  unfold api_handler. case_decide; [apply yields_answer; by left|].
  destruct (secret_routes e r) eqn:Hs; [apply routes_quiet; auto|].
  destruct (key_routes e r) eqn:Hk; [apply routes_quiet; auto|].
  destruct (certificate_routes e r) eqn:Hc; [apply routes_quiet; auto|apply yields_refused].
Qed.
End handlers.

(** ** The wrapper that encrypts *)

Lemma encrypted_keep `{C : BlockCipher} {St : Type} (Inv : St → Prop) {A : SecretsApi St} {S : SecretStorer St} es :
  secrets_keep Inv A →
  (∀ e name req, respects Inv (st_SetSecret e name req)) → (∀ name version, respects Inv (st_GetSecret name version)) →
  (∀ e name version req, respects Inv (st_UpdateSecret e name version req)) →
  (∀ e name, respects Inv (st_DeleteSecret e name)) → (∀ name, respects Inv (st_GetDeletedSecret name)) →
  (∀ name, respects Inv (st_RecoverDeletedSecret name)) →
  secrets_keep Inv (encrypted_SecretsApi A es).
Proof.
  intros HA Hset Hget Hupd Hdel Hgone Hrec.
  assert (∀ X Y (g : X → Y) (m : M St error X), respects Inv m → respects Inv (let* x := m in m_ret (g x))) as Hmap.
  { intros X Y g m Hm. eapply yields_bind; [exact Hm|]. intros x _. by apply yields_lift. }
  split; cbn; try apply HA; intros; try (apply Hmap; auto).
  unfold es_SetSecret. destruct (getKey es); case_decide; auto; try by apply yields_lift.
  eapply (yields_bind _ (λ _, True)); [by apply yields_lift|]. intros v _. apply Hset.
Qed.

(** ** The in-memory store *)

Section store.
Context `{C : BlockCipher} `{L : PublicKeyLib} `{X : CertLib}.


(** A call of the store's transition system. *)
Lemma preserves_call {A} (m : SM A) c : (∃ e, ∀ s, exec e c s = void m s) → preserves m.
Proof. intros [e Hm] s Hs. rewrite <-void_state, <-Hm. by apply exec_preserves. Qed.
Lemma respects_call {A} (m : SM A) c : (∃ e, ∀ s, exec e c s = void m s) → respects store_ok m.
Proof. intros Hm s Hs. split; [by eapply preserves_call|done]. Qed.

(** One whose results have [Q]. *)
Definition gives {A} (Q : A → Prop) (m : SM A) : Prop := ∀ s a, store_ok s → (m s).1 = Ok a → Q a.
Lemma yields_call {A} (Q : A → Prop) (m : SM A) c :
  (∃ e, ∀ s, exec e c s = void m s) → gives Q m → yields store_ok Q m.
Proof. intros Hm Hq s Hs. split; [by eapply preserves_call|]. intros a. by apply Hq. Qed.

(** *** The keys it returns are public *)

Lemma found_public name en version i v :
  findKeyVersion en version = Some (i, v) → versions_ok key_version_ok name (ke_versions en) →
  public_record (cloneKeyRecord (kv_record v)).
Proof. rewrite cloneKeyRecord_id. intros Hf Hv. by destruct (found_key _ _ _ _ name Hf Hv) as (_ & _ & Hp). Qed.
Lemma latest_public name en v :
  deref (latestKey (Some en)) = Ok v → versions_ok key_version_ok name (ke_versions en) →
  public_record (cloneKeyRecord (kv_record v)).
Proof.
  intros Hl Hv. destruct (latestKey (Some en)) as [[i v']|] eqn:He; [|done]. injection Hl as <-.
  eapply (found_public name en "" i); [|done]. unfold findKeyVersion. by rewrite decide_True.
Qed.
Lemma deleted_public name d rec :
  deleted_key_record d = Ok rec → versions_ok key_version_ok name (ke_versions (dke_entry d)) → public_deleted rec.
Proof. unfold deleted_key_record. intros (v & Hv & [= <-])%o_bind_Ok Hok. by eapply latest_public. Qed.

Lemma m_bind_Ok {S E A B} (m : M S E A) (k : A → M S E B) s b :
  (m_bind m k s).1 = Ok b → ∃ a s', m s = (Ok a, s') ∧ (k a s').1 = Ok b.
Proof. unfold m_bind. destruct (m s) as [[a| |] s']; [eauto|done..]. Qed.

(** Follows a run that succeeded. *)
Ltac follow H :=
  repeat match type of H with
  | (m_bind m_get _ _).1 = Ok _ => unfold m_bind at 1, m_get in H
  | (m_bind (m_lift _) _ _).1 = Ok _ =>
      let E := fresh "E" in apply m_bind_Ok in H as (? & ? & E & H); injection E as E <-
  | (m_bind _ _ _).1 = Ok _ => let E := fresh "E" in apply m_bind_Ok in H as (? & ? & E & H)
  | (match ?x with _ => _ end _).1 = Ok _ => let E := fresh "E" in destruct x eqn:E; try done
  | ((if decide ?P then _ else _) _).1 = Ok _ => destruct (decide P); try done
  | (m_lift _ _).1 = Ok _ => unfold m_lift in H; cbn [fst] in H
  | (m_ret _ _).1 = Ok _ => injection H as <-
  end.

Ltac use_versions := use_entry; cbn beta in *.

Lemma GetKey_public name version : gives public_record (GetKey name version).
Proof.
  intros s a Hs H. unfold GetKey in H. follow H. use_versions. eapply found_public; eassumption.
Qed.
Lemma UpdateKey_public e name version req : gives public_record (UpdateKey e name version req).
Proof.
  intros s a Hs H. unfold UpdateKey in H. follow H. use_versions.
  eapply found_public in E0; [|eassumption]. rewrite cloneKeyRecord_id in E0 |- *. unfold public_record, update_key_record. cbn. by destruct (ukr_KeyOps req).
Qed.
Lemma o_maperr_Ok {E1 E2 A} (g : E1 → E2) (o : outcome E1 A) a : o_maperr g o = Ok a → o = Ok a.
Proof. destruct o; [|done..]. by intros [= ->]. Qed.
Lemma CreateKey_public e name req : gives public_record (CreateKey e name req).
Proof.
  intros s a Hs H. unfold CreateKey in H. follow H. rewrite cloneKeyRecord_id.
  match goal with Hg : o_maperr _ _ = Ok _ |- _ => apply o_maperr_Ok in Hg; subst end.
  by eapply generated_public, GenerateKey_generated.
Qed.
Lemma ImportKey_result_public e name req : gives public_record (KeyStore.ImportKey e name req).
Proof.
  intros s a Hs H. unfold KeyStore.ImportKey in H. follow H. rewrite cloneKeyRecord_id.
  match goal with Hg : o_maperr _ _ = Ok _ |- _ => apply o_maperr_Ok in Hg; subst end.
  match goal with Hg : KeyCrypto.ImportKey _ _ = Ok _ |- _ => by apply ImportKey_public in Hg as [Hg _] end.
Qed.
Lemma DeleteKey_public e name : gives public_deleted (DeleteKey e name).
Proof. intros s a Hs H. unfold DeleteKey in H. follow H. use_versions. by eapply latest_public. Qed.
Lemma RecoverDeletedKey_public name : gives public_record (RecoverDeletedKey name).
Proof. intros s a Hs H. unfold RecoverDeletedKey in H. follow H. use_versions. by eapply latest_public. Qed.
Lemma GetDeletedKey_public name : gives public_deleted (GetDeletedKey name).
Proof.
  intros s a Hs H. unfold GetDeletedKey in H. follow H. use_versions. by eapply deleted_public.
Qed.
Lemma ListKeys_public m t : gives (λ p, Forall public_record p.1) (ListKeys m t).
Proof.
  intros s a Hs H. unfold ListKeys in H. follow H. cbn [fst]. apply Forall_forall. intros r Hr.
  apply list_elem_of_omap in Hr as (name & _ & Hr). destruct (keys s !! name) as [en|] eqn:He; [|done]. use_versions.
  destruct (latestKey (Some en)) as [[i v]|] eqn:Hl; [|done]. injection Hr as <-. eapply latest_public; [|done]. by rewrite Hl.
Qed.
Lemma ListKeyVersions_public name m t : gives (λ p, Forall public_record p.1) (ListKeyVersions name m t).
Proof.
  intros s a Hs H. unfold ListKeyVersions in H. follow H. destruct a as [page next]. use_versions.
  apply Forall_forall. intros r Hr. eapply paginateNames_elem in Hr; [|exact H].
  apply list_elem_of_fmap in Hr as (v & -> & Hv). rewrite elem_of_reverse in Hv.
  destruct H0 as [_ Hall]. rewrite Forall_forall in Hall. destruct (Hall _ Hv) as (_ & _ & Hp). by rewrite cloneKeyRecord_id.
Qed.
Lemma ListDeletedKeys_public m t : gives (λ p, Forall public_deleted p.1) (ListDeletedKeys m t).
Proof.
  intros s a Hs H. unfold ListDeletedKeys in H. follow H. cbn [fst].
  match goal with Ht : o_traverse _ _ = Ok _ |- _ => eapply o_traverse_Forall; [exact Ht|] end.
  intros name d _ Hd. cbn beta in Hd. destruct (deletedKeys s !! name) as [g|] eqn:He; [|done]. use_versions. by eapply deleted_public.
Qed.

(** *** The three interfaces *)

Ltac is_call c := eapply (respects_call _ c); by exists toy_env.
Ltac is_call_in e c := eapply (respects_call _ c); by exists e.
Ltac by_public e c H := eapply (yields_call _ _ c); [by exists e|apply H].

Lemma Store_secrets_keep : secrets_keep store_ok Store_SecretsApi.
Proof.
  split; cbn; intros.
  - is_call_in e (CSetSecret name req).
  - is_call (CGetSecret name version).
  - is_call (CListSecrets m t).
  - is_call (CListSecretVersions name m t).
  - is_call_in e (CUpdateSecret name version req).
  - is_call_in e (CDeleteSecret name).
  - is_call (CListDeletedSecrets m t).
  - is_call (CGetDeletedSecret name).
  - is_call (CPurgeDeletedSecret name).
  - is_call (CRecoverDeletedSecret name).
  - is_call (CBackupSecret name).
  - is_call (CRestoreSecret token).
Qed.
Lemma Store_keys_public : keys_public store_ok Store_KeysApi.
Proof.
  split; cbn; intros.
  - by_public e (CCreateKey name req) CreateKey_public.
  - by_public e (CImportKey name req) ImportKey_result_public.
  - by_public toy_env (CGetKey name version) GetKey_public.
  - by_public toy_env (CListKeys m t) ListKeys_public.
  - by_public toy_env (CListKeyVersions name m t) ListKeyVersions_public.
  - by_public e (CUpdateKey name version req) UpdateKey_public.
  - by_public e (CDeleteKey name) DeleteKey_public.
  - by_public toy_env (CListDeletedKeys m t) ListDeletedKeys_public.
  - by_public toy_env (CGetDeletedKey name) GetDeletedKey_public.
  - is_call (CPurgeDeletedKey name).
  - by_public toy_env (CRecoverDeletedKey name) RecoverDeletedKey_public.
  - is_call_in e (CEncrypt name version req).
  - is_call (CDecrypt name version req).
  - is_call_in e (CSign name version req).
  - is_call (CVerify name version req).
  - is_call_in e (CWrapKey name version req).
  - is_call (CUnwrapKey name version req).
Qed.
Lemma Store_certificates_keep : certificates_keep store_ok Store_CertsApi.
Proof.
  split; cbn; intros.
  - is_call_in e (CCreateCertificate name req).
  - is_call_in e (CImportCertificate name req).
  - is_call (CGetCertificate name version).
  - is_call (CListCertificates m t).
  - is_call (CListCertificateVersions name m t).
  - is_call_in e (CUpdateCertificate name version req).
  - is_call (CGetCertificatePolicy name).
  - is_call_in e (CUpdateCertificatePolicy name policy).
  - is_call (CGetPendingCertificateOperation name).
  - is_call_in e (CDeleteCertificate name).
  - is_call (CListDeletedCertificates m t).
  - is_call (CGetDeletedCertificate name).
  - is_call (CPurgeDeletedCertificate name).
  - is_call (CRecoverDeletedCertificate name).
Qed.

(** The handler over the store, behind the wrapper. *)
Lemma over_store_quiet `{JE : JsonErrors} es e r :
  yields store_ok shows_no_key
    (@api_handler JE Store (encrypted_SecretsApi Store_SecretsApi es) Store_KeysApi Store_CertsApi e r).
Proof.
  pose proof Store_secrets_keep as HS.
  apply api_handler_quiet; [|apply Store_keys_public|apply Store_certificates_keep].
  apply encrypted_keep; [done|cbn; apply HS..].
Qed.
End store.
