(* ===== verification/HttpBackends.v ===== *)
(** * The REST API over the two backends

    The server can run over the in-memory store or over a SQL database, behind
    the wrapper that encrypts.  A client that stays away from the certificates
    cannot tell which. *)

From S2P Require Import Prelude GoStrings GoUtf8 GoJson GoCrypto GoX509 GoSql AesModes Encryption Model KeyCrypto CertCrypto StoreCore SecretStore EncryptedStore SecretBackup KeyStore CertStore HttpJson Http HttpSecrets HttpKeys HttpCerts SqlSchema SqlCore SqlSecrets SqlKeys SqlCerts SqlApi SqlFacts SqlRows SqlMirror SqlTimeline SqlKeyFacts SqlKeyTimeline SqlKeyMemory SqlMemory SqlRefine HttpSame Toy ToyX509 ToySql ToyHttp.

Section backends.
Context `{JE : JsonErrors} `{X : CertLib} `{KD : KeyDer} `{C : BlockCipher} `{L : PublicKeyLib}.
Context (f : DBFlavor) {D : SqlEngine} {T : SqlTables D}.

(** What the two stores hold is the same. *)
Definition in_step (s : Store) (d : sdb) : Prop := related s d ∧ related_keys s d.

(** An environment for a request, in the state it meets: the identifiers it
    draws are new (the wrapper draws one number before), the clock is past
    what is stored, the random source answers, and the times a recovery gives
    do not overflow. *)
Definition fresh_secret (e : Env) (name : string) (d : sdb) : Prop :=
  ∀ v r, live Secrets d !! (name, v) = Some r → v ≠ version_id e ∧ r.2 < tsNano e 1.
Record calm (e : Env) (d : sdb) : Prop := {
  calm_secrets name : fresh_secret e name d;
  calm_sealed name : fresh_secret (skip_rand 1 e) name d;
  calm_keys name : fresh_key e name d;
  calm_rand : rand_ok e 0 = true;
  calm_recover_secret name : ready (RecoverDeletedSecret_ name) d;
  calm_recover_key name : key_ready (RecoverDeletedKey_ name) d;
}.

(** It can be computed. *)
Definition secrets_in (g : grave) : list snapshot := match unmarshal_secret_payload (g_versions g) with Ok l => l | _ => [] end.
Definition keys_in (g : grave) : list key_snapshot := match unmarshal_key_payload (g_versions g) with Ok l => l | _ => [] end.
Definition calm_check (e : Env) (d : sdb) : bool :=
  bool_decide (map_Forall (λ k r, k.2 ≠ version_id e ∧ k.2 ≠ version_id (skip_rand 1 e) ∧ r.2 < tsNano e 1) (live Secrets d)) &&
  bool_decide (map_Forall (λ k r, k.2 ≠ version_id e ∧ r.2 < tsNano e 1) (live Keys d)) && rand_ok e 0 &&
  bool_decide (map_Forall (λ _ g, Forall (λ s, ss_CreatedAt s + Z.of_nat (length (secrets_in g)) ≤ max_int64) (secrets_in g)) (gone Secrets d)) &&
  bool_decide (map_Forall (λ _ g, Forall (λ s, ks_CreatedAt s + Z.of_nat (length (keys_in g)) ≤ max_int64) (keys_in g)) (gone Keys d)).

Lemma calm_check_calm e d : calm_check e d = true → calm e d.
Proof.
  unfold calm_check. rewrite !andb_true_iff, !bool_decide_eq_true. intros ((((Hs & Hk) & Hr) & Hgs) & Hgk). split; [..|done| |].
  - intros name v r Hv. by destruct (Hs _ _ Hv) as (? & _ & ?).
  - intros name v r Hv. by destruct (Hs _ _ Hv) as (_ & ? & ?).
  - intros name v r Hv. by destruct (Hk _ _ Hv).
  - intros name g l Hg Hl. pose proof (Hgs _ _ Hg) as H. unfold secrets_in in H. by rewrite Hl in H.
  - intros name g l Hg Hl. pose proof (Hgk _ _ Hg) as H. unfold keys_in in H. by rewrite Hl in H.
Qed.

Section agree.
Context {XL : CertLaws L X} {KL : KeyDerLaws L KD} {HL : SqlLaws f T} {HR : SqlReliable f T}.
Context (Hle : name_le = String.le) (e : Env) (s : Store) (d : sdb) (Hs : in_step s d) (Hd : calm e d).

Lemma call_agree {A} (c : store_call A) :
  call_ready c d → agree in_step (call_in_memory c) (run (call_in_sql f c)) s d.
Proof. intros Hc. destruct (call_agrees f c s d Hle Hs Hc) as (Ha & Hr). by split. Qed.
Ltac by_secret c := apply (call_agree (OfSecrets c)).
Ltac by_key c := apply (call_agree (OfKeys c)).

Lemma set_agree e' name req : (∀ name, fresh_secret e' name d) → text_set req →
  agree in_step (SecretStore.SetSecret e' name req) (run (SqlSecrets.SetSecret f e' name req)) s d.
Proof. intros He (Hv & Hc & Ht & Ha). by_secret (SetSecret_ e' name req). split_and!; try done. apply He. Qed.

Lemma backends_secrets_agree :
  secrets_agree in_step Store_SecretsApi (SQLStore_SecretsApi f) e (λ token, ready (RestoreSecret_ token) d) s d.
Proof.
  split; cbn.
  - intros name req. apply set_agree, Hd.
  - intros name version. by by_secret (GetSecret_ name version).
  - intros m t. by by_secret (ListSecrets_ m t).
  - intros name m t. by by_secret (ListSecretVersions_ name m t).
  - intros name version req Hreq. by by_secret (UpdateSecret_ e name version req).
  - intros name. by_secret (DeleteSecret_ e name). apply Hd.
  - intros m t. by by_secret (ListDeletedSecrets_ m t).
  - intros name. by by_secret (GetDeletedSecret_ name).
  - intros name. by by_secret (PurgeDeletedSecret_ name).
  - intros name. by_secret (RecoverDeletedSecret_ name). apply (calm_recover_secret _ _ Hd).
  - intros name. by by_secret (BackupSecret_ name).
  - intros token Ht. by by_secret (RestoreSecret_ token).
Qed.

Lemma backends_storer_agree :
  storer_agree in_step (T1:=Store_SecretStorer) (T2:=SQLStore_SecretStorer f) e s d.
Proof.
  pose proof backends_secrets_agree as HA. split; cbn; apply HA.
Qed.

Lemma backends_keys_agree :
  keys_agree_at in_step Store_KeysApi (SQLStore_KeysApi f) e importable s d.
Proof.
  split; cbn.
  - intros name req (Ho & Ht & Ha). by_key (CreateKey_ e name req). split_and!; [done..|]. apply Hd.
  - intros name req (Ho & Ht & Ha) Hi. by_key (ImportKey_ e name req). split_and!; try done. apply Hd.
  - intros name version. by by_key (GetKey_ name version).
  - intros m t. by by_key (ListKeys_ m t).
  - intros name m t. by by_key (ListKeyVersions_ name m t).
  - intros name version req Hreq. by by_key (UpdateKey_ e name version req).
  - intros name. by_key (DeleteKey_ e name). apply Hd.
  - intros m t. by by_key (ListDeletedKeys_ m t).
  - intros name. by by_key (GetDeletedKey_ name).
  - intros name. by by_key (PurgeDeletedKey_ name).
  - intros name. by_key (RecoverDeletedKey_ name). apply (calm_recover_key _ _ Hd).
  - intros name version req. by by_key (Encrypt_ e name version req).
  - intros name version req. by by_key (Decrypt_ name version req).
  - intros name version req. by by_key (Sign_ e name version req).
  - intros name version req. by by_key (Verify_ name version req).
  - intros name version req. by by_key (WrapKey_ e name version req).
  - intros name version req. by by_key (UnwrapKey_ name version req).
Qed.
End agree.

(** ** Conversations *)

(** A request, what it finds in the environment, and what the vault key is at
    that moment. *)
Record exchange : Type := mkExchange { x_env : Env; x_vault : encryptedStore; x_request : Request }.

Definition over_memory (x : exchange) : HM Store :=
  @api_handler JE Store (encrypted_SecretsApi Store_SecretsApi (x_vault x)) Store_KeysApi Store_CertsApi (x_env x) (x_request x).
Definition over_sql (x : exchange) : HM sdb :=
  @api_handler JE sdb (@encrypted_SecretsApi _ _ (SQLStore_SecretStorer f) (SQLStore_SecretsApi f) (x_vault x))
    (SQLStore_KeysApi f) (SQLStore_CertsApi f) (x_env x) (x_request x).

Fixpoint same_responses (h : list exchange) (s : Store) (d : sdb) : Prop :=
  match h with
  | [] => True
  | x :: h => (over_sql x d).1 = (over_memory x s).1 ∧ same_responses h (over_memory x s).2 (over_sql x d).2
  end.
Fixpoint all_calm (h : list exchange) (d : sdb) : Prop :=
  match h with
  | [] => True
  | x :: h =>
      calm (x_env x) d ∧ no_certificate_path (x_request x) ∧
      bodies_ok (λ token, ready (RestoreSecret_ token) d) importable (x_request x) ∧ all_calm h (over_sql x d).2
  end.
End backends.

(** C6: the REST API answers the same over either backend.  Migrate an empty
    database of any of the three flavours, on an engine that does what SQL
    documents, orders names byte by byte and does not fail, and let a client
    send any sequence of requests, well formed or not, that stays away from
    the certificates, to the REST API over it, encrypted under whatever vault
    key is loaded at each moment, or none; send the same requests to the REST
    API over a new in-memory store.  Every response is the same.  What the
    calls of the store need of their arguments is not asked: a body that was
    decoded is text and 64-bit integers.  Asked are a clock that moves on, new
    identifiers and a random source that answers, and of the requests only
    that a backup they restore is one a backup makes and a key they import is
    one x509 writes and reads. *)
Theorem rest_api_backend_independent `{JE : JsonErrors} `{X : CertLib} `{KD : KeyDer} `{C : BlockCipher} `{L : PublicKeyLib}
    (XL : CertLaws L X) (KL : KeyDerLaws L KD) (f : DBFlavor) {D : SqlEngine} {T : SqlTables D}
    (HL : SqlLaws f T) (HR : SqlReliable f T) (d0 d : sdb) (h : list exchange) :
  name_le = String.le →
  (∀ k, live k d0 = ∅ ∧ gone k d0 = ∅) → run (NewSQLStore f) d0 = (Ok (), d) →
  all_calm f h d → same_responses f h New d.
Proof.
  intros Hle Hempty Hnew. assert (in_step New d) as Hs.
  { apply related_New. intros k. destruct (Hempty k), (NewSQLStore_same f d0 _ d Hnew k). split; congruence. }
  clear Hempty Hnew. revert d Hs. generalize New.
  induction h as [|x h IH]; intros s d Hs Hready; [done|]. destruct Hready as (Hd & Hc & Hb & Hready). cbn [same_responses].
  assert (agree in_step (over_memory x) (over_sql f x) s d) as [Ha Hs'].
  { unfold over_memory, over_sql.
    apply (api_handler_agree in_step (x_env x) (λ token, ready (RestoreSecret_ token) d) importable); [done| |by apply backends_keys_agree|done..].
    apply encrypted_agree; [done|by apply backends_storer_agree| |by apply backends_secrets_agree].
    intros name req. apply set_agree; [done..|]. apply Hd. }
  split; [done|]. by apply IH.
Qed.

(** ** A conversation *)

Definition vault_key : bytes := bmk <$> (Z.of_nat <$> seq 0 32).
Definition unlocked : encryptedStore := newEncryptedStore (Some vault_key) (Some false).
Definition ask (n : Z) (method path body : string) : exchange :=
  mkExchange (day_env (2 * n)) unlocked (demo_request method path "" body).
Definition oct_import : string :=
  of_bytes (json_print (JObj [("key"%string, JObj [("kty"%string, JStr "oct"); ("k"%string, JStr "AAECAwQFBgcICQoLDA0ODw")])])).
Definition conversation : list exchange := [
  ask 1 "PUT" "/secrets/db" (demo_object [("value", "hunter2"); ("contentType", "text/plain")]%string);
  ask 2 "POST" "/keys/signing/create" (demo_object [("kty", "EC")]%string);
  ask 3 "GET" "/secrets/db" "";
  ask 4 "POST" "/keys/signing//sign" (demo_object [("alg", "ES256"); ("value", "3q2-7w")]%string);
  ask 5 "PUT" "/secrets/db" "not json";
  ask 6 "DELETE" "/secrets/db" "";
  ask 7 "POST" "/keys/wrapping/import" oct_import;
  ask 8 "GET" "/secrets/db" "";
  ask 9 "DELETE" "/keys/signing" "";
  ask 10 "POST" "/deletedsecrets/db/recover" "";
  ask 11 "POST" "/deletedkeys/signing/recover" "";
  ask 12 "GET" "/secrets/db/versions" "";
  ask 13 "GET" "/keys" ""].

Lemma rest_api_backend_independent_witness :
  same_responses (D:=toy_engine FlavorMSSQL) FlavorMSSQL conversation New toy_empty.
Proof.
  apply (rest_api_backend_independent toy_cert_laws toy_key_der_laws FlavorMSSQL (toy_sql_laws FlavorMSSQL)
    (toy_sql_reliable FlavorMSSQL) toy_empty); [reflexivity|done|vm_compute; reflexivity|].
  cbn [all_calm conversation]. unfold bodies_ok, no_certificate_path.
  repeat match goal with |- _ ∧ _ => split end;
    lazymatch goal with
    | |- calm _ _ => apply calm_check_calm; vm_compute; reflexivity
    | |- _ = false => reflexivity
    | |- True => exact I
    | |- ∀ req, _ = Ok req → _ = _ → _ => intros ? _ Hp; discriminate Hp
    | |- _ => idtac
    end.
  all: intros req name Hreq Hp; try (vm_compute in Hp; discriminate Hp).
  vm_compute in Hreq. injection Hreq as <-. intros m k Hi. vm_compute in Hi. injection Hi as <- _.
  by apply aes_material_kept.
Defined.
