(* ===== verification/SqlSecrecy.v ===== *)
(** * The JSON web keys of the SQL store are public

    The column of a key's JSON web key holds public ones, and so does the blob
    of a deleted key; what is read back is therefore public, whatever the engine
    refuses and whichever statements of other requests come between.  With the
    handlers of [HttpSecrecy]: a JSON web key in a response of the REST API is a
    public one, over either backend. *)

From S2P Require Import Prelude StoreInv GoStrings GoUtf8 GoJson JsonFacts GoCrypto GoX509 GoSql Encryption Model KeyCrypto CertCrypto StoreCore SecretStore EncryptedStore KeyStore CertStore HttpJson CertJson Http HttpSecrets HttpKeys HttpCerts SqlSchema SqlCore SqlSecrets SqlKeys SqlCerts SqlApi SqlFacts SqlFrame SqlKeep SqlRaces SqlInv SqlKeyFacts SqlKeyTimeline HttpSame HttpSecrecy HttpBackends Toy ToyX509 ToySql.

(** ** Decoding what was written *)

(** A JSON web key while it is decoded: its private members are empty. *)
Definition raw_public (r : raw_jwk) : Prop := Forall (λ n, default ""%string (r.1 !! n) = ""%string) private_members.

Lemma raw_public_jwk r : raw_public r → jwk_is_public (jwk_of_raw r).
Proof. intros H. exact (proj2 (Forall_fmap (λ n : string, default ""%string (r.1 !! n)) _ private_members) H). Qed.

(** The members of a public key, by their names. *)
Definition public_members : list string := ["kid"; "kty"; "key_ops"; "n"; "e"; "crv"; "x"; "y"]%string.

Lemma public_key_members k :
  jwk_is_public k → ∃ ms, json_of_JSONWebKey k = JObj ms ∧ Forall (λ m, m.1 ∈ public_members) ms.
Proof.
  intros Hk. unfold json_of_JSONWebKey. eexists. split; [done|].
  destruct k as [kid kty ops n e d p q dp dq qi crv x y sym]. unfold jwk_is_public, jwk_private in Hk. cbn in Hk.
  rewrite !Forall_cons in Hk. destruct Hk as (-> & -> & -> & -> & -> & -> & -> & _). cbn [jwk_Kid jwk_Kty jwk_KeyOps jwk_N jwk_E jwk_D jwk_P jwk_Q jwk_DP jwk_DQ jwk_QI jwk_Crv jwk_X jwk_Y jwk_K].
  assert (∀ n j b, n ∈ public_members → Forall (λ m : string * json, m.1 ∈ public_members) (omitempty b n j)) as Hm.
  { intros m j [] Hin; [constructor|]. by constructor. }
  repeat apply Forall_app_2; try (apply Hm; apply (bool_decide_unpack _); vm_compute; exact I); constructor.
Qed.

(** Decoding one of them leaves the private members as they are. *)
Lemma public_member_kept n d cur j v :
  n ∈ public_members → find_field jwk_decoders n = Some d → raw_public cur → d cur j = Some v → raw_public v.
Proof.
  intros Hn. destruct (decide (n = "key_ops"%string)) as [->|Hne].
  - intros [= <-] Hc (x & _ & ->)%fmap_Some. exact Hc.
  - assert (n ∈ jwk_string_fields ∧ n ∉ private_members) as [Hs Hp].
    { revert Hne. apply list_elem_of_In in Hn. cbn in Hn. destruct_or! Hn; try done; subst n; intros ?;
        split; try done; apply (bool_decide_unpack _); vm_compute; exact I. }
    rewrite (proj2 (find_jwk_field n Hs)). intros [= <-] Hc (x & _ & ->)%fmap_Some.
    unfold raw_public in *. rewrite Forall_forall in Hc |- *. intros m Hm. cbn [fst].
    rewrite lookup_insert_ne; [by apply Hc|]. by intros ->.
Qed.

Lemma public_key_decoded k cur r :
  jwk_is_public k → raw_public cur → dec_raw_jwk cur (json_coerce (json_of_JSONWebKey k)) = Some r → raw_public r.
Proof.
  intros Hk Hc. destruct (public_key_members k Hk) as (ms & -> & Hms).
  change (json_coerce (JObj ms)) with (JObj (map coerce_member ms)). apply (dec_struct_members raw_public); [|done].
  apply Forall_fmap. eapply Forall_impl; [exact Hms|]. intros [n j] Hn d cur' v. unfold coerce_member. cbn [fst snd] in *.
  replace (utf8_coerce n) with n; [exact (public_member_kept n d cur' (json_coerce j) v Hn)|].
  apply list_elem_of_In in Hn. cbn in Hn. by destruct_or! Hn; try done; subst n.
Qed.
Lemma raw_public_zero : raw_public (∅, None).
Proof. apply Forall_true. intros n. cbn. by rewrite lookup_empty. Qed.

Section texts.
Context `{JE : JsonErrors}.

(** The text of a column, and the blob of a deleted key. *)
Definition public_text (text : string) : Prop := ∀ k, unmarshalJWK text = Ok k → jwk_is_public k.
Definition snapshot_public (s : keyVersionSnapshot) : Prop := jwk_is_public (ks_Key s).
Definition public_payload (text : string) : Prop := ∀ l, unmarshal_key_payload text = Ok l → Forall snapshot_public l.

Lemma unmarshal_marshal_inv {A} type (decode : json → option A) j v :
  json_integral j → json_height j ≤ maxNestingDepth → unmarshal type decode (marshal j) = Ok v →
  decode (json_coerce j) = Some v.
Proof.
  intros Hi Hh. unfold unmarshal, marshal. rewrite to_of_bytes, json_parse_print by done. cbn [mbind option_bind].
  destruct (decode (json_coerce j)); [|done]. by intros [= ->].
Qed.

Lemma public_text_marshal k : jwk_is_public k → public_text (marshal (json_of_JSONWebKey k)).
Proof.
  intros Hk k'. destruct (json_of_JSONWebKey_shape k) as [Hi Hh].
  intros H. apply unmarshal_marshal_inv in H; [|done|unfold maxNestingDepth; lia].
  apply fmap_Some in H as (r & Hr & ->). apply raw_public_jwk. by eapply public_key_decoded; [|apply raw_public_zero|].
Qed.

Lemma snapshot_decoded s :
  snapshot_public s → decodes_keeping (raw_public ∘ rk_Key) dec_raw_key_snapshot (json_coerce (json_of_key_snapshot s)).
Proof.
  intros Hs cur0 x Hc0. unfold json_of_key_snapshot.
  change (json_coerce (JObj ?ms)) with (JObj (map coerce_member ms)). apply (dec_struct_members (raw_public ∘ rk_Key)); [|exact Hc0].
  cbn [map]. unfold coerce_member. cbn [fst snd].
  repeat (apply Forall_cons_2; [|]); try apply Forall_nil_2; cbn [fst]; intros d cur v [= <-] Hc (y & Hy & ->)%fmap_Some; try exact Hc.
  cbn. by eapply public_key_decoded; [exact Hs|exact Hc|exact Hy].
Qed.

Lemma public_payload_marshal l : Forall snapshot_public l → public_payload (marshal (json_of_key_payload l)).
Proof.
  intros Hl l'. destruct (json_of_key_payload_shape l) as [Hi Hh]. intros H. apply unmarshal_marshal_inv in H; [|done..].
  apply fmap_Some in H as (sl & Hsl & ->). apply Forall_fmap, Forall_take.
  assert (Forall (raw_public ∘ rk_Key) sl.2) as Hraw; [|eapply Forall_impl; [exact Hraw|]; intros x; apply raw_public_jwk].
  revert Hsl. unfold json_of_key_payload. change (json_coerce (JObj ?ms)) with (JObj (map coerce_member ms)).
  apply (dec_struct_members (λ sl, Forall (raw_public ∘ rk_Key) sl.2)); [|constructor].
  apply Forall_singleton. intros d cur v [= <-] Hc. unfold coerce_member. cbn [fst snd].
  destruct l as [|s l]; [intros [= <-]; constructor|]. cbn [json_coerce]. apply dec_slice_each; [apply raw_public_zero| |done].
  apply Forall_fmap, Forall_fmap. eapply Forall_impl; [exact Hl|]. intros x Hx. by apply snapshot_decoded.
Qed.
End texts.

(** ** Programs *)

Section programs.
Context `{JE : JsonErrors} `{X : CertLib} `{KD : KeyDer} `{L : PublicKeyLib} `{C : BlockCipher}.
Context (f : DBFlavor) {D : SqlEngine} {T : SqlTables D} {HL : SqlLaws f T}.

(** The rows of the keys hold public JSON web keys. *)
Definition key_row_public (r : live_row) : Prop :=
  ∃ jwk material attrs tags, r.1 = [VText jwk; VText material; VText attrs; VText tags] ∧ public_text jwk.
Definition key_grave_public (g : grave) : Prop := public_payload (g_versions g).
Definition keys_rows_public : sdb → Prop := rows_hold Keys key_row_public key_grave_public.

Lemma run_yields {A} (I : sdb → Prop) (p : SP A) (Q : A → Prop) : keeps I p → returns I p Q → yields I Q (run p).
Proof.
  intros Hk Hr d. revert Hk Hr. revert d. induction p as [o|q args g IH|q args g IH]; intros d Hk Hr Hd; cbn [run keeps returns] in *.
  - split; [done|]. intros a Ha. cbn [fst] in Ha. by rewrite Ha in Hr.
  - destruct Hk as [Hd' Hk]. apply IH; [apply Hk|apply Hr|by apply Hd'].
  - apply IH; [by apply Hk|by apply Hr|done].
Qed.
Lemma run_respects {A} (I : sdb → Prop) (p : SP A) : keeps I p → respects I (run p).
Proof. intros Hk. apply run_yields; [done|apply returns_True]. Qed.

(** *** Rows *)

Lemma keeps_insertKeyRow rec m ts : public_record rec → keeps keys_rows_public (insertKeyRow f rec m ts).
Proof.
  intros Hr. unfold insertKeyRow. cbn [p_bind marshalJWK]. destruct (serializeKeyMaterial m); [|done..].
  cbn [p_bind marshalAttrs marshalTags]. apply (keeps_insert f Keys _ _ _ _ [_; _; _; _]); [sent|done|].
  do 4 eexists. split; [done|]. by apply public_text_marshal.
Qed.
Lemma keeps_update_key jwk a t name version q :
  sends f q (Update Keys ["jwk"; "attributes"; "tags"]%string) → jwk_is_public jwk →
  keeps keys_rows_public (db_Exec q
    [VText (marshal (json_of_JSONWebKey jwk)); VText a; VText t; VText name; VText version]).
Proof.
  intros Hq Hj. apply (keeps_update f Keys _ _ ["jwk"; "attributes"; "tags"]%string [_; _; _]); [exact Hq|done|].
  intros [cols ts] (j & m & a0 & t0 & Hr & _). cbn [fst snd] in *. subst cols.
  exists (marshal (json_of_JSONWebKey jwk)), m, a, t. split; [done|]. by apply public_text_marshal.
Qed.

Lemma keeps_getKeyVersionRow name version : keeps keys_rows_public (getKeyVersionRow f name version).
Proof. unfold getKeyVersionRow. keep. Qed.
Lemma keeps_allKeyVersionSnapshots name : keeps keys_rows_public (allKeyVersionSnapshots f name).
Proof. unfold allKeyVersionSnapshots. keep. Qed.
Lemma keeps_getDeletedKeyRow name : keeps keys_rows_public (getDeletedKeyRow f name).
Proof. unfold getDeletedKeyRow. keep. Qed.

(** What they read is public. *)
Lemma five_texts_public r c :
  a_version Keys key_row_public (version_columns Keys) r → scan_five_texts r = Ok c → public_text c.1.1.1.2.
Proof.
  intros (v & [cols ts] & -> & jwk & m & a & t & Hr & Hp). cbn [fst snd] in Hr. subst cols.
  intros Hc. apply (f_equal (λ o, match o with Ok c => Some c | _ => None end)) in Hc. vm_compute in Hc.
  injection Hc as <-. exact Hp.
Qed.
Lemma returns_getKeyVersionRow name version :
  returns keys_rows_public (getKeyVersionRow f name version) (λ rm, public_record rm.1).
Proof.
  unfold getKeyVersionRow. apply (returns_bind _ _ (λ c, public_text c.1.1.1.2)).
  - case_decide; apply returns_QueryRow; intros d rows err r c Hd Hq Hr; apply five_texts_public.
    + eapply (read_latest f Keys); [sent|exact Hd|exact Hq|exact Hr].
    + eapply (read_version f Keys); [sent|exact Hd|exact Hq|exact Hr].
  - intros [[[[ver jwk] mat] attrs] tags] Hc. apply returns_Done_intro.
    intros rm (k & Hk%Hc & (m & _ & (a & _ & (t & _ & [= <-])%o_bind_Ok)%o_bind_Ok)%o_bind_Ok)%o_bind_Ok. exact Hk.
Qed.
Lemma returns_allKeyVersionSnapshots name :
  returns keys_rows_public (allKeyVersionSnapshots f name) (Forall snapshot_public).
Proof.
  unfold allKeyVersionSnapshots. apply returns_query_rows. intros d rows err r s Hd Hq Hr.
  destruct (read_versions f Keys _ _ (version_columns Keys ++ ["created_at"%string]) false _ _ _ _ _ _ ltac:(sent) Hd Hq Hr)
    as (v & [cols ts] & -> & jwk & m & a & t & Hrow & Hp).
  cbn [fst snd] in Hrow. subst cols. intros (c & Hc & Hs)%o_bind_Ok.
  apply (f_equal (λ o, match o with Ok c => Some c | _ => None end)) in Hc. vm_compute in Hc. injection Hc as <-.
  destruct (unmarshalJWK jwk) as [k| |] eqn:Hk; [|done..]. apply Hp in Hk. cbn [o_bind] in Hs.
  by apply o_bind_Ok in Hs as (a' & _ & (t' & _ & [= <-])%o_bind_Ok).
Qed.
Lemma returns_getDeletedKeyRow name :
  returns keys_rows_public (getDeletedKeyRow f name) (λ r, public_payload (dr_Versions r)).
Proof.
  unfold getDeletedKeyRow. apply returns_QueryRow. intros d rows err r c Hd Hq Hr.
  destruct (read_deleted f Keys _ _ _ _ _ _ _ _ ltac:(sent) Hd Hq Hr) as ([i dd p vs] & -> & Hg).
  intros Hc. apply (f_equal (λ o, match o with Ok c => Some c | _ => None end)) in Hc. vm_compute in Hc.
  injection Hc as <-. exact Hg.
Qed.

(** *** Operations *)

(** The program keeps the rows, and what it returns has [Q]. *)
Definition shows {A} (Q : A → Prop) (p : SP A) : Prop := keeps keys_rows_public p ∧ returns keys_rows_public p Q.

Lemma shows_bind {A B} (p : SP A) (R : A → Prop) (g : A → SP B) (Q : B → Prop) :
  keeps keys_rows_public p → returns keys_rows_public p R → (∀ a, R a → shows Q (g a)) → shows Q (p_bind p g).
Proof.
  intros Hk Hr Hg. split; [eapply keeps_bind; [done..|]|eapply returns_bind; [done|]]; intros a Ha; by apply Hg.
Qed.
Lemma shows_then {A B} (p : SP A) (g : A → SP B) (Q : B → Prop) :
  keeps keys_rows_public p → (∀ a, shows Q (g a)) → shows Q (p_bind p g).
Proof. intros Hp Hg. apply (shows_bind _ (λ _, True)); [done|apply returns_True|]. intros a _. apply Hg. Qed.
Lemma shows_Done {A} (o : outcome error A) (Q : A → Prop) : (∀ a, o = Ok a → Q a) → shows Q (Done o).
Proof. intros Ho. split; [done|by apply returns_Done_intro]. Qed.
Lemma shows_lift {A B} (o : outcome error A) (g : A → SP B) (Q : B → Prop) :
  (∀ a, o = Ok a → shows Q (g a)) → shows Q (p_bind (Done o) g).
Proof. intros Ho. destruct o; [by apply Ho|by split..]. Qed.

Lemma GetKey_shows name version :
  shows public_record (SqlKeys.GetKey f name version).
Proof. eapply shows_bind; [apply keeps_getKeyVersionRow|apply returns_getKeyVersionRow|]. by intros rm Hrm. Qed.
Lemma ListKeys_shows m t :
  shows (λ p, Forall public_record p.1) (SqlKeys.ListKeys f m t).
Proof.
  unfold SqlKeys.ListKeys. apply shows_then; [keep|intros names].
  apply shows_lift. intros [page next] _.
  apply (shows_bind _ (Forall public_record)).
  - keep. apply keeps_getKeyVersionRow.
  - apply returns_traverse. intros x. apply GetKey_shows.
  - by intros l Hl.
Qed.
Lemma ListKeyVersions_shows name m t :
  shows (λ p, Forall public_record p.1) (SqlKeys.ListKeyVersions f name m t).
Proof.
  unfold SqlKeys.ListKeyVersions. apply shows_then; [keep|intros count]. case_decide; [done|]. apply (shows_bind _ (Forall public_record)); [keep| |].
  - apply returns_query_rows. intros d rows err r s Hd Hq Hr.
    destruct (read_versions f Keys _ _ (listed_columns Keys) true _ _ _ _ _ _ ltac:(sent) Hd Hq Hr)
      as (v & [cols ts] & -> & jwk & mat & a & tg & Hrow & Hp).
    cbn [fst snd] in Hrow. subst cols. intros (c & Hc & Hs)%o_bind_Ok.
    apply (f_equal (λ o, match o with Ok c => Some c | _ => None end)) in Hc. vm_compute in Hc. injection Hc as <-.
    destruct (unmarshalJWK jwk) as [k| |] eqn:Hk; [|done..]. apply Hp in Hk. cbn [o_bind] in Hs.
    by apply o_bind_Ok in Hs as (a' & _ & (t' & _ & [= <-])%o_bind_Ok).
  - intros l Hl. apply shows_Done. intros [page next] Hpage. apply Forall_forall. intros r Hr.
    eapply paginateNames_elem in Hr; [|exact Hpage]. rewrite Forall_forall in Hl. by apply Hl.
Qed.
Lemma UpdateKey_shows e name version req :
  shows public_record (SqlKeys.UpdateKey f e name version req).
Proof.
  unfold SqlKeys.UpdateKey. eapply shows_bind; [apply keeps_getKeyVersionRow|apply returns_getKeyVersionRow|].
  intros rm Hrm. cbv zeta. cbn [p_bind marshalJWK marshalAttrs marshalTags].
  assert (public_record (update_key_record e req rm.1)) as Hp.
  { unfold public_record, update_key_record. cbn. by destruct (ukr_KeyOps req). }
  apply shows_then; [by apply keeps_update_key; [sent|]|done].
Qed.
Lemma DeleteKey_shows e name : shows public_deleted (SqlKeys.DeleteKey f e name).
Proof.
  unfold SqlKeys.DeleteKey. eapply shows_bind; [apply keeps_getKeyVersionRow|apply returns_getKeyVersionRow|].
  intros latest Hlatest. apply shows_then; [keep|intros count]. case_decide; [done|].
  eapply shows_bind; [apply keeps_allKeyVersionSnapshots|apply returns_allKeyVersionSnapshots|]. intros l Hl. cbv zeta.
  apply shows_lift. intros id _.
  apply shows_then; [apply (keeps_insert_deleted f); [sent|by apply public_payload_marshal]|intros _].
  apply shows_then; [apply (keeps_delete f); sent|done].
Qed.

Lemma deletedKeyFromRow_public r d : public_payload (dr_Versions r) → deletedKeyFromRow r = Ok d → public_deleted d.
Proof.
  intros Hr. unfold deletedKeyFromRow. intros (l & Hl%Hr & H)%o_bind_Ok. destruct (last l) as [s|] eqn:Hs; [|done].
  injection H as <-. rewrite Forall_forall in Hl. by apply Hl, last_Some_elem_of.
Qed.
Lemma GetDeletedKey_shows name : shows public_deleted (SqlKeys.GetDeletedKey f name).
Proof.
  eapply shows_bind; [apply keeps_getDeletedKeyRow|apply returns_getDeletedKeyRow|]. intros r Hr.
  apply shows_Done. intros d. by apply deletedKeyFromRow_public.
Qed.
Lemma ListDeletedKeys_shows m t : shows (λ p, Forall public_deleted p.1) (SqlKeys.ListDeletedKeys f m t).
Proof.
  unfold SqlKeys.ListDeletedKeys. apply shows_then; [keep|intros names]. apply shows_lift. intros [page next] _.
  apply (shows_bind _ (Forall public_deleted)).
  - keep. apply keeps_getDeletedKeyRow.
  - apply returns_traverse. intros x. apply GetDeletedKey_shows.
  - by intros l Hl.
Qed.
Lemma PurgeDeletedKey_keeps name : keeps keys_rows_public (SqlKeys.PurgeDeletedKey f name).
Proof.
  unfold SqlKeys.PurgeDeletedKey. apply keeps_then; [apply keeps_getDeletedKeyRow|intros _].
  apply (keeps_delete_deleted f); sent.
Qed.
Lemma RecoverDeletedKey_shows name : shows public_record (SqlKeys.RecoverDeletedKey f name).
Proof.
  unfold SqlKeys.RecoverDeletedKey. apply shows_then; [keep|intros count]. case_decide; [done|].
  eapply shows_bind; [apply keeps_getDeletedKeyRow|apply returns_getDeletedKeyRow|]. intros r Hr.
  apply shows_lift. intros l Hl%Hr. apply shows_then.
  { apply keeps_iter. apply (Forall_impl _ _ _ (Forall_imap_pair _ _ Hl)). intros p Hp.
    apply keeps_then; [done|]. intros m. by apply keeps_insertKeyRow. }
  intros _. apply shows_then; [apply (keeps_delete_deleted f); sent|intros _]. apply shows_Done.
  intros rec (s & Hs & [= <-])%o_bind_Ok. unfold last_of in Hs. rewrite Forall_forall in Hl.
  destruct (last l) eqn:Hlast; [|done]. injection Hs as <-. by apply Hl, last_Some_elem_of.
Qed.

Lemma CreateKey_shows e name req : shows public_record (SqlKeys.CreateKey f e name req).
Proof.
  unfold SqlKeys.CreateKey. do 2 (case_decide; [done|]). apply shows_then; [keep|intros _]. cbv zeta.
  apply shows_lift. intros version _. apply shows_lift. intros [m k] Hg%o_maperr_Ok.
  assert (jwk_is_public k) by (by eapply generated_public, GenerateKey_generated).
  apply shows_then; [by apply keeps_insertKeyRow|done].
Qed.
Lemma ImportKey_shows e name req : shows public_record (SqlKeys.ImportKey f e name req).
Proof.
  unfold SqlKeys.ImportKey. do 2 (case_decide; [done|]). apply shows_then; [keep|intros _].
  apply shows_lift. intros [m k] [Hk _]%o_maperr_Ok%ImportKey_public. cbv zeta. apply shows_lift. intros version _.
  apply shows_then; [by apply keeps_insertKeyRow|done].
Qed.
(** The uses of a key read its row. *)
Lemma use_keeps {A} name version (body : KeyRecord * KeyMaterial → outcome error A) :
  keeps keys_rows_public (let+ rm := getKeyVersionRow f name version in Done (body rm)).
Proof. apply keeps_then; [apply keeps_getKeyVersionRow|done]. Qed.

(** Certificates, whose creation and import write the row of a key. *)
Hint Extern 2 (keeps _ _) => apply keeps_spared; solve [auto 3 with spares nocore] : keeps.
#[local] Ltac keep_all := keep; try solve [auto 2 with keeps nocore].

Lemma CreateCertificate_keeps e name req : keeps keys_rows_public (SqlCerts.CreateCertificate f e name req).
Proof.
  unfold SqlCerts.CreateCertificate, getIssuerMaterialSQL. keep_all. apply keeps_insertKeyRow, RSAToJWK_public.
Qed.
Lemma ImportCertificate_keeps e name req : keeps keys_rows_public (SqlCerts.ImportCertificate f e name req).
Proof.
  unfold SqlCerts.ImportCertificate. keep_all. destruct (cert_RSAPublicKey _); keep_all.
  apply keeps_insertKeyRow, RSAToJWK_public.
Qed.

(** Under every schedule of any requests. *)
Lemma call_keeps c : keeps keys_rows_public (sql_prog f c).
Proof.
  destruct c; cbn [sql_prog]; try (apply keeps_then; [|done]); auto 2 with keeps nocore;
    first [ apply CreateKey_shows | apply ImportKey_shows | apply GetKey_shows | apply ListKeys_shows
          | apply ListKeyVersions_shows | apply UpdateKey_shows | apply DeleteKey_shows | apply ListDeletedKeys_shows
          | apply GetDeletedKey_shows | apply PurgeDeletedKey_keeps | apply RecoverDeletedKey_shows | apply use_keeps
          | apply CreateCertificate_keeps | apply ImportCertificate_keeps ].
Qed.
Theorem sql_keys_always_public calls ps d d' :
  keys_rows_public d → rtc pool_step (sql_prog f <$> calls, d) (ps, d') → keys_rows_public d'.
Proof.
  intros Hd Hsteps. apply (keeps_pool keys_rows_public _ _ Hsteps Hd), Forall_fmap, Forall_true. intros c. apply call_keeps.
Qed.

(** ** The interfaces *)

#[local] Ltac spared := apply run_respects; auto 2 with keeps nocore.

Lemma SQLStore_secrets_keep : secrets_keep keys_rows_public (SQLStore_SecretsApi f).
Proof. split; intros; spared. Qed.
Lemma SQLStore_keys_public : keys_public keys_rows_public (SQLStore_KeysApi f).
Proof.
  split; intros.
  - apply run_yields; apply CreateKey_shows.
  - apply run_yields; apply ImportKey_shows.
  - apply run_yields; apply GetKey_shows.
  - apply run_yields; apply ListKeys_shows.
  - apply run_yields; apply ListKeyVersions_shows.
  - apply run_yields; apply UpdateKey_shows.
  - apply run_yields; apply DeleteKey_shows.
  - apply run_yields; apply ListDeletedKeys_shows.
  - apply run_yields; apply GetDeletedKey_shows.
  - apply run_respects, PurgeDeletedKey_keeps.
  - apply run_yields; apply RecoverDeletedKey_shows.
  - apply run_respects, use_keeps.
  - apply run_respects, use_keeps.
  - apply run_respects, use_keeps.
  - apply run_respects, use_keeps.
  - apply run_respects, use_keeps.
  - apply run_respects, use_keeps.
Qed.
Lemma SQLStore_certificates_keep : certificates_keep keys_rows_public (SQLStore_CertsApi f).
Proof.
  split; intros; apply run_respects; auto 2 using CreateCertificate_keeps, ImportCertificate_keeps with keeps nocore.
Qed.

Lemma over_sql_quiet es e r :
  yields keys_rows_public shows_no_key
    (@api_handler JE sdb (@encrypted_SecretsApi _ _ (SQLStore_SecretStorer f) (SQLStore_SecretsApi f) es)
      (SQLStore_KeysApi f) (SQLStore_CertsApi f) e r).
Proof.
  pose proof SQLStore_secrets_keep as HS.
  apply api_handler_quiet; [|apply SQLStore_keys_public|apply SQLStore_certificates_keep].
  apply encrypted_keep; [done|apply HS..].
Qed.
End programs.

(** ** Conversations *)

(** The responses to a sequence of requests. *)
Fixpoint responses {St} (serve : exchange → HM St) (h : list exchange) (s : St) : list (outcome Empty_set Response) :=
  match h with [] => [] | x :: h => (serve x s).1 :: responses serve h (serve x s).2 end.

Definition answered_without_key (o : outcome Empty_set Response) : Prop :=
  match o with Ok rsp => shows_no_key rsp | _ => True end.

Lemma responses_quiet {St} (Inv : St → Prop) (serve : exchange → HM St) h s :
  (∀ x, yields Inv shows_no_key (serve x)) → Inv s → Forall answered_without_key (responses serve h s).
Proof.
  intros Hq. revert s. induction h as [|x h IH]; intros s Hs; [constructor|]. destruct (Hq x s Hs) as [Hs' Ha].
  constructor; [|by apply IH]. destruct (serve x s).1; [|done..]. by apply Ha.
Qed.

(** C7: a JSON web key in a response of the REST API is a public one.
    Whatever sequence of requests is sent, well formed or not, with whatever
    vault key loaded at each moment, to the REST API over a new in-memory
    store or over a SQL database without keys, whatever the requests create,
    import, update, delete and recover and whichever statements the engine
    refuses: no object in the body of a response, at any depth, has one of the
    private members of a JSON web key, d, p, q, dp, dq, qi and k.  Two things
    are the client's own words and not looked into: a member "tags" that is an
    object of strings, and a certificate policy, a member "policy" or a whole
    body, which has the members of a policy only.  Keys that were imported with
    private members, from a body that named them, are no exception.  This is
    about JSON web keys: the private key of a certificate is answered, by
    design, as PEM text in the value of the secret of its name. *)
Theorem response_keys_are_public `{JE : JsonErrors} `{X : CertLib} `{KD : KeyDer} `{C : BlockCipher} `{L : PublicKeyLib}
    (f : DBFlavor) {D : SqlEngine} {T : SqlTables D} (HL : SqlLaws f T) (d : sdb) (h : list exchange) :
  live Keys d = ∅ → gone Keys d = ∅ →
  Forall answered_without_key (responses over_memory h New) ∧
  Forall answered_without_key (responses (over_sql f) h d).
Proof.
  intros Hlive Hgone. split.
  - apply (responses_quiet store_ok); [|apply store_ok_New]. intros x. apply over_store_quiet.
  - apply (responses_quiet keys_rows_public); [|by apply rows_hold_empty]. intros x. apply (over_sql_quiet f).
Qed.

(** A key that is imported with its private half. *)
Lemma response_keys_are_public_witness :
  Forall answered_without_key (responses over_memory conversation New) ∧
  Forall answered_without_key (responses (over_sql (D:=toy_engine FlavorMSSQL) FlavorMSSQL) conversation toy_empty).
Proof. apply (response_keys_are_public FlavorMSSQL (toy_sql_laws FlavorMSSQL) toy_empty conversation); reflexivity. Defined.
