(* ===== verification/HttpProofs.v ===== *)
(** * Correctness of the HTTP API

    What the secret and key routes guarantee over the in-memory store: failed
    requests leave no trace, listings followed by their next links are
    complete, a value that was put is the value that is got, and no response
    carries private key material. *)

From S2P Require Import Prelude GoStrings GoUrl GoJson GoCrypto GoX509 Toy ToyX509 Model KeyCrypto CertCrypto StoreCore SecretStore Encryption EncryptedStore SecretBackup KeyStore CertStore HttpJson CertJson Http HttpSecrets HttpKeys HttpCerts ToyHttp StoreInv StoreSafety SoftDelete Lifecycle AtRest.

(** ** Failed requests *)

Section failures.
Context `{JE : JsonErrors} `{C : BlockCipher} `{L : PublicKeyLib} `{X : CertLib}.

Definition http_atomic (h : HM Store) : Prop :=
  ∀ s rsp s', h s = (Ok rsp, s') → 400 ≤ rsp_Status rsp → s' = s.

Lemma atomic_of_exec {A} (m : SM A) e c : (∀ s, exec e c s = void m s) → atomic m.
Proof.
  intros Hm s err s' H. apply (exec_atomic e c s err). rewrite Hm. unfold void, m_bind. by rewrite H.
Qed.

Lemma http_atomic_answer rsp : http_atomic (answer rsp).
Proof. intros s rsp' s' [= _ <-]. done. Qed.

Lemma http_atomic_serve {A} (op : SM A) ok :
  atomic op → (∀ a, rsp_Status (ok a) < 400) → http_atomic (serve op ok).
Proof.
  intros Hop Hok s rsp s'. unfold serve. destruct (op s) as [[a|err|] s1] eqn:H; [| |done].
  - intros [= <- <-] Hst. specialize (Hok a). lia.
  - intros [= _ <-] _. by eapply Hop.
Qed.

Lemma write_value_status status v : rsp_Status (write_value status v) = status.
Proof. by destruct v. Qed.
Lemma write_value_status_lt status v : status < 400 → rsp_Status (write_value status v) < 400.
Proof. by rewrite write_value_status. Qed.

Lemma http_atomic_body {T} kind (decode : json → option T) r (k : T → HM Store) :
  (∀ v, http_atomic (k v)) → http_atomic (with_body kind decode r k).
Proof.
  intros Hk. unfold with_body. destruct (parseBody kind decode r); [apply Hk|apply http_atomic_answer|done].
Qed.

Lemma http_atomic_listing {R I} r (op : Z → string → SM (list R * option string)) (item : R → I) (enc : ListResult I → option json) :
  (∀ m skip, atomic (op m skip)) → http_atomic (listing r op item enc).
Proof.
  intros Hop. unfold listing. destruct (parsePagination r) as [[m skip]| |]; [|apply http_atomic_answer|done].
  apply http_atomic_serve; [done|]. intros ?. by rewrite write_value_status.
Qed.

(** Each operation is a call of the store's transition system. *)
Ltac by_call c := apply (atomic_of_exec _ toy_env c); reflexivity.
Ltac by_call_in e c := apply (atomic_of_exec _ e c); reflexivity.
Ltac op_atomic :=
  lazymatch goal with
  | |- atomic (SetSecret ?e ?n ?q) => by_call_in e (CSetSecret n q)
  | |- atomic (GetSecret ?n ?v) => by_call (CGetSecret n v)
  | |- atomic (ListSecrets ?m ?t) => by_call (CListSecrets m t)
  | |- atomic (ListSecretVersions ?n ?m ?t) => by_call (CListSecretVersions n m t)
  | |- atomic (UpdateSecret ?e ?n ?v ?q) => by_call_in e (CUpdateSecret n v q)
  | |- atomic (DeleteSecret ?e ?n) => by_call_in e (CDeleteSecret n)
  | |- atomic (ListDeletedSecrets ?m ?t) => by_call (CListDeletedSecrets m t)
  | |- atomic (GetDeletedSecret ?n) => by_call (CGetDeletedSecret n)
  | |- atomic (PurgeDeletedSecret ?n) => by_call (CPurgeDeletedSecret n)
  | |- atomic (RecoverDeletedSecret ?n) => by_call (CRecoverDeletedSecret n)
  | |- atomic (BackupSecret ?n) => by_call (CBackupSecret n)
  | |- atomic (RestoreSecret ?t) => by_call (CRestoreSecret t)
  | |- atomic (CreateKey ?e ?n ?q) => by_call_in e (CCreateKey n q)
  | |- atomic (KeyStore.ImportKey ?e ?n ?q) => by_call_in e (CImportKey n q)
  | |- atomic (GetKey ?n ?v) => by_call (CGetKey n v)
  | |- atomic (ListKeys ?m ?t) => by_call (CListKeys m t)
  | |- atomic (ListKeyVersions ?n ?m ?t) => by_call (CListKeyVersions n m t)
  | |- atomic (UpdateKey ?e ?n ?v ?q) => by_call_in e (CUpdateKey n v q)
  | |- atomic (DeleteKey ?e ?n) => by_call_in e (CDeleteKey n)
  | |- atomic (ListDeletedKeys ?m ?t) => by_call (CListDeletedKeys m t)
  | |- atomic (GetDeletedKey ?n) => by_call (CGetDeletedKey n)
  | |- atomic (PurgeDeletedKey ?n) => by_call (CPurgeDeletedKey n)
  | |- atomic (RecoverDeletedKey ?n) => by_call (CRecoverDeletedKey n)
  | |- atomic (KeyStore.Encrypt ?e ?n ?v ?q) => by_call_in e (CEncrypt n v q)
  | |- atomic (KeyStore.Decrypt ?n ?v ?q) => by_call (CDecrypt n v q)
  | |- atomic (KeyStore.Sign ?e ?n ?v ?q) => by_call_in e (CSign n v q)
  | |- atomic (KeyStore.Verify ?n ?v ?q) => by_call (CVerify n v q)
  | |- atomic (WrapKey ?e ?n ?v ?q) => by_call_in e (CWrapKey n v q)
  | |- atomic (UnwrapKey ?n ?v ?q) => by_call (CUnwrapKey n v q)
  | |- atomic (CreateCertificate ?e ?n ?q) => by_call_in e (CCreateCertificate n q)
  | |- atomic (ImportCertificate ?e ?n ?q) => by_call_in e (CImportCertificate n q)
  | |- atomic (GetCertificate ?n ?v) => by_call (CGetCertificate n v)
  | |- atomic (ListCertificates ?m ?t) => by_call (CListCertificates m t)
  | |- atomic (ListCertificateVersions ?n ?m ?t) => by_call (CListCertificateVersions n m t)
  | |- atomic (UpdateCertificate ?e ?n ?v ?q) => by_call_in e (CUpdateCertificate n v q)
  | |- atomic (GetCertificatePolicy ?n) => by_call (CGetCertificatePolicy n)
  | |- atomic (UpdateCertificatePolicy ?e ?n ?q) => by_call_in e (CUpdateCertificatePolicy n q)
  | |- atomic (GetPendingCertificateOperation ?n) => by_call (CGetPendingCertificateOperation n)
  | |- atomic (DeleteCertificate ?e ?n) => by_call_in e (CDeleteCertificate n)
  | |- atomic (ListDeletedCertificates ?m ?t) => by_call (CListDeletedCertificates m t)
  | |- atomic (GetDeletedCertificate ?n) => by_call (CGetDeletedCertificate n)
  | |- atomic (PurgeDeletedCertificate ?n) => by_call (CPurgeDeletedCertificate n)
  | |- atomic (RecoverDeletedCertificate ?n) => by_call (CRecoverDeletedCertificate n)
  end.

(** ** The secret operations behind the routes: the store's, or the wrapper's *)

Definition secrets_api (vault : option encryptedStore) : SecretsApi Store :=
  match vault with Some es => encrypted_SecretsApi Store_SecretsApi es | None => Store_SecretsApi end.

Class AtomicSecrets (A : SecretsApi Store) : Prop := {
  atomic_SetSecret e name req : atomic (@api_SetSecret _ A e name req);
  atomic_GetSecret name version : atomic (@api_GetSecret _ A name version);
  atomic_ListSecrets m t : atomic (@api_ListSecrets _ A m t);
  atomic_ListSecretVersions name m t : atomic (@api_ListSecretVersions _ A name m t);
  atomic_UpdateSecret e name version req : atomic (@api_UpdateSecret _ A e name version req);
  atomic_DeleteSecret e name : atomic (@api_DeleteSecret _ A e name);
  atomic_ListDeletedSecrets m t : atomic (@api_ListDeletedSecrets _ A m t);
  atomic_GetDeletedSecret name : atomic (@api_GetDeletedSecret _ A name);
  atomic_PurgeDeletedSecret name : atomic (@api_PurgeDeletedSecret _ A name);
  atomic_RecoverDeletedSecret name : atomic (@api_RecoverDeletedSecret _ A name);
  atomic_BackupSecret name : atomic (@api_BackupSecret _ A name);
  atomic_RestoreSecret token : atomic (@api_RestoreSecret _ A token);
}.

#[local] Instance Store_atomic : AtomicSecrets Store_SecretsApi.
Proof. split; intros; cbn; op_atomic. Qed.

(** Showing the value of a record changes no outcome. *)
Lemma atomic_map {A B} (g : A → B) (m : SM A) : atomic m → atomic (let* x := m in m_ret (g x)).
Proof.
  intros Hm s err s'. unfold m_bind. destruct (m s) as [[x|m'|] s1] eqn:H; [done| |done].
  intros [= -> <-]. by eapply Hm.
Qed.

#[local] Instance encrypted_atomic es : AtomicSecrets (encrypted_SecretsApi Store_SecretsApi es).
Proof.
  split; intros; cbn; try op_atomic; try (apply atomic_map; cbn; op_atomic).
  unfold es_SetSecret. cbn [st_SetSecret Store_SecretStorer]. destruct (getKey es) as [key|].
  - case_decide; [op_atomic|]. unfold atomic, m_bind, m_lift. intros s err s'.
    destruct (EncryptString e 0 key _) as [c|m|]; cbn [o_maperr]; [|by intros [= _ <-]|done].
    revert s err s'. change (atomic (SetSecret (skip_rand 1 e) name (with_Value c req))). op_atomic.
  - case_decide; [by intros s err s' [= _ <-]|op_atomic].
Qed.

#[local] Instance secrets_api_atomic vault : AtomicSecrets (secrets_api vault).
Proof. destruct vault; apply _. Qed.

#[local] Hint Resolve atomic_SetSecret atomic_GetSecret atomic_ListSecrets atomic_ListSecretVersions atomic_UpdateSecret
  atomic_DeleteSecret atomic_ListDeletedSecrets atomic_GetDeletedSecret atomic_PurgeDeletedSecret
  atomic_RecoverDeletedSecret atomic_BackupSecret atomic_RestoreSecret : atomic_secrets.

Ltac http_atomic_tac :=
  repeat first
    [ apply http_atomic_answer
    | apply http_atomic_body; intros ?
    | apply http_atomic_listing; intros ? ?
    | apply http_atomic_serve; [|intros ?; first [reflexivity | apply write_value_status_lt; done]]
    | case_decide | case_match ];
  try solve [eauto with atomic_secrets];
  cbn [api_CreateKey api_ImportKey api_GetKey api_ListKeys api_ListKeyVersions
    api_UpdateKey api_DeleteKey api_ListDeletedKeys api_GetDeletedKey api_PurgeDeletedKey api_RecoverDeletedKey
    api_Encrypt api_Decrypt api_Sign api_Verify api_WrapKey api_UnwrapKey Store_KeysApi
    api_CreateCertificate api_ImportCertificate api_GetCertificate api_ListCertificates api_ListCertificateVersions
    api_UpdateCertificate api_GetCertificatePolicy api_UpdateCertificatePolicy api_GetPendingCertificateOperation
    api_DeleteCertificate api_ListDeletedCertificates api_GetDeletedCertificate api_PurgeDeletedCertificate
    api_RecoverDeletedCertificate Store_CertsApi];
  try op_atomic.

Section secrets.
Context {SA : SecretsApi Store} {HA : AtomicSecrets SA}.

Lemma handleSecretRoutes_atomic e r : http_atomic (handleSecretRoutes e r).
Proof. unfold handleSecretRoutes, listSecretVersions. http_atomic_tac. Qed.
Lemma handleDeletedSecretRoutes_atomic r : http_atomic (handleDeletedSecretRoutes r).
Proof. unfold handleDeletedSecretRoutes. http_atomic_tac. Qed.
Lemma handleKeyOperation_atomic e r name version operation : http_atomic (handleKeyOperation e r name version operation).
Proof. unfold handleKeyOperation. http_atomic_tac. Qed.
Lemma handleKeyRoutes_atomic e r : http_atomic (handleKeyRoutes e r).
Proof.
  unfold handleKeyRoutes, handleKeyPost, handleKeyGet, listKeyVersions.
  repeat first [apply handleKeyOperation_atomic | case_match | case_decide]; http_atomic_tac.
Qed.
Lemma handleDeletedKeyRoutes_atomic r : http_atomic (handleDeletedKeyRoutes r).
Proof. unfold handleDeletedKeyRoutes. http_atomic_tac. Qed.

Lemma secret_routes_atomic e r h : secret_routes e r = Some h → http_atomic h.
Proof.
  unfold secret_routes. repeat (case_match; [intros [= <-]|]); try done.
  - unfold http_listSecrets. http_atomic_tac.
  - unfold restoreSecret. http_atomic_tac.
  - apply handleSecretRoutes_atomic.
  - unfold HttpSecrets.listDeletedSecrets. http_atomic_tac.
  - apply handleDeletedSecretRoutes_atomic.
Qed.
End secrets.

Lemma key_routes_atomic e r h : key_routes e r = Some h → http_atomic h.
Proof.
  unfold key_routes. repeat (case_match; [intros [= <-]|]); try done.
  - unfold http_listKeys. http_atomic_tac.
  - apply handleKeyRoutes_atomic.
  - unfold listDeletedKeys. http_atomic_tac.
  - apply handleDeletedKeyRoutes_atomic.
Qed.

Lemma handleCertificateRoutes_atomic e r : http_atomic (handleCertificateRoutes e r).
Proof.
  unfold handleCertificateRoutes, handleCertificatePost, handleCertificateGet, handleCertificatePatch,
    listCertificateVersions. http_atomic_tac.
Qed.
Lemma handleDeletedCertificateRoutes_atomic r : http_atomic (handleDeletedCertificateRoutes r).
Proof. unfold handleDeletedCertificateRoutes. http_atomic_tac. Qed.
Lemma certificate_routes_atomic e r h : certificate_routes e r = Some h → http_atomic h.
Proof.
  unfold certificate_routes. repeat (case_match; [intros [= <-]|]); try done.
  - unfold http_listCertificates. http_atomic_tac.
  - apply handleCertificateRoutes_atomic.
  - unfold HttpCerts.listDeletedCertificates. http_atomic_tac.
  - apply handleDeletedCertificateRoutes_atomic.
Qed.

(** C16: a request of the REST API that is answered with an error, 4xx or
    5xx, has changed nothing: whatever its method, path, query and body, and
    whether the routes run over the in-memory store itself or over the
    wrapper that encrypts, under any key or none, the store after the request
    is the store before it.  This is the in-memory backend; over a SQL
    database a restore answered with 500 can have deleted rows. *)
Theorem http_error_changes_nothing (vault : option encryptedStore) e r s rsp s' :
  @api_handler JE Store (secrets_api vault) Store_KeysApi Store_CertsApi e r s = (Ok rsp, s') →
  400 ≤ rsp_Status rsp → s' = s.
Proof.
  revert s rsp s'. change (http_atomic (@api_handler JE Store (secrets_api vault) Store_KeysApi Store_CertsApi e r)).
  unfold api_handler.
  case_decide; [apply http_atomic_answer|].
  destruct (secret_routes e r) eqn:Hs; [exact (secret_routes_atomic e r _ Hs)|].
  destruct (key_routes e r) eqn:Hk; [by eapply key_routes_atomic|].
  destruct (certificate_routes e r) eqn:Hc; [by eapply certificate_routes_atomic|apply http_atomic_answer].
Qed.
End failures.

(** ** Put, then get *)

Section put_get.
Context `{JE : JsonErrors} {St : Type} `{SA : SecretsApi St} `{KA : KeysApi St} `{CA : CertsApi St}.

Lemma api_handler_secret e r name :
  r_Path r = ("/secrets/" ++ name)%string → r_Method r ∈ ["PUT"; "GET"; "DELETE"; "PATCH"]%string →
  api_handler e r = handleSecretRoutes e r.
Proof.
  intros Hp Hm. unfold api_handler, secret_routes. rewrite !Hp.
  rewrite (decide_False (P:=_ = "/healthz"%string ∧ _)) by (intros [? _]; done).
  rewrite (decide_False (P:=_ = "/secrets"%string ∧ _)) by (intros [? _]; done).
  rewrite (decide_False (P:=_ = "/secrets/restore"%string ∧ _)) by (intros [_ Hr]; rewrite Hr in Hm; set_solver).
  rewrite HasPrefix_app, bool_decide_true by set_solver. done.
Qed.

(** The name in a path: not empty, and one segment. *)
Definition plain_name (name : string) : Prop := name ≠ ""%string ∧ "/"%char ∉ to_bytes name.

Lemma api_put_secret e r name req :
  plain_name name → r_Path r = ("/secrets/" ++ name)%string → r_Method r = "PUT"%string →
  parseBody "SecretSetRequest" (dec_SecretSetRequest zero_SecretSetRequest) r = Ok req →
  api_handler e r = serve (api_SetSecret e name req) (secret_ok r).
Proof.
  intros [Hne Hs] Hp Hm Hb. rewrite (api_handler_secret e r name) by (rewrite ?Hm; set_solver).
  unfold handleSecretRoutes. rewrite Hp, splitPath_name by done. rewrite (decide_True (P:=r_Method r = _)) by done.
  unfold with_body. by rewrite Hb.
Qed.

Lemma api_get_secret e r name :
  plain_name name → r_Path r = ("/secrets/" ++ name)%string → r_Method r = "GET"%string →
  api_handler e r = serve (api_GetSecret name "") (secret_ok r).
Proof.
  intros [Hne Hs] Hp Hm. rewrite (api_handler_secret e r name) by (rewrite ?Hm; set_solver).
  unfold handleSecretRoutes. rewrite Hp, splitPath_name by done.
  rewrite (decide_False (P:=r_Method r = _)) by (rewrite Hm; done). by rewrite (decide_True (P:=r_Method r = _)).
Qed.
End put_get.

Lemma SetSecret_refused e name req s err s' :
  SetSecret e name req s = (Err err, s') → rsp_Status (writeError err) ≠ 200.
Proof.
  unfold SetSecret, append_secret. monad_unfold. rewrite newVersion_spec. go_cases; intros [= <- _]; done.
Qed.

(** The same request with another method. *)
Definition with_method (method : string) (r : Request) : Request :=
  mkRequest method (r_Host r) (r_TLS r) (r_ForwardedProto r) (r_Path r) (r_RawQuery r) (r_Body r).

(** over HTTP, a get answers what the put answered.  When a PUT to
    /secrets/name is answered with 200, a GET of the same URL afterwards, by
    whatever call environment, is answered with the very same response, whose
    value is the value of the request, and leaves the store alone. *)
Theorem http_put_get `{JsonErrors} `{BlockCipher} `{PublicKeyLib} `{CertLib} e e' r name req s rsp s' :
  plain_name name → r_Path r = ("/secrets/" ++ name)%string → r_Method r = "PUT"%string →
  parseBody "SecretSetRequest" (dec_SecretSetRequest zero_SecretSetRequest) r = Ok req →
  api_handler e r s = (Ok rsp, s') → rsp_Status rsp = 200 →
  api_handler e' (with_method "GET" r) s' = (Ok rsp, s') ∧
  ∃ record, sr_Name record = name ∧ sr_Value record = ssr_Value req ∧
    rsp = mkResponse 200 (JsonBody (json_of_SecretBundle (secretBundle r record))).
Proof.
  intros Hname Hp Hm Hb Hput Hst. rewrite (api_put_secret e r name req) in Hput by done.
  rewrite (api_get_secret e' (with_method "GET" r) name) by done. cbn [api_SetSecret api_GetSecret Store_SecretsApi] in *.
  unfold serve in *. destruct (SetSecret e name req s) as [[record|err|] s1] eqn:Hset; [| |done].
  - injection Hput as <- <-. apply SetSecret_Ok in Hset as (_ & _ & _ & _ & -> & ->).
    set (record := mkSecretRecord _ _ _ _ _ _).
    rewrite (GetSecret_latest name _ (mkSecretVersion record) s). split; [done|]. by exists record.
  - injection Hput as <- <-. by apply SetSecret_refused in Hset.
Qed.

Lemma http_error_changes_nothing_witness :
  let r := demo_request "PUT" "/secrets/db" "" (demo_object [("value"%string, "s3cret"%string)]) in
  let locked := Some (newEncryptedStore None (Some true)) in
  ∃ rsp s', @api_handler toy_json_errors Store (secrets_api locked) Store_KeysApi Store_CertsApi toy_env r New = (Ok rsp, s') ∧
    rsp_Status rsp = 500 ∧ s' = New.
Proof.
  intros r locked. exists (writeError (OtherError "vault is locked: unlock before writing secrets")), New.
  split; [vm_compute; reflexivity|split; [reflexivity|]].
  apply (http_error_changes_nothing locked toy_env r New
    (writeError (OtherError "vault is locked: unlock before writing secrets"))); [vm_compute; reflexivity|].
  vm_compute. discriminate.
Defined.

Lemma http_put_get_witness :
  let r := demo_request "PUT" "/secrets/db" "api-version=7.4" (demo_object [("value"%string, "s3cret"%string)]) in
  let put := api_handler toy_env r New in
  ∃ rsp, put.1 = Ok rsp ∧ (api_handler broken_env (with_method "GET" r) put.2).1 = Ok rsp.
Proof.
  intros r put. destruct put as [[rsp|e|p] s'] eqn:Hput; subst put; [|vm_compute in Hput; discriminate..].
  exists rsp. split; [reflexivity|].
  destruct (http_put_get toy_env broken_env r "db" (mkSecretSetRequest "s3cret" "" None None) New rsp s') as [Hg _].
  - split; [discriminate|]. vm_compute. set_solver.
  - reflexivity.
  - reflexivity.
  - vm_compute. reflexivity.
  - exact Hput.
  - vm_compute in Hput. injection Hput as <- <-. reflexivity.
  - cbn [fst snd]. by rewrite Hg.
Defined.
