(* ===== verification/HttpListing.v ===== *)
(** * Correctness of listings over HTTP

    A client that asks for a listing and follows each next link to the end
    sees every item once.  The link is what the server wrote in the page; the
    client takes the query after its first question mark. *)

From S2P Require Import Prelude GoStrings GoUrl GoJson GoCrypto GoX509 Toy ToyX509 Model KeyCrypto CertCrypto StoreCore SecretStore SecretBackup KeyStore CertStore HttpJson CertJson Http HttpSecrets HttpKeys HttpCerts ToyHttp StoreInv StoreSafety SoftDelete Lifecycle.

(** ** How many parameters a query has *)

Lemma query_pairs_perm (m : Values) :
  query_pairs m ≡ₚ flat_map (λ kv, map (pair kv.1) kv.2) (map_to_list m).
Proof.
  unfold query_pairs, sorted_keys. rewrite <-flat_map_concat_map.
  rewrite (Permutation_flat_map _ (sort_Strings_perm _)), !flat_map_concat_map.
  apply reflexive_eq. f_equal. rewrite map_map. apply list_fmap_ext. intros i [k vs] Hi. cbn.
  apply list_elem_of_lookup_2, elem_of_map_to_list in Hi. by rewrite Hi.
Qed.

Lemma length_query_pairs_delete (k : string) (m : Values) :
  length (query_pairs m) = (length (default [] (m !! k)) + length (query_pairs (delete k m)))%nat.
Proof.
  destruct (m !! k) as [vs|] eqn:Hk; [|by rewrite delete_id].
  rewrite (query_pairs_perm m), (query_pairs_perm (delete k m)).
  rewrite <-(Permutation_flat_map _ (map_to_list_delete m k vs Hk)). cbn. by rewrite length_app, length_map.
Qed.

Lemma length_query_pairs_Set k v m : (length (query_pairs (Set_ k v m)) ≤ S (length (query_pairs m)))%nat.
Proof.
  rewrite (length_query_pairs_delete k m), (length_query_pairs_delete k (Set_ k v m)). unfold Set_.
  rewrite lookup_insert_eq, delete_insert_eq. cbn. lia.
Qed.

Lemma length_next_query r next : (length (query_pairs (next_query r next)) ≤ length (query_pairs (r_Query r)) + 2)%nat.
Proof.
  unfold next_query, cloneValues. pose proof (length_query_pairs_Set "$skiptoken" next (r_Query r)).
  case_decide; [|lia]. etrans; [apply length_query_pairs_Set|]. lia.
Qed.

(** ** Links of links *)

Lemma Set_Set k v v' m : Set_ k v' (Set_ k v m) = Set_ k v' m.
Proof. apply insert_insert_eq. Qed.
Lemma Set_comm k k' v v' m : k ≠ k' → Set_ k v (Set_ k' v' m) = Set_ k' v' (Set_ k v m).
Proof. intros Hk. by apply insert_insert_ne. Qed.

Lemma next_query_next r n n' :
  (length (query_pairs (next_query r n)) ≤ max_params)%nat → next_query (follow r n) n' = next_query r n'.
Proof.
  intros Hlen. assert (r_Query (follow r n) = next_query r n) as Hq.
  { unfold r_Query, follow. cbn. apply ParseQuery_Encode; [apply next_query_nonempty|done]. }
  unfold next_query at 1. rewrite Hq. unfold next_query, cloneValues.
  assert (∀ v, Get (Set_ "$skiptoken" v (r_Query r)) "api-version" = Get (r_Query r) "api-version") as Hv
    by (intros v; by apply Get_Set_ne).
  rewrite !Hv. destruct (decide (Get (r_Query r) "api-version" = ""%string)) as [He|He].
  - rewrite (Get_Set_ne _ "$skiptoken"), Get_Set by done. rewrite (decide_False (P:="7.4"%string = ""%string)) by done.
    by rewrite (Set_comm "$skiptoken" "api-version"), Set_Set.
  - rewrite Set_Set, Hv, (decide_False (P:=Get (r_Query r) _ = _)) by done. done.
Qed.

(** The parameters of [r], but the token: [r'] has them with the same values
    (an empty version is the default one's place). *)
Definition keeps_query (r r' : Request) : Prop :=
  ∀ k, k ≠ "$skiptoken"%string → (k = "api-version"%string → Get (r_Query r) k ≠ ""%string) →
  r_Query r' !! k = r_Query r !! k.

Lemma keeps_query_next r0 r n :
  next_query r n = next_query r0 n → (length (query_pairs (next_query r0 n)) ≤ max_params)%nat →
  keeps_query r0 (follow r n).
Proof.
  intros Heq Hlen k Hk Hv. rewrite <-Heq in Hlen.
  assert (r_Query (follow r n) = next_query r n) as ->.
  { unfold r_Query, follow. cbn. apply ParseQuery_Encode; [apply next_query_nonempty|done]. }
  rewrite Heq. unfold next_query, cloneValues, Set_.
  destruct (decide (k = "api-version"%string)) as [->|Hne].
  - rewrite decide_False; [by rewrite lookup_insert_ne|]. fold (Set_ "$skiptoken" n (r_Query r0)).
    rewrite Get_Set_ne by done. by apply Hv.
  - case_decide; by rewrite ?lookup_insert_ne by done.
Qed.

(** ** The client *)

Definition json_member (name : string) (j : json) : option json :=
  match j with
  | JObj ms => (λ p : nat * (string * json), p.2.2) <$> list_find (λ m, m.1 = name) ms
  | _ => None
  end.

Definition page_items (body : json) : option (list json) :=
  match json_member "value" body with Some (JArr l) => Some l | _ => None end.
Definition page_link (body : json) : option string :=
  match json_member "nextLink" body with Some (JStr l) => Some l | _ => None end.
Definition link_query (link : string) : string := of_bytes (cut "?" (to_bytes link)).2.

(** The pages of a listing with the requests for them, from request [r] on;
    [fuel] bounds their number. *)
Fixpoint walk_http (handler : Request → HM Store) (fuel : nat) (r : Request) (s : Store) : option (list (Request * list json)) :=
  match fuel with
  | O => None
  | S fuel =>
      match handler r s with
      | (Ok (mkResponse 200 (JsonBody body)), s') =>
          items ← page_items body;
          match page_link body with
          | None => Some [(r, items)]
          | Some link => cons (r, items) <$> walk_http handler fuel (with_query (link_query link) r) s'
          end
      | _ => None
      end
  end.

Lemma page_items_of {T} (enc : T → json) l : page_items (json_of_ListResult enc l) = Some (map enc (lr_Value l)).
Proof. done. Qed.
Lemma page_link_of {T} (enc : T → json) l : page_link (json_of_ListResult enc l) = lr_NextLink l.
Proof. by destruct l as [v [link|]]. Qed.

(** Neither the base URL nor the path of a request has a question mark. *)
Definition plain_base (r : Request) : Prop := "?"%char ∉ to_bytes (vaultBaseURL r ++ r_Path r)%string.

Lemma link_query_follow r next link :
  plain_base r → buildNextLink r (Some next) = Some link → with_query (link_query link) r = follow r next.
Proof.
  intros Hp [= <-]. unfold follow, link_query. f_equal.
  replace (vaultBaseURL r ++ r_Path r ++ "?" ++ Encode (next_query r next))%string
    with ((vaultBaseURL r ++ r_Path r) ++ String "?" (Encode (next_query r next)))%string by apply string_app_assoc.
  rewrite to_bytes_app. cbn [to_bytes list_ascii_of_string]. fold to_bytes.
  rewrite cut_app by done. cbn [snd]. apply of_to_bytes.
Qed.

Lemma paginateNames_next_nonempty {T} (items : list T) token m page next :
  paginateNames items token m = Ok (page, Some next) → next ≠ ""%string.
Proof.
  unfold paginateNames. intros (start & _ & H)%o_bind_Ok. case_decide; [done|].
  apply o_bind_Ok in H as (l & _ & H). case_decide; simplify_eq; apply Itoa_nonempty.
Qed.

Section listing.
Context {R I T : Type} (op : Z → string → SM (list R * option string)) (item : R → I) (enc : I → json).
Context (names : list T) (f : T → R) (s : Store) (r0 : Request) (handler : Request → HM Store) (m : Z).
Hypothesis op_pages : ∀ token,
  op m token s = (o_map (λ pn, (map f pn.1, pn.2)) (paginateNames names token m), s).
(** The handler is this listing on every query of the path. *)
Hypothesis handler_listing : ∀ query,
  handler (with_query query r0) = listing (with_query query r0) op item (json_page enc).
Hypothesis base_plain : plain_base r0.
Hypothesis few_params : (length (query_pairs (r_Query r0)) + 2 ≤ max_params)%nat.

Lemma walk_http_pages fuel r token pages :
  (∃ query, r = with_query query r0) → (∀ n, next_query r n = next_query r0 n) → keeps_query r0 r →
  parsePagination r = Ok (m, token) →
  walk names fuel token m = Some pages →
  ∃ visited, walk_http handler fuel r s = Some visited ∧
    map snd visited = map (map (λ x, enc (item (f x)))) pages ∧ Forall (λ v, keeps_query r0 v.1) visited.
Proof.
  revert r token pages. induction fuel as [|fuel IH]; intros r token pages [query Hr] Hf Hkeep Hp; [done|].
  cbn [walk walk_http]. rewrite Hr, handler_listing, <-Hr. unfold listing. rewrite Hp. unfold serve. rewrite op_pages.
  destruct (paginateNames names token m) as [[page next]| |] eqn:Hpage; [|done..].
  cbn [o_map fst snd json_page write_value writeJSON]. cbv [StatusOK].
  rewrite page_items_of, page_link_of. cbn [mbind option_bind lr_Value lr_NextLink].
  rewrite <-!list_fmap_compose. destruct next as [next|]; [|intros [= <-]; eexists; split; [done|]; by repeat constructor].
  intros (ps & Hps & ->)%fmap_Some.
  destruct (buildNextLink r (Some next)) as [link|] eqn:Hl; [|done].
  assert (plain_base r) as Hpl by (rewrite Hr; exact base_plain).
  rewrite (link_query_follow r next link Hpl Hl).
  assert (length (query_pairs (next_query r0 next)) ≤ max_params)%nat as Hlen
    by (pose proof (length_next_query r0 next); lia).
  destruct (IH (follow r next) next ps) as (visited & -> & Hv & Hks); [| | | |done|].
  - rewrite Hr. by eexists.
  - intros n. by rewrite next_query_next, Hf by (by rewrite Hf).
  - by apply keeps_query_next.
  - apply (parsePagination_follow r m token next Hp); [by eapply paginateNames_next_nonempty|by rewrite Hf].
  - eexists. split; [done|]. split; [cbn; by rewrite Hv|by constructor].
Qed.

Lemma walk_http_all :
  parsePagination r0 = Ok (m, ""%string) → Z.of_nat (length names) ≤ max_int64 - 100 →
  ∃ visited, walk_http handler (S (length names)) r0 s = Some visited ∧
    concat (map snd visited) = map (λ x, enc (item (f x))) names ∧
    Forall (λ v, Z.of_nat (length v.2) ≤ m ∧ keeps_query r0 v.1) visited.
Proof.
  intros Hp Hlen. destruct (walk_all names m Hlen) as (pages & Hw & Hc & Hsize).
  assert (page_size m = m) as Hm.
  { apply parsePagination_Ok in Hp. unfold page_size. by rewrite (decide_False (P:=m ≤ 0)), decide_False by lia. }
  destruct (walk_http_pages (S (length names)) r0 ""%string pages) as (visited & Hvis & Hpages & Hkeep); [|done..|].
  { exists (r_RawQuery r0). by destruct r0. }
  exists visited. split; [done|]. split; [by rewrite Hpages, <-concat_map, Hc|].
  apply Forall_and. split; [|done]. apply (proj1 (Forall_fmap snd (λ p, Z.of_nat (length p) ≤ m) visited)).
  change (snd <$> visited) with (map snd visited). rewrite Hpages. apply Forall_fmap. apply (Forall_impl _ _ _ Hsize). intros p Hl. cbn. rewrite length_map. lia.
Qed.
End listing.

(** ** The listings of the store *)

Definition listed_key (s : Store) (name : string) : KeyRecord :=
  match latestKey (keys s !! name) with Some (_, v) => cloneKeyRecord (kv_record v) | None => mkKeyRecord "" "" zero_jwk zero_attributes None end.
Definition listed_certificate (s : Store) (name : string) : CertificateRecord :=
  match latestCertificate (certificates s !! name) with
  | Some (_, v) => cloneCertificateRecord (cv_record v)
  | None => mkCertificateRecord "" "" [] "" "" zero_attributes None None
  end.

Lemma omap_lookup_all {A B} (g : A → option B) (zero : B) (l : list A) :
  (∀ x, x ∈ l → is_Some (g x)) → omap g l = map (λ x, default zero (g x)) l.
Proof. intros Hg. apply omap_all. intros x Hx. destruct (Hg x Hx) as [b ->]. done. Qed.

Section store_listings.
Variable s : Store.
Hypothesis Hok : store_ok s.

Lemma ListSecrets_pages m token :
  ListSecrets m token s =
    (o_map (λ pn, (map (listed_secret s) pn.1, pn.2)) (paginateNames (sorted_keys (secrets s)) token m), s).
Proof.
  rewrite <-ListSecrets_page by done. unfold ListSecrets. monad_unfold. by destruct (paginateNames _ token m) as [[]| |].
Qed.

Lemma ListKeys_pages m token :
  ListKeys m token s =
    (o_map (λ pn, (map (listed_key s) pn.1, pn.2)) (paginateNames (sorted_keys (keys s)) token m), s).
Proof.
  unfold ListKeys. monad_unfold. destruct (paginateNames _ token m) as [[page next]| |] eqn:Hp; [|done..].
  cbn. do 3 f_equal. apply omap_all. intros n Hn. eapply paginateNames_elem in Hn; [|done].
  apply elem_of_sorted_keys in Hn as [en He]. unfold listed_key. rewrite He.
  destruct (versions_ok_last _ _ _ (ok_keys s Hok _ _ He)) as (v & Hv & _). cbn. by rewrite Hv.
Qed.

Lemma ListCertificates_pages m token :
  ListCertificates m token s =
    (o_map (λ pn, (map (listed_certificate s) pn.1, pn.2)) (paginateNames (sorted_keys (certificates s)) token m), s).
Proof.
  unfold ListCertificates. monad_unfold. destruct (paginateNames _ token m) as [[page next]| |] eqn:Hp; [|done..].
  cbn. do 3 f_equal. apply omap_all. intros n Hn. eapply paginateNames_elem in Hn; [|done].
  apply elem_of_sorted_keys in Hn as [en He]. unfold listed_certificate. rewrite He.
  destruct (versions_ok_last _ _ _ (ok_certificates s Hok _ _ He)) as (v & Hv & _). cbn. by rewrite Hv.
Qed.
End store_listings.

Section complete.
Context `{JE : JsonErrors} `{C : BlockCipher} `{L : PublicKeyLib} `{X : CertLib}.

(** The pages a client gets from [r] on show [items], at most [m] to a page,
    and it asks for each with its own parameters. *)
Definition listing_shows (e : Env) (r : Request) (s : Store) (m : Z) (fuel : nat) (items : list json) : Prop :=
  ∃ visited, walk_http (api_handler e) fuel r s = Some visited ∧ concat (map snd visited) = items ∧
    Forall (λ v, Z.of_nat (length v.2) ≤ m ∧ keeps_query r v.1) visited.

Lemma listing_shows_all {R I A} e r s m (op : Z → string → SM (list R * option string)) (item : R → I) enc
    (f : string → R) (g : gmap string A) :
  (∀ token, op m token s = (o_map (λ pn, (map f pn.1, pn.2)) (paginateNames (sorted_keys g) token m), s)) →
  (∀ query, api_handler e (with_query query r) = listing (with_query query r) op item (json_page enc)) →
  plain_base r → (length (query_pairs (r_Query r)) + 2 ≤ max_params)%nat →
  parsePagination r = Ok (m, ""%string) → Z.of_nat (size g) ≤ max_int64 - 100 →
  listing_shows e r s m (S (size g)) (map (λ n, enc (item (f n))) (sorted_keys g)).
Proof.
  intros Hop Hh Hb Hq Hp Hs. unfold listing_shows. rewrite <-length_sorted_keys.
  apply (walk_http_all op item enc (sorted_keys g) f s r (api_handler e) m); try done.
  by rewrite length_sorted_keys.
Qed.

(** C17: a client that lists the secrets, the keys or the certificates over
    HTTP and follows the next link of each page comes to the end, and has then
    seen the latest version of every name exactly once, in the order of the
    names, on pages of at most the size it asked for; and each page was asked
    for with all the parameters of its query, unchanged, but the token (and a
    version where it gave none).  This is over the in-memory store, in any
    state that operations reach.  The client's query leaves room for two more
    parameters under the limit of net/url, ten thousand; the base URL of the
    links (the Host and X-Forwarded-Proto headers make it) has no question
    mark, so that the query of a link begins at its first one; and there are at
    most 2^63 - 101 names. *)
Theorem http_listing_complete e s r m :
  store_ok s → r_Method r = "GET"%string → plain_base r →
  (length (query_pairs (r_Query r)) + 2 ≤ max_params)%nat →
  parsePagination r = Ok (m, ""%string) →
  (r_Path r = "/secrets"%string → Z.of_nat (size (secrets s)) ≤ max_int64 - 100 →
    listing_shows e r s m (S (size (secrets s)))
      (map (λ n, json_of_SecretItem (secret_item r (listed_secret s n))) (sorted_keys (secrets s)))) ∧
  (r_Path r = "/keys"%string → Z.of_nat (size (keys s)) ≤ max_int64 - 100 →
    listing_shows e r s m (S (size (keys s)))
      (map (λ n, json_of_KeyItem (key_item r (listed_key s n))) (sorted_keys (keys s)))) ∧
  (r_Path r = "/certificates"%string → Z.of_nat (size (certificates s)) ≤ max_int64 - 100 →
    listing_shows e r s m (S (size (certificates s)))
      (map (λ n, json_of_CertificateItem (certificateItem r (listed_certificate s n))) (sorted_keys (certificates s)))).
Proof.
  intros Hok Hm Hb Hq Hp. destruct r as [method host tls proto path query body]. cbn [r_Method] in Hm. subst method.
  split_and!; cbn [r_Path]; intros -> Hsize.
  - apply (listing_shows_all e _ s m ListSecrets); [|done..]. intros token. by apply ListSecrets_pages.
  - apply (listing_shows_all e _ s m ListKeys); [|done..]. intros token. by apply ListKeys_pages.
  - apply (listing_shows_all e _ s m ListCertificates); [|done..]. intros token. by apply ListCertificates_pages.
Qed.
End complete.

Lemma http_listing_complete_witness :
  let s := run [(toy_env, CSetSecret "db" demo_secret_request); (toy_env, CSetSecret "api" demo_secret_request);
                (toy_env, CSetSecret "web" demo_secret_request)] in
  let r := demo_request "GET" "/secrets" "api-version=7.4&maxresults=2" "" in
  listing_shows toy_env r s 2 4
    (map (λ n, json_of_SecretItem (secret_item r (listed_secret s n))) ["api"; "db"; "web"]%string).
Proof.
  intros s r.
  destruct (http_listing_complete toy_env s r 2 (reachable_store_ok s (reachable_run _)) eq_refl) as [Hs _];
    [unfold plain_base; vm_compute; set_solver|vm_compute; lia|vm_compute; reflexivity|].
  exact (Hs eq_refl ltac:(vm_compute; discriminate)).
Defined.
