(* ===== verification/Auth.v ===== *)
(** * Component: users, sessions and configuration ([internal/auth/auth.go])

    The service keeps users and configuration in a SQL database and sessions
    in memory.  The database engine and bcrypt are parameters: their classes
    state what the statements of the source and the library calls are
    documented to do. *)

From S2P Require Import Prelude GoStrings GoSql.

(** ** Data *)

Definition sessionTTL : Z := 24 * 3600.   (** in seconds *)

Definition Role : Type := string.
Definition RoleAdmin : Role := "admin".
Definition RoleContributor : Role := "contributor".
Definition RoleReader : Role := "reader".

Record User : Type := mkUser {
  u_ID : string;
  u_Username : string;
  u_PasswordHash : string;
  u_Role : Role;
  u_CreatedAt : Z;
}.
Record Session : Type := mkSession {
  s_Token : string;
  s_UserID : string;
  s_Username : string;
  s_Role : Role;
  s_ExpiresAt : Z;
}.
#[export] Instance User_eq_dec : EqDecision User.
Proof. solve_decision. Defined.
#[export] Instance Session_eq_dec : EqDecision Session.
Proof. solve_decision. Defined.

Inductive auth_error : Type :=
| ErrAlreadyInitialized
| ErrInvalidCredentials
| SqlFailure (err : sql_error)
| AuthError (m : message).
#[export] Instance auth_error_eq_dec : EqDecision auth_error.
Proof. solve_decision. Defined.

Definition Valid (r : Role) : bool :=
  bool_decide (r = RoleAdmin ∨ r = RoleContributor ∨ r = RoleReader).

(** ** bcrypt *)

Definition bcrypt_DefaultCost : Z := 10.

Class Bcrypt : Type := {
  bcrypt_Generate : Env → string → Z → outcome message string;
  bcrypt_Compare : string → string → option message;   (** [None] is a nil error *)
}.
Class BcryptLaws (B : Bcrypt) : Prop := {
  bcrypt_Compare_Generate : ∀ e pw cost h, bcrypt_Generate e pw cost = Ok h → bcrypt_Compare h pw = None;
}.

(** ** The schema

    The statements of [migrate], as SQL data that [item_text] prints the way
    the source writes it, and what SQL documents of them: an object is created
    unless one of its name is there, and an INSERT into [users] that would
    repeat a value of a PRIMARY KEY or UNIQUE column, or of a unique index
    among the rows its WHERE selects, is refused. *)

Inductive column_constraint : Type := PrimaryKey | NotNull | Unique.
#[export] Instance column_constraint_eq_dec : EqDecision column_constraint.
Proof. solve_decision. Defined.
Record column_def : Type := mkColumn { cd_name : string; cd_type : string; cd_constraints : list column_constraint }.
#[export] Instance column_def_eq_dec : EqDecision column_def.
Proof. solve_decision. Defined.

Inductive schema_item : Type :=
| Table (name : string) (columns : list column_def)
| UniqueIndex (name table column where_column where_value : string).
#[export] Instance schema_item_eq_dec : EqDecision schema_item.
Proof. solve_decision. Defined.

Definition item_name (i : schema_item) : string := match i with Table name _ | UniqueIndex name _ _ _ _ => name end.

(** A line break in a statement, and the tabs of the next line. *)
Definition line (tabs : nat) : string := of_bytes (bmk <$> 10 :: repeat 9 tabs).
Definition constraint_text (c : column_constraint) : string :=
  match c with PrimaryKey => " PRIMARY KEY" | NotNull => " NOT NULL" | Unique => " UNIQUE" end.
Definition column_text (c : column_def) : string :=
  (cd_name c ++ " " ++ cd_type c ++ String.concat "" (constraint_text <$> cd_constraints c))%string.
Definition item_text (i : schema_item) : string :=
  match i with
  | Table name columns =>
      "CREATE TABLE IF NOT EXISTS " ++ name ++ " (" ++ line 3 ++
      String.concat ("," ++ line 3) (column_text <$> columns) ++ line 2 ++ ")"
  | UniqueIndex name table column where_column where_value =>
      "CREATE UNIQUE INDEX IF NOT EXISTS " ++ name ++ " ON " ++ table ++ "(" ++ column ++
      ") WHERE " ++ where_column ++ " = '" ++ where_value ++ "'"
  end%string.

(** The statements of [migrate]. *)
Definition statements : list schema_item := [
  Table "users" [
    mkColumn "id" "TEXT" [PrimaryKey];
    mkColumn "username" "TEXT" [NotNull; Unique];
    mkColumn "password_hash" "TEXT" [NotNull];
    mkColumn "role" "TEXT" [NotNull];
    mkColumn "created_at" "INTEGER" [NotNull]];
  UniqueIndex "users_single_admin" "users" "role" "role" "admin";
  Table "config" [mkColumn "key" "TEXT" [PrimaryKey]; mkColumn "value" "TEXT" [NotNull]]]%string.

(** The objects of a database, by name. *)
Notation schema := (gmap string schema_item).

(** IF NOT EXISTS. *)
Definition create (i : schema_item) (s : schema) : schema :=
  match s !! item_name i with Some _ => s | None => <[item_name i := i]> s end.
(** The schema that [migrate] makes of an empty one. *)
Definition migrated : schema := foldl (λ sc i, create i sc) ∅ statements.

Notation rows := (gmap string User).

(** The columns of a row of [users], as [insertUser] writes them. *)
Definition user_column (u : User) (c : string) : value :=
  if decide (c = "id"%string) then VText (u_ID u) else
  if decide (c = "username"%string) then VText (u_Username u) else
  if decide (c = "password_hash"%string) then VText (u_PasswordHash u) else
  if decide (c = "role"%string) then VText (u_Role u) else
  if decide (c = "created_at"%string) then VInt (u_CreatedAt u) else VNull.

Definition unique_columns (columns : list column_def) : list string :=
  cd_name <$> filter (λ c, PrimaryKey ∈ cd_constraints c ∨ Unique ∈ cd_constraints c) columns.

(** An object of the schema admits the insertion of [u]. *)
Definition admits (u : User) (m : rows) (i : schema_item) : Prop :=
  match i with
  | Table name columns =>
      name = "users"%string →
      Forall (λ c, map_Forall (λ _ v, user_column v c ≠ user_column u c) m) (unique_columns columns)
  | UniqueIndex _ table column where_column where_value =>
      table = "users"%string → user_column u where_column = VText where_value →
      map_Forall (λ _ v, user_column v where_column = VText where_value → user_column v column ≠ user_column u column) m
  end.
#[export] Instance admits_dec u m i : Decision (admits u m i).
Proof. destruct i; unfold admits; apply _. Defined.
(** The whole schema does. *)
Definition insertable (s : schema) (u : User) (m : rows) : Prop := map_Forall (λ _, admits u m) s.
#[export] Instance insertable_dec s u m : Decision (insertable s u m).
Proof. unfold insertable. apply _. Defined.

(** No two rows of [users] have the same id. *)
Definition keyed (s : schema) : Prop :=
  ∃ columns, s !! "users"%string = Some (Table "users" columns) ∧ "id"%string ∈ unique_columns columns.

Definition has_admin (m : rows) : Prop := map_Exists (λ _ u, u_Role u = RoleAdmin) m.
#[export] Instance has_admin_dec m : Decision (has_admin m).
Proof. unfold has_admin. apply _. Defined.

(** ** The database

    A database holds its schema, the rows of [users], which a table keyed by
    the id lists by id, and those of [config] by key. *)

(** ORDER BY created_at ASC, username ASC. *)
Definition user_le (a b : User) : Prop :=
  u_CreatedAt a < u_CreatedAt b ∨ (u_CreatedAt a = u_CreatedAt b ∧ String.le (u_Username a) (u_Username b)).

Class Sql : Type := {
  adb : Type;
  schema_of : adb → schema;
  users_of : adb → rows;
  config_of : adb → gmap string string;
  sql_Open : string → outcome sql_error adb;
  sql_Create : string → adb → outcome sql_error unit * adb;   (** [s.db.Exec(statement)] *)
  sql_Ping : adb → outcome sql_error unit;
  sql_AdminExists : adb → outcome sql_error bool;
  sql_Begin : adb → outcome sql_error adb;                  (** the transaction's own view *)
  sql_Commit : adb → adb → outcome sql_error unit * adb;
  sql_InsertUser : User → adb → outcome sql_error unit * adb;
  sql_UserByName : string → adb → outcome sql_error User;
  sql_AllUsers : adb → outcome sql_error (list User);
  sql_DeleteUser : string → adb → outcome sql_error (outcome sql_error Z) * adb;   (** with [RowsAffected] *)
  sql_ConfigGet : string → adb → outcome sql_error string;
  sql_ConfigSet : string → string → adb → outcome sql_error unit * adb;
}.

Record db_same `{Sql} (d d' : adb) : Prop := {
  same_users : users_of d' = users_of d;
  same_config : config_of d' = config_of d;
  same_schema : schema_of d' = schema_of d;
}.

Record inserted `{Sql} (u : User) (d d' : adb) : Prop := {
  inserted_allowed : insertable (schema_of d) u (users_of d);
  inserted_users : keyed (schema_of d) → users_of d' = <[u_ID u := u]> (users_of d);
  inserted_config : config_of d' = config_of d;
  inserted_schema : schema_of d' = schema_of d;
}.

(** A database with nothing in it. *)
Definition empty_db `{Sql} (d : adb) : Prop := users_of d = ∅ ∧ config_of d = ∅ ∧ schema_of d = ∅.

(** A statement that succeeds did what it says; one that fails did nothing. *)
Class SqlLaws (D : Sql) : Prop := {
  sql_Open_empty : ∀ d, sql_Open ":memory:" = Ok d → empty_db d;
  sql_Create_ok : ∀ i d d', i ∈ statements → sql_Create (item_text i) d = (Ok (), d') →
    schema_of d' = create i (schema_of d) ∧ users_of d' = users_of d ∧ config_of d' = config_of d;
  sql_Create_failed : ∀ q d o d', sql_Create q d = (o, d') → o ≠ Ok () → db_same d d';
  sql_AdminExists_ok : ∀ d b, sql_AdminExists d = Ok b → b = bool_decide (has_admin (users_of d));
  sql_Begin_ok : ∀ d t, sql_Begin d = Ok t → db_same d t;
  sql_Commit_ok : ∀ t d d', sql_Commit t d = (Ok (), d') → db_same t d';
  sql_Commit_failed : ∀ t d o d', sql_Commit t d = (o, d') → o ≠ Ok () → db_same d d';
  sql_InsertUser_ok : ∀ u d d', sql_InsertUser u d = (Ok (), d') → inserted u d d';
  sql_InsertUser_failed : ∀ u d o d', sql_InsertUser u d = (o, d') → o ≠ Ok () → db_same d d';
  sql_UserByName_ok : ∀ n d u, sql_UserByName n d = Ok u → users_of d !! u_ID u = Some u ∧ u_Username u = n;
  sql_UserByName_none : ∀ n d, sql_UserByName n d = Err ErrNoRows →
    map_Forall (λ _ v, u_Username v ≠ n) (users_of d);
  sql_AllUsers_ok : ∀ d l, sql_AllUsers d = Ok l →
    l ≡ₚ (map_to_list (users_of d)).*2 ∧ Sorted user_le l;
  sql_DeleteUser_ok : ∀ id d n d', sql_DeleteUser id d = (Ok n, d') →
    users_of d' = delete id (users_of d) ∧ config_of d' = config_of d ∧ schema_of d' = schema_of d ∧
    (∀ z, n = Ok z → z = if decide (is_Some (users_of d !! id)) then 1 else 0);
  sql_DeleteUser_failed : ∀ id d o d', sql_DeleteUser id d = (o, d') → ¬ is_Ok o → db_same d d';
  sql_ConfigGet_ok : ∀ k d v, sql_ConfigGet k d = Ok v → config_of d !! k = Some v;
  sql_ConfigGet_none : ∀ k d, sql_ConfigGet k d = Err ErrNoRows → config_of d !! k = None;
  sql_ConfigSet_ok : ∀ k v d d', sql_ConfigSet k v d = (Ok (), d') →
    users_of d' = users_of d ∧ config_of d' = <[k := v]> (config_of d) ∧ schema_of d' = schema_of d;
  sql_ConfigSet_failed : ∀ k v d o d', sql_ConfigSet k v d = (o, d') → o ≠ Ok () → db_same d d';
}.

(** ** The service *)

Record Service `{Sql} : Type := mkService { svc_db : adb; svc_sessions : gmap string Session }.
Arguments mkService {_} _ _.

Definition set_db `{Sql} (d : adb) (s : Service) : Service := mkService d (svc_sessions s).
Definition set_sessions `{Sql} (f : gmap string Session → gmap string Session) (s : Service) : Service :=
  mkService (svc_db s) (f (svc_sessions s)).

Section service.
Context `{D : Sql} `{B : Bcrypt}.

Definition AM (A : Type) : Type := M Service auth_error A.

Definition query {A} (q : adb → outcome sql_error A) : AM A := λ s, (o_maperr SqlFailure (q (svc_db s)), s).
Definition statement {A} (q : adb → outcome sql_error A * adb) : AM A := λ s,
  let '(o, d) := q (svc_db s) in (o_maperr SqlFailure o, set_db d s).

(** [for _, statement := range statements]: the first error ends it. *)
Fixpoint exec_all (l : list schema_item) : AM unit :=
  match l with
  | [] => m_ret ()
  | i :: l => let* _ := statement (sql_Create (item_text i)) in exec_all l
  end.
Definition migrate : AM unit :=
  let* _ := exec_all statements in
  query sql_Ping.

(** What [Open] does with the handle of a database, which a process that starts
    again does on the same file: sessions were only in memory. *)
Definition Open_on (d : adb) : outcome auth_error Service :=
  match migrate (mkService d ∅) with
  | (Ok _, s) => Ok s
  | (Err err, _) => Err err
  | (Panic m, _) => Panic m
  end.
Definition Open (path : string) : outcome auth_error Service :=
  if decide (path = ""%string) then Err (AuthError (Text "path is required")) else
  let! d := o_maperr SqlFailure (sql_Open path) in
  Open_on d.
Definition NewMemory : outcome auth_error Service := Open ":memory:".

Definition IsInitialized : AM bool := query sql_AdminExists.

Definition validateCredentialsInput (username password : string) : outcome auth_error unit :=
  if decide (username = ""%string) then Err (AuthError (Text "username is required")) else
  if decide (password = ""%string) then Err (AuthError (Text "password is required")) else
  Ok ().

(** The [i]-th read of the random source, in hexadecimal. *)
Definition generateHex (e : Env) (i size : nat) : outcome auth_error string :=
  o_map hex_EncodeToString (o_maperr AuthError (rand_Read e i size)).

Definition newUser (e : Env) (username password : string) (role : Role) : outcome auth_error User :=
  let! id := generateHex e 0 16 in
  let! hash := o_maperr AuthError (bcrypt_Generate e password bcrypt_DefaultCost) in
  Ok (mkUser id username hash role (clock e 0)).

Definition insertUser (user : User) : AM unit := statement (sql_InsertUser user).

Definition cloneUser (user : User) : User :=
  mkUser (u_ID user) (u_Username user) (u_PasswordHash user) (u_Role user) (u_CreatedAt user).
Definition cloneSession (x : Session) : Session :=
  mkSession (s_Token x) (s_UserID x) (s_Username x) (s_Role x) (s_ExpiresAt x).

(** The statements of a transaction run on its view; leaving before the
    commit rolls back, which leaves the database as it was. *)
Definition Setup (e : Env) (username password : string) : AM User :=
  let* _ := m_lift (validateCredentialsInput username password) in
  let* tx := query sql_Begin in
  let* exists_ := m_lift (o_maperr SqlFailure (sql_AdminExists tx)) in
  if (exists_ : bool) then m_fail ErrAlreadyInitialized else
  let* user := m_lift (newUser e username password RoleAdmin) in
  let '(o, tx') := sql_InsertUser user tx in
  let* _ := m_lift (o_maperr SqlFailure o) in
  let* _ := statement (sql_Commit tx') in
  m_ret (cloneUser user).

Definition CreateUser (e : Env) (username password : string) (role : Role) : AM User :=
  let* _ := m_lift (validateCredentialsInput username password) in
  if Valid role then
    let* user := m_lift (newUser e username password role) in
    let* _ := insertUser user in
    m_ret (cloneUser user)
  else m_fail (AuthError (Format [Lit "invalid role "; Quoted role])).

Definition getUserByUsername (username : string) : AM User := query (sql_UserByName username).

(** The first part of [Login], which holds no lock: it checks the password
    and makes the session. *)
Definition Login_check (e : Env) (username password : string) : AM Session :=
  if decide (username = ""%string ∨ password = ""%string) then m_fail ErrInvalidCredentials else
  let* user := λ s, match getUserByUsername username s with
                    | (Err (SqlFailure ErrNoRows), s) => (Err ErrInvalidCredentials, s)
                    | r => r
                    end in
  match bcrypt_Compare (u_PasswordHash user) password with
  | Some _ => m_fail ErrInvalidCredentials
  | None =>
      let* token := m_lift (generateHex e 0 32) in
      let now := clock e 0 in
      m_ret (mkSession token (u_ID user) (u_Username user) (u_Role user) (wrap64 (now + sessionTTL)))
  end.

(** The second part, under the lock of the sessions: expired sessions are
    dropped and the new one is stored. *)
Definition Login_store (e : Env) (session : Session) : AM Session :=
  let now := clock e 0 in
  let* _ := m_modify (set_sessions (filter (λ kv, ¬ s_ExpiresAt kv.2 ≤ now))) in
  let* _ := m_modify (set_sessions <[s_Token session := session]>) in
  m_ret (cloneSession session).

Definition Login (e : Env) (username password : string) : AM Session :=
  let* session := Login_check e username password in Login_store e session.

(** [None] is [(nil, false)].  The clock is read again before an expired
    session is dropped. *)
Definition ValidateSession (e : Env) (token : string) : AM (option Session) :=
  if decide (token = ""%string) then m_ret None else
  let* s := m_get in
  match svc_sessions s !! token with
  | None => m_ret None
  | Some session =>
      if decide (s_ExpiresAt session ≤ clock e 0) then
        let* _ := if decide (s_ExpiresAt session ≤ clock e 1)
                  then m_modify (set_sessions (delete token)) else m_ret () in
        m_ret None
      else m_ret (Some (cloneSession session))
  end.

Definition Logout (token : string) : AM unit := m_modify (set_sessions (delete token)).

Definition ListUsers : AM (list User) := query sql_AllUsers.

Definition DeleteUser (id : string) : AM unit :=
  if decide (id = ""%string) then m_fail (AuthError (Text "user id is required")) else
  let* affected := statement (sql_DeleteUser id) in
  match affected with
  | Ok 0 => m_fail (AuthError (Text "user not found"))
  | _ => m_modify (set_sessions (filter (λ kv, s_UserID kv.2 ≠ id)))
  end.

Definition GetConfig (key : string) : AM (option string) :=
  if decide (key = ""%string) then m_ret None else
  λ s, match query (sql_ConfigGet key) s with
       | (Err (SqlFailure ErrNoRows), s) => (Ok None, s)
       | (o, s) => (o_map Some o, s)
       end.

Definition SetConfig (key value : string) : AM unit :=
  if decide (key = ""%string) then m_fail (AuthError (Text "config key is required"))
  else statement (sql_ConfigSet key value).

(** The sessions are dropped; the handle of the database is released. *)
Definition Close : AM unit := m_modify (set_sessions (λ _, ∅)).
End service.
