(* ===== verification/WebJson.v ===== *)
(** * The JSON of the web interface

    The request and response types of [internal/web/handler.go], by their
    struct tags. *)

From S2P Require Import Prelude GoStrings GoJson GoFloat Model StoreCore HttpJson GoSql Auth.
From Stdlib Require Import Floats.SpecFloat.

(** ** Requests *)

Record unlockRequest : Type := mkUnlockRequest { ulr_Passphrase : string }.
Definition dec_unlockRequest : json → option unlockRequest := dec_struct [
  field "passphrase" ulr_Passphrase (λ v _, mkUnlockRequest v) dec_string] (mkUnlockRequest "").

Record setupRequest : Type := mkSetupRequest { str_Username : string; str_Password : string; str_Passphrase : string }.
Definition dec_setupRequest : json → option setupRequest := dec_struct [
  field "username" str_Username (λ v r, mkSetupRequest v (str_Password r) (str_Passphrase r)) dec_string;
  field "password" str_Password (λ v r, mkSetupRequest (str_Username r) v (str_Passphrase r)) dec_string;
  field "passphrase" str_Passphrase (λ v r, mkSetupRequest (str_Username r) (str_Password r) v) dec_string]
  (mkSetupRequest "" "" "").

Record loginRequest : Type := mkLoginRequest { lgr_Username : string; lgr_Password : string }.
Definition dec_loginRequest : json → option loginRequest := dec_struct [
  field "username" lgr_Username (λ v r, mkLoginRequest v (lgr_Password r)) dec_string;
  field "password" lgr_Password (λ v r, mkLoginRequest (lgr_Username r) v) dec_string] (mkLoginRequest "" "").

Record userRequest : Type := mkUserRequest { usr_Username : string; usr_Password : string; usr_Role : Role }.
Definition dec_userRequest : json → option userRequest := dec_struct [
  field "username" usr_Username (λ v r, mkUserRequest v (usr_Password r) (usr_Role r)) dec_string;
  field "password" usr_Password (λ v r, mkUserRequest (usr_Username r) v (usr_Role r)) dec_string;
  field "role" usr_Role (λ v r, mkUserRequest (usr_Username r) (usr_Password r) v) dec_string] (mkUserRequest "" "" "").

Record createSecretRequest : Type := mkUICreateSecret {
  csr_Name : string; csr_Value : string; csr_ContentType : string; csr_NotBefore : option Z; csr_Expires : option Z }.
Definition dec_createSecretRequest : json → option createSecretRequest := dec_struct [
  field "name" csr_Name (λ v r, mkUICreateSecret v (csr_Value r) (csr_ContentType r) (csr_NotBefore r) (csr_Expires r)) dec_string;
  field "value" csr_Value (λ v r, mkUICreateSecret (csr_Name r) v (csr_ContentType r) (csr_NotBefore r) (csr_Expires r)) dec_string;
  field "contentType" csr_ContentType (λ v r, mkUICreateSecret (csr_Name r) (csr_Value r) v (csr_NotBefore r) (csr_Expires r)) dec_string;
  field "notBefore" csr_NotBefore (λ v r, mkUICreateSecret (csr_Name r) (csr_Value r) (csr_ContentType r) v (csr_Expires r)) (dec_ptr 0 dec_int64);
  field "expires" csr_Expires (λ v r, mkUICreateSecret (csr_Name r) (csr_Value r) (csr_ContentType r) (csr_NotBefore r) v) (dec_ptr 0 dec_int64)]
  (mkUICreateSecret "" "" "" None None).

Record createKeyRequest : Type := mkUICreateKey {
  uck_Name : string; uck_Kty : string; uck_KeySize : Z; uck_Crv : string; uck_NotBefore : option Z; uck_Expires : option Z }.
Definition dec_createKeyRequest : json → option createKeyRequest := dec_struct [
  field "name" uck_Name (λ v r, mkUICreateKey v (uck_Kty r) (uck_KeySize r) (uck_Crv r) (uck_NotBefore r) (uck_Expires r)) dec_string;
  field "kty" uck_Kty (λ v r, mkUICreateKey (uck_Name r) v (uck_KeySize r) (uck_Crv r) (uck_NotBefore r) (uck_Expires r)) dec_string;
  field "keySize" uck_KeySize (λ v r, mkUICreateKey (uck_Name r) (uck_Kty r) v (uck_Crv r) (uck_NotBefore r) (uck_Expires r)) dec_int64;
  field "crv" uck_Crv (λ v r, mkUICreateKey (uck_Name r) (uck_Kty r) (uck_KeySize r) v (uck_NotBefore r) (uck_Expires r)) dec_string;
  field "notBefore" uck_NotBefore (λ v r, mkUICreateKey (uck_Name r) (uck_Kty r) (uck_KeySize r) (uck_Crv r) v (uck_Expires r)) (dec_ptr 0 dec_int64);
  field "expires" uck_Expires (λ v r, mkUICreateKey (uck_Name r) (uck_Kty r) (uck_KeySize r) (uck_Crv r) (uck_NotBefore r) v) (dec_ptr 0 dec_int64)]
  (mkUICreateKey "" "" 0 "" None None).

(** A [float64]; its zero is positive. *)
Definition dec_float64 : decoder spec_float := λ cur j,
  match j with JNull => Some cur | JNum t => ParseFloat t | _ => None end.

Record generateCertificateRequest : Type := mkGenerateCert {
  gcr_Name : string; gcr_CommonName : string; gcr_Organization : string; gcr_Country : string; gcr_State : string;
  gcr_Locality : string; gcr_ValidityMonths : spec_float; gcr_CertType : string; gcr_IssuerName : string }.
Definition dec_generateCertificateRequest : json → option generateCertificateRequest := dec_struct [
  field "name" gcr_Name (λ v r, mkGenerateCert v (gcr_CommonName r) (gcr_Organization r) (gcr_Country r) (gcr_State r) (gcr_Locality r) (gcr_ValidityMonths r) (gcr_CertType r) (gcr_IssuerName r)) dec_string;
  field "commonName" gcr_CommonName (λ v r, mkGenerateCert (gcr_Name r) v (gcr_Organization r) (gcr_Country r) (gcr_State r) (gcr_Locality r) (gcr_ValidityMonths r) (gcr_CertType r) (gcr_IssuerName r)) dec_string;
  field "organization" gcr_Organization (λ v r, mkGenerateCert (gcr_Name r) (gcr_CommonName r) v (gcr_Country r) (gcr_State r) (gcr_Locality r) (gcr_ValidityMonths r) (gcr_CertType r) (gcr_IssuerName r)) dec_string;
  field "country" gcr_Country (λ v r, mkGenerateCert (gcr_Name r) (gcr_CommonName r) (gcr_Organization r) v (gcr_State r) (gcr_Locality r) (gcr_ValidityMonths r) (gcr_CertType r) (gcr_IssuerName r)) dec_string;
  field "state" gcr_State (λ v r, mkGenerateCert (gcr_Name r) (gcr_CommonName r) (gcr_Organization r) (gcr_Country r) v (gcr_Locality r) (gcr_ValidityMonths r) (gcr_CertType r) (gcr_IssuerName r)) dec_string;
  field "locality" gcr_Locality (λ v r, mkGenerateCert (gcr_Name r) (gcr_CommonName r) (gcr_Organization r) (gcr_Country r) (gcr_State r) v (gcr_ValidityMonths r) (gcr_CertType r) (gcr_IssuerName r)) dec_string;
  field "validityMonths" gcr_ValidityMonths (λ v r, mkGenerateCert (gcr_Name r) (gcr_CommonName r) (gcr_Organization r) (gcr_Country r) (gcr_State r) (gcr_Locality r) v (gcr_CertType r) (gcr_IssuerName r)) dec_float64;
  field "certType" gcr_CertType (λ v r, mkGenerateCert (gcr_Name r) (gcr_CommonName r) (gcr_Organization r) (gcr_Country r) (gcr_State r) (gcr_Locality r) (gcr_ValidityMonths r) v (gcr_IssuerName r)) dec_string;
  field "issuerName" gcr_IssuerName (λ v r, mkGenerateCert (gcr_Name r) (gcr_CommonName r) (gcr_Organization r) (gcr_Country r) (gcr_State r) (gcr_Locality r) (gcr_ValidityMonths r) (gcr_CertType r) v) dec_string]
  (mkGenerateCert "" "" "" "" "" "" (S754_zero false) "" "").

Record importCertificateRequest : Type := mkUIImportCert { uic_Name : string; uic_Value : string; uic_Password : string }.
Definition dec_importCertificateRequest : json → option importCertificateRequest := dec_struct [
  field "name" uic_Name (λ v r, mkUIImportCert v (uic_Value r) (uic_Password r)) dec_string;
  field "value" uic_Value (λ v r, mkUIImportCert (uic_Name r) v (uic_Password r)) dec_string;
  field "password" uic_Password (λ v r, mkUIImportCert (uic_Name r) (uic_Value r) v) dec_string] (mkUIImportCert "" "" "").

(** ** Responses *)

Definition member (name value : string) : string * json := (name, JStr value).
(** A pointer with [omitempty]. *)
Definition int_ptr_field (name : string) (value : option Z) : list (string * json) :=
  match value with Some z => [(name, enc_int z)] | None => [] end.

Definition json_of_statusResponse (initialized locked : bool) : json :=
  JObj [("initialized"%string, JBool initialized); ("locked"%string, JBool locked)].
Definition json_ok : json := JObj [("ok"%string, JBool true)].
Definition json_of_authResponse (username : string) (role : Role) : json :=
  JObj [member "username" username; member "role" role].
Definition json_of_userResponse (id username : string) (role : Role) (createdAt : Z) : json :=
  JObj (str_field "id" id ++ [member "username" username; member "role" role] ++ int_field "createdAt" createdAt).

Definition enabled (a : Attributes) : bool := default false (Enabled a).
Definition times (a : Attributes) : list (string * json) :=
  int_field "created" (Created a) ++ int_field "updated" (Updated a).
Definition validity (a : Attributes) : list (string * json) :=
  int_ptr_field "notBefore" (NotBefore a) ++ int_ptr_field "expires" (Expires a).

Definition json_of_secretResponse (r : SecretRecord) : json :=
  JObj ([member "name" (sr_Name r); member "version" (sr_Version r); ("enabled"%string, JBool (enabled (sr_Attributes r)));
         member "contentType" (sr_ContentType r)] ++ times (sr_Attributes r) ++ validity (sr_Attributes r)).
Definition json_of_secretDetailResponse (r : SecretRecord) : json :=
  JObj ([member "name" (sr_Name r); member "version" (sr_Version r); member "value" (sr_Value r);
         ("enabled"%string, JBool (enabled (sr_Attributes r))); member "contentType" (sr_ContentType r)] ++
         times (sr_Attributes r) ++ validity (sr_Attributes r)).
Definition json_of_keyResponse (r : KeyRecord) : json :=
  JObj ([member "name" (kr_Name r); member "version" (kr_Version r); member "kty" (jwk_Kty (kr_Key r));
         member "crv" (jwk_Crv (kr_Key r)); member "kid" (jwk_Kid (kr_Key r))] ++
         times (kr_Attributes r) ++ validity (kr_Attributes r)).
Definition json_of_keyDetailResponse (r : KeyRecord) (publicKeyPem : string) : json :=
  let k := kr_Key r in
  JObj ([member "name" (kr_Name r); member "version" (kr_Version r); member "kty" (jwk_Kty k)] ++
        str_field "crv" (jwk_Crv k) ++ [member "kid" (jwk_Kid k)] ++ strings_field "keyOps" (jwk_KeyOps k) ++
        str_field "n" (jwk_N k) ++ str_field "e" (jwk_E k) ++ str_field "x" (jwk_X k) ++ str_field "y" (jwk_Y k) ++
        str_field "publicKeyPem" publicKeyPem ++ times (kr_Attributes r) ++ validity (kr_Attributes r)).
Definition json_of_certificateResponse (r : CertificateRecord) : json :=
  JObj ([member "name" (cr_Name r); member "version" (cr_Version r)] ++ times (cr_Attributes r) ++
        int_ptr_field "expires" (Expires (cr_Attributes r))).

(** What [handleGetCertificate] reads out of the certificate. *)
Record certificate_details : Type := mkCertificateDetails {
  cd_Subject : string; cd_Issuer : string; cd_Serial : string; cd_Thumbprint : string; cd_NotBefore : Z; cd_NotAfter : Z }.
Definition json_of_certificateDetailResponse (r : CertificateRecord) (d : certificate_details) (pem : string) : json :=
  JObj ([member "name" (cr_Name r); member "version" (cr_Version r); member "subject" (cd_Subject d);
         member "issuer" (cd_Issuer d); member "serial" (cd_Serial d); member "thumbprint" (cd_Thumbprint d)] ++
        int_field "notBefore" (cd_NotBefore d) ++ int_field "notAfter" (cd_NotAfter d) ++ [member "pem" pem] ++
        times (cr_Attributes r) ++ int_ptr_field "expires" (Expires (cr_Attributes r))).
