(* ===== verification/Web.v ===== *)
(** * Component: the web interface ([internal/web/handler.go], [internal/server])

    The handlers of the UI over the authentication service, the encrypting
    wrapper of the store and the vault key.  A handler is a run of the state
    monad whose error is the response it returns early with.  Requests arrive
    as the multiplexer hands them over: with their route, its path value and
    the value of the session cookie.  The pages come last. *)

From S2P Require Import Prelude GoStrings GoBase64 GoJson GoCrypto GoSha1 GoX509 Encryption Model KeyCrypto CertCrypto StoreCore SecretStore KeyStore CertStore EncryptedStore HttpJson Http HttpSecrets HttpKeys HttpCerts GoSql Auth WebJson.
From Stdlib Require Import Floats.SpecFloat.

(** ** Requests and responses *)

Inductive ui_route : Type :=
| UIStatus | UISetup | UIUnlock | UILogin | UILogout | UIMe
| UIListUsers | UICreateUser | UIDeleteUser (id : string)
| UIListSecrets | UICreateSecret | UIGetSecret (name : string) | UIDeleteSecret (name : string)
| UIListKeys | UICreateKey | UIGetKey (name : string) | UIDeleteKey (name : string)
| UIListCertificates | UIGenerateCertificate | UIImportCertificate
| UIGetCertificate (name : string) | UIDeleteCertificate (name : string).

Record WebRequest : Type := mkWebRequest {
  wr_Route : ui_route;
  wr_Cookie : option string;      (** [r.Cookie("kv_session")] *)
  wr_Body : option bytes;
}.

Record Cookie : Type := mkCookie { ck_Value : string; ck_Expires : Z; ck_MaxAge : Z }.
Inductive web_body : Type :=
| WebNone
| WebJson (j : json)
| WebError (msg : message).       (** [{"error": msg}] *)
Record WebResponse : Type := mkWebResponse { ws_Status : Z; ws_Body : web_body; ws_Cookie : option Cookie }.

Definition StatusUnauthorized : Z := 401.
Definition StatusForbidden : Z := 403.

Definition web_json (status : Z) (j : json) : WebResponse := mkWebResponse status (WebJson j) None.
Definition web_error (status : Z) (msg : message) : WebResponse := mkWebResponse status (WebError msg) None.

(** [err.Error()]. *)
Definition auth_error_text (err : auth_error) : message :=
  match err with
  | ErrAlreadyInitialized => "auth service already initialized"
  | ErrInvalidCredentials => "invalid credentials"
  | SqlFailure err => sql_error_text err
  | AuthError m => m
  end.

(** The environment after the first [n] readings of the clock. *)
Definition skip_clock (n : nat) (e : Env) : Env := {|
  clock i := clock e (n + i); clock_nanos i := clock_nanos e (n + i);
  rand_ok := rand_ok e; rand_byte := rand_byte e; rand_err := rand_err e;
|}.

(** What the UI reads of a certificate. *)
Class WebX509 `{CertLib} : Type := {
  cert_Subject : x509_Certificate → string;
  cert_Issuer : x509_Certificate → string;
  cert_SerialNumber : x509_Certificate → Z;
  cert_NotBefore : x509_Certificate → Z;      (** seconds since the epoch *)
  cert_NotAfter : x509_Certificate → Z;
}.

(** ** The handler *)

Record Web `{Sql} (St : Type) : Type := mkWeb { w_auth : Service; w_kv : St; w_encKey : option bytes }.
Arguments mkWeb {_ St} _ _ _.
Arguments w_auth {_ St} _.
Arguments w_kv {_ St} _.
Arguments w_encKey {_ St} _.

Section web.
Context `{D : Sql} `{B : Bcrypt} `{P : Pbkdf2} `{C : BlockCipher} `{L : PublicKeyLib} `{X : CertLib} `{WX : !WebX509} `{KD : KeyDer}.
Context `{JE : JsonErrors} {St : Type} `{SA : SecretsApi St} `{SS : SecretStorer St} `{KA : KeysApi St} `{CA : CertsApi St}.

Notation Web := (Web St).
Notation WM := (M Web WebResponse).

(** A handler just made, over a service and a store: [New]. *)
Definition web_New (a : Service) (s : St) : Web := mkWeb a s None.

Definition on_auth {A} (m : AM A) : M Web auth_error A := λ w,
  let '(o, a) := m (w_auth w) in (o, mkWeb a (w_kv w) (w_encKey w)).
Definition on_kv {E A} (m : M St E A) : M Web E A := λ w,
  let '(o, s) := m (w_kv w) in (o, mkWeb (w_auth w) s (w_encKey w)).

(** [v, err := m; if err != nil { writeError; return }]. *)
Definition or_fail {E A} (m : M Web E A) (rsp : E → WebResponse) : WM A := λ w,
  let '(o, w') := m w in (o_maperr rsp o, w').
(** [_ = m]. *)
Definition ignoring {E A} (m : M Web E A) : WM unit := λ w,
  match m w with (Panic p, w') => (Panic p, w') | (_, w') => (Ok (), w') end.
Definition guard_or (c : bool) (rsp : WebResponse) : WM unit := if c then m_ret () else m_fail rsp.

(** The response of a handler, early or late. *)
Definition run_handler (h : WM WebResponse) (w : Web) : outcome Empty_set WebResponse * Web :=
  match h w with
  | (Ok rsp, w') | (Err rsp, w') => (Ok rsp, w')
  | (Panic p, w') => (Panic p, w')
  end.

Definition setEncryptionKey (key : bytes) : WM unit :=
  m_modify (λ w, mkWeb (w_auth w) (w_kv w) (if decide (length key = 0%nat) then None else Some key)).

(** The configuration, without the error. *)
Definition config (key : string) (w : Web) : option string :=
  match (GetConfig key (w_auth w)).1 with Ok v => v | _ => None end.
Definition isLocked (w : Web) : bool :=
  match config "enc_salt" w with Some _ => bool_decide (w_encKey w = None) | None => false end.

(** [newEncryptedStore(s, h.getEncryptionKey, h.isLocked)], as it stands. *)
Definition kvStore (w : Web) : SecretsApi St :=
  encrypted_SecretsApi SA (newEncryptedStore (w_encKey w) (Some (isLocked w))).
Definition on_secrets {A} (m : SecretsApi St → M St error A) : M Web error A := λ w, on_kv (m (kvStore w)) w.

Definition decodeJSON {T} (kind : string) (decode : json → option T) (r : WebRequest) : WM T :=
  match wr_Body r with
  | None => m_fail (web_error StatusBadRequest "request body is required")
  | Some body =>
      match json_first body ≫= decode with
      | Some v => m_ret v
      | None => m_fail (web_error StatusBadRequest
          (match skip_space body with [] => "request body is required" | _ => json_error kind body end))
      end
  end.

Definition kv_failed (status : Z) (err : error) : WebResponse := web_error status (error_text err).
Definition auth_failed (status : Z) (err : auth_error) : WebResponse := web_error status (auth_error_text err).
Definition ok_response : WebResponse := web_json StatusOK json_ok.
Definition no_content : WebResponse := mkWebResponse StatusNoContent WebNone None.

(** ** Setup and unlocking *)

Definition handleStatus : WM WebResponse :=
  let* initialized := or_fail (on_auth IsInitialized) (auth_failed StatusInternalServerError) in
  let* w := m_get in
  m_ret (web_json StatusOK (json_of_statusResponse initialized (initialized && isLocked w))).

(** The vault key of a passphrase, its salt, and the token that verifies it. *)
Definition new_vault_key (e : Env) (passphrase : string) : outcome message (bytes * bytes * string) :=
  let! salt := GenerateSalt e 0 in
  let key := DeriveKey passphrase salt in
  let! verify := EncryptString e 1 key "verify" in
  Ok (salt, key, verify).

Definition set_config_or (user : User) (key value : string) : WM unit := λ w,
  match on_auth (SetConfig key value) w with
  | (Err err, w') =>
      (let* _ := ignoring (on_auth (DeleteUser (u_ID user))) in
       m_fail (auth_failed StatusInternalServerError err)) w'
  | (Ok _, w') => (Ok (), w')
  | (Panic p, w') => (Panic p, w')
  end.

Definition handleSetup (e : Env) (r : WebRequest) : WM WebResponse :=
  let* req := decodeJSON "setupRequest" dec_setupRequest r in
  let* _ := guard_or (bool_decide (str_Passphrase req ≠ ""%string)) (web_error StatusBadRequest "passphrase is required") in
  let* skv := m_lift (o_maperr (web_error StatusInternalServerError) (new_vault_key e (str_Passphrase req))) in
  let '(salt, key, verify) := skv in
  let* createdUser := or_fail (on_auth (Setup (skip_rand 2 e) (str_Username req) (str_Password req)))
    (λ err, match err with
            | ErrAlreadyInitialized => web_error StatusConflict "auth service already initialized"
            | _ => auth_failed StatusBadRequest err
            end) in
  let* _ := set_config_or createdUser "enc_salt" (hex_EncodeToString salt) in
  let* _ := set_config_or createdUser "enc_verify" verify in
  let* _ := setEncryptionKey key in
  m_ret ok_response.

(** A configuration value that must be there. *)
Definition required_config (key : string) (missing : WebResponse) : WM string :=
  let* v := or_fail (on_auth (GetConfig key))
    (λ _, web_error StatusInternalServerError "failed to read encryption configuration") in
  match v with Some v => m_ret v | None => m_fail missing end.

Definition handleUnlock (r : WebRequest) : WM WebResponse :=
  let* req := decodeJSON "unlockRequest" dec_unlockRequest r in
  let* _ := guard_or (bool_decide (ulr_Passphrase req ≠ ""%string)) (web_error StatusBadRequest "passphrase is required") in
  let* saltHex := required_config "enc_salt" (web_error StatusBadRequest "encryption not configured") in
  let* salt := m_lift (o_maperr (λ _, web_error StatusInternalServerError "invalid encryption salt") (hex_DecodeString saltHex)) in
  let* encVerify := required_config "enc_verify"
    (web_error StatusInternalServerError "encryption verification token missing") in
  let key := DeriveKey (ulr_Passphrase req) salt in
  let* plaintext := m_lift (o_maperr (λ _, web_error StatusUnauthorized "incorrect passphrase") (DecryptString key encVerify)) in
  let* _ := guard_or (bool_decide (plaintext = "verify"%string))
    (web_error StatusInternalServerError "invalid encryption verification token") in
  let* _ := setEncryptionKey key in
  m_ret ok_response.

(** ** Sessions *)

Definition handleLogin (e : Env) (r : WebRequest) : WM WebResponse :=
  let* req := decodeJSON "loginRequest" dec_loginRequest r in
  let* session := or_fail (on_auth (Login e (lgr_Username req) (lgr_Password req)))
    (λ err, match err with
            | ErrInvalidCredentials => web_error StatusUnauthorized "invalid credentials"
            | _ => auth_failed StatusBadRequest err
            end) in
  m_ret (mkWebResponse StatusOK (WebJson (json_of_authResponse (s_Username session) (s_Role session)))
    (Some (mkCookie (s_Token session) (s_ExpiresAt session) 0))).

Definition clearSessionCookie : Cookie := mkCookie "" 0 (-1).

Definition handleLogout (r : WebRequest) : WM WebResponse :=
  let* _ := match wr_Cookie r with
            | Some token => or_fail (on_auth (Logout token)) (auth_failed StatusInternalServerError)
            | None => m_ret ()
            end in
  m_ret (mkWebResponse StatusOK (WebJson json_ok) (Some clearSessionCookie)).

Definition handleMe (session : Session) : WM WebResponse :=
  m_ret (web_json StatusOK (json_of_authResponse (s_Username session) (s_Role session))).

Definition requireSession (e : Env) (r : WebRequest) (next : Env → Session → WM WebResponse) : WM WebResponse :=
  let refused := web_error StatusUnauthorized "authentication required" in
  match wr_Cookie r with
  | None => m_fail refused
  | Some token =>
      let* session := or_fail (on_auth (ValidateSession e token)) (λ _, refused) in
      match session with
      | Some session => next (skip_clock 1 e) session
      | None => m_fail refused
      end
  end.

Definition requireAdmin (e : Env) (r : WebRequest) (next : Env → Session → WM WebResponse) : WM WebResponse :=
  requireSession e r (λ e session,
    if decide (s_Role session ≠ RoleAdmin) then m_fail (web_error StatusForbidden "admin access required")
    else next e session).

(** ** Users *)

Definition handleListUsers : WM WebResponse :=
  let* users := or_fail (on_auth ListUsers) (auth_failed StatusInternalServerError) in
  m_ret (web_json StatusOK (JArr (map (λ u, json_of_userResponse (u_ID u) (u_Username u) (u_Role u) (u_CreatedAt u)) users))).

Definition handleCreateUser (e : Env) (r : WebRequest) : WM WebResponse :=
  let* req := decodeJSON "userRequest" dec_userRequest r in
  let* _ := guard_or (Valid (usr_Role req)) (web_error StatusBadRequest "invalid role") in
  let* user := or_fail (on_auth (CreateUser e (usr_Username req) (usr_Password req) (usr_Role req))) (auth_failed StatusBadRequest) in
  m_ret (web_json StatusOK (json_of_userResponse (u_ID user) (u_Username user) (u_Role user) 0)).

Definition handleDeleteUser (id : string) : WM WebResponse :=
  let* _ := or_fail (on_auth (DeleteUser id)) (auth_failed StatusBadRequest) in m_ret no_content.

(** ** Secrets *)

(** Attributes of which only the validity is given. *)
Definition ui_attributes (notBefore expires : option Z) : Attributes := mkAttributes None notBefore expires 0 0 "" 0.

Definition handleListSecrets : WM WebResponse :=
  let* rn := or_fail (on_secrets (λ api, @api_ListSecrets St api 100 "")) (kv_failed StatusInternalServerError) in
  m_ret (web_json StatusOK (JArr (map json_of_secretResponse rn.1))).

Definition handleCreateSecret (e : Env) (r : WebRequest) : WM WebResponse :=
  let* req := decodeJSON "createSecretRequest" dec_createSecretRequest r in
  let* _ := guard_or (bool_decide (csr_Name req ≠ ""%string)) (web_error StatusBadRequest "name is required") in
  let* record := or_fail (on_secrets (λ api, @api_SetSecret St api e (csr_Name req)
      (mkSecretSetRequest (csr_Value req) (csr_ContentType req) (Some (ui_attributes (csr_NotBefore req) (csr_Expires req))) None)))
    (kv_failed StatusInternalServerError) in
  m_ret (web_json StatusOK (json_of_secretResponse record)).

Definition handleGetSecret (name : string) : WM WebResponse :=
  let* record := or_fail (on_secrets (λ api, @api_GetSecret St api name "")) (kv_failed StatusNotFound) in
  m_ret (web_json StatusOK (json_of_secretDetailResponse record)).

Definition handleDeleteSecret (e : Env) (name : string) : WM WebResponse :=
  let* _ := or_fail (on_secrets (λ api, @api_DeleteSecret St api e name)) (kv_failed StatusInternalServerError) in
  m_ret no_content.

(** ** Keys *)

Definition handleListKeys : WM WebResponse :=
  let* rn := or_fail (on_kv (api_ListKeys 100 "")) (kv_failed StatusInternalServerError) in
  m_ret (web_json StatusOK (JArr (map json_of_keyResponse rn.1))).

Definition handleCreateKey (e : Env) (r : WebRequest) : WM WebResponse :=
  let* req := decodeJSON "createKeyRequest" dec_createKeyRequest r in
  let* _ := guard_or (bool_decide (uck_Name req ≠ ""%string)) (web_error StatusBadRequest "name is required") in
  let* _ := guard_or (bool_decide (uck_Kty req ≠ ""%string)) (web_error StatusBadRequest "kty is required") in
  let* record := or_fail (on_kv (api_CreateKey e (uck_Name req)
      (mkCreateKeyRequest (uck_Kty req) (uck_KeySize req) [] (Some (ui_attributes (uck_NotBefore req) (uck_Expires req))) None
         (uck_Crv req) "")))
    (kv_failed StatusInternalServerError) in
  m_ret (web_json StatusOK (json_of_keyResponse record)).

(** Two numbers of a key that are not empty; [None] for a nil result. *)
Definition two_numbers (a b : string) : option (Z * Z) :=
  match b64_DecodeString RawURLEncoding a, b64_DecodeString RawURLEncoding b with
  | Ok (_ :: _ as a), Ok (_ :: _ as b) => Some (big_SetBytes a, big_SetBytes b)
  | _, _ => None
  end.

Definition pkix_curve (crv : string) : option Curve :=
  if decide (crv = "P-256"%string) then Some P256
  else if decide (crv = "P-384"%string) then Some P384
  else if decide (crv = "P-521"%string) then Some P521 else None.

Definition publicKeyToPEM (jwk : JSONWebKey) : outcome message bytes :=
  let encode (der : outcome message bytes) : outcome message bytes :=
    match der with
    | Ok der => Ok (pem_EncodeToMemory (mk_pem_Block "PUBLIC KEY" der))
    | Err _ => Ok []
    | Panic p => Panic p
    end in
  let kty := jwk_Kty jwk in
  if decide (kty = "RSA" ∨ kty = "RSA-HSM")%string then
    match two_numbers (jwk_N jwk) (jwk_E jwk) with
    | Some (n, e) => encode (x509_MarshalPKIX_rsa (mk_rsa_PublicKey n (wrap64 e)))
    | None => Ok []
    end
  else if decide (kty = "EC" ∨ kty = "EC-HSM")%string then
    match two_numbers (jwk_X jwk) (jwk_Y jwk), pkix_curve (jwk_Crv jwk) with
    | Some (x, y), Some curve => encode (x509_MarshalPKIX_ecdsa (mk_ecdsa_PublicKey curve x y))
    | _, _ => Ok []
    end
  else Ok [].

Definition handleGetKey (name : string) : WM WebResponse :=
  let* record := or_fail (on_kv (api_GetKey name "")) (kv_failed StatusNotFound) in
  let* pem := m_lift (o_maperr (web_error StatusInternalServerError) (publicKeyToPEM (kr_Key record))) in
  m_ret (web_json StatusOK (json_of_keyDetailResponse record (of_bytes pem))).

Definition handleDeleteKey (e : Env) (name : string) : WM WebResponse :=
  let* _ := or_fail (on_kv (api_DeleteKey e name)) (kv_failed StatusInternalServerError) in m_ret no_content.

(** ** Certificates *)

Definition handleListCertificates : WM WebResponse :=
  let* rn := or_fail (on_kv (api_ListCertificates 100 "")) (kv_failed StatusInternalServerError) in
  m_ret (web_json StatusOK (JArr (map json_of_certificateResponse rn.1))).

Definition subject_part (prefix value : string) : list string :=
  if decide (value = ""%string) then [] else [(prefix ++ value)%string].
Definition cert_subject (req : generateCertificateRequest) : string :=
  let cn := if decide (gcr_CommonName req = ""%string) then gcr_Name req else gcr_CommonName req in
  String.concat ", " (["CN=" ++ cn]%string ++ subject_part "O=" (gcr_Organization req) ++
    subject_part "C=" (gcr_Country req) ++ subject_part "ST=" (gcr_State req) ++ subject_part "L=" (gcr_Locality req)).

Definition positive_float (f : spec_float) : bool :=
  match SFcompare f (S754_zero false) with Some Gt => true | _ => false end.

Definition x509Props (req : generateCertificateRequest) : list (string * any) :=
  [("subject"%string, AString (cert_subject req))] ++
  (if positive_float (gcr_ValidityMonths req) then [("validity_months"%string, AFloat (gcr_ValidityMonths req))] else []) ++
  [("cert_type"%string, AString (if decide (gcr_CertType req = ""%string) then "CA"%string else gcr_CertType req))] ++
  (if decide (gcr_IssuerName req = ""%string) then [] else [("issuer_name"%string, AString (gcr_IssuerName req))]).

Definition handleGenerateCertificate (e : Env) (r : WebRequest) : WM WebResponse :=
  let* req := decodeJSON "generateCertificateRequest" dec_generateCertificateRequest r in
  let* _ := guard_or (bool_decide (gcr_Name req ≠ ""%string)) (web_error StatusBadRequest "name is required") in
  let policy := mkCertificatePolicy "" None None None (Some (x509Props req)) [] None in
  let* record := or_fail (on_kv (api_CreateCertificate e (gcr_Name req) (mkCreateCertificateRequest (Some policy) None None)))
    (kv_failed StatusInternalServerError) in
  m_ret (web_json StatusOK (json_of_certificateResponse record)).

Definition handleImportCertificate (e : Env) (r : WebRequest) : WM WebResponse :=
  let* req := decodeJSON "importCertificateRequest" dec_importCertificateRequest r in
  let* _ := guard_or (bool_decide (uic_Name req ≠ ""%string)) (web_error StatusBadRequest "name is required") in
  let* _ := guard_or (bool_decide (uic_Value req ≠ ""%string)) (web_error StatusBadRequest "certificate value is required") in
  let* record := or_fail (on_kv (api_ImportCertificate e (uic_Name req)
      (mkImportCertificateRequest (uic_Value req) (uic_Password req) None None None)))
    (kv_failed StatusInternalServerError) in
  m_ret (web_json StatusOK (json_of_certificateResponse record)).

(** The zero details of a certificate that does not parse. *)
Definition certificate_detail (cer : bytes) : outcome message certificate_details :=
  match x509_ParseCertificate cer with
  | Ok cert => Ok (mkCertificateDetails (cert_Subject cert) (cert_Issuer cert) (Itoa (cert_SerialNumber cert))
      (hex_EncodeToString (sha1_Sum cer)) (cert_NotBefore cert) (cert_NotAfter cert))
  | Err _ => Ok (mkCertificateDetails "" "" "" "" 0 0)
  | Panic p => Panic p
  end.

Definition handleGetCertificate (name : string) : WM WebResponse :=
  let* record := or_fail (on_kv (api_GetCertificate name "")) (kv_failed StatusNotFound) in
  match cr_Cer record with
  | [] => m_ret (web_json StatusOK (json_of_certificateDetailResponse record (mkCertificateDetails "" "" "" "" 0 0) ""))
  | cer =>
      let* details := m_lift (o_maperr (web_error StatusInternalServerError) (certificate_detail cer)) in
      m_ret (web_json StatusOK (json_of_certificateDetailResponse record details
        (of_bytes (pem_EncodeToMemory (mk_pem_Block "CERTIFICATE" cer)))))
  end.

Definition handleDeleteCertificate (e : Env) (name : string) : WM WebResponse :=
  let* _ := or_fail (on_kv (api_DeleteCertificate e name)) (kv_failed StatusInternalServerError) in m_ret no_content.

(** ** Register *)

Definition ui_handler (e : Env) (r : WebRequest) : WM WebResponse :=
  match wr_Route r with
  | UIStatus => handleStatus
  | UISetup => handleSetup e r
  | UIUnlock => handleUnlock r
  | UILogin => handleLogin e r
  | UILogout => handleLogout r
  | UIMe => requireSession e r (λ _ session, handleMe session)
  | UIListUsers => requireAdmin e r (λ _ _, handleListUsers)
  | UICreateUser => requireAdmin e r (λ e _, handleCreateUser e r)
  | UIDeleteUser id => requireAdmin e r (λ _ _, handleDeleteUser id)
  | UIListSecrets => requireSession e r (λ _ _, handleListSecrets)
  | UICreateSecret => requireSession e r (λ e _, handleCreateSecret e r)
  | UIGetSecret name => requireSession e r (λ _ _, handleGetSecret name)
  | UIDeleteSecret name => requireSession e r (λ e _, handleDeleteSecret e name)
  | UIListKeys => requireSession e r (λ _ _, handleListKeys)
  | UICreateKey => requireSession e r (λ e _, handleCreateKey e r)
  | UIGetKey name => requireSession e r (λ _ _, handleGetKey name)
  | UIDeleteKey name => requireSession e r (λ e _, handleDeleteKey e name)
  | UIListCertificates => requireSession e r (λ _ _, handleListCertificates)
  | UIGenerateCertificate => requireSession e r (λ e _, handleGenerateCertificate e r)
  | UIImportCertificate => requireSession e r (λ e _, handleImportCertificate e r)
  | UIGetCertificate name => requireSession e r (λ _ _, handleGetCertificate name)
  | UIDeleteCertificate name => requireSession e r (λ e _, handleDeleteCertificate e name)
  end.

Definition serve_ui (e : Env) (r : WebRequest) : Web → outcome Empty_set WebResponse * Web := run_handler (ui_handler e r).

(** [NewMuxWithAuth]: the key-vault API runs over the same wrapper. *)
Definition serve_api (e : Env) (r : Request) (w : Web) : outcome Empty_set Response * Web :=
  on_kv (api_handler (SA := kvStore w) e r) w.
End web.

(** ** Pages *)

(** The files embedded from [internal/web/static], by their path, and
    [mime.TypeByExtension], which reads tables of the host. *)
Class StaticFiles : Type := {
  static_file : string → option bytes;
  mime_TypeByExtension : string → string;
}.

Record PageResponse : Type := mkPage { pg_Status : Z; pg_ContentType : string; pg_Body : bytes }.

(** [http.Error]. *)
Definition http_Error (msg : string) (code : Z) : PageResponse :=
  mkPage code "text/plain; charset=utf-8" (to_bytes msg ++ [bmk 10]).

(** [path.Ext]: from the last dot of the last element. *)
Fixpoint ext_of (l : bytes) (ext : bytes) : bytes :=
  match l with
  | [] => ext
  | c :: l' => ext_of l' (if decide (c = "."%char) then l else if decide (c = "/"%char) then [] else ext)
  end.
Definition path_Ext (name : string) : string := of_bytes (ext_of (to_bytes name) []).

Section pages.
Context `{SF : StaticFiles}.

Definition servePage (name : string) : PageResponse :=
  match static_file ("static/" ++ name) with
  | None => http_Error "not found" StatusNotFound
  | Some data =>
      let contentType := mime_TypeByExtension (path_Ext name) in
      mkPage StatusOK (if decide (contentType = ""%string) then "text/html; charset=utf-8" else contentType)%string data
  end.

(** The pages of [Register], for a GET request that is none of the routes of
    the API: the longest pattern wins. The file server under [/ui/static/] is
    the standard library's. *)
Definition ui_page (path : string) : option PageResponse :=
  if HasPrefix path "/ui/static/" then None
  else if decide (path = "/ui/setup"%string) then Some (servePage "setup.html")
  else if decide (path = "/ui/login"%string) then Some (servePage "login.html")
  else if decide (path = "/ui/dashboard"%string) then Some (servePage "dashboard.html")
  else if HasPrefix path "/ui/" then
    Some (if decide (path ≠ "/ui/"%string) then http_Error "404 page not found" StatusNotFound else servePage "index.html")
  else None.
End pages.
