(* ===== verification/Server.v ===== *)
(** * Component: the servers ([internal/server/server.go])

    The handler chain, the start of the two listeners, and the life of the
    process after that: two serving goroutines, the goroutine that shuts down,
    and the loop that waits, as a step relation.  [http.Server] is modelled by
    what net/http documents of [Serve] and [Shutdown]: accepting, the number
    of requests being handled, and the errors [Serve] returns. *)

From S2P Require Import Prelude GoStrings GoJson GoCrypto GoX509 CertCrypto StoreCore SecretStore KeyStore CertStore EncryptedStore HttpJson Http HttpSecrets HttpKeys HttpCerts GoSql Auth Encryption WebJson Web.

(** ** The environment of the process *)

(** [os.Getenv]: no text when the variable is not set. *)
Notation environment := (string → string) (only parsing).

Definition trim (s : string) : string := of_bytes (TrimSpace (to_bytes s)).

Definition envOrDefault (getenv : environment) (key fallback : string) : string :=
  let value := trim (getenv key) in if decide (value ≠ ""%string) then value else fallback.

(** ** Handlers *)

(** The writer that remembers a status, over the codes it passed on. *)
Record statusRecorder : Type := mkStatusRecorder { rw_passed : list Z; rw_status : Z }.
Definition WriteHeader (statusCode : Z) (r : statusRecorder) : statusRecorder :=
  mkStatusRecorder (rw_passed r ++ [statusCode]) statusCode.
Definition new_recorder : statusRecorder := mkStatusRecorder [] StatusOK.

Section mux.
Context `{D : Sql} `{B : Bcrypt} `{P : Pbkdf2} `{C : BlockCipher} `{L : PublicKeyLib} `{X : CertLib} `{WX : !WebX509} `{KD : KeyDer}.
Context `{JE : JsonErrors} {St : Type} `{SA : SecretsApi St} `{SS : SecretStorer St} `{KA : KeysApi St} `{CA : CertsApi St}.

(** What the routes run on: the store as it is, or the web handler. *)
Inductive mux : Type := PlainMux (s : St) | UIMux (w : Web St).

Definition NewMuxWithAuth (s : St) (a : option Service) : mux :=
  match a with Some a => UIMux (web_New a s) | None => PlainMux s end.
Definition NewMux (s : St) : mux := NewMuxWithAuth s None.

(** A request of the key-vault API. *)
Definition serve_mux (e : Env) (r : Request) (m : mux) : outcome Empty_set Response * mux :=
  match m with
  | PlainMux s => let '(o, s) := api_handler e r s in (o, PlainMux s)
  | UIMux w => let '(o, w) := serve_api e r w in (o, UIMux w)
  end.

(** The line of the log: method and status; its address and duration are left
    out. A handler that panics is not logged. *)
Definition loggingMiddleware (next : mux → outcome Empty_set Response * mux) (method : string) (m : mux)
    : outcome Empty_set Response * mux * option (string * Z) :=
  match next m with
  | (Ok rsp, m') => (Ok rsp, m', Some (method, rw_status (WriteHeader (rsp_Status rsp) new_recorder)))
  | (Err e, m') => (Err e, m', None)
  | (Panic p, m') => (Panic p, m', None)
  end.
End mux.

(** ** Listeners *)

(** Whether the operating system grants a listener. *)
Class NetLib `{TL : TlsLib} : Type := {
  tls_Listen : string → tls_Certificate → outcome message unit;
  net_Listen : string → outcome message unit;
}.

Section start.
Context `{PL : PublicKeyLib} `{TL : TlsLib} {NL : NetLib (TL:=TL)} (getenv : environment).

(** The addresses that are listened on. *)
Notation LM := (M (list string) message).

Definition generateSelfSignedCertificate (e : Env) : outcome message tls_Certificate :=
  GenerateTLSCertificate e 0 "azure-keyvault-emulator" ["localhost"; "emulator"]%string.

Definition httpAddr : string := (":" ++ envOrDefault getenv "PORT" "8080")%string.
Definition httpsAddr : string := (":" ++ envOrDefault getenv "HTTPS_PORT" "8443")%string.

Definition listening_on (addr : string) (o : outcome message unit) : LM unit :=
  let* _ := m_lift o in m_modify (cons addr).

(** [RunWithAuth] up to its first goroutine. *)
Definition start_listeners (e : Env) : LM unit :=
  let* cert := m_lift (generateSelfSignedCertificate e) in
  let* _ := listening_on httpsAddr (tls_Listen httpsAddr cert) in
  λ ls, match listening_on httpAddr (net_Listen httpAddr) ls with
        | (Err err, ls') => (Err err, filter (λ a, a ≠ httpsAddr) ls')   (** [httpsListener.Close()] *)
        | r => r
        end.
End start.

(** ** Serving *)

(** How [Serve] ends. *)
Inductive serve_end : Type := ErrServerClosed | ServeError (m : message).

Record srv : Type := mkSrv {
  closing : bool;              (** [Shutdown] was called *)
  active : nat;                (** requests being handled *)
  ended : option serve_end;    (** [Serve] returned *)
}.

(** Where the goroutine that waits for [ctx] is. *)
Inductive shutdown_pc : Type := AwaitCancel | ShutHttp | ShutHttps | ShutDone.

Record run_state : Type := mkRun {
  rs_http : srv;
  rs_https : srv;
  errCh : list serve_end;
  cancelled : bool;                          (** [ctx] is done *)
  shut : shutdown_pc;
  expired : bool;                            (** the five seconds of [shutdownCtx] are over *)
  seen : nat;                                (** [i] of the loop *)
  result : option (outcome message unit);    (** what [RunWithAuth] returned *)
}.

Definition running_srv : srv := mkSrv false 0 None.
Definition run_init : run_state := mkRun running_srv running_srv [] false AwaitCancel false 0 None.

(** *** One server *)

Inductive which : Type := Http | Https.
Definition server (w : which) (s : run_state) : srv := match w with Http => rs_http s | Https => rs_https s end.
Definition set_server (w : which) (v : srv) (s : run_state) : run_state :=
  match w with
  | Http => mkRun v (rs_https s) (errCh s) (cancelled s) (shut s) (expired s) (seen s) (result s)
  | Https => mkRun (rs_http s) v (errCh s) (cancelled s) (shut s) (expired s) (seen s) (result s)
  end.
Definition set_active (n : nat) (v : srv) : srv := mkSrv (closing v) n (ended v).
Definition set_closing (v : srv) : srv := mkSrv true (active v) (ended v).

(** [go func() { errCh <- server.Serve(listener) }()]: [Serve] returns. *)
Definition serve_returns (w : which) (x : serve_end) (s : run_state) : run_state :=
  let s := set_server w (mkSrv (closing (server w s)) (active (server w s)) (Some x)) s in
  mkRun (rs_http s) (rs_https s) (errCh s ++ [x]) (cancelled s) (shut s) (expired s) (seen s) (result s).

Definition set_shut (pc : shutdown_pc) (s : run_state) : run_state :=
  mkRun (rs_http s) (rs_https s) (errCh s) (cancelled s) pc (expired s) (seen s) (result s).
(** The goroutine calls [Shutdown] of the next server. *)
Definition begin_shutdown (w : which) (pc : shutdown_pc) (s : run_state) : run_state :=
  set_shut pc (set_server w (set_closing (server w s)) s).

(** [Shutdown] returns: nothing is being handled, or the context expired. *)
Definition shutdown_over (w : which) (s : run_state) : bool := bool_decide (active (server w s) = 0%nat) || expired s.

(** An iteration of [for i := 0; i < 2; i++]. *)
Definition receive (x : serve_end) (rest : list serve_end) (s : run_state) : run_state :=
  let r :=
    match x with
    | ServeError m => Some (Err m)
    | ErrServerClosed => if decide (S (seen s) = 2%nat) then Some (Ok ()) else None
    end in
  mkRun (rs_http s) (rs_https s) rest (cancelled s) (shut s) (expired s) (S (seen s)) r.

(** What clients, the operating system and the signals do. *)
Inductive outside : run_state → run_state → Prop :=
| accepts w s : closing (server w s) = false → ended (server w s) = None →
    outside s (set_server w (set_active (S (active (server w s))) (server w s)) s)
| finishes w n s : active (server w s) = S n → outside s (set_server w (set_active n (server w s)) s)
| cancels s : outside s (mkRun (rs_http s) (rs_https s) (errCh s) true (shut s) (expired s) (seen s) (result s))
| fails w m s : closing (server w s) = false → ended (server w s) = None → outside s (serve_returns w (ServeError m) s).

(** What the process does on its own, the clock of [shutdownCtx] included. *)
Inductive inside : run_state → run_state → Prop :=
| closed w s : closing (server w s) = true → ended (server w s) = None → inside s (serve_returns w ErrServerClosed s)
| shuts_http s : shut s = AwaitCancel → cancelled s = true → inside s (begin_shutdown Http ShutHttp s)
| shuts_https s : shut s = ShutHttp → shutdown_over Http s = true → inside s (begin_shutdown Https ShutHttps s)
| shut_over s : shut s = ShutHttps → shutdown_over Https s = true → inside s (set_shut ShutDone s)
| expires s : shut s ∈ [ShutHttp; ShutHttps] → expired s = false →
    inside s (mkRun (rs_http s) (rs_https s) (errCh s) (cancelled s) (shut s) true (seen s) (result s))
| receives x rest s : errCh s = x :: rest → inside s (receive x rest s).

(** The process lives until [RunWithAuth] returns. *)
Definition run_step (s s' : run_state) : Prop := result s = None ∧ (outside s s' ∨ inside s s').

(** *** The whole of [RunWithAuth] *)

Section run_with_auth.
Context `{D : Sql} `{PL : PublicKeyLib} `{TL : TlsLib} {NL : NetLib (TL:=TL)} {St : Type}.

(** The handler that is served, and the process at its first goroutine. *)
Definition start_serving (getenv : string → string) (e : Env) (s : St) (a : option Service)
    : M (list string) message (mux * run_state) :=
  let handler := NewMuxWithAuth s a in
  let* _ := start_listeners getenv e in
  m_ret (handler, run_init).

(** What it can return, from the listeners there are. *)
Inductive RunWithAuth (getenv : string → string) (e : Env) (s : St) (a : option Service) (ls : list string) : outcome message unit → Prop :=
| returns_unstarted m : (start_serving getenv e s a ls).1 = Err m → RunWithAuth getenv e s a ls (Err m)
| returns_panic p : (start_serving getenv e s a ls).1 = Panic p → RunWithAuth getenv e s a ls (Panic p)
| returns_served h st st' o :
    (start_serving getenv e s a ls).1 = Ok (h, st) → rtc run_step st st' → result st' = Some o → RunWithAuth getenv e s a ls o.

Definition Run (getenv : string → string) (e : Env) (s : St) : list string → outcome message unit → Prop :=
  RunWithAuth getenv e s None.
End run_with_auth.
