(* ===== verification/ServerProofs.v ===== *)
(** * The servers: start-up and shutdown

    No listener is left behind when starting fails; after a cancellation the
    process returns after boundedly many steps of its own, and what holds then
    of the two servers, and what does not. *)

From S2P Require Import Prelude GoStrings GoCrypto GoX509 Model CertCrypto Toy ToyX509 Server.

(** ** The invariant of the running process *)

Definition count_ended (s : run_state) : nat :=
  (if ended (rs_http s) then 1 else 0) + (if ended (rs_https s) then 1 else 0).

Record run_ok (s : run_state) : Prop := {
  ok_count : (seen s + length (errCh s) = count_ended s)%nat;
  ok_seen : result s = None → (seen s ≤ 1)%nat;
  ok_http_closing : closing (rs_http s) = true ↔ shut s ≠ AwaitCancel;
  ok_https_closing : closing (rs_https s) = true ↔ shut s ∈ [ShutHttps; ShutDone];
  ok_cancelled : shut s ≠ AwaitCancel → cancelled s = true;
  ok_drained : shut s ∈ [ShutHttps; ShutDone] → active (rs_http s) = 0%nat ∨ expired s = true;
  ok_closed w : ended (server w s) = Some ErrServerClosed → closing (server w s) = true;
  ok_failed w m : ended (server w s) = Some (ServeError m) → ServeError m ∈ errCh s ∨ ∃ m', result s = Some (Err m');
  ok_returned : result s = Some (Ok ()) → seen s = 2%nat;
}.

Lemma run_init_ok : run_ok run_init.
Proof. split; cbn; try done; try lia; try (by intros []). set_solver. Qed.

Lemma shut_pc_cases pc : pc ∈ [ShutHttps; ShutDone] ↔ pc = ShutHttps ∨ pc = ShutDone.
Proof. set_solver. Qed.

Lemma run_ok_receive x rest s : result s = None → errCh s = x :: rest → run_ok s → run_ok (receive x rest s).
Proof.
  intros Hres Hch [H1 H2 H3 H4 H5 H6 H7 H8 H9]. specialize (H2 Hres). rewrite Hch in H1, H8. cbn in H1.
  split; cbn; unfold count_ended in *; cbn; try done.
  - lia.
  - destruct x; [case_decide; [done|lia]|done].
  - intros w m Hw. assert (server w s = server w (receive x rest s)) as Hsrv by by destruct w. rewrite <-Hsrv in Hw.
    destruct (H8 w m Hw) as [[<-|Hin]%elem_of_cons|[m' Hm']]; [right; by eexists|by left|congruence].
  - destruct x; [|done]. by case_decide.
Qed.

(** What comes into the channel leaves the failures that wait there. *)
Lemma waiting_app m (ch : list serve_end) x (P : Prop) : (ServeError m ∈ ch ∨ P) → ServeError m ∈ ch ++ [x] ∨ P.
Proof. rewrite elem_of_app. tauto. Qed.

Lemma run_ok_step s s' : run_step s s' → run_ok s → run_ok s'.
Proof.
  intros [Hres Hstep] Hok.
  destruct Hstep as [Ho|Hi]; [inversion Ho as [w ? Hc He|w k ? Ha| |w m ? Hc He]|inversion Hi as [w ? Hc He| |? Hsh Hd| | |x rest ? Hch]];
    subst; [..|by apply run_ok_receive]; clear Ho || clear Hi.
  all: destruct Hok as [H1 H2 H3 H4 H5 H6 H7 H8 H9]; specialize (H2 Hres).
  all: pose proof (H7 Http) as H7h; pose proof (H7 Https) as H7s; pose proof (H8 Http) as H8h; pose proof (H8 Https) as H8s; clear H7 H8.
  all: destruct s as [[c1 a1 e1] [c2 a2 e2] ch can pc ex n res]; cbn in *; subst res; rewrite !shut_pc_cases in *.
  all: unfold count_ended in *; try destruct w; cbn in *; simplify_eq.
  all: split; cbn; rewrite ?shut_pc_cases, ?length_app; cbn; first [done|lia|idtac].
  all: lazymatch goal with |- ∀ w : which, _ => intros []; cbn | _ => idtac end.
  all: try (unfold shutdown_over in Hd; cbn in Hd; rewrite orb_true_iff, bool_decide_eq_true in Hd).
  all: first [solve [intuition congruence]|intros m' Hm'].
  all: first [apply waiting_app; by auto|rewrite elem_of_app, list_elem_of_singleton; intuition congruence].
Qed.

Lemma run_reachable_ok s : rtc run_step run_init s → run_ok s.
Proof.
  intros Hs. apply (rtc_ind_r run_ok) in Hs; [done|apply run_init_ok|]. intros x y _ Hxy Hx. by eapply run_ok_step.
Qed.

(** ** Termination *)

Definition shut_rank (pc : shutdown_pc) : nat :=
  match pc with AwaitCancel => 3 | ShutHttp => 2 | ShutHttps => 1 | ShutDone => 0 end.
Definition work_left (s : run_state) : nat :=
  shut_rank (shut s) + 2 * (2 - count_ended s) + length (errCh s) + (if expired s then 0 else 1).

Lemma count_ended_le s : (count_ended s ≤ 2)%nat.
Proof. unfold count_ended. repeat case_match; lia. Qed.

Lemma serve_returns_work w x s : ended (server w s) = None → (work_left (serve_returns w x s) < work_left s)%nat.
Proof.
  intros He. unfold work_left, count_ended, serve_returns. destruct w; cbn in *; rewrite He, length_app; cbn;
    repeat case_match; lia.
Qed.

Lemma inside_work s s' : inside s s' → (work_left s' < work_left s)%nat.
Proof.
  destruct 1 as [w s Hc He|s Hp Hc|s Hp Hd|s Hp Hd|s Hp He|x rest s Hch]; [by apply serve_returns_work|..];
    unfold work_left, count_ended; cbn; rewrite ?Hp, ?He, ?Hch; cbn; repeat case_match; lia.
Qed.
Lemma outside_work s s' : outside s s' → (work_left s' ≤ work_left s)%nat.
Proof.
  destruct 1 as [w s Hc He|w n s Ha|s|w m s Hc He]; [..|by apply Nat.lt_le_incl, serve_returns_work];
    unfold work_left, count_ended; try destruct w; cbn; lia.
Qed.

(** An execution, and how many of its steps the process took on its own. *)
Inductive execution : nat → run_state → run_state → Prop :=
| execution_nil s : execution 0 s s
| execution_outside n s s1 s2 : result s = None → outside s s1 → execution n s1 s2 → execution n s s2
| execution_inside n s s1 s2 : result s = None → inside s s1 → execution n s1 s2 → execution (S n) s s2.

Lemma execution_reachable n s s' : execution n s s' → rtc run_step s s'.
Proof. induction 1; [done|..]; (eapply rtc_l; [split; [done|]|done]); [by left|by right]. Qed.
Lemma execution_work n s s' : execution n s s' → (n + work_left s' ≤ work_left s)%nat.
Proof.
  induction 1 as [s|n s s1 s2 _ Ho _ IH|n s s1 s2 _ Hi _ IH]; [lia|apply outside_work in Ho; lia|apply inside_work in Hi; lia].
Qed.

(** Once cancelled, the process always has something to do. *)
Lemma inside_enabled s : run_ok s → cancelled s = true → result s = None → ∃ s', inside s s'.
Proof.
  intros [H1 H2 H3 H4 H5 _ _ _ _] Hc Hr. specialize (H2 Hr).
  destruct (errCh s) as [|x rest] eqn:Hch; [|by eexists; eapply receives].
  destruct (shut s) eqn:Hp.
  - eexists. by apply shuts_http.
  - destruct (expired s) eqn:He; [|eexists; apply expires; [rewrite Hp; set_solver|done]].
    eexists. apply shuts_https; [done|]. unfold shutdown_over. by rewrite He, orb_true_r.
  - destruct (expired s) eqn:He; [|eexists; apply expires; [rewrite Hp; set_solver|done]].
    eexists. apply shut_over; [done|]. unfold shutdown_over. by rewrite He, orb_true_r.
  - assert (∃ w, ended (server w s) = None) as [w Hw].
    { destruct (ended (rs_http s)) eqn:E1; [|by exists Http]. destruct (ended (rs_https s)) eqn:E2; [|by exists Https].
      unfold count_ended in H1. rewrite E1, E2 in H1. cbn in H1. lia. }
    eexists. apply (closed w); [|done]. destruct w; cbn; [by apply H3|apply H4; set_solver].
Qed.

(** C19: Shutdown terminates. Whatever clients, the operating system and the
    signals do, [RunWithAuth] takes at most eight steps of its own from its
    start to its return, and from the moment its context is cancelled until it
    returns it is never stuck: requests that never end cannot keep it from
    returning. *)
Theorem shutdown_terminates n s :
  execution n run_init s → (n ≤ 8)%nat ∧ (cancelled s = true → result s = None → ∃ s', inside s s').
Proof.
  intros He. split.
  - apply execution_work in He. unfold work_left at 2 in He. cbn in He. lia.
  - apply inside_enabled. by eapply run_reachable_ok, execution_reachable.
Qed.

(** ** What holds when the process ends *)

(** C20: When [RunWithAuth] returns without an error its context was cancelled,
    both servers have stopped accepting because they were shut down, and no
    request on the HTTP listener is being handled, unless the five seconds
    passed. *)
Theorem shutdown_is_graceful_for_http s :
  rtc run_step run_init s → result s = Some (Ok ()) →
  cancelled s = true ∧ (∀ w, closing (server w s) = true ∧ ended (server w s) = Some ErrServerClosed) ∧
  (active (rs_http s) = 0%nat ∨ expired s = true).
Proof.
  intros Hs Hr. destruct (run_reachable_ok s Hs) as [H1 _ H3 H4 H5 H6 H7 H8 H9]. specialize (H9 Hr).
  pose proof (count_ended_le s). assert (errCh s = []) as Hch by (destruct (errCh s); [done|cbn in *; lia]).
  rewrite Hch, H9 in H1. cbn in H1.
  assert (∀ w, ended (server w s) = Some ErrServerClosed) as Hend.
  { intros w. destruct (ended (server w s)) as [[|m]|] eqn:Hw; [done| |].
    - destruct (H8 w m Hw) as [Hin|[m' Hm']]; [|congruence]. rewrite Hch in Hin. by apply not_elem_of_nil in Hin.
    - unfold count_ended in H1. destruct w; cbn in Hw; rewrite Hw in H1; repeat case_match; lia. }
  assert (∀ w, closing (server w s) = true) as Hcl by (intros w; by apply H7).
  pose proof (Hcl Https) as Hc2. apply H4 in Hc2. split_and!; [|by split; [apply Hcl|apply Hend]|by apply H6].
  apply H5. intros Hp. rewrite Hp in Hc2. set_solver.
Qed.

(** *** What the process leaves behind *)

Lemma rtc_inside s s' s2 : result s = None → inside s s' → rtc run_step s' s2 → rtc run_step s s2.
Proof. intros Hr Hi Hs. eapply rtc_l; [|exact Hs]. by split; [|right]. Qed.
Lemma rtc_outside s s' s2 : result s = None → outside s s' → rtc run_step s' s2 → rtc run_step s s2.
Proof. intros Hr Ho Hs. eapply rtc_l; [|exact Hs]. by split; [|left]. Qed.

(** [k] requests come in on the HTTPS listener. *)
Definition busy (k : nat) : run_state := set_server Https (set_active k running_srv) run_init.
Lemma busy_reachable k : rtc run_step run_init (busy k).
Proof.
  induction k as [|k IH]; [apply rtc_refl|]. eapply rtc_r; [exact IH|]. split; [done|left].
  by apply (accepts Https (busy k)).
Qed.

(** Both servers are shut down while [n] requests on HTTPS are being handled. *)
Definition stopped (n : nat) : run_state :=
  mkRun (mkSrv true 0 (Some ErrServerClosed)) (mkSrv true n (Some ErrServerClosed)) [] true ShutHttps false 2 (Some (Ok ())).
Lemma stopped_reachable n : rtc run_step run_init (stopped n).
Proof.
  etrans; [apply (busy_reachable n)|].
  eapply rtc_outside; [done|apply cancels|]. eapply rtc_inside; [done|by apply shuts_http|].
  eapply rtc_inside; [done|by apply (closed Http)|]. eapply rtc_inside; [done|by apply shuts_https|].
  eapply rtc_inside; [done|by apply (closed Https)|]. eapply rtc_inside; [done|by eapply receives|].
  eapply rtc_inside; [done|by eapply receives|]. apply rtc_refl.
Qed.

(** C38: Shutdown does not wait for HTTPS. The goroutine shuts the servers down
    one after the other, [Serve] returns as soon as [Shutdown] is called, and
    the loop waits for the two [Serve]s only: there are runs in which
    [RunWithAuth] returns without an error, before the five seconds are over,
    while any number of requests on the HTTPS listener are being handled, the
    process ending under them. And when a listener of one server fails, the
    process ends while the other still accepts. *)
Theorem return_cuts_requests_off k m :
  (∃ s, rtc run_step run_init s ∧ result s = Some (Ok ()) ∧ active (rs_https s) = k ∧ expired s = false ∧ shut s = ShutHttps) ∧
  (∃ s, rtc run_step run_init s ∧ result s = Some (Err m) ∧ active (rs_https s) = k ∧
     closing (rs_https s) = false ∧ ended (rs_https s) = None).
Proof.
  split; [exists (stopped k); split; [apply stopped_reachable|by repeat split]|].
  exists (mkRun (mkSrv false 0 (Some (ServeError m))) (mkSrv false k None) [] false AwaitCancel false 1 (Some (Err m))).
  split; [|by repeat split]. etrans; [apply (busy_reachable k)|].
  eapply rtc_outside; [done|by apply (fails Http m)|]. eapply rtc_inside; [done|by eapply receives|]. apply rtc_refl.
Qed.

(** ** Starting *)

Section start.
Context `{PL : PublicKeyLib} `{X : CertLib} {TL : TlsLib X} {NL : NetLib (TL:=TL)} (getenv : string → string).

(** Starting opens both listeners, the HTTPS one first, or none: when the
    certificate cannot be made or a listener is refused, [RunWithAuth] returns
    the error and nothing it opened stays open. *)
Theorem start_listeners_all_or_none e ls o ls' :
  httpsAddr getenv ∉ ls → start_listeners getenv e ls = (o, ls') →
  match o with
  | Ok _ => ls' = httpAddr getenv :: httpsAddr getenv :: ls ∧
      ∃ cert, generateSelfSignedCertificate e = Ok cert ∧ tls_Listen (httpsAddr getenv) cert = Ok () ∧
        net_Listen (httpAddr getenv) = Ok ()
  | Err m => ls' = ls ∧
      (generateSelfSignedCertificate e = Err m ∨
       (∃ cert, generateSelfSignedCertificate e = Ok cert ∧ tls_Listen (httpsAddr getenv) cert = Err m) ∨
       net_Listen (httpAddr getenv) = Err m)
  | Panic _ => True
  end.
Proof.
  intros Hnew. unfold start_listeners, listening_on. monad_unfold.
  destruct (generateSelfSignedCertificate e) as [cert|m|] eqn:Hc; [|by intros [= <- <-]; auto..].
  destruct (tls_Listen (httpsAddr getenv) cert) as [[]|m|] eqn:Ht; [|by intros [= <- <-]; eauto 6..].
  destruct (net_Listen (httpAddr getenv)) as [[]|m|] eqn:Hn; intros [= <- <-]; [by eauto| |done]. split; [|by auto].
  rewrite filter_cons_False by (by intros []). apply filter_all, Forall_forall. by intros a Ha ->.
Qed.

(** The certificate of the listener is for the key it comes with, and for the
    names it was asked for. *)
Lemma GenerateTLSCertificate_matches `{!CertLaws PL X} `{!TlsLaws PL X TL} e i cn dns priv der leaf der2 :
  GenerateSelfSignedCert e i cn (Some (mkCertificatePolicy "" None None None (Some [("subject", AString ("CN=" ++ cn))]%string) [] None)) =
    Ok (priv, der) → x509_ParseCertificate der = Ok leaf → x509_CreateFrom e leaf dns (rsa_Public priv) priv = Ok der2 →
  ∃ t cert, GenerateTLSCertificate e i cn dns = Ok t ∧ tls_DER t = der2 ∧ tls_PrivateKey t = priv ∧
    x509_ParseCertificate der2 = Ok cert ∧ cert_DNSNames cert = dns ∧ cert_RSAPublicKey cert = Some (rsa_Public priv).
Proof.
  intros Hg Hl Hd. destruct (x509_Parse_CreateFrom _ _ _ _ _ _ Hd) as (cert & Hc & Hpub & Hdns).
  assert (rsa_GenerateKey e 2048 = Ok priv) as Hk.
  { by apply GenerateCert_Ok in Hg as [Hk _]. }
  destruct (tls_X509KeyPair_matches der2 (x509_MarshalPKCS1PrivateKey priv) cert priv Hc) as (t & Ht & Hder & Hkey).
  { by eapply x509_PKCS1_round_trip. } { done. }
  exists t, cert. split_and!; try done. unfold GenerateTLSCertificate. rewrite Hg. cbn [o_bind]. rewrite Hl. cbn [o_bind].
  rewrite Hd. exact Ht.
Qed.
End start.

(** ** Concrete runs *)

Definition cancelled_run : run_state :=
  begin_shutdown Http ShutHttp (mkRun running_srv running_srv [] true AwaitCancel false 0 None).
Lemma shutdown_terminates_witness : (1 ≤ 8)%nat ∧ (∃ s', inside cancelled_run s').
Proof.
  destruct (shutdown_terminates 1 cancelled_run) as [Hn Hs].
  - eapply execution_outside; [reflexivity|apply cancels|].
    eapply execution_inside; [reflexivity|apply shuts_http; reflexivity|apply execution_nil].
  - split; [exact Hn|]. apply Hs; reflexivity.
Defined.

Lemma shutdown_is_graceful_for_http_witness : active (rs_http (stopped 1)) = 0%nat ∨ expired (stopped 1) = true.
Proof. exact (proj2 (proj2 (shutdown_is_graceful_for_http (stopped 1) (stopped_reachable 1) eq_refl))). Defined.

(** The plain port is taken. *)
Definition busy_port : NetLib (TL:=toy_tls) := {|
  tls_Listen addr c := Ok ();
  net_Listen addr := Err (Text "bind: address already in use") |}.
Lemma start_listeners_all_or_none_witness :
  start_listeners (NL:=busy_port) (λ _, ""%string) toy_env [":9000"%string] =
    (Err (Text "bind: address already in use"), [":9000"%string]).
Proof.
  destruct (start_listeners (NL:=busy_port) (λ _, ""%string) toy_env [":9000"%string]) as [o ls] eqn:Hrun.
  pose proof (start_listeners_all_or_none (NL:=busy_port) (λ _, ""%string) toy_env [":9000"%string] o ls) as H.
  assert (o = Err (Text "bind: address already in use")) as Ho.
  { apply (f_equal fst) in Hrun. vm_compute in Hrun. symmetry. exact Hrun. }
  subst o. destruct (H ltac:(vm_compute; set_solver) Hrun) as [-> _]. reflexivity.
Defined.
