(* ===== verification/AuthProofs.v ===== *)
(** * Correctness of the authentication service

    The invariant of users and sessions, the life of a session, and what a
    login that overlaps the deletion of its user does. *)

From S2P Require Import Prelude GoStrings Toy GoSql Auth.

(** ** The service as a transition system *)

Inductive auth_call : Type :=
| ASetup (username password : string)
| ACreateUser (username password : string) (role : Role)
| ALogin (username password : string)
| AValidateSession (token : string)
| ALogout (token : string)
| AListUsers
| ADeleteUser (id : string)
| AIsInitialized
| AGetConfig (key : string)
| ASetConfig (key value : string).

Section service.
Context `{D : Sql} `{B : Bcrypt}.
Implicit Types s : Service.

Definition auth_void {A} (m : AM A) : AM unit := let* _ := m in m_ret ().

Definition auth_exec (e : Env) (c : auth_call) : AM unit :=
  match c with
  | ASetup u p => auth_void (Setup e u p)
  | ACreateUser u p r => auth_void (CreateUser e u p r)
  | ALogin u p => auth_void (Login e u p)
  | AValidateSession t => auth_void (ValidateSession e t)
  | ALogout t => Logout t
  | AListUsers => auth_void ListUsers
  | ADeleteUser id => DeleteUser id
  | AIsInitialized => auth_void IsInitialized
  | AGetConfig k => auth_void (GetConfig k)
  | ASetConfig k v => SetConfig k v
  end.

(** Whole calls one after the other, from a service opened on an empty
    database; the process may end at any of them and open the database again. *)
Inductive auth_reachable : Service → Prop :=
| auth_reachable_open path d s : sql_Open path = Ok d → empty_db d → Open path = Ok s → auth_reachable s
| auth_reachable_reopen s s' : auth_reachable s → Open_on (svc_db s) = Ok s' → auth_reachable s'
| auth_reachable_call e c s : auth_reachable s → auth_reachable (auth_exec e c s).2.

Lemma auth_void_state {A} (m : AM A) s : (auth_void m s).2 = (m s).2.
Proof. unfold auth_void, m_bind, m_ret. by destruct (m s) as [[]]. Qed.

(** ** The invariant *)

Definition users_ok (m : rows) : Prop :=
  (∀ k u, m !! k = Some u → u_ID u = k ∧ Valid (u_Role u) = true ∧ u_Username u ≠ ""%string) ∧
  (∀ k u k' u', m !! k = Some u → m !! k' = Some u' → u_Username u = u_Username u' → k = k') ∧
  (∀ k u k' u', m !! k = Some u → m !! k' = Some u' → u_Role u = RoleAdmin → u_Role u' = RoleAdmin → k = k').

(** A session is filed under its token and belongs to a user that exists,
    with that user's name and role. *)
Definition session_ok (m : rows) (t : string) (x : Session) : Prop :=
  s_Token x = t ∧ t ≠ ""%string ∧
  ∃ u, m !! s_UserID x = Some u ∧ u_Username u = s_Username x ∧ u_Role u = s_Role x.

(** The schema is what [migrate] makes, and perhaps more. *)
Definition service_ok (s : Service) : Prop :=
  users_ok (users_of (svc_db s)) ∧ map_Forall (session_ok (users_of (svc_db s))) (svc_sessions s) ∧
  migrated ⊆ schema_of (svc_db s).

Definition auth_keeps {A} (m : AM A) : Prop := ∀ s, service_ok s → service_ok (m s).2.

Lemma service_ok_same d s : db_same (svc_db s) d → service_ok s → service_ok (set_db d s).
Proof. unfold service_ok. cbn. by intros [-> _ ->]. Qed.

(** What the schema of [migrate] asks of a new row: another id and another name
    than every user's, and no administrator before it if it is one. *)
Definition fresh_user (u : User) (m : rows) : Prop :=
  m !! u_ID u = None ∧ map_Forall (λ _ v, u_Username v ≠ u_Username u) m ∧
  (u_Role u = RoleAdmin → ¬ has_admin m).

Lemma migrated_item name i sc : migrated ⊆ sc → migrated !! name = Some i → sc !! name = Some i.
Proof. intros Hs Hi. by eapply lookup_weaken. Qed.

Lemma migrated_keyed sc : migrated ⊆ sc → keyed sc.
Proof.
  intros Hs. eexists. split; [eapply migrated_item; [exact Hs|vm_compute; reflexivity]|].
  apply (bool_decide_unpack _). vm_compute. exact I.
Qed.

Lemma migrated_unique c columns sc u m :
  migrated ⊆ sc → insertable sc u m → migrated !! "users"%string = Some (Table "users" columns) →
  c ∈ unique_columns columns → map_Forall (λ _ v, user_column v c ≠ user_column u c) m.
Proof.
  intros Hs Hi Ht Hc. pose proof (Hi _ _ (migrated_item _ _ _ Hs Ht) eq_refl) as Ha. rewrite Forall_forall in Ha. by apply Ha.
Qed.

Lemma insertable_fresh sc u m :
  (∀ k v, m !! k = Some v → u_ID v = k) → migrated ⊆ sc → insertable sc u m → fresh_user u m.
Proof.
  intros Hk Hs Hi.
  assert (∀ c, c = "id"%string ∨ c = "username"%string → map_Forall (λ _ v, user_column v c ≠ user_column u c) m) as Hu.
  { intros c Hc. eapply migrated_unique; [done..|vm_compute; reflexivity|].
    destruct Hc as [->| ->]; apply (bool_decide_unpack _); vm_compute; exact I. }
  split; [|split].
  - destruct (m !! u_ID u) as [v|] eqn:Hv; [|done]. destruct (Hu "id"%string (or_introl eq_refl) _ _ Hv).
    change (VText (u_ID v) = VText (u_ID u)). by rewrite (Hk _ _ Hv).
  - intros k v Hv Hn. apply (Hu "username"%string (or_intror eq_refl) _ _ Hv). change (VText (u_Username v) = VText (u_Username u)). by rewrite Hn.
  - intros Hr (k & v & Hv & Ha).
    assert (sc !! "users_single_admin"%string = Some (UniqueIndex "users_single_admin" "users" "role" "role" "admin")) as Hx
      by (eapply migrated_item; [done|vm_compute; reflexivity]).
    assert (∀ v, user_column v "role" = VText (u_Role v)) as Hrole by done.
    refine (Hi _ _ Hx eq_refl _ _ _ Hv _ _); rewrite !Hrole, ?Ha, ?Hr; done.
Qed.

Lemma inserted_fresh u d d' :
  users_ok (users_of d) → migrated ⊆ schema_of d → inserted u d d' →
  fresh_user u (users_of d) ∧ users_of d' = <[u_ID u := u]> (users_of d).
Proof.
  intros [Hk _] Hs [Hi Hu _ _]. split; [|by apply Hu, migrated_keyed].
  eapply insertable_fresh; [|done..]. intros k v Hv. by apply Hk in Hv as [? _].
Qed.

Lemma users_ok_insert u m :
  users_ok m → fresh_user u m → Valid (u_Role u) = true → u_Username u ≠ ""%string → users_ok (<[u_ID u := u]> m).
Proof.
  intros (Hk & Hn & Ha) (Hnew & Hname & Hadm) Hv Hne.
  assert (∀ k v, m !! k = Some v → u_Role u = RoleAdmin → u_Role v ≠ RoleAdmin) as Hadm'.
  { intros k v Hl Hu Hr. apply (Hadm Hu). by exists k, v. }
  split; [|split].
  - intros k v [[<- <-]|[_ Hl]]%lookup_insert_Some; [done|eauto].
  - intros k v k' v' [[<- <-]|[_ Hl]]%lookup_insert_Some [[<- <-]|[_ Hl']]%lookup_insert_Some He; [done|..].
    + by destruct (Hname _ _ Hl').
    + by destruct (Hname _ _ Hl).
    + by eapply Hn.
  - intros k v k' v' [[<- <-]|[_ Hl]]%lookup_insert_Some [[<- <-]|[_ Hl']]%lookup_insert_Some Hr Hr';
      [done|..].
    + by destruct (Hadm' _ _ Hl' Hr Hr').
    + by destruct (Hadm' _ _ Hl Hr' Hr).
    + by eapply Ha.
Qed.

Lemma users_ok_delete id m : users_ok m → users_ok (delete id m).
Proof.
  intros (Hk & Hn & Ha).
  split; [|split].
  - intros k u [_ Hl]%lookup_delete_Some. eauto.
  - intros k u k' u' [_ Hl]%lookup_delete_Some [_ Hl']%lookup_delete_Some. eauto.
  - intros k u k' u' [_ Hl]%lookup_delete_Some [_ Hl']%lookup_delete_Some. eauto.
Qed.

(** Adding a user keeps every session's user. *)
Lemma service_ok_insert u d s :
  service_ok s → inserted u (svc_db s) d →
  Valid (u_Role u) = true → u_Username u ≠ ""%string → service_ok (set_db d s).
Proof.
  intros (Hu & Hs & Hsch) Hins Hv Hne. destruct (inserted_fresh _ _ _ Hu Hsch Hins) as [Hi Hd].
  unfold service_ok. cbn. rewrite Hd, (inserted_schema _ _ _ Hins). split; [by apply users_ok_insert|]. split; [|done].
  intros t x Hx. destruct (Hs t x Hx) as (Ht & Hne' & v & Hl & Hv'). split; [done|]. split; [done|]. exists v.
  split; [|done]. rewrite lookup_insert_ne; [done|]. intros Heq. destruct Hi as [Hnone _].
  rewrite Heq in Hnone. by rewrite Hnone in Hl.
Qed.

Lemma service_ok_filter (P : string * Session → Prop) `{∀ kv, Decision (P kv)} s :
  service_ok s → service_ok (set_sessions (filter P) s).
Proof.
  intros (Hu & Hs & Hsch). split; [done|]. split; [|done]. cbn. intros t x [Hx _]%map_lookup_filter_Some. by apply Hs.
Qed.
Lemma service_ok_delete_session t s : service_ok s → service_ok (set_sessions (delete t) s).
Proof. intros (Hu & Hs & Hsch). split; [done|]. split; [|done]. cbn. by apply map_Forall_delete. Qed.

Lemma generateHex_nonempty e i n t : (0 < n)%nat → generateHex e i n = Ok t → t ≠ ""%string.
Proof.
  intros Hn. unfold generateHex. destruct (rand_Read e i n) as [l| |] eqn:Hr; [|done..]. intros [= <-].
  apply length_rand_Read in Hr. apply hex_EncodeToString_nonempty. intros ->. cbn in Hr. lia.
Qed.

Lemma newUser_Ok e username password role u :
  newUser e username password role = Ok u →
  u_Username u = username ∧ u_Role u = role ∧ u_ID u ≠ ""%string ∧
  bcrypt_Generate e password bcrypt_DefaultCost = Ok (u_PasswordHash u) ∧ u_CreatedAt u = clock e 0 ∧
  generateHex e 0 16 = Ok (u_ID u).
Proof.
  unfold newUser. intros (id & Hid & (h & Hh & [= <-])%o_bind_Ok)%o_bind_Ok. cbn.
  split; [done|]. split; [done|]. split; [by eapply generateHex_nonempty; [|exact Hid]; lia|].
  destruct (bcrypt_Generate _ _ _); [|done..]. injection Hh as ->. done.
Qed.

Lemma validateCredentialsInput_Ok u p : validateCredentialsInput u p = Ok () ↔ u ≠ ""%string ∧ p ≠ ""%string.
Proof. unfold validateCredentialsInput. repeat case_decide; naive_solver. Qed.

Context `{!SqlLaws D}.

(** *** What each operation does when it succeeds *)

Lemma query_state {A} (q : adb → outcome sql_error A) s : (query q s).2 = s.
Proof. done. Qed.

Lemma set_db_id s : set_db (svc_db s) s = s.
Proof. by destruct s. Qed.

Lemma Setup_Ok e username password s u s' :
  Setup e username password s = (Ok u, s') →
  ¬ has_admin (users_of (svc_db s)) ∧ newUser e username password RoleAdmin = Ok u ∧ username ≠ ""%string ∧
  ∃ d, s' = set_db d s ∧ inserted u (svc_db s) d.
Proof.
  unfold Setup. go_unfold. destruct (validateCredentialsInput _ _) as [[]| |] eqn:Hc; [|done..].
  apply validateCredentialsInput_Ok in Hc as [Hne _]. unfold query at 1.
  destruct (sql_Begin (svc_db s)) as [tx| |] eqn:Hb; [|done..]. apply sql_Begin_ok in Hb as [Hbu Hbc Hbs]. cbn [o_maperr].
  destruct (sql_AdminExists tx) as [b| |] eqn:He; [|done..]. apply sql_AdminExists_ok in He. cbn [o_maperr].
  rewrite Hbu in He. destruct b; [done|]. symmetry in He. apply bool_decide_eq_false in He.
  destruct (newUser _ _ _ _) as [v| |] eqn:Hu; [|done..].
  destruct (sql_InsertUser v tx) as [[[]| |] tx'] eqn:Hi; [|done..]. cbn [o_maperr].
  apply sql_InsertUser_ok in Hi as [Hins Hiu Hic His]. rewrite Hbs, Hbu in Hins. rewrite Hbs, Hbu in Hiu.
  unfold statement. destruct (sql_Commit tx' (svc_db s)) as [[[]| |] d] eqn:Hcm; [|done..]. cbn [o_maperr].
  apply sql_Commit_ok in Hcm as [Hcu Hcc Hcs]. intros [= Hv <-].
  assert (v = u) as -> by (rewrite <-Hv; by destruct v).
  split; [done|]. split; [done|]. split; [done|]. exists d. split; [done|]. split; [done| |congruence..].
  intros Hk. by rewrite Hcu, Hiu.
Qed.

Lemma CreateUser_Ok e username password role s u s' :
  CreateUser e username password role s = (Ok u, s') →
  Valid role = true ∧ newUser e username password role = Ok u ∧ username ≠ ""%string ∧
  ∃ d, s' = set_db d s ∧ inserted u (svc_db s) d.
Proof.
  unfold CreateUser, insertUser. go_unfold. destruct (validateCredentialsInput _ _) as [[]| |] eqn:Hc; [|done..].
  apply validateCredentialsInput_Ok in Hc as [Hne _]. destruct (Valid role); [|done].
  destruct (newUser _ _ _ _) as [v| |] eqn:Hu; [|done..].
  unfold statement. destruct (sql_InsertUser v _) as [[[]| |] d] eqn:Hi; [|done..]. cbn [o_maperr].
  apply sql_InsertUser_ok in Hi. intros [= Hv <-].
  assert (v = u) as -> by (rewrite <-Hv; by destruct v). split; [done|]. split; [done|]. split; [done|]. by exists d.
Qed.

(** A failed [Setup] or [CreateUser] leaves the rows as they were. *)
Lemma Setup_failed e username password s o s' :
  Setup e username password s = (o, s') → ¬ is_Ok o →
  ∃ d, s' = set_db d s ∧ db_same (svc_db s) d.
Proof.
  unfold Setup. go_unfold. intros H Ho. revert H.
  assert (∃ d, s = set_db d s ∧ db_same (svc_db s) d) as Hid by (exists (svc_db s); by rewrite set_db_id).
  destruct (validateCredentialsInput _ _) as [[]| |]; [|by intros [= _ <-]..].
  unfold query at 1. destruct (sql_Begin _) as [tx| |]; [|by intros [= _ <-]..]. cbn [o_maperr].
  destruct (sql_AdminExists tx) as [[]| |]; [by intros [= _ <-]| |by intros [= _ <-]..]. cbn [o_maperr].
  destruct (newUser _ _ _ _) as [v| |]; [|by intros [= _ <-]..].
  destruct (sql_InsertUser v tx) as [[[]| |] tx']; [|by intros [= _ <-]..]. cbn [o_maperr].
  unfold statement. destruct (sql_Commit tx' (svc_db s)) as [o' d] eqn:Hcm.
  destruct o' as [[]| |]; cbn [o_maperr]; intros [= <- <-]; [by destruct Ho|..].
  all: exists d; split; [done|]; by eapply sql_Commit_failed.
Qed.

Lemma CreateUser_failed e username password role s o s' :
  CreateUser e username password role s = (o, s') → ¬ is_Ok o →
  ∃ d, s' = set_db d s ∧ db_same (svc_db s) d.
Proof.
  unfold CreateUser, insertUser. go_unfold. intros H Ho. revert H.
  assert (∃ d, s = set_db d s ∧ db_same (svc_db s) d) as Hid by (exists (svc_db s); by rewrite set_db_id).
  destruct (validateCredentialsInput _ _) as [[]| |]; [|by intros [= _ <-]..].
  destruct (Valid role); [|by intros [= _ <-]].
  destruct (newUser _ _ _ _) as [v| |]; [|by intros [= _ <-]..].
  unfold statement. destruct (sql_InsertUser v (svc_db s)) as [o' d] eqn:Hi.
  destruct o' as [[]| |]; cbn [o_maperr]; intros [= <- <-]; [by destruct Ho|..].
  all: exists d; split; [done|]; by eapply sql_InsertUser_failed.
Qed.

Lemma Login_check_state e username password s : (Login_check e username password s).2 = s.
Proof.
  unfold Login_check, getUserByUsername, query. go_unfold. case_decide; [done|]. cbn.
  destruct (sql_UserByName _ _) as [u|[]|]; cbn; [|done..]. case_match; [done|]. by case_match.
Qed.

Lemma Login_check_Ok e username password s x s' :
  Login_check e username password s = (Ok x, s') →
  s' = s ∧ username ≠ ""%string ∧ password ≠ ""%string ∧ generateHex e 0 32 = Ok (s_Token x) ∧
  s_ExpiresAt x = wrap64 (clock e 0 + sessionTTL) ∧
  ∃ u, users_of (svc_db s) !! s_UserID x = Some u ∧ u_Username u = username ∧
    bcrypt_Compare (u_PasswordHash u) password = None ∧ s_Username x = username ∧ s_Role x = u_Role u.
Proof.
  unfold Login_check, getUserByUsername, query. go_unfold. case_decide as Hne; [done|]. cbn.
  destruct (sql_UserByName _ _) as [u|[]|] eqn:Hu; cbn; [|done..]. apply sql_UserByName_ok in Hu as [Hl Hn].
  destruct (bcrypt_Compare _ _) eqn:Hb; [done|]. destruct (generateHex e 0 32) as [t| |] eqn:Ht; [|done..].
  intros [= <- <-]. cbn. split; [done|]. split; [tauto|]. split; [tauto|]. split; [done|]. split; [done|].
  by exists u.
Qed.

Lemma Login_store_eq e x s :
  Login_store e x s =
    (Ok x, set_sessions (λ m, <[s_Token x := x]> (filter (λ kv, ¬ s_ExpiresAt kv.2 ≤ clock e 0) m)) s).
Proof. unfold Login_store. go_unfold. by destruct x. Qed.

Lemma Login_Ok e username password s x s' :
  Login e username password s = (Ok x, s') →
  Login_check e username password s = (Ok x, s) ∧ s' = (Login_store e x s).2.
Proof.
  unfold Login, m_bind. destruct (Login_check e username password s) as [[y| |] s1] eqn:H; [|done..].
  destruct (Login_check_Ok _ _ _ _ _ _ H) as (-> & _). rewrite !Login_store_eq. by intros [= -> <-].
Qed.

Lemma ValidateSession_state e token s :
  (ValidateSession e token s).2 = s ∨ (ValidateSession e token s).2 = set_sessions (delete token) s.
Proof. unfold ValidateSession. go_unfold. repeat (case_match || case_decide); simplify_eq/=; auto. Qed.

Lemma DeleteUser_db id s :
  ∃ d, (DeleteUser id s).2 = set_db d s ∨
    (DeleteUser id s).2 = set_sessions (filter (λ kv, s_UserID kv.2 ≠ id)) (set_db d s).
Proof.
  unfold DeleteUser, statement. go_unfold. case_decide; [exists (svc_db s); left; by rewrite set_db_id|].
  destruct (sql_DeleteUser id (svc_db s)) as [[a| |] d]; exists d; cbn; [|by left..].
  destruct a as [[]| |]; (by left) || by right.
Qed.

(** *** Preservation *)

Lemma DeleteUser_cases id s o s' :
  DeleteUser id s = (o, s') →
  (∃ d, s' = set_db d s ∧ db_same (svc_db s) d ∧ ¬ is_Ok o) ∨
  (∃ d, o = Ok () ∧ id ≠ ""%string ∧ s' = set_sessions (filter (λ kv, s_UserID kv.2 ≠ id)) (set_db d s) ∧
    users_of d = delete id (users_of (svc_db s)) ∧ schema_of d = schema_of (svc_db s)).
Proof.
  unfold DeleteUser, statement. go_unfold. case_decide as Hid.
  { intros [= <- <-]. left. exists (svc_db s). rewrite set_db_id. split; [done|]. split; [done|by intros []]. }
  destruct (sql_DeleteUser id (svc_db s)) as [[a|er|m] d] eqn:Hd; cbn [o_maperr].
  - apply sql_DeleteUser_ok in Hd as (Hu & Hc & Hsch & Hn). destruct a as [z| |].
    + specialize (Hn z eq_refl). destruct z as [|z|z]; intros [= <- <-].
      * left. exists d. split; [done|]. split; [|by intros []]. split; [|done..]. rewrite Hu. apply delete_id.
        destruct (users_of (svc_db s) !! id) eqn:Hl; [|done]. by rewrite decide_True in Hn by eauto.
      * right. by exists d.
      * right. by exists d.
    + intros [= <- <-]. right. by exists d.
    + intros [= <- <-]. right. by exists d.
  - intros [= <- <-]. left. exists d. apply sql_DeleteUser_failed in Hd; [|by intros []].
    by split; [|split; [|intros []]].
  - intros [= <- <-]. left. exists d. apply sql_DeleteUser_failed in Hd; [|by intros []].
    by split; [|split; [|intros []]].
Qed.

Lemma DeleteUser_keeps id : auth_keeps (DeleteUser id).
Proof.
  intros s Hs. destruct (DeleteUser id s) as [o s'] eqn:H. cbn.
  destruct (DeleteUser_cases _ _ _ _ H) as [(d & -> & Hu & _)|(d & _ & _ & -> & Hu & Hsch)].
  - by apply service_ok_same.
  - destruct Hs as (Hok & Hs & Hm). unfold service_ok. cbn. rewrite Hu, Hsch. split; [by apply users_ok_delete|]. split; [|done].
    intros t x [Hx Hne]%map_lookup_filter_Some. destruct (Hs t x Hx) as (Ht & Hn & v & Hl & Hv).
    split; [done|]. split; [done|]. exists v. by rewrite lookup_delete_ne by done.
Qed.

Lemma Login_keeps e username password : auth_keeps (Login e username password).
Proof.
  intros s Hs. destruct (Login e username password s) as [[x| |] s'] eqn:H; cbn.
  - apply Login_Ok in H as [H ->]. rewrite Login_store_eq. cbn.
    destruct (Login_check_Ok _ _ _ _ _ _ H) as (_ & _ & _ & Ht & _ & u & Hl & Hu & _ & Hun & Hr).
    apply (service_ok_filter (λ kv, ¬ s_ExpiresAt kv.2 ≤ clock e 0)) in Hs as (Hok & Hs & Hm).
    split; [done|]. split; [|done]. cbn. apply map_Forall_insert_2; [|done].
    split; [done|]. split; [by eapply generateHex_nonempty; [|exact Ht]; lia|]. exists u. by rewrite Hu, Hun, Hr.
  - revert H. unfold Login, m_bind. pose proof (Login_check_state e username password s) as Hst.
    destruct (Login_check _ _ _ _) as [[y| |] s1]; cbn in Hst; subst; [|by intros [= _ <-]..].
    rewrite Login_store_eq. done.
  - revert H. unfold Login, m_bind. pose proof (Login_check_state e username password s) as Hst.
    destruct (Login_check _ _ _ _) as [[y| |] s1]; cbn in Hst; subst; [|by intros [= _ <-]..].
    rewrite Login_store_eq. done.
Qed.

Lemma Setup_keeps e username password : auth_keeps (Setup e username password).
Proof.
  intros s Hs. destruct (Setup e username password s) as [o s'] eqn:H. cbn. destruct (decide (is_Ok o)) as [Ho|Ho].
  - destruct o as [u| |]; [|done..]. apply Setup_Ok in H as (_ & Hu & Hne & d & -> & Hi).
    apply newUser_Ok in Hu as (<- & Hr & _). eapply service_ok_insert; [done..|by rewrite Hr|done].
  - destruct (Setup_failed _ _ _ _ _ _ H Ho) as (d & -> & Hu). by apply service_ok_same.
Qed.
Lemma CreateUser_keeps e username password role : auth_keeps (CreateUser e username password role).
Proof.
  intros s Hs. destruct (CreateUser e username password role s) as [o s'] eqn:H. cbn.
  destruct (decide (is_Ok o)) as [Ho|Ho].
  - destruct o as [u| |]; [|done..]. apply CreateUser_Ok in H as (Hv & Hu & Hne & d & -> & Hi).
    apply newUser_Ok in Hu as (<- & Hr & _). eapply service_ok_insert; [done..|by rewrite Hr|done].
  - destruct (CreateUser_failed _ _ _ _ _ _ _ H Ho) as (d & -> & Hu). by apply service_ok_same.
Qed.

Lemma SetConfig_keeps key value : auth_keeps (SetConfig key value).
Proof.
  intros s Hs. unfold SetConfig, statement. case_decide; [done|].
  destruct (sql_ConfigSet key value (svc_db s)) as [o d] eqn:Hset. cbn. destruct o as [[]| |].
  - apply sql_ConfigSet_ok in Hset as (Hu & _ & Hsch). revert Hs. unfold service_ok. cbn. by rewrite Hu, Hsch.
  - apply service_ok_same; [by eapply sql_ConfigSet_failed|done].
  - apply service_ok_same; [by eapply sql_ConfigSet_failed|done].
Qed.

(** Creating what [migrate] creates leaves the rows alone, and completes a
    schema in which no other object has one of its names. *)
Lemma create_mono l (sc : schema) : sc ⊆ foldl (λ sc i, create i sc) sc l.
Proof.
  revert sc. induction l as [|i l IH]; intros sc; cbn; [done|].
  etrans; [|apply IH]. unfold create. destruct (_ !! _) eqn:Hl; [done|]. by apply insert_subseteq.
Qed.

Lemma exec_all_Ok l s s' :
  (∀ i, i ∈ l → i ∈ statements) → exec_all l s = (Ok (), s') →
  svc_sessions s' = svc_sessions s ∧ users_of (svc_db s') = users_of (svc_db s) ∧
  config_of (svc_db s') = config_of (svc_db s) ∧ schema_of (svc_db s') = foldl (λ sc i, create i sc) (schema_of (svc_db s)) l.
Proof.
  revert s. induction l as [|i l IH]; intros s Hl; cbn [exec_all]; [by intros [= <-]|].
  unfold statement at 1. go_unfold. destruct (sql_Create (item_text i) (svc_db s)) as [[[]| |] d] eqn:Hc; cbn [o_maperr]; [|done..].
  apply sql_Create_ok in Hc as (Hsch & Hu & Hcf); [|apply Hl; by left].
  intros (Hx & Hus & Hcs & Hss)%IH; [|intros j Hj; apply Hl; by right].
  cbn in *. by rewrite Hx, Hus, Hcs, Hss, Hsch, Hu, Hcf.
Qed.

Lemma migrate_Ok s s' :
  migrate s = (Ok (), s') →
  svc_sessions s' = svc_sessions s ∧ users_of (svc_db s') = users_of (svc_db s) ∧
  config_of (svc_db s') = config_of (svc_db s) ∧ schema_of (svc_db s') = foldl (λ sc i, create i sc) (schema_of (svc_db s)) statements.
Proof.
  unfold migrate, query. go_unfold. destruct (exec_all statements s) as [[[]| |] s1] eqn:He; [|done..].
  apply exec_all_Ok in He; [|done]. intros [= _ <-]. exact He.
Qed.

Lemma Open_on_Ok d s :
  Open_on d = Ok s →
  svc_sessions s = ∅ ∧ users_of (svc_db s) = users_of d ∧ config_of (svc_db s) = config_of d ∧
  schema_of (svc_db s) = foldl (λ sc i, create i sc) (schema_of d) statements.
Proof.
  unfold Open_on. destruct (migrate _) as [[[]| |] s'] eqn:Hm; [|done..]. intros [= <-].
  apply migrate_Ok in Hm as (-> & -> & -> & ->). done.
Qed.

Lemma Open_empty path d s :
  sql_Open path = Ok d → empty_db d → Open path = Ok s →
  users_of (svc_db s) = ∅ ∧ config_of (svc_db s) = ∅ ∧ svc_sessions s = ∅ ∧ schema_of (svc_db s) = migrated.
Proof.
  intros Ho (Hu & Hc & Hs). unfold Open. case_decide; [done|]. rewrite Ho. cbn [o_bind o_maperr].
  intros (-> & -> & -> & ->)%Open_on_Ok. by rewrite Hu, Hc, Hs.
Qed.

Lemma auth_exec_keeps e c : auth_keeps (auth_exec e c).
Proof.
  intros s Hs. destruct c; cbn [auth_exec]; rewrite ?auth_void_state.
  - by apply Setup_keeps.
  - by apply CreateUser_keeps.
  - by apply Login_keeps.
  - destruct (ValidateSession_state e token s) as [->| ->]; [done|]. by apply service_ok_delete_session.
  - by apply service_ok_delete_session.
  - done.
  - by apply DeleteUser_keeps.
  - done.
  - unfold GetConfig, query. case_decide; [done|]. cbn. by destruct (sql_ConfigGet _ _) as [|[]|].
  - by apply SetConfig_keeps.
Qed.

(** C13: whatever calls are made, and whichever of them fail, a service that
    runs its calls one after the other, on a database that was empty when it
    was first opened, and that may be closed and opened again, keeps: every row
    is filed under its id with a known role and a name, no two users share a
    name, at most one user is the administrator, every session in memory is
    filed under its token and belongs to a user that exists, with that user's
    name and role, and the database has the schema that [migrate] writes, the
    constraints of which give the uniqueness. *)
Theorem auth_reachable_invariant s : auth_reachable s → service_ok s.
Proof.
  induction 1 as [path d s Hd He Hs|s s' _ IH Hm|e c s _ IH]; [| |by apply auth_exec_keeps].
  - destruct (Open_empty _ _ _ Hd He Hs) as (Hu & _ & Hx & Hsch). unfold service_ok. rewrite Hu, Hx, Hsch.
    split; [|split; [apply map_Forall_empty|done]]. split; [|split]; intros k u; by rewrite lookup_empty.
  - destruct IH as (Hu & _ & Hsch). apply Open_on_Ok in Hm as (Hx & Hus & _ & Hs'). unfold service_ok. rewrite Hx, Hus, Hs'.
    split; [done|]. split; [apply map_Forall_empty|]. etrans; [exact Hsch|]. apply create_mono.
Qed.

(** *** Sessions *)

Lemma ValidateSession_eq e token s :
  (ValidateSession e token s).1 =
    Ok (if decide (token = ""%string) then None else
        x ← svc_sessions s !! token; if decide (s_ExpiresAt x ≤ clock e 0) then None else Some x).
Proof.
  unfold ValidateSession. go_unfold. case_decide; [done|]. destruct (svc_sessions s !! token) as [x|]; [|done].
  cbn. case_decide; [by case_decide|]. by destruct x.
Qed.

(** C27: the life of a session.  From the login that made it, a token
    validates to that session as long as the clock is before the expiry, 24
    hours after the login; from then on, after a logout, and after the
    user's deletion it does not validate.  The login of someone else neither
    ends it nor changes it, short of an equal token. *)
Theorem session_lifetime e username password s x s' :
  Login e username password s = (Ok x, s') → in_int64 (clock e 0 + sessionTTL) →
  s_ExpiresAt x = clock e 0 + 86400 ∧
  (∀ e', (ValidateSession e' (s_Token x) s').1 =
    Ok (if decide (clock e' 0 < clock e 0 + 86400) then Some x else None)) ∧
  (∀ e', (ValidateSession e' (s_Token x) (Logout (s_Token x) s').2).1 = Ok None) ∧
  (∀ e' s'', DeleteUser (s_UserID x) s' = (Ok (), s'') → (ValidateSession e' (s_Token x) s'').1 = Ok None) ∧
  (∀ e1 e' u p y s'', Login e1 u p s' = (Ok y, s'') → s_Token y ≠ s_Token x → clock e1 0 ≤ clock e' 0 →
    (ValidateSession e' (s_Token x) s'').1 = (ValidateSession e' (s_Token x) s').1).
Proof.
  intros [H ->]%Login_Ok Hclock. rewrite Login_store_eq.
  destruct (Login_check_Ok _ _ _ _ _ _ H) as (_ & _ & _ & Ht & Hexp & _).
  rewrite wrap64_id in Hexp by done. change sessionTTL with 86400 in Hexp.
  assert (s_Token x ≠ ""%string) as Hne by (eapply generateHex_nonempty; [|exact Ht]; lia).
  split; [done|]. split_and!.
  - intros e'. rewrite ValidateSession_eq, decide_False by done. cbn. rewrite lookup_insert_eq. cbn.
    rewrite Hexp. do 2 case_decide; (done || lia).
  - intros e'. rewrite ValidateSession_eq, decide_False by done. cbn. by rewrite lookup_delete_eq.
  - intros e' s'' Hdel. rewrite ValidateSession_eq, decide_False by done.
    destruct (DeleteUser_cases _ _ _ _ Hdel) as [(d & _ & _ & Ho)|(d & _ & _ & -> & _)]; [by destruct Ho|]. cbn.
    rewrite map_lookup_filter_None_2; [done|]. right. intros y Hy Huid. cbn in Huid.
    rewrite lookup_insert_eq in Hy. injection Hy as <-. done.
  - intros e1 e' u p y s'' [_ ->]%Login_Ok Hty Hc. rewrite Login_store_eq, !ValidateSession_eq. f_equal.
    case_decide; [done|]. cbn. rewrite lookup_insert_ne, lookup_insert_eq by done. cbn.
    destruct (decide (s_ExpiresAt x ≤ clock e1 0)) as [Hle|Hle].
    + rewrite map_lookup_filter_None_2; [cbn; by rewrite decide_True by lia|].
      right. intros z Hz. rewrite lookup_insert_eq in Hz. injection Hz as <-. cbn. lia.
    + erewrite map_lookup_filter_Some_2; [done|by rewrite lookup_insert_eq|done].
Qed.

(** C28: authentication.  A login succeeds only for a user of that name whose
    stored hash the password matches, and gives a session with that user's
    id and role; an unknown name and a wrong password are answered alike,
    and a refused login changes nothing. *)
Theorem Login_authenticates e username password s :
  (∀ x s', Login e username password s = (Ok x, s') →
    ∃ u, users_of (svc_db s) !! s_UserID x = Some u ∧ u_Username u = username ∧
      bcrypt_Compare (u_PasswordHash u) password = None ∧ s_Role x = u_Role u ∧ svc_db s' = svc_db s) ∧
  (sql_UserByName username (svc_db s) = Err ErrNoRows →
    Login e username password s = (Err ErrInvalidCredentials, s)) ∧
  (∀ u m, sql_UserByName username (svc_db s) = Ok u → bcrypt_Compare (u_PasswordHash u) password = Some m →
    Login e username password s = (Err ErrInvalidCredentials, s)) ∧
  (∀ o s', Login e username password s = (o, s') → ¬ is_Ok o → s' = s).
Proof.
  split_and!.
  - intros x s' [H ->]%Login_Ok. destruct (Login_check_Ok _ _ _ _ _ _ H) as (_ & _ & _ & _ & _ & u & Hl & Hu & Hb & _ & Hr).
    exists u. rewrite Login_store_eq. done.
  - intros Hq. unfold Login, Login_check, getUserByUsername, query. go_unfold. case_decide; [done|]. by rewrite Hq.
  - intros u m Hq Hb. unfold Login, Login_check, getUserByUsername, query. go_unfold. case_decide; [done|].
    rewrite Hq. cbn. by rewrite Hb.
  - intros o s'. unfold Login, m_bind. pose proof (Login_check_state e username password s) as Hst.
    destruct (Login_check _ _ _ _) as [[y| |] s1]; cbn in Hst; subst; [|by intros [= _ <-]..].
    rewrite Login_store_eq. intros [= <- _] Ho. by destruct Ho.
Qed.

(** The account that [CreateUser] makes can log in: with the password it
    was made with, whenever the database and the random source answer, and
    the session has the role it was given; [CreateUser] refuses a name that
    is taken and a second administrator. *)
Theorem CreateUser_Login `{!BcryptLaws B} e username password role s u s' :
  service_ok s → CreateUser e username password role s = (Ok u, s') →
  users_of (svc_db s') !! u_ID u = Some u ∧
  (∀ v e', sql_UserByName username (svc_db s') = Ok v → password ≠ ""%string → rand_ok e' 0 = true →
    ∃ x s'', Login e' username password s' = (Ok x, s'') ∧ s_UserID x = u_ID u ∧ s_Role x = role) ∧
  (∀ e' password' role' v s'', CreateUser e' username password' role' s' ≠ (Ok v, s'')) ∧
  (role = RoleAdmin → ∀ e' name' password' v s'', CreateUser e' name' password' RoleAdmin s' ≠ (Ok v, s'')).
Proof.
  intros (Hok & _ & Hsch) (Hv & Hu & Hne & d & -> & Hins)%CreateUser_Ok.
  apply newUser_Ok in Hu as (Hn & Hr & _ & Hb & _ & _).
  destruct (inserted_fresh _ _ _ Hok Hsch Hins) as [Hi Hd].
  assert (users_ok (users_of d)) as Hok'.
  { rewrite Hd. apply users_ok_insert; [done|done|by rewrite Hr|by rewrite Hn]. }
  pose proof Hok' as (_ & Huniq & _). rewrite <-(inserted_schema _ _ _ Hins) in Hsch.
  assert (users_of d !! u_ID u = Some u) as Hlu by (by rewrite Hd, lookup_insert_eq).
  split; [done|]. split_and!.
  - intros v e' Hq Hp Hrand. cbn in Hq. destruct (sql_UserByName_ok _ _ _ Hq) as [Hl Hvn].
    assert (u_ID v = u_ID u) as Hid by (eapply Huniq; [exact Hl|exact Hlu|congruence]).
    assert (v = u) as -> by (rewrite Hid in Hl; congruence).
    unfold Login, Login_check, getUserByUsername, query, generateHex, rand_Read. go_unfold.
    rewrite decide_False by tauto. cbn. rewrite Hq. cbn.
    rewrite (bcrypt_Compare_Generate _ _ _ _ Hb), Hrand. cbn. do 2 eexists. by split.
  - intros e' password' role' v s'' (_ & Hu' & _ & d' & _ & ((_ & Hi' & _) & _)%inserted_fresh)%CreateUser_Ok; [|done..].
    apply newUser_Ok in Hu' as (Hn' & _). apply (Hi' _ _ Hlu). congruence.
  - intros -> e' name' password' v s'' (_ & Hu' & _ & d' & _ & ((_ & _ & Hi') & _)%inserted_fresh)%CreateUser_Ok; [|done..].
    apply newUser_Ok in Hu' as (_ & Hr' & _). apply (Hi' Hr'). by exists (u_ID u), u.
Qed.

(** Setup runs once.  After a successful [Setup] the service reports
    itself initialised, a second [Setup] never succeeds, whatever its
    arguments, and none does before the administrator is deleted. *)
Theorem Setup_once e username password s u s' :
  keyed (schema_of (svc_db s)) → Setup e username password s = (Ok u, s') →
  u_Role u = RoleAdmin ∧ has_admin (users_of (svc_db s')) ∧
  (∀ b, (IsInitialized s').1 = Ok b → b = true) ∧
  (∀ e' username' password' v s'', Setup e' username' password' s' ≠ (Ok v, s'')) ∧
  (∀ e' username' password' t, username' ≠ ""%string → password' ≠ ""%string →
    sql_Begin (svc_db s') = Ok t → is_Ok (sql_AdminExists t) →
    Setup e' username' password' s' = (Err ErrAlreadyInitialized, s')).
Proof.
  intros Hkey (_ & Hu & Hne & d & -> & Hd)%Setup_Ok. apply (inserted_users _ _ _ Hd) in Hkey as Hd'.
  clear Hd. rename Hd' into Hd. apply newUser_Ok in Hu as (_ & Hr & _).
  assert (has_admin (users_of d)) as Hadm by (exists (u_ID u), u; by rewrite Hd, lookup_insert_eq).
  split; [done|]. split; [done|]. split_and!.
  - intros b. unfold IsInitialized, query. cbn. destruct (sql_AdminExists d) as [b'| |] eqn:Hq; [|done..].
    intros [= <-]. apply sql_AdminExists_ok in Hq as ->. by apply bool_decide_eq_true.
  - intros e' username' password' v s'' (Hno & _)%Setup_Ok. done.
  - intros e' username' password' t Hn' Hp' Hb Hq. cbn in Hb.
    unfold Setup, query. go_unfold. rewrite (proj2 (validateCredentialsInput_Ok _ _)) by done. cbn.
    rewrite Hb. cbn. apply sql_Begin_ok in Hb as [Hbu _ _].
    destruct (sql_AdminExists t) as [b| |] eqn:Hx; [|done..]. apply sql_AdminExists_ok in Hx as ->. cbn.
    by rewrite Hbu, bool_decide_true.
Qed.

(** a login that overlaps the deletion of its user survives it.  If the
    user is deleted between the password check and the moment the session
    is stored, which no lock prevents, the stored session validates with the
    deleted user's role until it expires, although the user is gone. *)
Theorem login_delete_race e username password s x s1 s2 :
  Login_check e username password s = (Ok x, s1) →
  DeleteUser (s_UserID x) s1 = (Ok (), s2) →
  in_int64 (clock e 0 + sessionTTL) →
  let s3 := (Login_store e x s2).2 in
  users_of (svc_db s3) !! s_UserID x = None ∧ ¬ service_ok s3 ∧
  ∀ e', clock e' 0 < clock e 0 + 86400 → (ValidateSession e' (s_Token x) s3).1 = Ok (Some x).
Proof.
  intros H Hdel Hclock s3. unfold s3. rewrite Login_store_eq.
  destruct (Login_check_Ok _ _ _ _ _ _ H) as (_ & _ & _ & Ht & Hexp & _).
  rewrite wrap64_id in Hexp by done. change sessionTTL with 86400 in Hexp.
  assert (s_Token x ≠ ""%string) as Hne by (eapply generateHex_nonempty; [|exact Ht]; lia).
  destruct (DeleteUser_cases _ _ _ _ Hdel) as [(d & _ & _ & Ho)|(d & _ & _ & -> & Hu & _)]; [by destruct Ho|]. cbn.
  assert (users_of d !! s_UserID x = None) as Hgone by (by rewrite Hu, lookup_delete_eq).
  split; [done|]. split.
  - intros (_ & Hs & _). cbn in Hs. destruct (Hs (s_Token x) x) as (_ & _ & u & Hl & _); [by rewrite lookup_insert_eq|].
    by rewrite Hgone in Hl.
  - intros e' Hc. rewrite ValidateSession_eq, decide_False by done. cbn. rewrite lookup_insert_eq. cbn.
    by rewrite decide_False by lia.
Qed.

Lemma SetConfig_Ok key value s s' :
  SetConfig key value s = (Ok (), s') →
  key ≠ ""%string ∧ config_of (svc_db s') = <[key := value]> (config_of (svc_db s)).
Proof.
  unfold SetConfig, statement. case_decide; [done|].
  destruct (sql_ConfigSet key value (svc_db s)) as [[[]| |] d] eqn:Hset; [|done..].
  intros [= <-]. cbn. by apply sql_ConfigSet_ok in Hset as (_ & -> & _).
Qed.

Lemma GetConfig_Ok key s v :
  (GetConfig key s).1 = Ok v → key ≠ ""%string → v = config_of (svc_db s) !! key.
Proof.
  intros H Hk. revert H. unfold GetConfig, query. rewrite decide_False by done. cbn.
  destruct (sql_ConfigGet key (svc_db s)) as [w|[]|] eqn:Hq; cbn; intros [= <-].
  - by rewrite (sql_ConfigGet_ok _ _ _ Hq).
  - by rewrite (sql_ConfigGet_none _ _ Hq).
Qed.

(** Configuration is a map: after [SetConfig key value], a [GetConfig]
    the database answers gives the value for that key and the former value
    for every other. *)
Theorem GetConfig_SetConfig key value s s' key' v :
  SetConfig key value s = (Ok (), s') → key' ≠ ""%string → (GetConfig key' s').1 = Ok v →
  v = if decide (key' = key) then Some value else config_of (svc_db s) !! key'.
Proof.
  intros [_ Hc]%SetConfig_Ok Hk Hg. apply GetConfig_Ok in Hg; [|done]. rewrite Hg, Hc.
  case_decide; [subst; apply lookup_insert_eq|by apply lookup_insert_ne].
Qed.
End service.
