(* ===== verification/WebProofs.v ===== *)
(** * Correctness of the web interface

    Setting up and unlocking the vault key, sessions and authorisation, and the
    key-vault API over the encrypting wrapper across a restart. *)

From S2P Require Import Prelude GoStrings GoJson GoCrypto GoX509 Encryption Model KeyCrypto CertCrypto StoreCore SecretStore EncryptedStore SecretBackup KeyStore CertStore HttpJson Http HttpSecrets HttpKeys HttpCerts StoreInv StoreSafety SoftDelete Lifecycle AtRest HttpProofs GoSql Auth AuthProofs WebJson Web.

Section web.
Context `{D : Sql} `{B : Bcrypt} `{P : Pbkdf2} `{C : BlockCipher} `{L : PublicKeyLib} `{X : CertLib} `{WX : !WebX509} `{KD : KeyDer}.
Context `{JE : JsonErrors} {St : Type} `{SA : SecretsApi St} `{SS : SecretStorer St} `{KA : KeysApi St} `{CA : CertsApi St}.

Notation Web := (Web St).
Notation WM := (M Web WebResponse).
Implicit Types w : Web.

(** ** Running handlers *)

Lemma web_run_bind {A} (m : WM A) (k : A → WM WebResponse) w :
  run_handler (let* x := m in k x) w =
    match m w with
    | (Ok a, w1) => run_handler (k a) w1
    | (Err rsp, w1) => (Ok rsp, w1)
    | (Panic p, w1) => (Panic p, w1)
    end.
Proof. unfold run_handler, m_bind. by destruct (m w) as [[]]. Qed.

(** The body of a request, decoded. *)
Definition body_of {T} (decode : json → option T) (r : WebRequest) : option T :=
  body ← wr_Body r; json_first body ≫= decode.

Lemma decodeJSON_eq {T} kind (decode : json → option T) r w :
  match body_of decode r with
  | Some v => decodeJSON kind decode r w = (Ok v, w)
  | None => ∃ msg, decodeJSON kind decode r w = (Err (web_error 400 msg), w)
  end.
Proof.
  unfold body_of, decodeJSON. destruct (wr_Body r) as [body|]; [|eexists; reflexivity].
  cbn [mbind option_bind]. destruct (json_first body ≫= decode) as [v|]; [reflexivity|eexists; reflexivity].
Qed.

(** A handler that goes on after a step which it was not to fail with [status]. *)
Lemma run_bind_status {A} (m : WM A) (k : A → WM WebResponse) w rsp w' (status : Z) :
  run_handler (let* x := m in k x) w = (Ok rsp, w') → ws_Status rsp = status →
  (∀ rsp1 w1, m w = (Err rsp1, w1) → ws_Status rsp1 ≠ status) →
  ∃ a w1, m w = (Ok a, w1) ∧ run_handler (k a) w1 = (Ok rsp, w').
Proof.
  rewrite web_run_bind. destruct (m w) as [[a|rsp1|] w1]; [by eauto| |done].
  intros [= -> ->] Hst He. by destruct (He rsp w').
Qed.

Lemma or_fail_Err {E A} (m : M Web E A) (f : E → WebResponse) w rsp w1 :
  or_fail m f w = (Err rsp, w1) → ∃ err, rsp = f err ∧ m w = (Err err, w1).
Proof. unfold or_fail. destruct (m w) as [[]]; cbn; [done| |done]. intros [= <- <-]. eauto. Qed.
Lemma or_fail_Ok {E A} (m : M Web E A) (f : E → WebResponse) w a w1 :
  or_fail m f w = (Ok a, w1) → m w = (Ok a, w1).
Proof. unfold or_fail. destruct (m w) as [[]]; cbn; [|done|done]. by intros [= <- <-]. Qed.
Lemma on_auth_eq {A} (m : AM A) w o w1 :
  on_auth m w = (o, w1) → m (w_auth w) = (o, w_auth w1) ∧ w1 = mkWeb (w_auth w1) (w_kv w) (w_encKey w).
Proof. unfold on_auth. destruct (m (w_auth w)) as [o' a]. intros [= <- <-]. done. Qed.

Lemma set_config_or_Ok user key value w w1 :
  set_config_or user key value w = (Ok (), w1) →
  SetConfig key value (w_auth w) = (Ok (), w_auth w1) ∧ w1 = mkWeb (w_auth w1) (w_kv w) (w_encKey w).
Proof.
  unfold set_config_or. destruct (on_auth _ w) as [[[]|err|] w2] eqn:Hs; [|..|done].
  - intros [= <-]. by apply on_auth_eq.
  - unfold m_bind. destruct (ignoring _ w2) as [[]]; done.
Qed.
Lemma set_config_or_Err user key value w rsp w1 :
  set_config_or user key value w = (Err rsp, w1) → ws_Status rsp = 500.
Proof.
  unfold set_config_or. destruct (on_auth _ w) as [[[]|err|] w2]; [done| |done]. unfold m_bind, ignoring.
  destruct (on_auth _ w2) as [[]]; try done; by intros [= <- _].
Qed.

Lemma run_decode {T} kind (decode : json → option T) r (k : T → WM WebResponse) w :
  match body_of decode r with
  | Some v => run_handler (let* v := decodeJSON kind decode r in k v) w = run_handler (k v) w
  | None => ∃ msg, run_handler (let* v := decodeJSON kind decode r in k v) w = (Ok (web_error 400 msg), w)
  end.
Proof.
  pose proof (decodeJSON_eq kind decode r w) as Hd. destruct (body_of decode r) as [v|].
  - by rewrite web_run_bind, Hd.
  - destruct Hd as [msg Hd]. exists msg. by rewrite web_run_bind, Hd.
Qed.
Lemma run_guard c rsp (k : unit → WM WebResponse) w :
  run_handler (let* x := guard_or c rsp in k x) w = if c then run_handler (k ()) w else (Ok rsp, w).
Proof. rewrite web_run_bind. by destruct c. Qed.
Lemma run_lift {A} (o : outcome WebResponse A) (k : A → WM WebResponse) w :
  run_handler (let* x := m_lift o in k x) w =
    match o with Ok a => run_handler (k a) w | Err rsp => (Ok rsp, w) | Panic p => (Panic p, w) end.
Proof. rewrite web_run_bind. by destruct o. Qed.

(** ** Setting up *)

Lemma handleSetup_ok e r w rsp w' :
  run_handler (handleSetup e r) w = (Ok rsp, w') → ws_Status rsp = 200 →
  ∃ req salt key verify user a1 a2,
    body_of dec_setupRequest r = Some req ∧ str_Passphrase req ≠ ""%string ∧
    new_vault_key e (str_Passphrase req) = Ok (salt, key, verify) ∧
    Setup (skip_rand 2 e) (str_Username req) (str_Password req) (w_auth w) = (Ok user, a1) ∧
    SetConfig "enc_salt" (hex_EncodeToString salt) a1 = (Ok (), a2) ∧
    SetConfig "enc_verify" verify a2 = (Ok (), w_auth w') ∧
    w' = mkWeb (w_auth w') (w_kv w) (if decide (length key = 0%nat) then None else Some key).
Proof.
  intros H Hst. unfold handleSetup in H.
  match type of H with run_handler (let* v := decodeJSON ?kind ?d r in @?k v) _ = _ =>
    pose proof (run_decode kind d r k w) as Hd end.
  destruct (body_of dec_setupRequest r) as [req|]; [rewrite Hd in H|destruct Hd as [msg Hd]; rewrite Hd in H; by injection H as <- _].
  clear Hd. rewrite run_guard in H. case_bool_decide as Hp; [|by injection H as <- _].
  rewrite run_lift in H. destruct (new_vault_key _ _) as [[[salt key] verify]|msg|] eqn:Hnew; cbn [o_maperr] in H;
    [|by injection H as <- _|done].
  apply run_bind_status with (status := 200) in H as (user & w1 & Hs & H); [|done|].
  2:{ intros rsp1 w1 (err & -> & _)%or_fail_Err. by destruct err. }
  apply or_fail_Ok, on_auth_eq in Hs as [Hs Hw1].
  apply run_bind_status with (status := 200) in H as ([] & w2 & Hc1 & H); [|done|].
  2:{ intros rsp1 w2 He%set_config_or_Err. by rewrite He. }
  apply set_config_or_Ok in Hc1 as [Hc1 Hw2].
  apply run_bind_status with (status := 200) in H as ([] & w3 & Hc2 & H); [|done|].
  2:{ intros rsp1 w3 He%set_config_or_Err. by rewrite He. }
  apply set_config_or_Ok in Hc2 as [Hc2 Hw3].
  unfold run_handler in H. cbn in H. injection H as _ <-.
  exists req, salt, key, verify, user, (w_auth w1), (w_auth w2). cbn. split_and!; try done.
  rewrite Hw3, Hw2, Hw1. done.
Qed.

(** The database answers the reads of its configuration. *)
Definition config_readable (a : Service) : Prop :=
  ∀ k, sql_ConfigGet k (svc_db a) =
    match config_of (svc_db a) !! k with Some v => Ok v | None => Err ErrNoRows end.

Lemma GetConfig_readable a k :
  config_readable a → k ≠ ""%string → GetConfig k a = (Ok (config_of (svc_db a) !! k), a).
Proof.
  intros Hr Hk. unfold GetConfig, query. rewrite decide_False by done. rewrite (Hr k). by destruct (_ !! k).
Qed.
Lemma GetConfig_readable_Some a k v :
  config_readable a → k ≠ ""%string → config_of (svc_db a) !! k = Some v → GetConfig k a = (Ok (Some v), a).
Proof. intros Hr Hk Hv. by rewrite GetConfig_readable, Hv. Qed.

Lemma run_required_config key missing (k : string → WM WebResponse) w v :
  GetConfig key (w_auth w) = (Ok (Some v), w_auth w) →
  run_handler (let* x := required_config key missing in k x) w = run_handler (k v) w.
Proof.
  intros Hg. rewrite web_run_bind. unfold required_config, m_bind, or_fail, on_auth. rewrite Hg. by destruct w.
Qed.

Lemma handleUnlock_eq r w p salt token :
  body_of dec_unlockRequest r = Some (mkUnlockRequest p) → p ≠ ""%string →
  GetConfig "enc_salt" (w_auth w) = (Ok (Some (hex_EncodeToString salt)), w_auth w) →
  GetConfig "enc_verify" (w_auth w) = (Ok (Some token), w_auth w) →
  let key := DeriveKey p salt in
  run_handler (handleUnlock r) w =
    match DecryptString key token with
    | Ok plaintext =>
        if bool_decide (plaintext = "verify"%string)
        then (Ok ok_response, mkWeb (w_auth w) (w_kv w) (if decide (length key = 0%nat) then None else Some key))
        else (Ok (web_error 500 "invalid encryption verification token"), w)
    | Err _ => (Ok (web_error 401 "incorrect passphrase"), w)
    | Panic m => (Panic m, w)
    end.
Proof.
  intros Hb Hp Hs Ht key. unfold handleUnlock.
  match goal with |- run_handler (let* v := decodeJSON ?kind ?d r in @?k v) _ = _ =>
    pose proof (run_decode kind d r k w) as Hd end.
  rewrite Hb in Hd. rewrite Hd. clear Hd. rewrite run_guard. cbn [ulr_Passphrase]. rewrite bool_decide_true by done.
  rewrite (run_required_config _ _ _ _ _ Hs), run_lift, hex_round_trip. cbn [o_maperr].
  rewrite (run_required_config _ _ _ _ _ Ht), run_lift. fold key.
  destruct (DecryptString key token) as [plaintext| |]; cbn [o_maperr]; [|done|done]. rewrite run_guard. by case_bool_decide.
Qed.

Context `{!SqlLaws D} `{!BlockCipherLaws C} `{!Pbkdf2Laws P}.

Lemma new_vault_key_Ok e p salt key verify :
  new_vault_key e p = Ok (salt, key, verify) →
  key = DeriveKey p salt ∧ length key = keySize ∧ DecryptString key verify = Ok "verify"%string.
Proof.
  unfold new_vault_key. intros (salt' & _ & (verify' & Hv & [= -> <- ->])%o_bind_Ok)%o_bind_Ok. split; [done|].
  split; [apply length_pbkdf2_Key|]. by eapply DecryptString_EncryptString.
Qed.

(** What setting up leaves in the configuration. *)
Lemma handleSetup_config e r w rsp w' :
  run_handler (handleSetup e r) w = (Ok rsp, w') → ws_Status rsp = 200 →
  ∃ req salt key verify,
    body_of dec_setupRequest r = Some req ∧ str_Passphrase req ≠ ""%string ∧
    key = DeriveKey (str_Passphrase req) salt ∧ length key = keySize ∧
    DecryptString key verify = Ok "verify"%string ∧
    config_of (svc_db (w_auth w')) !! "enc_salt"%string = Some (hex_EncodeToString salt) ∧
    config_of (svc_db (w_auth w')) !! "enc_verify"%string = Some verify ∧
    w_encKey w' = Some key ∧ w_kv w' = w_kv w.
Proof.
  intros H Hst. destruct (handleSetup_ok e r w rsp w' H Hst)
    as (req & salt & key & verify & user & a1 & a2 & Hreq & Hp & Hnew & _ & [_ Hc1]%SetConfig_Ok & [_ Hc2]%SetConfig_Ok & Hw').
  apply new_vault_key_Ok in Hnew as (Hk & Hlen & Hv). exists req, salt, key, verify.
  rewrite Hc2, lookup_insert_eq, lookup_insert_ne, Hc1, lookup_insert_eq by done.
  rewrite Hw'. cbn. rewrite decide_False by (rewrite Hlen; done). done.
Qed.

(** C15: the vault key survives a restart in the passphrase alone.  After a
    successful setup the vault is unlocked under a 256-bit key; when the
    process starts again, opens the same database of users and configuration,
    and gets whatever store it opens, it is locked and has no key; the
    passphrase of the setup unlocks it with the very same key and changes
    nothing else; and a passphrase whose key does not open the stored token is
    refused with 401 and changes nothing.  The database must answer the reads
    of its configuration. *)
Theorem setup_then_unlock e r w rsp w1 :
  run_handler (handleSetup e r) w = (Ok rsp, w1) → ws_Status rsp = 200 →
  ∃ req key salt token,
    body_of dec_setupRequest r = Some req ∧ key = DeriveKey (str_Passphrase req) salt ∧ length key = 32%nat ∧
    w_encKey w1 = Some key ∧ isLocked w1 = false ∧
    ∀ a (kv : St), Open_on (svc_db (w_auth w1)) = Ok a → config_readable a →
    let w2 := web_New a kv in
    w_encKey w2 = None ∧ isLocked w2 = true ∧
    (∀ r', body_of dec_unlockRequest r' = Some (mkUnlockRequest (str_Passphrase req)) →
      run_handler (handleUnlock r') w2 = (Ok ok_response, mkWeb a kv (Some key))) ∧
    (∀ r' p' err, body_of dec_unlockRequest r' = Some (mkUnlockRequest p') → p' ≠ ""%string →
      DecryptString (DeriveKey p' salt) token = Err err →
      run_handler (handleUnlock r') w2 = (Ok (web_error 401 "incorrect passphrase"), w2)).
Proof.
  intros H Hst. destruct (handleSetup_config e r w rsp w1 H Hst)
    as (req & salt & key & token & Hreq & Hp & Hk & Hlen & Hopen & Hsalt & Htoken & Henc & _).
  exists req, key, salt, token. split_and!; try done.
  { unfold isLocked. destruct (config _ _); [|done]. by rewrite Henc. }
  intros a kv (_ & _ & Hcf & _)%Open_on_Ok Hread w2. rewrite <-Hcf in Hsalt, Htoken.
  pose proof (GetConfig_readable_Some _ "enc_salt" _ Hread ltac:(done) Hsalt) as Hg1.
  pose proof (GetConfig_readable_Some _ "enc_verify" _ Hread ltac:(done) Htoken) as Hg2.
  split_and!; [done|..].
  - unfold isLocked, config, w2. cbn [w_auth web_New]. by rewrite Hg1.
  - intros r' Hb. rewrite (handleUnlock_eq r' w2 _ _ _ Hb Hp Hg1 Hg2), <-Hk, Hopen, bool_decide_true by done.
    by rewrite decide_False by (rewrite Hlen; done).
  - intros r' p' err Hb Hp' Hd. by rewrite (handleUnlock_eq r' w2 _ _ _ Hb Hp' Hg1 Hg2), Hd.
Qed.

(** ** A locked vault *)

Definition locked_message : message := "vault is locked: unlock before writing secrets".

Lemma isLocked_no_key w : isLocked w = true → w_encKey w = None.
Proof. unfold isLocked. destruct (config _ _); [|done]. by intros ?%bool_decide_eq_true. Qed.

Lemma locked_SetSecret w e name req s :
  isLocked w = true → @api_SetSecret St (kvStore w) e name req s = (Err (OtherError locked_message), s).
Proof.
  intros Hl. cbn. unfold es_SetSecret. cbn [getKey EncryptedStore.isLocked].
  rewrite (isLocked_no_key w Hl), Hl. by rewrite decide_True.
Qed.

(** ** A setup that fails half-way *)

Lemma DeleteUser_config id (a : Service) : config_of (svc_db (DeleteUser id a).2) = config_of (svc_db a).
Proof.
  unfold DeleteUser, statement. go_unfold. case_decide; [done|].
  destruct (sql_DeleteUser id (svc_db a)) as [o d] eqn:Hd.
  assert (config_of d = config_of (svc_db a)) as Hc.
  { destruct o as [n| |]; [by apply sql_DeleteUser_ok in Hd as (_ & ? & _)|..];
      apply sql_DeleteUser_failed in Hd as [_ ? _]; [done|by intros []|done|by intros []]. }
  destruct o as [[[]| |]| |]; done.
Qed.

Lemma SetConfig_users key value (a : Service) : users_of (svc_db (SetConfig key value a).2) = users_of (svc_db a).
Proof.
  unfold SetConfig, statement. case_decide; [done|].
  destruct (sql_ConfigSet key value (svc_db a)) as [[[]| |] d] eqn:Hd; cbn;
    [by apply sql_ConfigSet_ok in Hd as [? _]|by apply sql_ConfigSet_failed in Hd as [? _ _]..].
Qed.

Lemma SetConfig_failed key value (a : Service) o a' :
  SetConfig key value a = (o, a') → o ≠ Ok () → config_of (svc_db a') = config_of (svc_db a).
Proof.
  unfold SetConfig, statement. case_decide; [by intros [= _ <-]|].
  destruct (sql_ConfigSet key value (svc_db a)) as [o1 d] eqn:Hd. intros [= <- <-] Ho.
  apply sql_ConfigSet_failed in Hd as [_ Hc _]; [done|]. intros ->. done.
Qed.

(** C37: the rollback of a setup leaves its salt behind.  On a service that
    keeps its invariant and was never set up, if storing the
    verification token fails after the salt was stored, the setup answers 500
    and deletes the administrator it made, but the vault then counts as locked
    although no key was ever set: setting a secret is refused, whatever the
    store behind the wrapper, which is left as it is, and no passphrase unlocks
    it, because the token is missing.  Another setup that succeeds ends that:
    the vault then has a key and is not locked. *)
Theorem setup_rollback_leaves_locked e r w req salt key verify user a1 a2 err a3 a4 :
  body_of dec_setupRequest r = Some req → str_Passphrase req ≠ ""%string →
  new_vault_key e (str_Passphrase req) = Ok (salt, key, verify) →
  Setup (skip_rand 2 e) (str_Username req) (str_Password req) (w_auth w) = (Ok user, a1) →
  SetConfig "enc_salt" (hex_EncodeToString salt) a1 = (Ok (), a2) →
  SetConfig "enc_verify" verify a2 = (Err err, a3) →
  DeleteUser (u_ID user) a3 = (Ok (), a4) → service_ok (w_auth w) →
  w_encKey w = None → config_of (svc_db (w_auth w)) !! "enc_verify"%string = None → config_readable a4 →
  let w' := mkWeb a4 (w_kv w) None in
  run_handler (handleSetup e r) w = (Ok (auth_failed 500 err), w') ∧
  ¬ has_admin (users_of (svc_db a4)) ∧ isLocked w' = true ∧
  (∀ r' p', body_of dec_unlockRequest r' = Some (mkUnlockRequest p') → p' ≠ ""%string →
    run_handler (handleUnlock r') w' = (Ok (web_error 500 "encryption verification token missing"), w')) ∧
  (∀ e' name sreq s, @api_SetSecret St (kvStore w') e' name sreq s = (Err (OtherError locked_message), s)) ∧
  (∀ e' r' rsp w2, run_handler (handleSetup e' r') w' = (Ok rsp, w2) → ws_Status rsp = 200 →
    isLocked w2 = false ∧ is_Some (w_encKey w2)).
Proof.
  intros Hb Hp Hnew Hs Hc1 Hc2 Hdel (Hok & _ & Hsch) Hk Hnone Hread w'.
  pose proof (DeleteUser_config (u_ID user) a3) as Hc4. rewrite Hdel in Hc4. cbn in Hc4.
  pose proof (SetConfig_failed _ _ _ _ _ Hc2 ltac:(done)) as Hc3.
  destruct (SetConfig_Ok _ _ _ _ Hc1) as [_ Hcfg].
  destruct (Setup_Ok _ _ _ _ _ _ Hs) as (Hno & _ & _ & d & Ha1 & Hins).
  destruct (inserted_fresh _ _ _ Hok Hsch Hins) as [(Hnew' & _) Hu1]. pose proof (inserted_config _ _ _ Hins) as Hcfg1.
  assert (config_of (svc_db a4) !! "enc_salt"%string = Some (hex_EncodeToString salt)) as Hsalt
    by (by rewrite Hc4, Hc3, Hcfg, lookup_insert_eq).
  assert (config_of (svc_db a4) !! "enc_verify"%string = None) as Hver
    by (rewrite Hc4, Hc3, Hcfg, lookup_insert_ne by done; by rewrite Ha1; cbn; rewrite Hcfg1).
  assert (isLocked w' = true) as Hlocked
    by (unfold isLocked, config, w'; cbn [w_auth w_encKey]; by rewrite GetConfig_readable, Hsalt).
  split_and!.
  - unfold handleSetup.
    match goal with |- run_handler (let* v := decodeJSON ?kind ?d r in @?k v) _ = _ =>
      pose proof (run_decode kind d r k w) as Hd end.
    rewrite Hb in Hd. rewrite Hd, run_guard, bool_decide_true, run_lift, Hnew by done. cbn [o_maperr].
    rewrite web_run_bind. unfold or_fail, on_auth at 1. rewrite Hs. cbn [o_maperr]. rewrite web_run_bind. unfold set_config_or at 1, on_auth at 1.
    cbn [w_auth w_kv w_encKey]. rewrite Hc1. rewrite web_run_bind. unfold set_config_or, on_auth at 1. cbn [w_auth w_kv w_encKey].
    rewrite Hc2. unfold m_bind, ignoring, on_auth. cbn [w_auth w_kv w_encKey]. rewrite Hdel. unfold m_fail, w'. by rewrite Hk.
  - pose proof (SetConfig_users "enc_salt" (hex_EncodeToString salt) a1) as Hu2. rewrite Hc1 in Hu2.
    pose proof (SetConfig_users "enc_verify" verify a2) as Hu3. rewrite Hc2 in Hu3. cbn in Hu2, Hu3.
    destruct (DeleteUser_cases _ _ _ _ Hdel) as [(? & _ & _ & [])|(d4 & _ & _ & -> & Hu4 & _)]; [done|]. cbn.
    rewrite Hu4, Hu3, Hu2, Ha1. cbn. by rewrite Hu1, delete_insert_id.
  - exact Hlocked.
  - intros r' p' Hb' Hp'. unfold handleUnlock.
    match goal with |- run_handler (let* v := decodeJSON ?kind ?d r' in @?k v) _ = _ =>
      pose proof (run_decode kind d r' k w') as Hd end.
    rewrite Hb' in Hd. rewrite Hd, run_guard. cbn [ulr_Passphrase]. rewrite bool_decide_true by done.
    rewrite (run_required_config _ _ _ _ (hex_EncodeToString salt)) by (by apply GetConfig_readable_Some).
    rewrite run_lift, hex_round_trip. cbn [o_maperr]. rewrite web_run_bind. unfold required_config, m_bind, or_fail, on_auth.
    unfold w' at 1. cbn [w_auth]. by rewrite GetConfig_readable, Hver.
  - intros e' name sreq s. by apply locked_SetSecret.
  - intros e' r' rsp w2 Hset Hst.
    destruct (handleSetup_config e' r' w' rsp w2 Hset Hst) as (? & ? & key' & ? & _ & _ & _ & _ & _ & _ & _ & Henc & _).
    split; [|by rewrite Henc]. unfold isLocked. by destruct (config _ _); rewrite ?Henc.
Qed.

(** ** A locked vault takes no secret *)

(** a locked vault takes no secret in the clear.  While encryption is set
    up and the key is not loaded, putting a secret, over the key-vault API and
    over the web interface, is answered with 500 and the message to unlock,
    and changes nothing, whatever the wrapped store. *)
Theorem locked_vault_refuses w :
  isLocked w = true →
  (∀ e r name req, plain_name name → r_Path r = ("/secrets/" ++ name)%string → r_Method r = "PUT"%string →
    parseBody "SecretSetRequest" (dec_SecretSetRequest zero_SecretSetRequest) r = Ok req →
    serve_api e r w = (Ok (mkResponse 500 (ErrorBody (NewKeyVaultError "InternalServerError" locked_message))), w)) ∧
  (∀ e r req, body_of dec_createSecretRequest r = Some req → csr_Name req ≠ ""%string →
    run_handler (handleCreateSecret e r) w = (Ok (web_error 500 locked_message), w)).
Proof.
  intros Hl. split.
  - intros e r name req Hn Hp Hm Hb. unfold serve_api, on_kv.
    rewrite (api_put_secret (SA := kvStore w) e r name req) by done. unfold serve.
    rewrite locked_SetSecret by done. by destruct w.
  - intros e r req Hb Hn. unfold handleCreateSecret.
    match goal with |- run_handler (let* v := decodeJSON ?kind ?d r in @?k v) _ = _ =>
      pose proof (run_decode kind d r k w) as Hd end.
    rewrite Hb in Hd. rewrite Hd, run_guard, bool_decide_true by done. rewrite web_run_bind.
    unfold or_fail, on_secrets, on_kv. rewrite locked_SetSecret by done. by destruct w.
Qed.

(** ** Authorisation *)

Definition guarded (route : ui_route) : bool :=
  match route with UIStatus | UISetup | UIUnlock | UILogin | UILogout => false | _ => true end.
Definition admin_only (route : ui_route) : bool :=
  match route with UIListUsers | UICreateUser | UIDeleteUser _ => true | _ => false end.

(** The session a request belongs to. *)
Definition session_of (e : Env) (r : WebRequest) w : option Session :=
  token ← wr_Cookie r; match (ValidateSession e token (w_auth w)).1 with Ok x => x | _ => None end.

Lemma ValidateSession_db e token (a : Service) : svc_db (ValidateSession e token a).2 = svc_db a.
Proof. by destruct (ValidateSession_state e token a) as [->| ->]. Qed.

Lemma requireSession_none e r next w :
  session_of e r w = None →
  ∃ w', run_handler (requireSession e r next) w = (Ok (web_error 401 "authentication required"), w') ∧
    w_kv w' = w_kv w ∧ w_encKey w' = w_encKey w ∧ svc_db (w_auth w') = svc_db (w_auth w).
Proof.
  unfold session_of, requireSession. destruct (wr_Cookie r) as [token|]; [|by exists w]. cbn [mbind option_bind].
  intros Hs. rewrite web_run_bind. unfold or_fail, on_auth.
  pose proof (ValidateSession_db e token (w_auth w)) as Hdb. pose proof (ValidateSession_eq e token (w_auth w)) as Hv.
  destruct (ValidateSession e token (w_auth w)) as [o a]. cbn in *. subst o. cbn in *. rewrite Hs.
  by exists (mkWeb a (w_kv w) (w_encKey w)).
Qed.

Lemma requireSession_some e r next w x :
  session_of e r w = Some x → run_handler (requireSession e r next) w = run_handler (next (skip_clock 1 e) x) w.
Proof.
  unfold session_of, requireSession. destruct (wr_Cookie r) as [token|]; [|done]. cbn [mbind option_bind].
  intros Hs. rewrite web_run_bind. unfold or_fail, on_auth.
  destruct (ValidateSession e token (w_auth w)) as [o a] eqn:Hv. cbn in Hs. destruct o as [y| |]; [|done..]. subst y.
  assert (a = w_auth w) as ->.
  { revert Hv. unfold ValidateSession. go_unfold. case_decide; [done|]. destruct (svc_sessions _ !! token); [|done].
    case_decide; [by case_decide|]. by intros [= _ <-]. }
  cbn. by destruct w.
Qed.

(** C18: authorisation.  Every route of the web interface but status, setup,
    unlock, login and logout answers 401 to a request without a valid session,
    and the routes of users answer 403 to a session that is not the
    administrator's; neither touches the vault, its key, the users or the
    configuration. *)
Theorem ui_authorization e r w :
  (guarded (wr_Route r) = true → session_of e r w = None →
    ∃ w', serve_ui e r w = (Ok (web_error 401 "authentication required"), w') ∧
      w_kv w' = w_kv w ∧ w_encKey w' = w_encKey w ∧ svc_db (w_auth w') = svc_db (w_auth w)) ∧
  (∀ x, admin_only (wr_Route r) = true → session_of e r w = Some x → s_Role x ≠ RoleAdmin →
    serve_ui e r w = (Ok (web_error 403 "admin access required"), w)).
Proof.
  unfold serve_ui, ui_handler, requireAdmin. split.
  - intros Hg Hs. destruct (wr_Route r); try done; by apply requireSession_none.
  - intros x Ha Hs Hr. destruct (wr_Route r); try done; rewrite (requireSession_some _ _ _ _ _ Hs), decide_True; done.
Qed.

Lemma serve_me e token body w :
  (serve_ui e (mkWebRequest UIMe (Some token) body) w).1 =
    Ok (match session_of e (mkWebRequest UIMe (Some token) body) w with
        | Some x => web_json 200 (json_of_authResponse (s_Username x) (s_Role x))
        | None => web_error 401 "authentication required"
        end).
Proof.
  unfold serve_ui, ui_handler. cbn [wr_Route]. destruct (session_of _ _ w) as [x|] eqn:Hs.
  - by rewrite (requireSession_some _ _ _ _ _ Hs).
  - by destruct (requireSession_none e _ (λ _ session, handleMe session) w Hs) as (w' & -> & _).
Qed.

Lemma session_of_eq e route token body w :
  token ≠ ""%string →
  session_of e (mkWebRequest route (Some token) body) w =
    x ← svc_sessions (w_auth w) !! token; if decide (s_ExpiresAt x ≤ clock e 0) then None else Some x.
Proof.
  intros Hne. unfold session_of. cbn [wr_Cookie mbind option_bind]. rewrite ValidateSession_eq, decide_False by done.
  by destruct (_ !! token) as [x|]; cbn; [case_decide|].
Qed.

(** a login opens the routes its session may use, until it ends.  After a
    login answered with 200 the cookie of the response gets the user's own
    name and role from /me, up to 24 hours after the login and not from then
    on; after a logout with that cookie it gets 401. *)
Theorem login_cookie_session e r w rsp w1 :
  serve_ui e r w = (Ok rsp, w1) → wr_Route r = UILogin → ws_Status rsp = 200 → in_int64 (clock e 0 + sessionTTL) →
  ∃ req token role, body_of dec_loginRequest r = Some req ∧
    ws_Cookie rsp = Some (mkCookie token (clock e 0 + 86400) 0) ∧
    ws_Body rsp = WebJson (json_of_authResponse (lgr_Username req) role) ∧
    (∀ e' body, (serve_ui e' (mkWebRequest UIMe (Some token) body) w1).1 =
      Ok (if decide (clock e' 0 < clock e 0 + 86400) then web_json 200 (json_of_authResponse (lgr_Username req) role)
          else web_error 401 "authentication required")) ∧
    (∀ e1 e2 b1 b2, (serve_ui e2 (mkWebRequest UIMe (Some token) b2)
        (serve_ui e1 (mkWebRequest UILogout (Some token) b1) w1).2).1 =
      Ok (web_error 401 "authentication required")).
Proof.
  intros H Hroute Hst Hclock. unfold serve_ui, ui_handler in H. rewrite Hroute in H. unfold handleLogin in H.
  match type of H with run_handler (let* v := decodeJSON ?kind ?d r in @?k v) _ = _ =>
    pose proof (run_decode kind d r k w) as Hd end.
  destruct (body_of dec_loginRequest r) as [req|]; [rewrite Hd in H|destruct Hd as [msg Hd]; rewrite Hd in H; by injection H as <- _].
  clear Hd. apply run_bind_status with (status := 200) in H as (x & w2 & Hl & H); [|done|].
  2:{ intros rsp1 w2 (err & -> & _)%or_fail_Err. by destruct err. }
  apply or_fail_Ok, on_auth_eq in Hl as [Hl Hw2]. unfold run_handler in H. cbn in H. injection H as <- <-.
  apply Login_Ok in Hl as [Hc Ha]. rewrite Login_store_eq in Ha.
  destruct (Login_check_Ok _ _ _ _ _ _ Hc) as (_ & _ & _ & Ht & Hexp & u & _ & _ & _ & Huser & _).
  rewrite wrap64_id in Hexp by done. change sessionTTL with 86400 in Hexp.
  assert (s_Token x ≠ ""%string) as Hne by (eapply generateHex_nonempty; [|exact Ht]; lia).
  exists req, (s_Token x), (s_Role x). split; [done|]. split; [by rewrite Hexp|]. split; [by rewrite Huser|].
  assert (svc_sessions (w_auth w2) !! s_Token x = Some x) as Hx by (rewrite Ha; apply lookup_insert_eq).
  split.
  - intros e' body. rewrite serve_me, session_of_eq, Hx by done. cbn [mbind option_bind]. rewrite Hexp, <-Huser.
    do 2 case_decide; (done || lia).
  - intros e1 e2 b1 b2. rewrite serve_me, session_of_eq by done. cbn.
    by rewrite lookup_delete_eq.
Qed.

(** ** Secrets over the key-vault API *)

(** The answer to a get. *)
Lemma serve_api_get e r name record w :
  plain_name name → r_Path r = ("/secrets/" ++ name)%string → r_Method r = "GET"%string →
  st_GetSecret name "" (w_kv w) = (Ok record, w_kv w) →
  serve_api e r w = (Ok (secret_ok r (map_value (reveal (w_encKey w)) record)), w).
Proof.
  intros Hn Hp Hm Hg. unfold serve_api, on_kv. rewrite (api_get_secret (SA := kvStore w) e r name) by done.
  unfold serve. cbn [api_GetSecret kvStore encrypted_SecretsApi]. unfold es_GetSecret, m_bind.
  rewrite Hg. by destruct w.
Qed.

(** A put that is answered with 200, over an unlocked vault, over a store that
    takes no empty value and whose refusals have another status: the store
    keeps the ciphertext. *)
Lemma serve_api_put e r name req w rsp w' key :
  plain_name name → r_Path r = ("/secrets/" ++ name)%string → r_Method r = "PUT"%string →
  parseBody "SecretSetRequest" (dec_SecretSetRequest zero_SecretSetRequest) r = Ok req →
  w_encKey w = Some key → serve_api e r w = (Ok rsp, w') → rsp_Status rsp = 200 →
  (ssr_Value req = ""%string → ∃ err s', st_SetSecret e name req (w_kv w) = (Err err, s') ∧ rsp_Status (writeError err) ≠ 200) →
  (∀ c err s', EncryptString e 0 key (ssr_Value req) = Ok c →
    st_SetSecret (skip_rand 1 e) name (mkSecretSetRequest c (ssr_ContentType req) (ssr_Attributes req) (ssr_Tags req)) (w_kv w) = (Err err, s') →
    rsp_Status (writeError err) ≠ 200) →
  ∃ record c, ssr_Value req ≠ ""%string ∧ EncryptString e 0 key (ssr_Value req) = Ok c ∧
    st_SetSecret (skip_rand 1 e) name (mkSecretSetRequest c (ssr_ContentType req) (ssr_Attributes req) (ssr_Tags req)) (w_kv w) =
      (Ok record, w_kv w') ∧
    w_auth w' = w_auth w ∧ w_encKey w' = Some key.
Proof.
  intros Hn Hp Hm Hb Hk Hput Hst Hempty Hrefused. unfold serve_api, on_kv in Hput.
  rewrite (api_put_secret (SA := kvStore w) e r name req) in Hput by done. unfold serve in Hput.
  cbn [api_SetSecret kvStore encrypted_SecretsApi] in Hput. unfold es_SetSecret in Hput. cbn [getKey] in Hput. rewrite Hk in Hput.
  destruct (decide (ssr_Value req = ""%string)) as [He|Hne].
  { destruct (Hempty He) as (err & s1 & Hset & Hno). rewrite Hset in Hput. by injection Hput as <- _. }
  unfold m_bind, m_lift in Hput. destruct (EncryptString e 0 key (ssr_Value req)) as [c| |] eqn:Hc; cbn [o_maperr] in Hput;
    [|by injection Hput as <- _|done].
  destruct (st_SetSecret _ name _ (w_kv w)) as [[record|err|] s1] eqn:Hset; [| |done].
  - injection Hput as <- <-. exists record, c. done.
  - injection Hput as <- _. by apply Hrefused in Hset.
Qed.
End web.
