(* ===== verification/ToyAuth.v ===== *)
(** * A concrete database and password hash

    Instances of the classes of [Auth] that satisfy their laws, for the
    witnesses: a database that never fails, and a hash that is the password
    behind a letter. *)

From S2P Require Import Prelude GoStrings Toy GoSql Auth AuthProofs.

#[export] Instance user_le_dec : RelDecision user_le.
Proof. intros a b. unfold user_le. apply _. Defined.
#[export] Instance user_le_total : Total user_le.
Proof.
  intros a b. unfold user_le. destruct (Z.lt_total (u_CreatedAt a) (u_CreatedAt b)) as [?|[?|?]]; [tauto| |tauto].
  destruct (total String.le (u_Username a) (u_Username b)); [left|right]; right; split; done.
Qed.

Record toy_db : Type := mkToyDb { td_users : gmap string User; td_config : gmap string string; td_schema : gmap string schema_item }.
Definition toy_nothing : toy_db := mkToyDb ∅ ∅ ∅.

Definition toy_item (q : string) : option (nat * schema_item) := list_find (λ i, item_text i = q) statements.
Arguments toy_item : simpl never.

#[export] Instance toy_sql : Sql := {|
  adb := toy_db;
  schema_of := td_schema;
  users_of := td_users;
  config_of := td_config;
  sql_Open _ := Ok toy_nothing;
  sql_Create q d :=
    match toy_item q with
    | Some (_, i) => (Ok (), mkToyDb (td_users d) (td_config d) (create i (td_schema d)))
    | None => (Err (SqlError (Text "syntax error")), d)
    end;
  sql_Ping _ := Ok ();
  sql_AdminExists d := Ok (bool_decide (has_admin (td_users d)));
  sql_Begin d := Ok d;
  sql_Commit t _ := (Ok (), t);
  sql_InsertUser u d :=
    if decide (insertable (td_schema d) u (td_users d))
    then (Ok (), mkToyDb (<[u_ID u := u]> (td_users d)) (td_config d) (td_schema d))
    else (Err (SqlError (Text "UNIQUE constraint failed")), d);
  sql_UserByName n d :=
    match list_find (λ kv, u_Username kv.2 = n ∧ u_ID kv.2 = kv.1) (map_to_list (td_users d)) with
    | Some (_, (_, u)) => Ok u
    | None => if decide (map_Forall (λ _ v, u_Username v ≠ n) (td_users d)) then Err ErrNoRows
              else Err (SqlError (Text "corrupt row"))
    end;
  sql_AllUsers d := Ok (merge_sort user_le (map_to_list (td_users d)).*2);
  sql_DeleteUser id d := (Ok (Ok (if decide (is_Some (td_users d !! id)) then 1 else 0)),
    mkToyDb (delete id (td_users d)) (td_config d) (td_schema d));
  sql_ConfigGet k d := match td_config d !! k with Some v => Ok v | None => Err ErrNoRows end;
  sql_ConfigSet k v d := (Ok (), mkToyDb (td_users d) (<[k := v]> (td_config d)) (td_schema d));
|}.

(** The texts tell the statements apart. *)
Lemma statement_text i : i ∈ statements → ∃ n, toy_item (item_text i) = Some (n, i).
Proof.
  intros Hi. apply list_elem_of_lookup_1 in Hi as [n Hn]. exists n.
  do 3 (destruct n as [|n]; [injection Hn as <-; vm_compute; reflexivity|]). done.
Qed.

#[export] Instance toy_sql_laws : SqlLaws toy_sql.
Proof.
  split; cbn.
  - intros d [= <-]. done.
  - intros i d d' Hi. destruct (statement_text i Hi) as [n ->]. by intros [= <-].
  - intros q d o d'. destruct (toy_item q) as [[n i]|]; [by intros [= <- <-]|]. by intros [= _ <-].
  - by intros d b [= <-].
  - by intros d t [= <-].
  - by intros t d d' [= <-].
  - by intros t d o d' [= <- <-].
  - intros u d d'. case_decide; [|done]. by intros [= <-].
  - intros u d o d'. case_decide; intros [= <- <-]; done.
  - intros n d u. destruct (list_find _ _) as [[i [k v]]|] eqn:Hf; [|by case_decide]. intros [= <-].
    apply list_find_Some in Hf as (Hi & [Hn Hk] & _). cbn in *. subst k. split; [|done].
    by apply elem_of_map_to_list, list_elem_of_lookup_2 with i.
  - intros n d. destruct (list_find _ _) as [[i [k v]]|]; [done|]. by case_decide.
  - intros d l [= <-]. split; [apply merge_sort_Permutation|]. apply Sorted_merge_sort, _.
  - intros id d n d' [= <- <-]. split_and!; [done..|]. by intros z [= <-].
  - intros id d o d' [= <- _] Ho. by destruct Ho.
  - intros k d v. case_match; [|done]. by intros [= <-].
  - intros k d. by case_match.
  - by intros k v d d' [= <-].
  - by intros k v d o d' [= <- <-].
Qed.

#[export] Instance toy_bcrypt : Bcrypt := {|
  bcrypt_Generate _ pw _ := Ok ("h" ++ pw)%string;
  bcrypt_Compare h pw :=
    if decide (h = "h" ++ pw)%string then None
    else Some (Text "crypto/bcrypt: hashedPassword is not the hash of the given password");
|}.
#[export] Instance toy_bcrypt_laws : BcryptLaws toy_bcrypt.
Proof. split. cbn. intros e pw cost h [= <-]. by rewrite decide_True. Qed.

(** ** Witnesses of the theorems of [AuthProofs] *)

Definition demo_service : Service := match NewMemory with Ok s => s | _ => @mkService toy_sql toy_nothing ∅ end.
Lemma demo_service_ok : service_ok demo_service.
Proof.
  destruct (Open_empty ":memory:" (toy_nothing : @adb toy_sql) demo_service) as (Hu & _ & Hx & Hs); [done..|].
  unfold service_ok. rewrite Hu, Hx, Hs. split; [|split; [apply map_Forall_empty|done]].
  split; [|split]; intros k u; by rewrite lookup_empty.
Qed.
Definition demo_setup : Service := (Setup toy_env "root" "pw" demo_service).2.
Definition demo_login : Service := (Login toy_env "root" "pw" demo_setup).2.
Definition demo_session : Session :=
  match (Login toy_env "root" "pw" demo_setup).1 with Ok x => x | _ => mkSession "" "" "" "" 0 end.

Lemma auth_reachable_invariant_witness :
  service_ok demo_login ∧ svc_sessions demo_login !! s_Token demo_session = Some demo_session ∧
  bool_decide (has_admin (users_of (svc_db demo_login))) = true.
Proof.
  split; [|vm_compute; done]. apply auth_reachable_invariant.
  assert (auth_reachable demo_setup) as Hs.
  { unfold demo_setup. rewrite <-auth_void_state.
    apply (auth_reachable_call toy_env (ASetup "root" "pw") demo_service).
    by apply (auth_reachable_open ":memory:" (toy_nothing : @adb toy_sql)). }
  unfold demo_login. rewrite <-auth_void_state.
  exact (auth_reachable_call toy_env (ALogin "root" "pw") _ Hs).
Defined.

Lemma fst_pair {A B} (p : A * B) a : p.1 = a → p = (a, p.2).
Proof. by destruct p; intros [= ->]. Qed.

Lemma demo_login_Ok : Login toy_env "root" "pw" demo_setup = (Ok demo_session, demo_login).
Proof. apply fst_pair. vm_compute. reflexivity. Qed.

Lemma session_lifetime_witness :
  (ValidateSession toy_env (s_Token demo_session) demo_login).1 = Ok (Some demo_session) ∧
  (ValidateSession toy_env (s_Token demo_session) (Logout (s_Token demo_session) demo_login).2).1 = Ok None.
Proof.
  destruct (session_lifetime toy_env "root" "pw" demo_setup demo_session demo_login demo_login_Ok) as (_ & Hv & Ho & _).
  { vm_compute. split; discriminate. }
  split; [exact (Hv toy_env)|exact (Ho toy_env)].
Defined.

Lemma Login_authenticates_witness :
  Login toy_env "root" "wrong" demo_setup = (Err ErrInvalidCredentials, demo_setup) ∧
  Login toy_env "nobody" "pw" demo_setup = (Err ErrInvalidCredentials, demo_setup).
Proof.
  destruct (Login_authenticates toy_env "root" "wrong" demo_setup) as (_ & _ & Hw & _).
  destruct (Login_authenticates toy_env "nobody" "pw" demo_setup) as (_ & Hn & _).
  split; [|apply Hn; vm_compute; reflexivity]. eapply Hw; [vm_compute; reflexivity|vm_compute; reflexivity].
Defined.

Definition demo_contributor : AM User := CreateUser toy_env "ann" "pass" RoleContributor.
Definition demo_user : User :=
  match (demo_contributor demo_service).1 with Ok u => u | _ => mkUser "" "" "" "" 0 end.

Lemma CreateUser_Login_witness : ∃ x s'',
  Login toy_env "ann" "pass" (demo_contributor demo_service).2 = (Ok x, s'') ∧ s_Role x = RoleContributor.
Proof.
  destruct (CreateUser_Login toy_env "ann" "pass" RoleContributor demo_service demo_user (demo_contributor demo_service).2)
    as (_ & Hl & _).
  - exact demo_service_ok.
  - apply fst_pair. vm_compute. reflexivity.
  - destruct (Hl demo_user toy_env) as (x & s'' & Hx & _ & Hr); [vm_compute; reflexivity|discriminate|reflexivity|].
    exists x, s''. split; [exact Hx|exact Hr].
Defined.

Definition demo_root : User :=
  match (Setup toy_env "root" "pw" demo_service).1 with Ok u => u | _ => mkUser "" "" "" "" 0 end.

Lemma Setup_once_witness :
  Setup toy_env "eve" "pw2" demo_setup = (Err ErrAlreadyInitialized, demo_setup).
Proof.
  destruct (Setup_once toy_env "root" "pw" demo_service demo_root demo_setup) as (_ & _ & _ & _ & Hs).
  { apply migrated_keyed, demo_service_ok. }
  { apply fst_pair. vm_compute. reflexivity. }
  apply (Hs toy_env "eve"%string "pw2"%string (svc_db demo_setup)); [discriminate..|reflexivity|exact I].
Defined.

Lemma login_delete_race_witness :
  let s2 := (DeleteUser (s_UserID demo_session) demo_setup).2 in
  let s3 := (Login_store toy_env demo_session s2).2 in
  ¬ service_ok s3 ∧ (ValidateSession toy_env (s_Token demo_session) s3).1 = Ok (Some demo_session).
Proof.
  intros s2 s3.
  destruct (login_delete_race toy_env "root" "pw" demo_setup demo_session demo_setup s2) as (_ & Hno & Hv).
  - rewrite <-(Login_check_state toy_env "root" "pw" demo_setup) at 2. apply fst_pair. vm_compute. reflexivity.
  - apply fst_pair. vm_compute. reflexivity.
  - vm_compute. split; discriminate.
  - split; [exact Hno|]. apply (Hv toy_env). vm_compute. reflexivity.
Defined.

Lemma GetConfig_SetConfig_witness : ∃ s',
  SetConfig "enc_salt" "00ff" demo_service = (Ok (), s') ∧ (GetConfig "enc_salt" s').1 = Ok (Some "00ff"%string).
Proof.
  eexists. split; [reflexivity|].
  destruct (GetConfig "enc_salt" (SetConfig "enc_salt" "00ff" demo_service).2).1 as [v| |] eqn:Hg;
    [|vm_compute in Hg; discriminate..].
  pose proof (GetConfig_SetConfig "enc_salt" "00ff" demo_service (SetConfig "enc_salt" "00ff" demo_service).2
    "enc_salt" v eq_refl ltac:(discriminate) Hg) as Hv.
  rewrite decide_True in Hv by reflexivity. subst v. exact Hg.
Defined.
