(* ===== verification/ToyWeb.v ===== *)
(** * Witnesses of the theorems about the web interface

    A key derivation, the reading of certificates and a database whose disk is
    full, for concrete runs of the web interface. *)

From S2P Require Import Prelude GoStrings GoJson GoCrypto GoX509 Toy ToyX509 Encryption Model KeyCrypto CertCrypto StoreCore SecretStore EncryptedStore KeyStore CertStore HttpJson Http HttpSecrets HttpKeys HttpCerts ToyHttp HttpProofs GoSql Auth AuthProofs ToyAuth WebJson Web WebProofs.

#[export] Instance toy_pbkdf2 : Pbkdf2 := {| pbkdf2_Key pw salt _ n := take n (pw ++ salt ++ replicate n (bmk 0)) |}.
#[export] Instance toy_pbkdf2_laws : Pbkdf2Laws toy_pbkdf2.
Proof. split. intros pw salt iter n. cbn. rewrite length_take, !length_app, length_replicate. lia. Qed.

#[export] Instance toy_webx509 : WebX509 := {|
  cert_Subject _ := "CN=toy"%string; cert_Issuer _ := "CN=toy"%string; cert_SerialNumber _ := 1;
  cert_NotBefore _ := 0; cert_NotAfter _ := 1;
|}.

Lemma toy_config_readable (a : Service) : config_readable a.
Proof. intros k. cbn. by destruct (_ !! k). Qed.

(** ** Setting up *)

Definition demo_web : Web Store := web_New demo_service New.
Definition ui_request (route : ui_route) (cookie : option string) (ms : list (string * string)) : WebRequest :=
  mkWebRequest route cookie (Some (to_bytes (demo_object ms))).
Definition setup_request : WebRequest :=
  ui_request UISetup None [("username", "root"); ("password", "pw"); ("passphrase", "open sesame")]%string.
Definition unlock_request (passphrase : string) : WebRequest := ui_request UIUnlock None [("passphrase"%string, passphrase)].

Definition setup_web : Web Store := (run_handler (handleSetup toy_env setup_request) demo_web).2.
Lemma setup_web_ok : run_handler (handleSetup toy_env setup_request) demo_web = (Ok ok_response, setup_web).
Proof. apply fst_pair. vm_compute. reflexivity. Qed.

(** The process starts again, over a new in-memory store. *)
Definition again_service : Service := match Open_on (svc_db (w_auth setup_web)) with Ok a => a | _ => demo_service end.
Lemma again_service_ok : Open_on (svc_db (w_auth setup_web)) = Ok again_service.
Proof.
  assert (bool_decide (is_Ok (Open_on (svc_db (w_auth setup_web)))) = true) as H by (vm_compute; reflexivity).
  unfold again_service. by destruct (Open_on _).
Qed.
Definition again_web : Web Store := web_New again_service New.

Lemma setup_then_unlock_witness :
  isLocked again_web = true ∧
  w_encKey (run_handler (handleUnlock (unlock_request "open sesame")) again_web).2 = w_encKey setup_web ∧
  (run_handler (handleUnlock (unlock_request "guess")) again_web).1 = Ok (web_error 401 "incorrect passphrase").
Proof.
  destruct (setup_then_unlock toy_env setup_request demo_web ok_response setup_web setup_web_ok eq_refl)
    as (req & key & salt & token & Hreq & Hkey & _ & Henc & _ & Hagain).
  destruct (Hagain again_service New again_service_ok (toy_config_readable again_service)) as (_ & Hl & Hu & _).
  split; [exact Hl|]. split.
  - rewrite Henc. change again_web with (web_New again_service New). rewrite (Hu (unlock_request "open sesame")); [done|].
    vm_compute in Hreq. injection Hreq as <-. vm_compute. reflexivity.
  - vm_compute. reflexivity.
Defined.

(** ** A database whose disk is full when the token is stored *)

Definition full_sql : Sql := {|
  adb := toy_db; schema_of := td_schema; users_of := td_users; config_of := td_config;
  sql_Open := @sql_Open toy_sql; sql_Create := @sql_Create toy_sql; sql_Ping := @sql_Ping toy_sql;
  sql_AdminExists := @sql_AdminExists toy_sql; sql_Begin := @sql_Begin toy_sql; sql_Commit := @sql_Commit toy_sql;
  sql_InsertUser := @sql_InsertUser toy_sql; sql_UserByName := @sql_UserByName toy_sql;
  sql_AllUsers := @sql_AllUsers toy_sql; sql_DeleteUser := @sql_DeleteUser toy_sql; sql_ConfigGet := @sql_ConfigGet toy_sql;
  sql_ConfigSet k v d :=
    if decide (k = "enc_verify"%string) then (Err (SqlError (Text "database or disk is full")), d) else @sql_ConfigSet toy_sql k v d;
|}.
Lemma full_sql_laws : SqlLaws full_sql.
Proof.
  pose proof toy_sql_laws as [H1 H2 H3 H4 H5 H6 H7 H8 H9 H10 H11 H12 H13 H14 H15 H16 H17 H18].
  assert (∀ d d', @db_same toy_sql d d' → @db_same full_sql d d') as Hsame by (by intros d d' []).
  assert (∀ u d d', @inserted toy_sql u d d' → @inserted full_sql u d d') as Hins by (by intros u d d' []).
  split; try assumption.
  - intros q d o d' ? ?. by apply Hsame, (H3 q d o d').
  - intros d t ?. by apply Hsame, (H5 d t).
  - intros t d d' ?. by apply Hsame, (H6 t d d').
  - intros t d o d' ? ?. by apply Hsame, (H7 t d o d').
  - intros u d d' ?. by apply Hins, (H8 u d d').
  - intros u d o d' ? ?. by apply Hsame, (H9 u d o d').
  - intros id d o d' ? ?. by apply Hsame, (H14 id d o d').
  - intros k v d d'. cbn. case_decide; [done|]. apply (H17 k v d d').
  - intros k v d o d'. cbn. case_decide; [by intros [= <- <-]|]. intros. apply Hsame. by apply (H18 k v d o d').
Qed.

Definition full_service : Service (H:=full_sql) :=
  match NewMemory (D:=full_sql) with Ok s => s | _ => mkService (toy_nothing : @adb full_sql) ∅ end.

Lemma full_service_ok : service_ok (D:=full_sql) full_service.
Proof.
  destruct (Open_empty (D:=full_sql) (SqlLaws0:=full_sql_laws) ":memory:" (toy_nothing : @adb full_sql) full_service) as (Hu & _ & Hx & Hs); [done..|].
  unfold service_ok. rewrite Hu, Hx, Hs. split; [|split; [apply map_Forall_empty|done]].
  split; [|split]; intros k u; by rewrite lookup_empty.
Qed.

Definition full_web : Web (H:=full_sql) Store := web_New (D:=full_sql) full_service New.

(** The steps of the setup on it. *)
Definition full_key : bytes * bytes * string :=
  match new_vault_key toy_env "open sesame" with Ok x => x | _ => ([], [], ""%string) end.
Definition full_user : outcome auth_error User * Service (H:=full_sql) :=
  Setup (D:=full_sql) (skip_rand 2 toy_env) "root" "pw" full_service.
Definition full_admin : User := match full_user.1 with Ok u => u | _ => mkUser "" "" "" "" 0 end.
Definition full_a2 : Service (H:=full_sql) :=
  (SetConfig (D:=full_sql) "enc_salt" (hex_EncodeToString full_key.1.1) full_user.2).2.
Definition full_a4 : Service (H:=full_sql) := (DeleteUser (D:=full_sql) (u_ID full_admin) full_a2).2.

Lemma setup_rollback_leaves_locked_witness :
  let w' := mkWeb (H:=full_sql) full_a4 New None in
  (run_handler (handleSetup (D:=full_sql) toy_env setup_request) full_web).1 = Ok (web_error 500 "database or disk is full") ∧
  isLocked (D:=full_sql) w' = true ∧
  (run_handler (handleUnlock (D:=full_sql) (unlock_request "open sesame")) w').1 =
    Ok (web_error 500 "encryption verification token missing") ∧
  (@api_SetSecret Store (kvStore (D:=full_sql) w') toy_env "db" (mkSecretSetRequest "hunter2" "" None None) New).1 =
    Err (OtherError locked_message).
Proof.
  intros w'.
  destruct (setup_rollback_leaves_locked (D:=full_sql) (St:=Store) (SqlLaws0:=full_sql_laws) toy_env setup_request full_web
    (mkSetupRequest "root" "pw" "open sesame") full_key.1.1 full_key.1.2 full_key.2 full_admin full_user.2 full_a2
    (SqlFailure (SqlError (Text "database or disk is full"))) full_a2 full_a4) as (Hs & _ & Hl & Hu & Hset & _).
  - vm_compute. reflexivity.
  - discriminate.
  - vm_compute. reflexivity.
  - apply fst_pair. vm_compute. reflexivity.
  - reflexivity.
  - reflexivity.
  - apply fst_pair. vm_compute. reflexivity.
  - exact full_service_ok.
  - reflexivity.
  - vm_compute. reflexivity.
  - intros k. cbn. by destruct (_ !! k).
  - split; [by rewrite Hs|]. split; [exact Hl|].
    split; [|exact (f_equal fst (Hset toy_env "db"%string (mkSecretSetRequest "hunter2" "" None None) New))].
    exact (f_equal fst (Hu (unlock_request "open sesame") "open sesame"%string ltac:(vm_compute; reflexivity) ltac:(discriminate))).
Defined.

(** ** A locked vault *)

Lemma plain_db : plain_name "db".
Proof. split; [discriminate|]. vm_compute. set_solver. Qed.

Lemma locked_vault_refuses_witness :
  (serve_api toy_env (demo_request "PUT" "/secrets/db" "" (demo_object [("value"%string, "s3cret"%string)])) again_web).1 =
    Ok (mkResponse 500 (ErrorBody (NewKeyVaultError "InternalServerError" locked_message))) ∧
  (run_handler (handleCreateSecret toy_env
      (ui_request UICreateSecret None [("name", "db"); ("value", "s3cret")]%string)) again_web).1 =
    Ok (web_error 500 locked_message).
Proof.
  destruct (locked_vault_refuses again_web) as [Ha Hu]; [vm_compute; reflexivity|]. split.
  - rewrite (Ha toy_env _ "db"%string (mkSecretSetRequest "s3cret" "" None None)); [reflexivity| |reflexivity|reflexivity|].
    + exact plain_db.
    + vm_compute. reflexivity.
  - rewrite (Hu toy_env _ (mkUICreateSecret "db" "s3cret" "" None None)); [reflexivity|vm_compute; reflexivity|discriminate].
Defined.

(** ** Sessions *)

Definition login_request : WebRequest := ui_request UILogin None [("username", "root"); ("password", "pw")]%string.
Definition login_response : WebResponse :=
  match (serve_ui toy_env login_request setup_web).1 with Ok rsp => rsp | _ => no_content end.
Definition login_web : Web Store := (serve_ui toy_env login_request setup_web).2.
Definition login_token : string := match ws_Cookie login_response with Some c => ck_Value c | None => ""%string end.
Lemma login_web_ok : serve_ui toy_env login_request setup_web = (Ok login_response, login_web).
Proof. apply fst_pair. vm_compute. reflexivity. Qed.

Lemma login_cookie_session_witness :
  (serve_ui toy_env (mkWebRequest UIMe (Some login_token) None) login_web).1 =
    Ok (web_json 200 (json_of_authResponse "root" RoleAdmin)).
Proof.
  destruct (login_cookie_session toy_env login_request setup_web login_response login_web login_web_ok eq_refl)
    as (req & token & role & Hreq & Hc & Hb & Hme & _); [vm_compute; reflexivity|vm_compute; split; discriminate|].
  vm_compute in Hreq. injection Hreq as <-. vm_compute in Hc. injection Hc as <-. vm_compute in Hb. injection Hb as <-.
  exact (Hme toy_env None).
Defined.

Lemma ui_authorization_witness :
  (serve_ui toy_env (ui_request (UIDeleteUser "1") None []) setup_web).1 = Ok (web_error 401 "authentication required").
Proof.
  destruct (proj1 (ui_authorization toy_env (ui_request (UIDeleteUser "1") None []) setup_web) eq_refl eq_refl)
    as (w' & H & _). by rewrite H.
Defined.
