(* ===== verification/WebRestart.v ===== *)
(** * A secret across a restart

    The key-vault API over the SQL store, behind the wrapper that encrypts,
    when the process ends and starts again on the same two databases. *)

From S2P Require Import Prelude GoStrings GoUtf8 GoJson GoCrypto GoX509 GoSql Encryption Model KeyCrypto CertCrypto StoreCore SecretStore EncryptedStore SecretBackup KeyStore CertStore HttpJson Http HttpSecrets HttpKeys HttpCerts SqlSchema SqlCore SqlSecrets SqlKeys SqlCerts SqlApi SqlFacts SqlRows SqlMirror SqlTimeline SqlMemory SqlRefine HttpSame Lifecycle AtRest HttpProofs Toy ToyX509 ToySql ToyHttp Auth AuthProofs WebJson Web WebProofs ToyAuth ToyWeb.

Section restart.
Context `{D : Sql} `{B : Bcrypt} `{P : Pbkdf2} `{C : BlockCipher} `{L : PublicKeyLib} `{X : CertLib} `{WX : !WebX509} `{KD : KeyDer} `{JE : JsonErrors}.
Context {AL : Auth.SqlLaws D} {CL : BlockCipherLaws C} {PL : Pbkdf2Laws P}.
Context (f : DBFlavor) {E : SqlEngine} {T : SqlTables E} {HL : SqlSchema.SqlLaws f T} {HR : SqlReliable f T}.

#[local] Instance sql_secrets_api : SecretsApi sdb := SQLStore_SecretsApi f.
#[local] Instance sql_secret_storer : SecretStorer sdb := SQLStore_SecretStorer f.
#[local] Instance sql_keys_api : KeysApi sdb := SQLStore_KeysApi f.
#[local] Instance sql_certs_api : CertsApi sdb := SQLStore_CertsApi f.

Notation Web := (Web sdb).
Implicit Types w : Web.

(** The rows of a database hold secrets: those of some in-memory store. *)
Definition holds_secrets (d : sdb) : Prop := ∃ s, related s d.

(** The identifier that the environment draws for a secret, after the number
    that the wrapper draws, is new, and the clock is past the rows of the name. *)
Definition new_version_of (e : Env) (name : string) (d : sdb) : Prop :=
  ∀ v r, live Secrets d !! (name, v) = Some r → v ≠ version_id (skip_rand 1 e) ∧ r.2 < tsNano e 1.

(** Reading a secret runs queries only. *)
Lemma sql_get_state name version d : holds_secrets d →
  (run (SqlSecrets.GetSecret f name version) d).2 = d.
Proof.
  intros [s Hs]. destruct (mir_live _ _ _ d Hs name) as (l & Hl & Hst & _).
  unfold SqlSecrets.GetSecret. by rewrite (run_getSecretVersionRow f name version d l Hl Hst).
Qed.

(** What was set is what a get reads, in the state of the store and in that of
    the database opened again. *)
Lemma sql_set_get e name req d record d' :
  holds_secrets d → ready (SetSecret_ e name req) d →
  run (SqlSecrets.SetSecret f e name req) d = (Ok record, d') →
  sr_Name record = name ∧ sr_Value record = ssr_Value req ∧ holds_secrets d' ∧
  ∀ d'', same d' d'' → run (SqlSecrets.GetSecret f name "") d'' = (Ok record, d'').
Proof.
  intros [s Hs] Hr Hset. destruct (agrees_SetSecret f e name req s d Hs Hr) as [Ha Hs'].
  cbn [in_sql in_memory] in Ha, Hs'. rewrite Hset in Ha, Hs'. cbn [fst snd] in Ha, Hs'.
  destruct (SecretStore.SetSecret e name req s) as [o s'] eqn:Hm. cbn [fst snd] in Ha, Hs'. subst o.
  apply SetSecret_Ok in Hm as (_ & _ & _ & _ & Hrec & Hst).
  split; [by rewrite Hrec|]. split; [by rewrite Hrec|]. split; [by exists s'|].
  intros d'' Hd. assert (related s' d'') as Hs''.
  { destruct (Hd Secrets). by apply (mirrors_ext _ _ _ d'). }
  destruct (agrees_GetSecret f name "" s' d'' Hs'' I) as [Hg _]. cbn [in_sql in_memory] in Hg.
  rewrite Hst, (GetSecret_latest name _ (mkSecretVersion record)) in Hg.
  pose proof (sql_get_state name "" d'' (ex_intro _ s' Hs'')) as Hd''.
  destruct (run _ d''); cbn in *; congruence.
Qed.

Lemma sql_set_refused e name req d err d' :
  holds_secrets d → ready (SetSecret_ e name req) d →
  run (SqlSecrets.SetSecret f e name req) d = (Err err, d') → rsp_Status (writeError err) ≠ 200.
Proof.
  intros [s Hs] Hr Hset. destruct (agrees_SetSecret f e name req s d Hs Hr) as [Ha _].
  cbn [in_sql in_memory] in Ha. rewrite Hset in Ha. cbn [fst] in Ha.
  destruct (SecretStore.SetSecret e name req s) as [o s'] eqn:Hm. cbn [fst] in Ha. subst o. by apply SetSecret_refused in Hm.
Qed.

Lemma sql_set_empty e name req d : name ≠ ""%string → ssr_Value req = ""%string →
  ∃ err s', run (SqlSecrets.SetSecret f e name req) d = (Err err, s') ∧ rsp_Status (writeError err) ≠ 200.
Proof. intros Hn Hv. unfold SqlSecrets.SetSecret. rewrite decide_False, decide_True by done. by do 2 eexists. Qed.

(** The put: what a get reads from then on. *)
Lemma sql_put e r name req w rsp w' key :
  plain_name name → r_Path r = ("/secrets/" ++ name)%string → r_Method r = "PUT"%string →
  parseBody "SecretSetRequest" (dec_SecretSetRequest zero_SecretSetRequest) r = Ok req →
  holds_secrets (w_kv w) → new_version_of e name (w_kv w) →
  w_encKey w = Some key → serve_api e r w = (Ok rsp, w') → rsp_Status rsp = 200 →
  ∃ record c, ssr_Value req ≠ ""%string ∧ EncryptString e 0 key (ssr_Value req) = Ok c ∧
    sr_Name record = name ∧ sr_Value record = c ∧ w_auth w' = w_auth w ∧ w_encKey w' = Some key ∧
    ∀ d, same (w_kv w') d → run (SqlSecrets.GetSecret f name "") d = (Ok record, d).
Proof.
  intros Hn Hp Hm Hb Hd Hnew Hk Hput Hst.
  assert (text_set req) as (_ & Hct & Htags & Hattrs).
  { eapply parseBody_text; [|exact Hb]. apply SecretSetRequest_text. }
  assert (∀ c, EncryptString e 0 key (ssr_Value req) = Ok c →
    ready (SetSecret_ (skip_rand 1 e) name (mkSecretSetRequest c (ssr_ContentType req) (ssr_Attributes req) (ssr_Tags req))) (w_kv w)) as Hr.
  { intros c Hc. split_and!; [by eapply EncryptString_text|done..|exact Hnew]. }
  destruct (serve_api_put e r name req w rsp w' key Hn Hp Hm Hb Hk Hput Hst) as (record & c & Hne & Hc & Hset & Hauth & Hkey).
  - intros Hv. by apply sql_set_empty; [apply Hn|].
  - intros c err s' Hc Hset. by eapply sql_set_refused; [|by apply Hr|].
  - destruct (sql_set_get _ _ _ _ _ _ Hd (Hr c Hc) Hset) as (Hname & Hval & _ & Hget).
    exists record, c. done.
Qed.

(** C14: a secret survives a restart, and only the passphrase reads it.  Over
    the SQL store, after a successful setup, put a secret over the key-vault
    API.  A get answers the value that was put.  The process ends; it starts
    again, opens the database of users and configuration and the database of
    the vault, and migrates both: a get answers the ciphertext, which is not
    the value; and once the vault is unlocked with the passphrase of the
    setup, a get answers the value again.  Over the in-memory store, which a
    process starts empty, the same get is answered with 404.  Asked are a SQL
    engine that does what SQL documents and does not fail, rows that hold
    secrets, a new version identifier and a clock past the rows of the name. *)
Theorem secret_survives_restart e0 r0 w0 rsp0 w1 e r name req rsp w2 a d e' r' :
  run_handler (handleSetup e0 r0) w0 = (Ok rsp0, w1) → ws_Status rsp0 = 200 →
  plain_name name → r_Path r = ("/secrets/" ++ name)%string → r_Method r = "PUT"%string →
  parseBody "SecretSetRequest" (dec_SecretSetRequest zero_SecretSetRequest) r = Ok req →
  holds_secrets (w_kv w1) → new_version_of e name (w_kv w1) →
  serve_api e r w1 = (Ok rsp, w2) → rsp_Status rsp = 200 →
  Open_on (svc_db (w_auth w2)) = Ok a → config_readable a → run (NewSQLStore f) (w_kv w2) = (Ok (), d) →
  (∀ sreq, body_of dec_setupRequest r0 = Some sreq → body_of dec_unlockRequest r' = Some (mkUnlockRequest (str_Passphrase sreq))) →
  let get := with_method "GET" r in
  let w3 := web_New a d in
  let w4 := (run_handler (handleUnlock r') w3).2 in
  (∃ record c, sr_Name record = name ∧ sr_Value record = ssr_Value req ∧ c ≠ ssr_Value req ∧
    serve_api e' get w2 = (Ok (secret_ok get record), w2) ∧
    serve_api e' get w3 = (Ok (secret_ok get (map_value (λ _, c) record)), w3) ∧
    serve_api e' get w4 = (Ok (secret_ok get record), w4)) ∧
  ∃ rsp', serve_api (St:=Store) e' get (web_New a New) = (Ok rsp', web_New a New) ∧ rsp_Status rsp' = 404.
Proof.
  intros Hsetup Hst0 Hn Hp Hm Hb Hd Hnew Hput Hst Hagain Hread Hopen_kv Hunlock get w3 w4.
  destruct (handleSetup_config e0 r0 w0 rsp0 w1 Hsetup Hst0)
    as (sreq & salt & key & token & Hreq & Hpass & Hkey & Hlen & Hopen & Hsalt & Htoken & Henc & _).
  destruct (sql_put e r name req w1 rsp w2 key Hn Hp Hm Hb Hd Hnew Henc Hput Hst)
    as (record & c & Hne & Hc & Hname & Hval & Hauth & Henc2 & Hget).
  apply Open_on_Ok in Hagain as (_ & _ & Hcfg & _). rewrite Hauth in Hcfg. rewrite <-Hcfg in Hsalt, Htoken.
  assert (w4 = mkWeb a d (Some key)) as Hw4.
  { unfold w4. rewrite (handleUnlock_eq r' w3 (str_Passphrase sreq) salt token), <-Hkey, Hopen, bool_decide_true.
    - by rewrite decide_False by (rewrite Hlen; done).
    - done.
    - by apply Hunlock.
    - done.
    - by apply GetConfig_readable_Some.
    - by apply GetConfig_readable_Some. }
  assert (∀ w, same (w_kv w2) (w_kv w) →
    serve_api e' get w = (Ok (secret_ok get (map_value (reveal (w_encKey w)) record)), w)) as Hserve.
  { intros w Hw. by apply (serve_api_get e' get name record w); [..|apply Hget]. }
  assert (map_value (reveal (Some key)) record = map_value (λ _, ssr_Value req) record) as Hopened.
  { unfold map_value. by rewrite Hval, (reveal_encrypted _ _ _ _ _ Hc). }
  split.
  - exists (map_value (λ _, ssr_Value req) record), c. split; [done|]. split; [done|].
    split; [by eapply EncryptString_ne|]. split_and!.
    + by rewrite Hserve, Henc2, Hopened.
    + rewrite Hserve by (by eapply NewSQLStore_same). cbn [w3 web_New w_encKey reveal]. unfold map_value. cbn. by rewrite Hval.
    + rewrite Hw4. rewrite Hserve by (by eapply NewSQLStore_same). cbn [w_encKey]. by rewrite Hopened.
  - unfold serve_api, on_kv. rewrite (api_get_secret e' get name) by done. by eexists.
Qed.
End restart.

(** ** A run *)

#[local] Instance demo_engine : SqlEngine := toy_engine FlavorPostgres.
#[local] Instance demo_secrets_api : SecretsApi sdb := sql_secrets_api FlavorPostgres.
#[local] Instance demo_secret_storer : SecretStorer sdb := sql_secret_storer FlavorPostgres.
#[local] Instance demo_keys_api : KeysApi sdb := sql_keys_api FlavorPostgres.
#[local] Instance demo_certs_api : CertsApi sdb := sql_certs_api FlavorPostgres.

Definition put_request : Request := demo_request "PUT" "/secrets/db" "" (demo_object [("value"%string, "s3cret"%string)]).
Definition empty_vault : Web sdb := web_New demo_service (toy_empty : sdb).
Definition setup_vault : Web sdb := (run_handler (handleSetup toy_env setup_request) empty_vault).2.
Definition put_vault : Web sdb := (serve_api toy_env put_request setup_vault).2.
Definition put_response : Response :=
  match (serve_api toy_env put_request setup_vault).1 with Ok rsp => rsp | _ => handleNotFound end.
Definition next_service : Service := match Open_on (svc_db (w_auth put_vault)) with Ok a => a | _ => demo_service end.
Definition next_database : sdb := (run (NewSQLStore FlavorPostgres) (w_kv put_vault)).2.

Lemma next_service_ok : Open_on (svc_db (w_auth put_vault)) = Ok next_service.
Proof.
  assert (bool_decide (is_Ok (Open_on (svc_db (w_auth put_vault)))) = true) as H by (vm_compute; reflexivity).
  unfold next_service. by destruct (Open_on _).
Qed.

Lemma secret_survives_restart_witness :
  let w3 := web_New next_service next_database in
  let w4 := (run_handler (handleUnlock (unlock_request "open sesame")) w3).2 in
  ∃ record c, sr_Value record = "s3cret"%string ∧ c ≠ "s3cret"%string ∧
    (serve_api toy_env (with_method "GET" put_request) w3).1 =
      Ok (secret_ok (with_method "GET" put_request) (map_value (λ _, c) record)) ∧
    (serve_api toy_env (with_method "GET" put_request) w4).1 = Ok (secret_ok (with_method "GET" put_request) record).
Proof.
  intros w3 w4.
  destruct (secret_survives_restart (AL:=ToyAuth.toy_sql_laws) FlavorPostgres (HL:=ToySql.toy_sql_laws FlavorPostgres)
    (HR:=toy_sql_reliable FlavorPostgres) toy_env setup_request empty_vault ok_response setup_vault toy_env put_request "db"
    (mkSecretSetRequest "s3cret" "" None None) put_response put_vault next_service next_database toy_env (unlock_request "open sesame"))
    as ((record & c & _ & Hv & Hc & _ & H3 & H4) & _).
  - apply fst_pair. vm_compute. reflexivity.
  - reflexivity.
  - exact plain_db.
  - reflexivity.
  - reflexivity.
  - vm_compute. reflexivity.
  - exists New. apply mirrors_empty; reflexivity.
  - intros v r. change (live Secrets (w_kv setup_vault)) with (∅ : gmap (string * string) (list value * Z)). by rewrite lookup_empty.
  - apply fst_pair. vm_compute. reflexivity.
  - vm_compute. reflexivity.
  - exact next_service_ok.
  - apply toy_config_readable.
  - apply fst_pair. vm_compute. reflexivity.
  - intros sreq Hs. vm_compute in Hs. injection Hs as <-. vm_compute. reflexivity.
  - exists record, c. split; [exact Hv|]. split; [exact Hc|]. split; [exact (f_equal fst H3)|exact (f_equal fst H4)].
Defined.
