(* ===== verification/Main.v ===== *)
(** * Component: the command ([main.go])

    Which store the environment selects, how it is opened, and how the process
    ends.  Opening a database and pinging it are the driver's; the migration
    is the program of [SqlSchema].  [log.Fatal] ends the process without
    running the deferred calls, so it is the error of the monad, and what is
    deferred runs on a return and on a panic only. *)

From S2P Require Import Prelude GoStrings GoCrypto GoX509 CertCrypto StoreCore HttpKeys GoSql SqlSchema Auth Web Server ToySql ToyAuth.

(** ** The environment *)

Definition envOrDefault (getenv : string → string) (key fallback : string) : string :=
  let value := trim (getenv key) in if decide (value ≠ ""%string) then value else fallback.

Definition requiredEnv (getenv : string → string) (key : string) : outcome message string :=
  let value := trim (getenv key) in
  if decide (value = ""%string) then Err (Text (key ++ " is required")%string) else Ok value.

Definition enableUI (getenv : string → string) : bool :=
  bool_decide (ToLower (trim (getenv "ENABLE_UI")) ≠ "false"%string).

(** ** The databases of the process *)

(** [sql.Open] and [db.Ping] of the driver the store uses. *)
Class SqlDriver (D : SqlEngine) : Type := {
  driver_Open : string → string → outcome message unit;
  driver_Ping : sdb → outcome message unit;
}.

(** The store's database, and the handles that are open. *)
Record world {D : SqlEngine} : Type := mkWorld { w_sdb : sdb; store_handles : nat; auth_handles : nat }.
Arguments world D : clear implicits.
Arguments mkWorld {D} _ _ _.

(** [store.Storer]: which one it is. *)
Inductive storer : Type := MemoryStore | SQLStore (flavor : DBFlavor).

Section main.
Context {D : SqlEngine} {SD : SqlDriver D} {AD : Sql} (getenv : string → string).
Notation MM := (M (world D) message).

Definition open_handle : MM unit := m_modify (λ w, mkWorld (w_sdb w) (S (store_handles w)) (auth_handles w)).
Definition close_handle : MM unit := m_modify (λ w, mkWorld (w_sdb w) (pred (store_handles w)) (auth_handles w)).
(** [if err != nil { _ = db.Close(); return nil, err }]. *)
Definition or_close {A} (m : MM A) : MM A := λ w,
  match m w with (Err err, w') => (Err err, (close_handle w').2) | r => r end.

(** [sqlstore.NewSQLStore(db, flavor)] on the database. *)
Definition new_sql_store (flavor : DBFlavor) : MM unit := λ w,
  let '(o, d) := run (NewSQLStore flavor) (w_sdb w) in
  (o_maperr error_text o, mkWorld d (store_handles w) (auth_handles w)).

Definition openSQLStore (driverName dsn : string) (flavor : DBFlavor) : MM storer :=
  let* _ := m_lift (driver_Open driverName dsn) in
  let* _ := open_handle in
  let* _ := or_close (λ w, (driver_Ping (w_sdb w), w)) in
  let* _ := or_close (new_sql_store flavor) in
  m_ret (SQLStore flavor).

Definition openStore : MM storer :=
  let backend := ToLower (trim (getenv "STORE_BACKEND")) in
  if decide (backend ∈ [""; "memory"]%string) then m_ret MemoryStore else
  if decide (backend = "sqlite"%string) then openSQLStore "sqlite" (envOrDefault getenv "STORE_DSN" "keyvault.db") FlavorSQLite else
  if decide (backend ∈ ["postgres"; "postgresql"]%string) then
    let* dsn := m_lift (requiredEnv getenv "STORE_DSN") in openSQLStore "postgres" dsn FlavorPostgres else
  if decide (backend ∈ ["mssql"; "sqlserver"]%string) then
    let* dsn := m_lift (requiredEnv getenv "STORE_DSN") in openSQLStore "sqlserver" dsn FlavorMSSQL else
  m_fail (Format [Lit "unsupported STORE_BACKEND "; Quoted backend]).

(** [Storer.Close]: the in-memory store has nothing to close. *)
Definition close_store (s : storer) : MM unit :=
  match s with MemoryStore => m_ret () | SQLStore _ => close_handle end.

Definition openAuthService : MM Service := λ w,
  let path := envOrDefault getenv "AUTH_DB" "keyvault-auth.db" in
  match Open path with
  | Ok svc => (Ok svc, mkWorld (w_sdb w) (store_handles w) (S (auth_handles w)))
  | Err err => (Err (Format ([Lit "open auth db "; Quoted path; Lit ": "] ++ parts_of (auth_error_text err))), w)
  | Panic p => (Panic p, w)
  end.
Definition close_auth : MM unit := m_modify (λ w, mkWorld (w_sdb w) (store_handles w) (pred (auth_handles w))).

(** [defer cleanup()], then [body]: an error is [log.Fatal]. *)
Definition deferring {A} (cleanup : MM unit) (body : MM A) : MM A := λ w,
  match body w with
  | (Err m, w') => (Err m, w')
  | (o, w') => (o, (cleanup w').2)
  end.

(** [serve] stands for [server.RunWithAuth], whose error ends the process. *)
Definition main (serve : storer → option Service → MM unit) : MM unit :=
  let* s := openStore in
  deferring (close_store s)
    (if enableUI getenv then
       let* authSvc := openAuthService in
       deferring close_auth (serve s (Some authSvc))
     else serve s None).

(** ** What start-up does *)

(** The table of the backends: the store, its driver and the database's name. *)
Definition backend_of (backend : string) : option (option (string * DBFlavor)) :=
  if decide (backend ∈ [""; "memory"]%string) then Some None else
  if decide (backend = "sqlite"%string) then Some (Some ("sqlite"%string, FlavorSQLite)) else
  if decide (backend ∈ ["postgres"; "postgresql"]%string) then Some (Some ("postgres"%string, FlavorPostgres)) else
  if decide (backend ∈ ["mssql"; "sqlserver"]%string) then Some (Some ("sqlserver"%string, FlavorMSSQL)) else None.

Context {T : SqlTables D}.

#[local] Arguments NewSQLStore : simpl never.
Lemma openSQLStore_spec driverName dsn f {HL : SqlSchema.SqlLaws f T} w o w' :
  openSQLStore driverName dsn f w = (o, w') →
  same (w_sdb w) (w_sdb w') ∧ auth_handles w' = auth_handles w ∧
  match o with
  | Ok s => s = SQLStore f ∧ store_handles w' = S (store_handles w) ∧ driver_Open driverName dsn = Ok () ∧
      driver_Ping (w_sdb w) = Ok () ∧ run (NewSQLStore f) (w_sdb w) = (Ok (), w_sdb w')
  | Err m => store_handles w' = store_handles w ∧
      (driver_Open driverName dsn = Err m ∨
       driver_Open driverName dsn = Ok () ∧ driver_Ping (w_sdb w) = Err m ∨
       driver_Open driverName dsn = Ok () ∧ driver_Ping (w_sdb w) = Ok () ∧
         ∃ e, run (NewSQLStore f) (w_sdb w) = (Err e, w_sdb w') ∧ m = error_text e)
  | Panic _ => True
  end.
Proof.
  unfold openSQLStore, or_close, open_handle, close_handle, new_sql_store. monad_unfold. cbn.
  destruct (driver_Open driverName dsn) as [[]|m|p]; [|intros Hw; simplify_eq; by split_and!; auto..].
  destruct (driver_Ping (w_sdb w)) as [[]|m|p]; cbn; [|intros Hw; simplify_eq; cbn; by split_and!; auto 6..].
  destruct (run (NewSQLStore f) (w_sdb w)) as [o1 d1] eqn:Hrun. pose proof (NewSQLStore_same f _ _ _ Hrun) as Hs. cbn.
  destruct o1 as [[]|e|p]; cbn; intros Hw; simplify_eq; cbn; split_and!; try done. right; right. by eauto.
Qed.

Definition same_handles (w w' : world D) : Prop := store_handles w' = store_handles w ∧ auth_handles w' = auth_handles w.

Definition selected : option (option (string * DBFlavor)) := backend_of (ToLower (trim (getenv "STORE_BACKEND"))).

(** The name of the database: [STORE_DSN], which only SQLite does without. *)
Definition dsn_of (driver : string) : option string :=
  let dsn := trim (getenv "STORE_DSN") in
  if decide (dsn ≠ ""%string) then Some dsn else if decide (driver = "sqlite"%string) then Some "keyvault.db"%string else None.

Lemma openStore_cases w o w' :
  openStore w = (o, w') →
  (selected = Some None ∧ o = Ok MemoryStore ∧ w' = w) ∨
  (selected = None ∧ (∃ backend, o = Err (Format [Lit "unsupported STORE_BACKEND "; Quoted backend])) ∧ w' = w) ∨
  (∃ driver f, selected = Some (Some (driver, f)) ∧
    match dsn_of driver with
    | None => o = Err (Text "STORE_DSN is required") ∧ w' = w
    | Some dsn => openSQLStore driver dsn f w = (o, w')
    end).
Proof.
  assert (∀ driver f, driver ≠ "sqlite"%string →
    m_bind (m_lift (requiredEnv getenv "STORE_DSN")) (λ dsn, openSQLStore driver dsn f) w = (o, w') →
    match dsn_of driver with
    | None => o = Err (Text "STORE_DSN is required") ∧ w' = w
    | Some dsn => openSQLStore driver dsn f w = (o, w')
    end) as Hreq.
  { intros driver f Hne. unfold requiredEnv, dsn_of. cbv zeta. monad_unfold. rewrite (decide_False (P:=driver = _)) by done.
    destruct (decide (trim (getenv "STORE_DSN") = ""%string)) as [He|He].
    - rewrite decide_False by auto. by intros [= <- <-].
    - by rewrite decide_True. }
  unfold openStore, selected, backend_of. cbv zeta. set (backend := ToLower _).
  repeat case_decide; intros Ho; try (apply Hreq in Ho; [|done]).
  - injection Ho as <- <-. by left.
  - right; right. eexists _, _. split; [done|]. revert Ho. unfold dsn_of, envOrDefault. cbv zeta. by case_decide.
  - right; right. by eexists _, _.
  - right; right. by eexists _, _.
  - injection Ho as <- <-. right; left. split; [done|]. by eauto.
Qed.

(** The engine that is configured speaks the flavour of its backend. *)
Context (HL : ∀ driver f, selected = Some (Some (driver, f)) → SqlSchema.SqlLaws f T).

(** C21: Start-up selects the backend by its table and is all or nothing.  The
    in-memory store opens nothing.  A database store is there only when the
    database of STORE_DSN (trimmed; "keyvault.db" for SQLite when empty) was
    opened with the driver of its backend, answered the ping and was migrated
    in its flavour, and then exactly one more handle is open.  An error is one
    of: the backend is unknown, the DSN is missing, the opening, the ping or
    the migration failed with it; it leaves no handle open.  And whatever
    happens the rows of the database are the ones it had. *)
Theorem openStore_all_or_nothing w o w' :
  openStore w = (o, w') →
  same (w_sdb w) (w_sdb w') ∧
  match o with
  | Ok s =>
      match selected with
      | Some None => s = MemoryStore ∧ w' = w
      | Some (Some (driver, f)) =>
          s = SQLStore f ∧ store_handles w' = S (store_handles w) ∧ auth_handles w' = auth_handles w ∧
          ∃ dsn, dsn_of driver = Some dsn ∧ driver_Open driver dsn = Ok () ∧ driver_Ping (w_sdb w) = Ok () ∧
            run (NewSQLStore f) (w_sdb w) = (Ok (), w_sdb w')
      | None => False
      end
  | Err m =>
      same_handles w w' ∧
      match selected with
      | Some None => False
      | Some (Some (driver, f)) =>
          match dsn_of driver with
          | None => m = "STORE_DSN is required" ∧ w' = w
          | Some dsn =>
              driver_Open driver dsn = Err m ∨
              driver_Open driver dsn = Ok () ∧ driver_Ping (w_sdb w) = Err m ∨
              driver_Open driver dsn = Ok () ∧ driver_Ping (w_sdb w) = Ok () ∧
                ∃ e, run (NewSQLStore f) (w_sdb w) = (Err e, w_sdb w') ∧ m = error_text e
          end
      | None => ∃ backend, m = Format [Lit "unsupported STORE_BACKEND "; Quoted backend]
      end
  | Panic _ => True
  end.
Proof.
  intros [(-> & -> & ->)|[(Hb & [m ->] & ->)|(driver & f & Hsel & Ho)]]%openStore_cases; [by split; [intros k|]..| |].
  - rewrite Hb. split; [by intros k|]. split; [done|]. by exists m.
  - rewrite Hsel. destruct (dsn_of driver) as [dsn|] eqn:Hd; [|destruct Ho as [-> ->]; by split; [intros k|]].
    destruct (openSQLStore_spec _ _ _ (HL:=HL _ _ Hsel) _ _ _ Ho) as (Hs & Ha & H). split; [done|].
    destruct o; [|by destruct H as [? ?]|done]. destruct H as (? & ? & ? & ? & ?). split_and!; try done. by exists dsn.
Qed.

(** A server that leaves the handles alone. *)
Definition leaves_handles (serve : storer → option Service → MM unit) : Prop :=
  ∀ s a w o w', serve s a w = (o, w') → same_handles w w'.

Lemma openStore_handles w o w' :
  openStore w = (o, w') → auth_handles w' = auth_handles w ∧
  match o with
  | Ok s => store_handles ((close_store s w').2) = store_handles w ∧ auth_handles ((close_store s w').2) = auth_handles w
  | Err _ => store_handles w' = store_handles w
  | Panic _ => True
  end.
Proof.
  intros [(_ & -> & ->)|[(_ & [m ->] & ->)|(driver & f & Hsel & Ho)]]%openStore_cases; [done..|].
  destruct (dsn_of driver) as [dsn|]; [|by destruct Ho as [-> ->]].
  destruct (openSQLStore_spec _ _ _ (HL:=HL _ _ Hsel) _ _ _ Ho) as (_ & Ha & H). split; [done|].
  destruct o as [s| |]; [|by destruct H|done]. destruct H as (-> & Hh & _). cbn. by rewrite Hh.
Qed.

(** A process that returns has closed what it opened: when [main] returns,
    the store's handle and the authentication database's are closed, whatever
    the backend and with or without the UI. When the server ends with an error
    [log.Fatal] exits at once: the handles of the store and of the
    authentication database are still open. *)
Theorem main_closes_on_return serve w o w' :
  leaves_handles serve → main serve w = (o, w') →
  (o = Ok () → same_handles w w') ∧
  (∀ s w1 m, openStore w = (Ok s, w1) → enableUI getenv = false → (serve s None w1).1 = Err m →
     o = Err m ∧ store_handles w' = store_handles w1).
Proof.
  intros Hserve. unfold main. monad_unfold. destruct (openStore w) as [[s|m|p] w1] eqn:Hopen; [|by intros [= <- <-]..].
  destruct (openStore_handles _ _ _ Hopen) as (Ha & Hs1 & Hs2). unfold deferring. intros Hrun. split.
  - intros ->. destruct (enableUI getenv).
    + unfold openAuthService in Hrun. cbv zeta in Hrun. destruct (Open _) as [svc| |]; [|done..].
      destruct (serve _ _ _) as [[[]| |] w2] eqn:Hsv; [|done..]. apply Hserve in Hsv as [H1 H2]. injection Hrun as <-.
      cbn [store_handles auth_handles] in H1, H2. split; destruct s; cbn in *; lia.
    + destruct (serve s None w1) as [[[]| |] w2] eqn:Hsv; [|done..]. apply Hserve in Hsv as [H1 H2]. injection Hrun as <-.
      split; destruct s; cbn in *; lia.
  - intros s' w1' m [= <- <-] Hui Hm. rewrite Hui in Hrun. destruct (serve s None w1) as [o2 w2] eqn:Hsv. cbn in Hm. subst o2.
    apply Hserve in Hsv as [H1 H2]. by injection Hrun as <- <-.
Qed.
End main.

(** ** A concrete process *)

Definition demo_getenv (key : string) : string :=
  if decide (key = "STORE_BACKEND"%string) then " SQLite " else
  if decide (key = "ENABLE_UI"%string) then "FALSE" else ""%string.
Definition demo_driver : SqlDriver (toy_engine FlavorSQLite) := {|
  driver_Open name dsn :=
    if decide (name = "sqlite"%string) then Ok () else Err (Text ("sql: unknown driver " ++ name)%string);
  driver_Ping d := Ok ();
|}.
Definition demo_world : world (toy_engine FlavorSQLite) :=
  mkWorld (D:=toy_engine FlavorSQLite) toy_empty 0 0.
Definition failing_server (s : storer) (a : option Service) : M (world (toy_engine FlavorSQLite)) message unit :=
  m_fail (Text "listen tcp :8080: bind: address already in use").

Lemma demo_speaks driver f : selected demo_getenv = Some (Some (driver, f)) → SqlSchema.SqlLaws f (toy_views FlavorSQLite).
Proof. intros H. vm_compute in H. injection H as <- <-. apply ToySql.toy_sql_laws. Qed.

Definition demo_open := openStore (SD:=demo_driver) demo_getenv demo_world.
Lemma demo_opens : demo_open.1 = Ok (SQLStore FlavorSQLite).
Proof. vm_compute. reflexivity. Qed.

Lemma openStore_all_or_nothing_witness : store_handles demo_open.2 = 1%nat.
Proof.
  pose proof (openStore_all_or_nothing (SD:=demo_driver) demo_getenv demo_speaks demo_world demo_open.1 demo_open.2
    (surjective_pairing _)) as [_ H].
  rewrite demo_opens in H.
  assert (selected demo_getenv = Some (Some ("sqlite"%string, FlavorSQLite))) as Hsel by (vm_compute; reflexivity).
  rewrite Hsel in H. exact (proj1 (proj2 H)).
Defined.

Definition demo_end := main (SD:=demo_driver) (AD:=toy_sql) demo_getenv failing_server demo_world.
Lemma main_closes_on_return_witness : demo_end.1 = Err (Text "listen tcp :8080: bind: address already in use") ∧ store_handles demo_end.2 = 1%nat.
Proof.
  destruct (main_closes_on_return (SD:=demo_driver) (AD:=toy_sql) demo_getenv demo_speaks failing_server demo_world demo_end.1 demo_end.2)
    as [_ H]; [by intros s a w o w' [= _ <-]|apply surjective_pairing|].
  destruct (H (SQLStore FlavorSQLite) demo_open.2 (Text "listen tcp :8080: bind: address already in use")) as [H1 H2].
  - rewrite (surjective_pairing (openStore (SD:=demo_driver) demo_getenv demo_world)). by rewrite <-demo_opens.
  - vm_compute. reflexivity.
  - reflexivity.
  - split; [exact H1|]. rewrite H2. vm_compute. reflexivity.
Defined.
